(** * The SBEFIFO transfer engine (drivers/fsi/fsi-sbefifo.c)

    A shallow embedding of the driver's ring buffers, transfer queue, poll
    worker and client read/write paths, and the properties of the
    specification checked against it.  The second half of the definitions
    embeds the rest of that driver (readiness, the reset at probe time) and
    the bit-banged FSI master of drivers/fsi/fsi-master-gpio.c, with further
    properties of both at the end of the file.

    Conventions of the embedding.
    - C integers are [Z]; a [size_t] or [unsigned long] result is reduced
      modulo [2 ^ BITS_PER_LONG] where the C expression can wrap.
    - A pointer into [buf->buf] is the word offset from [buf->buf].
    - A 32-bit bus word is the number its four bytes spell in bus order, so
      [be32_to_cpu] of a raw word is the word itself and FIFO data, which the
      driver passes through untouched, is a list of such words.  A user
      buffer of [len] bytes ([len] a multiple of 4) is the list of its words.
    - Objects are never reused after [kfree]: a freed transfer keeps its last
      contents and is marked freed, so an access through a stale pointer
      reads what was last stored there. *)

From stdpp Require Import base numbers list relations.
From Stdlib Require Import ZArith Lia.

Open Scope Z_scope.

(** ** Kernel scaffolding *)

(** Width of [long], [size_t] and pointers on the 32-bit ARM service
    processors the driver is built for. *)
Definition BITS_PER_LONG : Z := 32.

Definition size_t (z : Z) : Z := z mod 2 ^ BITS_PER_LONG.

(** [(long) z]: the signed reading of an [unsigned long]. *)
Definition to_long (z : Z) : Z :=
  let u := z mod 2 ^ BITS_PER_LONG in
  if u <? 2 ^ (BITS_PER_LONG - 1) then u else u - 2 ^ BITS_PER_LONG.

Definition test_bit (nr : Z) (word : Z) : bool := Z.testbit word nr.
Definition set_bit (nr : Z) (word : Z) : Z := Z.setbit word nr.
Definition clear_bit (nr : Z) (word : Z) : Z := Z.clearbit word nr.

(** [min_t(size_t, a, b)] *)
Definition min_t (a b : Z) : Z := Z.min (size_t a) (size_t b).

(** [time_after(a, b)]: [(long)(b - a) < 0]. *)
Definition time_after (a b : Z) : bool := to_long (b - a) <? 0.

(** errno values of include/uapi/asm-generic/errno*.h *)
Definition ENOMEM : Z := 12.
Definition EAGAIN : Z := 11.
Definition EFAULT : Z := 14.
Definition ENODEV : Z := 19.
Definition EINVAL : Z := 22.
Definition ETIME : Z := 62.
Definition EPROTO : Z := 71.
Definition ERESTARTSYS : Z := 512.

(** [O_NONBLOCK] of include/uapi/asm-generic/fcntl.h (octal 04000). *)
Definition O_NONBLOCK : Z := 2048.

(** ** Ring buffer *)

Definition SBEFIFO_BUF_CNT : Z := 32.
Definition SBEFIFO_BUF_FULL : Z := 1.

Record sbefifo_buf := Buf {
  buf : list Z;      (* u32 buf[SBEFIFO_BUF_CNT] *)
  flags : Z;         (* unsigned long flags *)
  rpos : Z;          (* u32 *rpos, as an offset from buf *)
  wpos : Z           (* u32 *wpos, as an offset from buf *)
}.

Definition zeroed_buf : sbefifo_buf :=
  {| buf := replicate 32%nat 0; flags := 0; rpos := 0; wpos := 0 |}.

Definition sbefifo_buf_init (b : sbefifo_buf) : sbefifo_buf :=
  {| buf := buf b; flags := 0; rpos := 0; wpos := 0 |}.

Definition sbefifo_buf_nbreadable (b : sbefifo_buf) : Z :=
  let n :=
    if test_bit SBEFIFO_BUF_FULL (flags b) then SBEFIFO_BUF_CNT
    else if rpos b <=? wpos b then wpos b - rpos b
    else SBEFIFO_BUF_CNT - rpos b in
  size_t (Z.shiftl (size_t n) 2).

Definition sbefifo_buf_nbwriteable (b : sbefifo_buf) : Z :=
  let n :=
    if test_bit SBEFIFO_BUF_FULL (flags b) then 0
    else if wpos b <? rpos b then rpos b - wpos b
    else SBEFIFO_BUF_CNT - wpos b in
  size_t (Z.shiftl (size_t n) 2).

(** Update pointers and flags after doing a buffer read; the boolean is the
    function's return value. *)
Definition sbefifo_buf_readnb (b : sbefifo_buf) (n : Z) : bool * sbefifo_buf :=
  let fl := if n =? 0 then flags b else clear_bit SBEFIFO_BUF_FULL (flags b) in
  let rpos1 := rpos b + Z.shiftr n 2 in
  let rpos2 := if rpos1 =? SBEFIFO_BUF_CNT then 0 else rpos1 in
  (rpos2 =? wpos b,
   {| buf := buf b; flags := fl; rpos := rpos2; wpos := wpos b |}).

(** Update pointers and flags after doing a buffer write. *)
Definition sbefifo_buf_wrotenb (b : sbefifo_buf) (n : Z) : bool * sbefifo_buf :=
  let wpos1 := wpos b + Z.shiftr n 2 in
  let wpos2 := if wpos1 =? SBEFIFO_BUF_CNT then 0 else wpos1 in
  let fl := if wpos2 =? rpos b then set_bit SBEFIFO_BUF_FULL (flags b)
            else flags b in
  (rpos b =? wpos2,
   {| buf := buf b; flags := fl; rpos := rpos b; wpos := wpos2 |}).

(** [*p] for a word pointer [p] into the storage; a read outside the storage
    is read as 0. *)
Definition load_word (b : sbefifo_buf) (p : Z) : Z :=
  if p <? 0 then 0 else default 0 (buf b !! Z.to_nat p).

(** [*p = w]; a store outside the storage is dropped. *)
Definition store_word (b : sbefifo_buf) (p : Z) (w : Z) : sbefifo_buf :=
  {| buf := if p <? 0 then buf b else <[Z.to_nat p := w]> (buf b);
     flags := flags b; rpos := rpos b; wpos := wpos b |}.

(** [memcpy(dst, p, n)] out of the storage: the [n >> 2] words at [p]. *)
Definition load_words (b : sbefifo_buf) (p : Z) (n : Z) : list Z :=
  map (fun i => load_word b (p + Z.of_nat i)) (seq 0 (Z.to_nat (Z.shiftr n 2))).

(** [memcpy(p, src, n)] into the storage; a source shorter than [n] bytes is
    read as zero words beyond its end. *)
Fixpoint store_words (b : sbefifo_buf) (p : Z) (src : list Z) (k : nat)
  : sbefifo_buf :=
  match k with
  | O => b
  | S k' => store_words (store_word b p (default 0 (head src))) (p + 1)
              (tail src) k'
  end.

(** *** Interleavings of commits *)

Inductive buf_op :=
| commit_write (a : Z)
| commit_read (b : Z).

Definition buf_step (b : sbefifo_buf) (o : buf_op) : sbefifo_buf :=
  match o with
  | commit_write a => (sbefifo_buf_wrotenb b a).2
  | commit_read n => (sbefifo_buf_readnb b n).2
  end.

Definition word_aligned (n : Z) : Prop := Z.shiftl (Z.shiftr n 2) 2 = n.

(** A commit is admissible when it is a whole number of words and is bounded
    by what the buffer reports as writable, respectively readable. *)
Definition admissible (b : sbefifo_buf) (o : buf_op) : Prop :=
  match o with
  | commit_write a => word_aligned a /\ 0 <= a <= sbefifo_buf_nbwriteable b
  | commit_read n => word_aligned n /\ 0 <= n <= sbefifo_buf_nbreadable b
  end.

Inductive buf_reachable : sbefifo_buf -> Prop :=
| reach_init b : buf_reachable (sbefifo_buf_init b)
| reach_step b o :
    buf_reachable b -> admissible b o -> buf_reachable (buf_step b o).

(** A read that stays inside the storage: [memcpy] from [rpos] does not run
    past [buf + SBEFIFO_BUF_CNT]. *)
Definition contiguous (b : sbefifo_buf) (o : buf_op) : Prop :=
  match o with
  | commit_write _ => True
  | commit_read n => rpos b + Z.shiftr n 2 <= SBEFIFO_BUF_CNT
  end.

Inductive buf_reachable_in : sbefifo_buf -> Prop :=
| reach_in_init b : buf_reachable_in (sbefifo_buf_init b)
| reach_in_step b o :
    buf_reachable_in b -> admissible b o -> contiguous b o ->
    buf_reachable_in (buf_step b o).

Definition buf_full (b : sbefifo_buf) : bool := test_bit SBEFIFO_BUF_FULL (flags b).

(** Cursors inside the storage, and a set full flag only on equal cursors. *)
Definition buf_wf (b : sbefifo_buf) : Prop :=
  0 <= rpos b < SBEFIFO_BUF_CNT /\ 0 <= wpos b < SBEFIFO_BUF_CNT /\
  (buf_full b = true -> rpos b = wpos b).

(** ** Register backend

    The FSI bus is outside the driver: a device state [D] with a read and a
    write of one 32-bit word at a register offset, each returning the bus
    return code (0 on success). *)

Record fsi_device (D : Type) := FsiDevice {
  fsi_device_read : D -> Z -> (Z * Z) * D;    (* reg -> (rc, raw word) *)
  fsi_device_write : D -> Z -> Z -> Z * D     (* reg, raw word -> rc *)
}.
Arguments fsi_device_read {D} _ _ _.
Arguments fsi_device_write {D} _ _ _.

(** [msecs_to_jiffies] of the two delays depends on the kernel's HZ, which is
    configuration: the two jiffies counts are parameters. *)
Record timing := Timing {
  SBEFIFO_RESCHEDULE : Z;      (* msecs_to_jiffies(500) *)
  SBEFIFO_MAX_RESCHDULE : Z    (* msecs_to_jiffies(5000) *)
}.

Definition SBEFIFO_UP : Z := 0x00.
Definition SBEFIFO_DWN : Z := 0x40.
Definition SBEFIFO_STS : Z := 0x04.
Definition SBEFIFO_EOT_RAISE : Z := 0x08.
Definition SBEFIFO_EOT_MAGIC : Z := 0xffffffff.
Definition SBEFIFO_EOT_ACK : Z := 0x14.

Inductive bus_access :=
| BusRead (reg : Z) (rc : Z) (raw : Z)
| BusWrite (reg : Z) (raw : Z) (rc : Z).

Definition sbefifo_dev_nwreadable (sts : Z) : Z :=
  size_t (Z.shiftr (Z.land sts 0x000f0000) 16).

Definition sbefifo_dev_nwwriteable (sts : Z) : Z :=
  size_t (8 - sbefifo_dev_nwreadable sts).

(** ** Transfers, clients, device *)

Definition SBEFIFO_XFR_WRITE_DONE : Z := 1.
Definition SBEFIFO_XFR_RESP_PENDING : Z := 2.
Definition SBEFIFO_XFR_COMPLETE : Z := 3.
Definition SBEFIFO_XFR_CANCEL : Z := 4.

Record sbefifo_xfr := Xfr {
  wait_data_timeout : Z;
  xfr_client : nat;       (* rbuf, wbuf: the rings of this client *)
  xfr_flags : Z;
  xfr_freed : bool        (* kfree() was called on it *)
}.

Record sbefifo_client := Client {
  rbuf : sbefifo_buf;
  wbuf : sbefifo_buf;
  c_xfrs : list nat;      (* struct list_head xfrs, oldest first *)
  kref : Z;
  f_flags : Z;
  c_open : bool;          (* the opener has not released its handle yet *)
  c_freed : bool          (* kfree() was called on it *)
}.

(** A [sbefifo_write_common] call that has entered its copy loop. *)
Record writer := Writer {
  w_client : nat;
  w_xfr : nat;
  w_user : bool;          (* [ubuf] rather than [kbuf] *)
  w_src : list Z;         (* what is left of the caller's buffer *)
  w_len : Z;
  w_ret : Z
}.

Inductive event :=
| EvEnq (x : nat) (c : nat)          (* transfer [x] of client [c] queued *)
| EvBus (x : nat) (a : bus_access)   (* register access while [x] is serviced *)
| EvComplete (x : nat)               (* [x] marked complete and unqueued *)
| EvDiscard (x : nat)                (* cancelled [x] dropped by next_xfr *)
| EvFatal (ret : Z)                  (* fatal code latched, queue dropped *)
| EvRemove.                          (* device removed, queue dropped *)

Inductive call_result :=
| Returned (ret : Z) (data : list Z) (* return value, bytes handed back *)
| NewClient (c : option nat)         (* sbefifo_drv_open: a client or NULL *)
| Pending.                           (* the call has not returned *)

Inductive loop_exit :=
| LoopDone                 (* the while condition turned false *)
| LoopErr (ret : Z)        (* goto out with a bus error *)
| LoopResched              (* add_timer(); goto out_unlock *)
| LoopEot                  (* end of transfer acknowledged; break *)
| LoopFuel.                (* still looping *)

Definition zeroed_xfr : sbefifo_xfr :=
  {| wait_data_timeout := 0; xfr_client := 0%nat; xfr_flags := 0;
     xfr_freed := false |}.

Definition xfr_set_flags (f : Z -> Z) (x : sbefifo_xfr) : sbefifo_xfr :=
  {| wait_data_timeout := wait_data_timeout x; xfr_client := xfr_client x;
     xfr_flags := f (xfr_flags x); xfr_freed := xfr_freed x |}.

Definition xfr_set_timeout (t : Z) (x : sbefifo_xfr) : sbefifo_xfr :=
  {| wait_data_timeout := t; xfr_client := xfr_client x;
     xfr_flags := xfr_flags x; xfr_freed := xfr_freed x |}.

Definition xfr_kfree (x : sbefifo_xfr) : sbefifo_xfr :=
  {| wait_data_timeout := wait_data_timeout x; xfr_client := xfr_client x;
     xfr_flags := xfr_flags x; xfr_freed := true |}.

Definition zeroed_client : sbefifo_client :=
  {| rbuf := zeroed_buf; wbuf := zeroed_buf; c_xfrs := []; kref := 0;
     f_flags := 0; c_open := false; c_freed := false |}.

Definition client_set_rbuf (b : sbefifo_buf) (c : sbefifo_client) :=
  {| rbuf := b; wbuf := wbuf c; c_xfrs := c_xfrs c; kref := kref c;
     f_flags := f_flags c; c_open := c_open c; c_freed := c_freed c |}.

Definition client_set_wbuf (b : sbefifo_buf) (c : sbefifo_client) :=
  {| rbuf := rbuf c; wbuf := b; c_xfrs := c_xfrs c; kref := kref c;
     f_flags := f_flags c; c_open := c_open c; c_freed := c_freed c |}.

Definition client_set_xfrs (l : list nat) (c : sbefifo_client) :=
  {| rbuf := rbuf c; wbuf := wbuf c; c_xfrs := l; kref := kref c;
     f_flags := f_flags c; c_open := c_open c; c_freed := c_freed c |}.

Definition client_set_kref (k : Z) (c : sbefifo_client) :=
  {| rbuf := rbuf c; wbuf := wbuf c; c_xfrs := c_xfrs c; kref := k;
     f_flags := f_flags c; c_open := c_open c; c_freed := c_freed c |}.

Definition client_close (c : sbefifo_client) :=
  {| rbuf := rbuf c; wbuf := wbuf c; c_xfrs := c_xfrs c; kref := kref c;
     f_flags := f_flags c; c_open := false; c_freed := c_freed c |}.

Definition client_kfree (c : sbefifo_client) :=
  {| rbuf := rbuf c; wbuf := wbuf c; c_xfrs := c_xfrs c; kref := kref c;
     f_flags := f_flags c; c_open := c_open c; c_freed := true |}.

Definition nonblocking (c : sbefifo_client) : bool :=
  negb (Z.land (f_flags c) O_NONBLOCK =? 0).

(** The device object, together with the memory it points into: every
    transfer ever allocated (a transfer is named by its index), every client,
    and the [sbefifo_write_common] calls that are inside their copy loop.
    [trace] is the history of the engine, oldest event first.  Reference
    counting of the device object itself ([sbefifo_get]/[sbefifo_put]) only
    decides when it is deallocated and is left out. *)
Record sbefifo (D : Type) := Sbefifo {
  fsi_dev : D;
  poll_timer : option Z;        (* pending timer: its expiry *)
  xfrs : list nat;              (* struct list_head xfrs, head first *)
  rc : Z;
  jiffies : Z;
  xfr_mem : list sbefifo_xfr;
  clients : list sbefifo_client;
  writers : list writer;
  trace : list event;
  hung : bool                   (* the poll timer never returned *)
}.
Arguments Sbefifo {D}.
Arguments fsi_dev {D} _.
Arguments poll_timer {D} _.
Arguments xfrs {D} _.
Arguments rc {D} _.
Arguments jiffies {D} _.
Arguments xfr_mem {D} _.
Arguments clients {D} _.
Arguments writers {D} _.
Arguments trace {D} _.
Arguments hung {D} _.

Section State.
Context {D : Type}.
Implicit Types s : sbefifo D.

Definition set_fsi_dev (d : D) s : sbefifo D :=
  Sbefifo d (poll_timer s) (xfrs s) (rc s) (jiffies s) (xfr_mem s)
    (clients s) (writers s) (trace s) (hung s).
Definition set_poll_timer (t : option Z) s : sbefifo D :=
  Sbefifo (fsi_dev s) t (xfrs s) (rc s) (jiffies s) (xfr_mem s)
    (clients s) (writers s) (trace s) (hung s).
Definition set_xfrs (q : list nat) s : sbefifo D :=
  Sbefifo (fsi_dev s) (poll_timer s) q (rc s) (jiffies s) (xfr_mem s)
    (clients s) (writers s) (trace s) (hung s).
Definition set_rc (r : Z) s : sbefifo D :=
  Sbefifo (fsi_dev s) (poll_timer s) (xfrs s) r (jiffies s) (xfr_mem s)
    (clients s) (writers s) (trace s) (hung s).
Definition set_jiffies (j : Z) s : sbefifo D :=
  Sbefifo (fsi_dev s) (poll_timer s) (xfrs s) (rc s) j (xfr_mem s)
    (clients s) (writers s) (trace s) (hung s).
Definition set_xfr_mem (m : list sbefifo_xfr) s : sbefifo D :=
  Sbefifo (fsi_dev s) (poll_timer s) (xfrs s) (rc s) (jiffies s) m
    (clients s) (writers s) (trace s) (hung s).
Definition set_clients (l : list sbefifo_client) s : sbefifo D :=
  Sbefifo (fsi_dev s) (poll_timer s) (xfrs s) (rc s) (jiffies s) (xfr_mem s)
    l (writers s) (trace s) (hung s).
Definition set_writers (l : list writer) s : sbefifo D :=
  Sbefifo (fsi_dev s) (poll_timer s) (xfrs s) (rc s) (jiffies s) (xfr_mem s)
    (clients s) l (trace s) (hung s).
Definition set_trace (t : list event) s : sbefifo D :=
  Sbefifo (fsi_dev s) (poll_timer s) (xfrs s) (rc s) (jiffies s) (xfr_mem s)
    (clients s) (writers s) t (hung s).
Definition set_hung (h : bool) s : sbefifo D :=
  Sbefifo (fsi_dev s) (poll_timer s) (xfrs s) (rc s) (jiffies s) (xfr_mem s)
    (clients s) (writers s) (trace s) h.

Definition log (evs : list event) s : sbefifo D := set_trace (trace s ++ evs) s.

Definition get_xfr s (x : nat) : sbefifo_xfr :=
  default zeroed_xfr (xfr_mem s !! x).
Definition upd_xfr (x : nat) (f : sbefifo_xfr -> sbefifo_xfr) s : sbefifo D :=
  set_xfr_mem (alter f x (xfr_mem s)) s.
Definition xfr_test (nr : Z) s (x : nat) : bool :=
  test_bit nr (xfr_flags (get_xfr s x)).

Definition get_client s (c : nat) : sbefifo_client :=
  default zeroed_client (clients s !! c).
Definition upd_client (c : nat) (f : sbefifo_client -> sbefifo_client) s
  : sbefifo D :=
  set_clients (alter f c (clients s)) s.

(** [mod_timer(&sbefifo->poll_timer, jiffies)] *)
Definition mod_timer_now s : sbefifo D := set_poll_timer (Some (jiffies s)) s.

(** The device after [sbefifo_probe]: nothing queued, no client, no error. *)
Definition sbefifo_probe (d : D) (now : Z) : sbefifo D :=
  Sbefifo d None [] 0 (size_t now) [] [] [] [] false.

(** [kfree()] of every transfer on the queue, then [INIT_LIST_HEAD]. *)
Definition drop_queue s : sbefifo D :=
  set_xfrs [] (set_xfr_mem
    (foldr (fun x m => alter xfr_kfree x m) (xfr_mem s) (xfrs s)) s).

(** The leading cancelled transfers of a queue, and what follows them. *)
Fixpoint next_xfr_scan (m : list sbefifo_xfr) (q : list nat)
  : list nat * list nat :=
  match q with
  | [] => ([], [])
  | x :: q' =>
      if test_bit SBEFIFO_XFR_CANCEL (xfr_flags (default zeroed_xfr (m !! x)))
      then let '(dropped, rest) := next_xfr_scan m q' in (x :: dropped, rest)
      else ([], q)
  end.

Definition sbefifo_next_xfr s : sbefifo D * option nat :=
  let '(dropped, rest) := next_xfr_scan (xfr_mem s) (xfrs s) in
  let m := foldr (fun x m => alter xfr_kfree x m) (xfr_mem s) dropped in
  (log (map EvDiscard dropped) (set_xfrs rest (set_xfr_mem m s)), head rest).

(** [alloc_ok] is whether [kzalloc] succeeds. *)
Definition sbefifo_enq_xfr (c : nat) (alloc_ok : bool) s
  : sbefifo D * (Z + nat) :=
  if negb (rc s =? 0) then (s, inl (rc s))
  else if negb alloc_ok then (s, inl (- ENOMEM))
  else
    let x := length (xfr_mem s) in
    let xf := {| wait_data_timeout := 0; xfr_client := c; xfr_flags := 0;
                 xfr_freed := false |} in
    let s1 := set_xfr_mem (xfr_mem s ++ [xf]) s in
    let s2 := set_xfrs (xfrs s1 ++ [x]) s1 in
    let s3 := upd_client c (fun cl => client_set_xfrs (c_xfrs cl ++ [x]) cl) s2 in
    (log [EvEnq x c] s3, inr x).

Definition sbefifo_xfr_rsp_pending s (c : nat) : bool :=
  match head (c_xfrs (get_client s c)) with
  | Some x => xfr_test SBEFIFO_XFR_RESP_PENDING s x
  | None => false
  end.

(** The walk of [sbefifo_client_release] over the client's transfers: the
    transfers left on the client's list, and the device afterwards. *)
Fixpoint client_release_xfrs (l : list nat) s : list nat * sbefifo D :=
  match l with
  | [] => ([], s)
  | x :: l' =>
      if xfr_test SBEFIFO_XFR_COMPLETE s x
      then client_release_xfrs l' (upd_xfr x xfr_kfree s)
      else
        let s1 := mod_timer_now
                    (upd_xfr x (xfr_set_flags (set_bit SBEFIFO_XFR_CANCEL)) s) in
        let '(kept, s2) := client_release_xfrs l' s1 in
        (x :: kept, s2)
  end.

Definition sbefifo_client_release (c : nat) s : sbefifo D :=
  let s1 :=
    if rc s =? 0 then
      let '(kept, s') := client_release_xfrs (c_xfrs (get_client s c)) s in
      upd_client c (client_set_xfrs kept) s'
    else s in
  upd_client c client_kfree s1.

Definition sbefifo_get_client (c : nat) s : sbefifo D :=
  upd_client c (fun cl => client_set_kref (kref cl + 1) cl) s.

Definition sbefifo_put_client (c : nat) s : sbefifo D :=
  let s1 := upd_client c (fun cl => client_set_kref (kref cl - 1) cl) s in
  if kref (get_client s1 c) =? 0 then sbefifo_client_release c s1 else s1.

Definition sbefifo_new_client (flags : Z) s : sbefifo D :=
  set_clients (clients s ++
    [{| rbuf := sbefifo_buf_init zeroed_buf; wbuf := sbefifo_buf_init zeroed_buf;
        c_xfrs := []; kref := 1; f_flags := flags; c_open := true;
        c_freed := false |}]) s.

End State.

(** ** The poll worker *)

Section Worker.
Context {D : Type} (bus : fsi_device D) (tm : timing).
Implicit Types s : sbefifo D.

(** The bus as the worker sees it: the device, and the accesses made so far
    in this run of the timer function. *)
Definition bus_io : Type := D * list bus_access.

Definition sbefifo_inw (io : bus_io) (reg : Z) : bus_io * Z * Z :=
  let '((ret, raw), d) := fsi_device_read bus io.1 reg in
  ((d, io.2 ++ [BusRead reg ret raw]), ret, raw).

Definition sbefifo_outw (io : bus_io) (reg : Z) (word : Z) : bus_io * Z :=
  let '(ret, d) := fsi_device_write bus io.1 reg word in
  ((d, io.2 ++ [BusWrite reg word ret]), ret).

Definition sbefifo_readw (io : bus_io) : bus_io * Z * Z :=
  let '((ret, raw), d) := fsi_device_read bus io.1 SBEFIFO_DWN in
  ((d, io.2 ++ [BusRead SBEFIFO_DWN ret raw]), ret, raw).

Definition sbefifo_writew (io : bus_io) (word : Z) : bus_io * Z :=
  let '(ret, d) := fsi_device_write bus io.1 SBEFIFO_UP word in
  ((d, io.2 ++ [BusWrite SBEFIFO_UP word ret]), ret).

Definition sbefifo_ack_eot (io : bus_io) : bus_io * Z :=
  let '(io1, ret, _) := sbefifo_readw io in
  if negb (ret =? 0) then (io1, ret)
  else sbefifo_outw io1 (Z.lor SBEFIFO_DWN SBEFIFO_EOT_ACK) SBEFIFO_EOT_MAGIC.

(** [for (i = 0; i < devn; i++)] of the drain loop: the return code is that
    of the failing [sbefifo_writew], or 0. *)
Fixpoint write_words (k : nat) (io : bus_io) (wb : sbefifo_buf)
  : bus_io * sbefifo_buf * Z :=
  match k with
  | O => (io, wb, 0)
  | S k' =>
      let '(io1, ret) := sbefifo_writew io (load_word wb (rpos wb)) in
      if negb (ret =? 0) then (io1, wb, ret)
      else write_words k' io1 (sbefifo_buf_readnb wb 4).2
  end.

(** [while ((bufn = sbefifo_buf_nbreadable(wbuf)))] *)
Fixpoint drain_write_buffer (fuel : nat) (io : bus_io) (wb : sbefifo_buf)
  : bus_io * sbefifo_buf * loop_exit :=
  match fuel with
  | O => (io, wb, LoopFuel)
  | S fuel' =>
      let bufn := sbefifo_buf_nbreadable wb in
      if bufn =? 0 then (io, wb, LoopDone)
      else
        let '(io1, ret, sts) :=
          sbefifo_inw io (Z.lor SBEFIFO_UP SBEFIFO_STS) in
        if negb (ret =? 0) then (io1, wb, LoopErr ret)
        else
          let devn := sbefifo_dev_nwwriteable sts in
          if devn =? 0 then (io1, wb, LoopResched)
          else
            let devn := min_t devn (Z.shiftr bufn 2) in
            let '(io2, wb2, ret) := write_words (Z.to_nat devn) io1 wb in
            if negb (ret =? 0) then (io2, wb2, LoopErr ret)
            else drain_write_buffer fuel' io2 wb2
  end.

(** [for (i = 0; i < devn; i++)] of the fill loop.  A word is stored at
    [rbuf->wpos] when the bus read succeeds. *)
Fixpoint read_words (k : nat) (cancel : bool) (io : bus_io) (rb : sbefifo_buf)
  : bus_io * sbefifo_buf * Z :=
  match k with
  | O => (io, rb, 0)
  | S k' =>
      let '(io1, ret, w) := sbefifo_readw io in
      if negb (ret =? 0) then (io1, rb, ret)
      else
        let rb1 := store_word rb (wpos rb) w in
        read_words k' cancel io1
          (if cancel then rb1 else (sbefifo_buf_wrotenb rb1 4).2)
  end.

(** [while ((bufn = sbefifo_buf_nbwriteable(rbuf)))]; the third component
    is [xfr->wait_data_timeout]. *)
Fixpoint fill_read_buffer (fuel : nat) (cancel : bool) (now : Z)
    (io : bus_io) (rb : sbefifo_buf) (timeout : Z)
  : bus_io * sbefifo_buf * Z * loop_exit :=
  match fuel with
  | O => (io, rb, timeout, LoopFuel)
  | S fuel' =>
      let bufn := sbefifo_buf_nbwriteable rb in
      if bufn =? 0 then (io, rb, timeout, LoopDone)
      else
        let '(io1, ret, sts) :=
          sbefifo_inw io (Z.lor SBEFIFO_DWN SBEFIFO_STS) in
        if negb (ret =? 0) then (io1, rb, timeout, LoopErr ret)
        else
          let devn := sbefifo_dev_nwreadable sts in
          if devn =? 0 then
            if timeout =? 0 then
              (io1, rb, size_t (now + SBEFIFO_MAX_RESCHDULE tm), LoopResched)
            else if time_after now timeout then
              (io1, rb, timeout, LoopErr (- ETIME))
            else (io1, rb, timeout, LoopResched)
          else
            let devn := min_t devn (Z.shiftr bufn 2) in
            let eot := negb (Z.land sts 0x000000ff =? 0) in
            let devn := if eot then size_t (devn - 1) else devn in
            let '(io2, rb2, ret) := read_words (Z.to_nat devn) cancel io1 rb in
            if negb (ret =? 0) then (io2, rb2, 0, LoopErr ret)
            else if eot then
              let '(io3, ret) := sbefifo_ack_eot io2 in
              if negb (ret =? 0) then (io3, rb2, 0, LoopErr ret)
              else (io3, rb2, 0, LoopEot)
            else fill_read_buffer fuel' cancel now io2 rb2 0
  end.

(** What one run of the timer function holds in hand: the bus, the local
    [drain] buffer, the rings of the transfer's client, and the flags and
    deadline of the transfer. *)
Record tick_ctx := TickCtx {
  t_io : bus_io;
  t_drain : sbefifo_buf;
  t_wbuf : sbefifo_buf;
  t_rbuf : sbefifo_buf;
  t_flags : Z;
  t_timeout : Z
}.

Inductive tick_exit :=
| TickOut (ret : Z)      (* label out, eot = 0 *)
| TickEot                (* label out, ret = 0 and eot = 1 *)
| TickResched            (* timer re-armed, label out_unlock *)
| TickFuel.

(** From the start of the drain loop to the test of RESP_PENDING.  [None]
    means that the function goes on to fill the read buffer. *)
Definition poll_write (fuel : nat) (cancel : bool) (c : tick_ctx)
  : tick_ctx * option tick_exit :=
  let '(io1, wb1, ex) :=
    drain_write_buffer fuel (t_io c) (if cancel then t_drain c else t_wbuf c) in
  let dr1 := if cancel then wb1 else t_drain c in
  let wbuf1 := if cancel then t_wbuf c else wb1 in
  let c1 := TickCtx io1 dr1 wbuf1 (t_rbuf c) (t_flags c) (t_timeout c) in
  match ex with
  | LoopErr ret => (c1, Some (TickOut ret))
  | LoopResched => (c1, Some TickResched)
  | LoopFuel => (c1, Some TickFuel)
  | LoopDone | LoopEot =>
      (* Send EOT if the writer is finished. *)
      if test_bit SBEFIFO_XFR_WRITE_DONE (t_flags c) then
        let fl := clear_bit SBEFIFO_XFR_WRITE_DONE (t_flags c) in
        let '(io2, ret) :=
          sbefifo_outw io1 (Z.lor SBEFIFO_UP SBEFIFO_EOT_RAISE)
            SBEFIFO_EOT_MAGIC in
        if negb (ret =? 0)
        then (TickCtx io2 dr1 wbuf1 (t_rbuf c) fl (t_timeout c),
              Some (TickOut ret))
        else (TickCtx io2 dr1 wbuf1 (t_rbuf c)
                (set_bit SBEFIFO_XFR_RESP_PENDING fl) (t_timeout c), None)
      else if negb (test_bit SBEFIFO_XFR_RESP_PENDING (t_flags c))
      then (c1, Some (TickOut 0))
      else (c1, None)
  end.

(** The fill loop, up to label out. *)
Definition poll_read (fuel : nat) (cancel : bool) (now : Z) (c : tick_ctx)
  : tick_ctx * tick_exit :=
  let '(io1, rb1, tmo, ex) :=
    fill_read_buffer fuel cancel now (t_io c)
      (if cancel then t_drain c else t_rbuf c) (t_timeout c) in
  let c1 := TickCtx io1 (if cancel then rb1 else t_drain c) (t_wbuf c)
              (if cancel then t_rbuf c else rb1) (t_flags c) tmo in
  match ex with
  | LoopErr ret => (c1, TickOut ret)
  | LoopResched => (c1, TickResched)
  | LoopFuel => (c1, TickFuel)
  | LoopEot => (c1, TickEot)
  | LoopDone => (c1, TickOut 0)
  end.

(** Store what the run holds in hand back into the device: the accesses it
    made go to the history under the transfer's name. *)
Definition tick_commit (x : nat) (cancel : bool) (c : tick_ctx) s : sbefifo D :=
  let cid := xfr_client (get_xfr s x) in
  let s1 := set_fsi_dev (t_io c).1 s in
  let s2 :=
    if cancel then s1
    else upd_client cid (fun cl =>
           client_set_rbuf (t_rbuf c) (client_set_wbuf (t_wbuf c) cl)) s1 in
  let s3 := upd_xfr x (fun xf =>
              xfr_set_timeout (t_timeout c) (xfr_set_flags (fun _ => t_flags c) xf))
              s2 in
  log (map (EvBus x) (t_io c).2) s3.

(** Label out with [ret != 0]. *)
Definition fatal (ret : Z) s : sbefifo D :=
  log [EvFatal ret] (drop_queue (set_rc ret s)).

Definition tick_finish (x : nat) (cancel : bool) (c : tick_ctx) (e : tick_exit) s
  : sbefifo D :=
  let s1 := tick_commit x cancel c s in
  match e with
  | TickFuel => set_hung true s1
  | TickResched =>
      set_poll_timer (Some (size_t (jiffies s1 + SBEFIFO_RESCHEDULE tm))) s1
  | TickOut ret => if negb (ret =? 0) then fatal ret s1 else s1
  | TickEot =>
      let done xf :=
        let xf1 := xfr_set_flags (set_bit SBEFIFO_XFR_COMPLETE) xf in
        if cancel then xfr_kfree xf1 else xf1 in
      let s2 := log [EvComplete x] (set_xfrs (tail (xfrs s1)) (upd_xfr x done s1)) in
      let '(s3, nxt) := sbefifo_next_xfr s2 in
      match nxt with
      | Some _ => mod_timer_now s3
      | None => s3
      end
  end.

Definition sbefifo_poll_timer (fuel : nat) s : sbefifo D :=
  match head (xfrs s) with
  | None => s
  | Some x =>
      let xf := get_xfr s x in
      let cl := get_client s (xfr_client xf) in
      let cancel := test_bit SBEFIFO_XFR_CANCEL (xfr_flags xf) in
      let fl :=
        if cancel && negb (test_bit SBEFIFO_XFR_RESP_PENDING (xfr_flags xf))
        then set_bit SBEFIFO_XFR_WRITE_DONE (xfr_flags xf)
        else xfr_flags xf in
      let c0 := TickCtx (fsi_dev s, []) (sbefifo_buf_init zeroed_buf)
                  (wbuf cl) (rbuf cl) fl (wait_data_timeout xf) in
      match poll_write fuel cancel c0 with
      | (c1, Some e) => tick_finish x cancel c1 e s
      | (c1, None) =>
          let '(c2, e) := poll_read fuel cancel (jiffies s) c1 in
          tick_finish x cancel c2 e s
      end
  end.

End Worker.

(** ** Client calls *)

Section Calls.
Context {D : Type} (bus : fsi_device D) (tm : timing).
Implicit Types s : sbefifo D.

Definition is_aligned (len : Z) : bool := Z.shiftl (Z.shiftr len 2) 2 =? len.

Definition find_writer (x : nat) (l : list writer) : option writer :=
  List.find (fun w => Nat.eqb (w_xfr w) x) l.
Definition remove_writer (x : nat) (l : list writer) : list writer :=
  List.filter (fun w => negb (Nat.eqb (w_xfr w) x)) l.
Definition replace_writer (w : writer) (l : list writer) : list writer :=
  map (fun w' => if Nat.eqb (w_xfr w') (w_xfr w) then w else w') l.

(** [set_bit(SBEFIFO_XFR_CANCEL, &xfr->flags)] and the kick of the timer that
    follows it. *)
Definition cancel_xfr (x : nat) s : sbefifo D :=
  mod_timer_now (upd_xfr x (xfr_set_flags (set_bit SBEFIFO_XFR_CANCEL)) s).

(** [sbefifo_open]: the new client is the next index of [clients]. *)
Definition sbefifo_open (flags : Z) (alloc_ok : bool) s
  : sbefifo D * call_result :=
  if negb (rc s =? 0) then (s, Returned (rc s) [])
  else if negb alloc_ok then (s, Returned (- ENOMEM) [])
  else (sbefifo_new_client flags s, Returned 0 []).

(** [sbefifo_drv_open], on a probed device. *)
Definition sbefifo_drv_open (flags : Z) (alloc_ok : bool) s
  : sbefifo D * call_result :=
  if negb alloc_ok then (s, NewClient None)
  else (sbefifo_new_client flags s, NewClient (Some (length (clients s)))).

(** [sbefifo_release] (and [sbefifo_drv_release], which returns nothing). *)
Definition sbefifo_release (c : nat) s : sbefifo D * call_result :=
  let s1 := sbefifo_put_client c (upd_client c client_close s) in
  (s1, Returned (rc s1) []).

(** [sbefifo_write_common] up to the start of its loop.  A call that gets
    that far becomes a [writer]. *)
Definition sbefifo_write_enter (c : nat) (user : bool) (src : list Z) (len : Z)
    (alloc_ok : bool) s : sbefifo D * call_result :=
  if negb (is_aligned len) then (s, Returned (- EINVAL) [])
  else if len =? 0 then (s, Returned 0 [])
  else
    let s1 := sbefifo_get_client c s in
    let n := sbefifo_buf_nbwriteable (wbuf (get_client s1 c)) in
    let '(s2, xfr) := sbefifo_next_xfr s1 in   (* next xfr to be executed *)
    if nonblocking (get_client s2 c) && bool_decide (xfr <> None) && (n <? len)
    then (sbefifo_put_client c s2, Returned (- EAGAIN) [])
    else
      match sbefifo_enq_xfr c alloc_ok s2 with    (* this xfr queued up *)
      | (s3, inl err) => (sbefifo_put_client c s3, Returned err [])
      | (s3, inr x) =>
          (set_writers (writers s3 ++ [Writer c x user src len 0]) s3, Pending)
      end.

Definition sbefifo_write_ready s (x c : nat) : bool * Z :=
  let n := sbefifo_buf_nbwriteable (wbuf (get_client s c)) in
  (negb (rc s =? 0) ||
   (bool_decide (head (c_xfrs (get_client s c)) = Some x) && negb (n =? 0)), n).

(** Label out of [sbefifo_write_common], from inside the loop. *)
Definition write_leave (w : writer) (ret : Z) s : sbefifo D * call_result :=
  (sbefifo_put_client (w_client w)
     (set_writers (remove_writer (w_xfr w) (writers s)) s),
   Returned ret []).

(** One pass of [while (len)] for a call inside the loop.  [sig] is whether a
    signal is pending if the call has to sleep, [fault] whether
    [copy_from_user] faults. *)
Definition sbefifo_write_loop (w : writer) (sig fault : bool) s
  : sbefifo D * call_result :=
  let c := w_client w in
  let x := w_xfr w in
  let '(ready, n) := sbefifo_write_ready s x c in
  if negb ready then
    if sig then write_leave w (- ERESTARTSYS) (cancel_xfr x s) else (s, Pending)
  else if negb (rc s =? 0) then
    write_leave w (rc s) (upd_client c (client_set_xfrs []) s)
  else
    let n := min_t n (w_len w) in
    if w_user w && fault then write_leave w (- EFAULT) (cancel_xfr x s)
    else
      let wb := wbuf (get_client s c) in
      let wb1 := store_words wb (wpos wb) (w_src w) (Z.to_nat (Z.shiftr n 2)) in
      let s1 := upd_client c (client_set_wbuf (sbefifo_buf_wrotenb wb1 n).2) s in
      let len := size_t (w_len w - n) in
      let ret := w_ret w + n in
      let s2 :=
        if len =? 0
        then upd_xfr x (xfr_set_flags (set_bit SBEFIFO_XFR_WRITE_DONE)) s1
        else s1 in
      (* Drain the write buffer. *)
      let s3 := mod_timer_now s2 in
      if len =? 0 then write_leave w ret s3
      else
        let w' := Writer c x (w_user w) (drop (Z.to_nat (Z.shiftr n 2)) (w_src w))
                    len ret in
        (set_writers (replace_writer w' (writers s3)) s3, Pending).

Definition sbefifo_read_ready s (c : nat) : bool * Z * Z :=
  let n := sbefifo_buf_nbreadable (rbuf (get_client s c)) in
  let ret := rc s in
  (negb (ret =? 0) || negb (n =? 0) ||
   match head (c_xfrs (get_client s c)) with
   | Some x => xfr_test SBEFIFO_XFR_COMPLETE s x
   | None => false
   end, n, ret).

(** [sbefifo_read_common].  A call that has to sleep and has no signal
    pending is [Pending] and leaves the device as it is: it is a call that
    is made again later. *)
Definition sbefifo_read_common (c : nat) (user : bool) (len : Z)
    (sig fault : bool) s : sbefifo D * call_result :=
  if negb (is_aligned len) then (s, Returned (- EINVAL) [])
  else if nonblocking (get_client s c) && negb (sbefifo_xfr_rsp_pending s c)
  then (s, Returned (- EAGAIN) [])
  else
    let '(ready, n, ret) := sbefifo_read_ready s c in
    if negb ready then
      if sig
      then (sbefifo_put_client c (sbefifo_get_client c s),
            Returned (- ERESTARTSYS) [])
      else (s, Pending)
    else
      let s1 := sbefifo_get_client c s in
      if negb (ret =? 0) then
        (sbefifo_put_client c (upd_client c (client_set_xfrs []) s1),
         Returned ret [])
      else
        let n := min_t n len in
        if user && fault then (sbefifo_put_client c s1, Returned (- EFAULT) [])
        else
          let rb := rbuf (get_client s1 c) in
          let data := load_words rb (rpos rb) n in
          let '(empty, rb1) := sbefifo_buf_readnb rb n in
          let s2 := upd_client c (client_set_rbuf rb1) s1 in
          if empty then
            match head (c_xfrs (get_client s2 c)) with
            | None =>
                (* should be impossible to not have an xfr here *)
                (sbefifo_put_client c s2, Returned (- EPROTO) data)
            | Some x =>
                let s3 :=
                  if negb (xfr_test SBEFIFO_XFR_COMPLETE s2 x)
                  then mod_timer_now s2   (* Fill the read buffer back up. *)
                  else upd_xfr x xfr_kfree
                         (upd_client c
                            (fun cl => client_set_xfrs (tail (c_xfrs cl)) cl) s2) in
                (sbefifo_put_client c s3, Returned n data)
            end
          else (sbefifo_put_client c s2, Returned n data).

Definition sbefifo_remove s : sbefifo D :=
  log [EvRemove] (set_poll_timer None (drop_queue (set_rc (- ENODEV) s))).

(** ** The engine as a transition system

    What the environment can do to a device: make a call on an open handle,
    let a sleeping [write] run one more pass, let time pass, let the pending
    timer fire once it has expired, remove the device.  Each step is one
    atomic action; the timer function runs to its end within one step
    ([fuel] bounds its loops, and a function that is still looping when the
    fuel is spent never returns: the device is [hung] from then on). *)
Inductive op :=
| OpOpen (flags : Z) (alloc_ok : bool)
| OpDrvOpen (flags : Z) (alloc_ok : bool)
| OpWrite (c : nat) (user : bool) (src : list Z) (len : Z) (alloc_ok : bool)
| OpWriteLoop (x : nat) (sig fault : bool)
| OpRead (c : nat) (user : bool) (len : Z) (sig fault : bool)
| OpRelease (c : nat)
| OpTick (fuel : nat)
| OpJiffies (dt : nat)
| OpRemove.

Definition client_usable s (c : nat) : bool :=
  match clients s !! c with
  | Some cl => c_open cl
  | None => false
  end.

(** The pending timer has expired: [time_after_eq(jiffies, expires)]. *)
Definition timer_due s : bool :=
  match poll_timer s with
  | Some e => negb (time_after e (jiffies s))
  | None => false
  end.

Definition step (o : op) s : sbefifo D * call_result :=
  if hung s then (s, Pending)
  else
    match o with
    | OpOpen flags alloc_ok => sbefifo_open flags alloc_ok s
    | OpDrvOpen flags alloc_ok => sbefifo_drv_open flags alloc_ok s
    | OpWrite c user src len alloc_ok =>
        if client_usable s c
        then sbefifo_write_enter c user src (size_t len) alloc_ok s
        else (s, Pending)
    | OpWriteLoop x sig fault =>
        match find_writer x (writers s) with
        | Some w => sbefifo_write_loop w sig fault s
        | None => (s, Pending)
        end
    | OpRead c user len sig fault =>
        if client_usable s c
        then sbefifo_read_common c user (size_t len) sig fault s
        else (s, Pending)
    | OpRelease c =>
        if client_usable s c then sbefifo_release c s else (s, Pending)
    | OpTick fuel =>
        if timer_due s
        then (sbefifo_poll_timer bus tm fuel (set_poll_timer None s), Pending)
        else (s, Pending)
    | OpJiffies dt => (set_jiffies (size_t (jiffies s + Z.of_nat dt)) s, Pending)
    | OpRemove => (sbefifo_remove s, Pending)
    end.

(** The device after a sequence of steps, and what each step returned. *)
Fixpoint run (ops : list op) s : sbefifo D * list call_result :=
  match ops with
  | [] => (s, [])
  | o :: ops' =>
      let '(s1, r) := step o s in
      let '(s2, rs) := run ops' s1 in
      (s2, r :: rs)
  end.

Definition after (ops : list op) s : sbefifo D := (run ops s).1.

End Calls.

(** ** Backends used in the scenarios *)

(** An echo device.  It takes every word written to the up FIFO at once (the
    up status always shows an empty FIFO); when end of transfer is raised it
    queues the words it received, followed by an end-of-transfer marker, on
    the down FIFO, which shows up to 8 entries at a time and flags the marker
    once it is among them.  No access fails. *)
Record echo := Echo {
  e_up : list Z;       (* received and not yet echoed *)
  e_down : list Z;     (* data words still to deliver *)
  e_eot : bool         (* a marker follows the data *)
}.

Definition echo_entries (d : echo) : Z :=
  Z.min 8 (Z.of_nat (length (e_down d)) + (if e_eot d then 1 else 0)).

Definition echo_read (d : echo) (reg : Z) : (Z * Z) * echo :=
  if reg =? Z.lor SBEFIFO_UP SBEFIFO_STS then ((0, 0x00100000), d)
  else if reg =? Z.lor SBEFIFO_DWN SBEFIFO_STS then
    let n := echo_entries d in
    let eot := e_eot d && (Z.of_nat (length (e_down d)) <? 8) in
    ((0, Z.lor (Z.shiftl n 16) (if eot then Z.shiftr 0x80 (n - 1) else 0)), d)
  else if reg =? SBEFIFO_DWN then
    match e_down d with
    | w :: rest => ((0, w), Echo (e_up d) rest (e_eot d))
    | [] => ((0, 0), Echo (e_up d) [] false)
    end
  else ((0, 0), d).

Definition echo_write (d : echo) (reg : Z) (w : Z) : Z * echo :=
  if reg =? SBEFIFO_UP then (0, Echo (e_up d ++ [w]) (e_down d) (e_eot d))
  else if reg =? Z.lor SBEFIFO_UP SBEFIFO_EOT_RAISE
  then (0, Echo [] (e_down d ++ e_up d) true)
  else (0, d).

Definition echo_bus : fsi_device echo := FsiDevice echo echo_read echo_write.

(** A device that answers every request with the one word [0xc0ffee]; no
    access fails. *)
Definition canned_read (d : unit) (reg : Z) : (Z * Z) * unit :=
  if reg =? Z.lor SBEFIFO_UP SBEFIFO_STS then ((0, 0x00100000), d)
  else if reg =? Z.lor SBEFIFO_DWN SBEFIFO_STS then ((0, 0x00020040), d)
  else if reg =? SBEFIFO_DWN then ((0, 0xc0ffee), d)
  else ((0, 0), d).

Definition canned_bus : fsi_device unit :=
  FsiDevice unit canned_read (fun d _ _ => (0, d)).

(** A device whose up FIFO always shows 4 free slots and whose down FIFO
    stays empty. *)
Definition half_full_read (d : unit) (reg : Z) : (Z * Z) * unit :=
  if reg =? Z.lor SBEFIFO_UP SBEFIFO_STS then ((0, 0x00040000), d)
  else if reg =? Z.lor SBEFIFO_DWN SBEFIFO_STS then ((0, 0x00100000), d)
  else ((0, 0), d).

Definition half_full_bus : fsi_device unit :=
  FsiDevice unit half_full_read (fun d _ _ => (0, d)).

(** A device that takes a request and never answers it. *)
Definition silent_read (d : unit) (reg : Z) : (Z * Z) * unit :=
  if reg =? Z.lor SBEFIFO_UP SBEFIFO_STS then ((0, 0x00100000), d)
  else if reg =? Z.lor SBEFIFO_DWN SBEFIFO_STS then ((0, 0x00100000), d)
  else ((0, 0), d).

Definition silent_bus : fsi_device unit :=
  FsiDevice unit silent_read (fun d _ _ => (0, d)).

(** A bus on which every access fails with -EIO. *)
Definition EIO : Z := 5.
Definition broken_bus : fsi_device unit :=
  FsiDevice unit (fun d _ => ((- EIO, 0), d)) (fun d _ _ => (- EIO, d)).

(** HZ = 100. *)
Definition hz100 : timing := Timing 50 500.

(** * What the properties are stated with *)

(** ** Ring-buffer states used below *)

(** Four words committed for writing, then two for reading. *)
Definition two_read_of_four : sbefifo_buf :=
  buf_step (buf_step (sbefifo_buf_init zeroed_buf) (commit_write 16))
    (commit_read 8).

(** All 32 words committed for writing. *)
Definition filled_buf : sbefifo_buf :=
  buf_step (sbefifo_buf_init zeroed_buf) (commit_write 128).

(** ** Scenarios *)


(** One client opens a new device, writes [data] with one call, the worker
    runs, and the client reads as many bytes as it wrote. *)
Definition round_trip_ops (data : list Z) : list op :=
  let len := 4 * Z.of_nat (length data) in
  [OpOpen 0 true;
   OpWrite 0%nat false data len true; OpWriteLoop 0%nat false false;
   OpTick 64;
   OpRead 0%nat false len false false].


(** End of transfer has been raised for transfer [x]. *)
Definition is_eot_raise (a : bus_access) : bool :=
  match a with
  | BusWrite reg _ _ => reg =? Z.lor SBEFIFO_UP SBEFIFO_EOT_RAISE
  | BusRead _ _ _ => false
  end.

Definition is_eot_raise_of (x : nat) (e : event) : bool :=
  match e with
  | EvBus y a => Nat.eqb x y && is_eot_raise a
  | _ => false
  end.

Definition eot_raises (x : nat) (tr : list event) : nat :=
  length (List.filter (is_eot_raise_of x) tr).

(** Let time pass until the pending timer is due. *)
Definition wait_timer {D : Type} (s : sbefifo D) : sbefifo D :=
  match poll_timer s with
  | Some e => if time_after e (jiffies s) then set_jiffies e s else s
  | None => s
  end.

(** How many runs of the timer function it takes, each started when the
    timer falls due, until end of transfer has been raised for [x]; [None]
    when [n] runs are not enough or no timer is pending. *)
Fixpoint ticks_until_eot {D : Type} (bus : fsi_device D) (tm : timing)
    (x : nat) (n : nat) (s : sbefifo D) : option nat :=
  if (0 <? eot_raises x (trace s))%nat then Some O
  else
    match n with
    | O => None
    | S n' =>
        match poll_timer s with
        | None => None
        | Some _ =>
            S <$> ticks_until_eot bus tm x n'
                    (step bus tm (OpTick 64) (wait_timer s)).1
        end
    end.

(** A client has written the 8 words [ws] to a new device. *)
Definition eight_words_written {D : Type} (bus : fsi_device D) (tm : timing)
    (d : D) (ws : list Z) : sbefifo D :=
  after bus tm
    [OpOpen 0 true; OpWrite 0%nat false ws 32 true; OpWriteLoop 0%nat false false]
    (sbefifo_probe d 0).

(** Client 0 has a ring full of its own unsent transfer, on a non-blocking
    handle. *)
Definition own_transfer_pending : sbefifo unit :=
  after silent_bus hz100
    [OpOpen O_NONBLOCK true;
     OpWrite 0%nat false (replicate 32 7) 128 true; OpWriteLoop 0%nat false false]
    (sbefifo_probe tt 0).



(** ** What the queue invariants look at

    The part of a device that decides in which order transfers are
    serviced: the fatal code, the queue, how many transfers have been
    allocated, the history, and whether the timer function is stuck. *)
Record qview := QView {
  v_rc : Z;
  v_q : list nat;
  v_len : nat;
  v_tr : list event;
  v_hung : bool
}.

Definition view {D : Type} (s : sbefifo D) : qview :=
  QView (rc s) (xfrs s) (length (xfr_mem s)) (trace s) (hung s).

(** The elementary changes the driver makes to it. *)
Inductive move : qview -> qview -> Prop :=
| mv_discard r x q n t :
    move (QView r (x :: q) n t false)
      (QView r q n (t ++ [EvDiscard x]) false)
| mv_enq q n t c :
    move (QView 0 q n t false)
      (QView 0 (q ++ [n]) (S n) (t ++ [EvEnq n c]) false)
| mv_bus r x q n t a :
    move (QView r (x :: q) n t false)
      (QView r (x :: q) n (t ++ [EvBus x a]) false)
| mv_complete r x q n t :
    move (QView r (x :: q) n t false)
      (QView r q n (t ++ [EvComplete x]) false)
| mv_fatal r x q n t ret :
    ret <> 0 ->
    move (QView r (x :: q) n t false)
      (QView ret [] n (t ++ [EvFatal ret]) false)
| mv_hang r x q n t :
    move (QView r (x :: q) n t false) (QView r (x :: q) n t true).

Definition removed (v : qview) : qview :=
  QView (- ENODEV) [] (v_len v) (v_tr v ++ [EvRemove]) (v_hung v).

Definition enq_id (e : event) : option nat :=
  match e with
  | EvEnq x _ => Some x
  | _ => None
  end.

(** Transfer [x] has left the queue complete, or cancelled and discarded. *)
Definition terminal (x : nat) (tr : list event) : Prop :=
  EvComplete x ∈ tr \/ EvDiscard x ∈ tr.

(** Whenever a register is accessed for a transfer, every transfer with a
    smaller name has reached its end before. *)
Definition fifo_trace (tr : list event) : Prop :=
  forall i y a, tr !! i = Some (EvBus y a) ->
  forall x, (x < y)%nat -> terminal x (take i tr).

Record qinv (v : qview) : Prop := QInv {
  qi_fatal : v_rc v <> 0 -> v_q v = [];
  qi_sorted : forall i j x y,
    (i < j)%nat -> v_q v !! i = Some x -> v_q v !! j = Some y -> (x < y)%nat;
  qi_alloc : forall x, x ∈ v_q v -> (x < v_len v)%nat;
  qi_enq : omap enq_id (v_tr v) = seq 0 (v_len v);
  qi_terminal : forall x, (x < v_len v)%nat ->
    x ∈ v_q v \/ terminal x (v_tr v) \/ v_rc v <> 0;
  qi_fifo : fifo_trace (v_tr v);
  qi_hung : v_hung v = true -> v_rc v = 0
}.

(** Every call that reaches the device fails with its fatal code: a write
    that gets as far as queueing, a pass of a write that is inside its
    loop, a read on a blocking handle, and [sbefifo_open]. *)
Definition calls_fail {D : Type} (bus : fsi_device D) (tm : timing)
    (s : sbefifo D) : Prop :=
  (forall c user src len alloc_ok,
     client_usable s c = true ->
     is_aligned (size_t len) = true -> size_t len <> 0 ->
     (step bus tm (OpWrite c user src len alloc_ok) s).2 = Returned (rc s) []) /\
  (forall x sig fault,
     find_writer x (writers s) <> None ->
     (step bus tm (OpWriteLoop x sig fault) s).2 = Returned (rc s) []) /\
  (forall c user len sig fault,
     client_usable s c = true -> nonblocking (get_client s c) = false ->
     is_aligned (size_t len) = true ->
     (step bus tm (OpRead c user len sig fault) s).2 = Returned (rc s) []) /\
  (forall flags alloc_ok,
     step bus tm (OpOpen flags alloc_ok) s = (s, Returned (rc s) [])).

(** A write and a tick on a bus that fails. *)
Definition bus_failed : sbefifo unit :=
  after broken_bus hz100
    [OpOpen 0 true; OpWrite 0%nat false [1] 4 true; OpWriteLoop 0%nat false false;
     OpTick 64]
    (sbefifo_probe tt 0).

(** Two clients on the echo device, served one after the other. *)
Definition two_clients_served : sbefifo echo :=
  after echo_bus hz100
    [OpOpen 0 true; OpOpen 0 true;
     OpWrite 0%nat false [1] 4 true; OpWriteLoop 0%nat false false;
     OpWrite 1%nat false [2] 4 true; OpWriteLoop 1%nat false false;
     OpTick 64; OpTick 64]
    (sbefifo_probe (Echo [] [] false) 0).

(** ** What the end-of-transfer invariants look at

    The queue; of every transfer its client and its flags; of every client
    its list of transfers, its reference count and whether its handle is
    open; of every write inside its loop its client and its transfer; and the
    history. *)
Record cview := CView {
  c_q : list nat;
  c_mem : list (nat * Z);
  c_cl : list (list nat * Z * bool);
  c_wr : list (nat * nat);
  c_tr : list event
}.

Definition cview_of {D : Type} (s : sbefifo D) : cview :=
  CView (xfrs s)
    (map (fun xf => (xfr_client xf, xfr_flags xf)) (xfr_mem s))
    (map (fun cl => (c_xfrs cl, kref cl, c_open cl)) (clients s))
    (map (fun w => (w_client w, w_xfr w)) (writers s))
    (trace s).

Definition flags_at (m : list (nat * Z)) (x : nat) : Z :=
  match m !! x with
  | Some p => p.2
  | None => 0
  end.

(** The flags of a cancelled transfer as the timer function sees them. *)
Definition cancel_overlay (f : Z) : Z :=
  if test_bit SBEFIFO_XFR_CANCEL f && negb (test_bit SBEFIFO_XFR_RESP_PENDING f)
  then set_bit SBEFIFO_XFR_WRITE_DONE f
  else f.

Definition writers_of (c : nat) (wr : list (nat * nat)) : nat :=
  length (List.filter (fun w => Nat.eqb w.1 c) wr).

(** The elementary changes the driver makes to it. *)
Inductive cmove : cview -> cview -> Prop :=
| cm_events q m cl wr tr evs :
    (forall x, eot_raises x evs = 0%nat) ->
    cmove (CView q m cl wr tr) (CView q m cl wr (tr ++ evs))
| cm_shrink q q' m cl wr tr :
    (forall x, x ∈ q' -> x ∈ q) ->
    cmove (CView q m cl wr tr) (CView q' m cl wr tr)
| cm_open q m cl wr tr :
    cmove (CView q m cl wr tr) (CView q m (cl ++ [([], 1, true)]) wr tr)
| cm_enq q m cl wr tr c xs k o :
    cl !! c = Some (xs, k, o) ->
    cmove (CView q m cl wr tr)
      (CView (q ++ [length m]) (m ++ [(c, 0)])
         (<[c := (xs ++ [length m], k + 1, o)]> cl) (wr ++ [(c, length m)]) tr)
| cm_client_xfrs q m cl wr tr c xs xs' k o :
    cl !! c = Some (xs, k, o) -> (forall x, x ∈ xs' -> x ∈ xs) ->
    cmove (CView q m cl wr tr) (CView q m (<[c := (xs', k, o)]> cl) wr tr)
| cm_leave q m cl wr tr c x xs k o f' :
    (c, x) ∈ wr -> cl !! c = Some (xs, k, o) ->
    (f' = 0 \/ f' = set_bit SBEFIFO_XFR_CANCEL 0 \/
     f' = set_bit SBEFIFO_XFR_WRITE_DONE 0) ->
    cmove (CView q m cl wr tr)
      (CView q (<[x := (c, f')]> m) (<[c := (xs, k - 1, o)]> cl)
         (List.filter (fun w => negb (Nat.eqb w.2 x)) wr) tr)
| cm_close q m cl wr tr c xs k :
    cl !! c = Some (xs, k, true) ->
    cmove (CView q m cl wr tr) (CView q m (<[c := (xs, k - 1, false)]> cl) wr tr)
| cm_free q m m' cl wr tr c xs xs' o :
    cl !! c = Some (xs, 0, o) ->
    length m' = length m ->
    (forall y, m' !! y = m !! y \/
       (y ∈ xs /\ exists c' f, m !! y = Some (c', f) /\
          m' !! y = Some (c', set_bit SBEFIFO_XFR_CANCEL f))) ->
    (forall x, x ∈ xs' -> x ∈ xs) ->
    cmove (CView q m cl wr tr) (CView q m' (<[c := (xs', 0, o)]> cl) wr tr)
| cm_tick x q q' m cl wr tr c0 f f' evs :
    m !! x = Some (c0, f) ->
    (forall y, y ∈ q' -> y ∈ x :: q) ->
    (forall y, y <> x -> eot_raises y evs = 0%nat) ->
    (eot_raises x evs <= 1)%nat ->
    (test_bit SBEFIFO_XFR_WRITE_DONE (cancel_overlay f) = false ->
     eot_raises x evs = 0%nat) ->
    (x ∈ q' -> eot_raises x evs = 1%nat ->
     test_bit SBEFIFO_XFR_RESP_PENDING f' = true) ->
    ((test_bit SBEFIFO_XFR_RESP_PENDING f = true ->
      test_bit SBEFIFO_XFR_WRITE_DONE f = false) ->
     test_bit SBEFIFO_XFR_RESP_PENDING f' = true ->
     test_bit SBEFIFO_XFR_WRITE_DONE f' = false) ->
    (test_bit SBEFIFO_XFR_RESP_PENDING f = true ->
     test_bit SBEFIFO_XFR_RESP_PENDING f' = true) ->
    (f = 0 -> f' = 0) ->
    cmove (CView (x :: q) m cl wr tr)
      (CView q' (<[x := (c0, f')]> m) cl wr (tr ++ evs)).

Record cinv (v : cview) : Prop := CInv {
  ci_alloc : forall x, x ∈ c_q v -> (x < length (c_mem v))%nat;
  ci_once : forall x, (eot_raises x (c_tr v) <= 1)%nat;
  ci_fresh : forall x, (length (c_mem v) <= x)%nat ->
    eot_raises x (c_tr v) = 0%nat;
  ci_raised : forall x, x ∈ c_q v -> eot_raises x (c_tr v) = 1%nat ->
    test_bit SBEFIFO_XFR_RESP_PENDING (flags_at (c_mem v) x) = true;
  ci_rp_wd : forall x,
    test_bit SBEFIFO_XFR_RESP_PENDING (flags_at (c_mem v) x) = true ->
    test_bit SBEFIFO_XFR_WRITE_DONE (flags_at (c_mem v) x) = false;
  ci_writer : forall c x, (c, x) ∈ c_wr v ->
    c_mem v !! x = Some (c, 0) /\ (c < length (c_cl v))%nat;
  ci_writer_nodup : NoDup (map snd (c_wr v));
  ci_owner : forall c xs k o x, c_cl v !! c = Some (xs, k, o) -> x ∈ xs ->
    exists f, c_mem v !! x = Some (c, f);
  ci_kref : forall c xs k (o : bool), c_cl v !! c = Some (xs, k, o) ->
    k = (if o then 1 else 0) + Z.of_nat (writers_of c (c_wr v))
}.

(** How often a list of accesses raises end of transfer. *)
Definition eots (l : list bus_access) : nat :=
  length (List.filter is_eot_raise l).

(** What one run of the timer function does to the flags of the transfer
    it services, and how often it raises end of transfer: [fl0] are the
    flags it starts from, [c] and [e] what it ends with. *)
Definition poll_outcome {D : Type} (fl0 : Z) (c : @tick_ctx D) (e : tick_exit)
  : Prop :=
  (test_bit SBEFIFO_XFR_WRITE_DONE fl0 = false /\ eots (t_io c).2 = 0%nat /\
   t_flags c = fl0 /\
   (e = TickEot -> test_bit SBEFIFO_XFR_RESP_PENDING fl0 = true)) \/
  (test_bit SBEFIFO_XFR_WRITE_DONE fl0 = true /\ eots (t_io c).2 = 0%nat /\
   t_flags c = fl0 /\ e <> TickEot) \/
  (test_bit SBEFIFO_XFR_WRITE_DONE fl0 = true /\ eots (t_io c).2 = 1%nat /\
   t_flags c = clear_bit SBEFIFO_XFR_WRITE_DONE fl0 /\
   exists ret, ret <> 0 /\ e = TickOut ret) \/
  (test_bit SBEFIFO_XFR_WRITE_DONE fl0 = true /\ eots (t_io c).2 = 1%nat /\
   t_flags c =
     set_bit SBEFIFO_XFR_RESP_PENDING (clear_bit SBEFIFO_XFR_WRITE_DONE fl0)).

Definition mskel (xf : sbefifo_xfr) : nat * Z := (xfr_client xf, xfr_flags xf).
Definition cskel (cl : sbefifo_client) : list nat * Z * bool :=
  (c_xfrs cl, kref cl, c_open cl).
Definition wskel (w : writer) : nat * nat := (w_client w, w_xfr w).

Definition dec_kref (cl : sbefifo_client) : sbefifo_client :=
  client_set_kref (kref cl - 1) cl.

(** * More of the SBEFIFO driver *)

(** ** Readiness, as [sbefifo_poll] reports it *)

(** Event bits of include/uapi/asm-generic/poll.h *)
Definition POLLIN : Z := 0x0001.
Definition POLLOUT : Z := 0x0004.
Definition POLLERR : Z := 0x0008.

Definition sbefifo_poll {D : Type} (s : sbefifo D) (c : nat) : Z :=
  let mask := 0 in
  let mask := if negb (rc s =? 0) then Z.lor mask POLLERR else mask in
  let mask :=
    if negb (sbefifo_buf_nbreadable (rbuf (get_client s c)) =? 0)
    then Z.lor mask POLLIN else mask in
  let mask :=
    if negb (sbefifo_buf_nbwriteable (wbuf (get_client s c)) =? 0)
    then Z.lor mask POLLOUT else mask in
  mask.

(** ** The FIFOs at probe time *)

Definition SBEFIFO_EMPTY : Z := Z.shiftl 1 20.
Definition SBEFIFO_STS_RESET_REQ : Z := Z.shiftl 1 25.
Definition SBEFIFO_REQ_RESET : Z := 0x0C.
Definition EINTR : Z := 4.

(** One [schedule_timeout(wait_time)] of the reset loop: what it returned
    (the jiffies left, positive when the sleep was cut short) and the value
    of [jiffies] that the loop test then sees. *)
Record sleep := Sleep {
  sl_left : Z;
  sl_jiffies : Z
}.

Section Reset.
Context {D : Type} (bus : fsi_device D).

(** The [do ... while] of [sbefifo_request_reset].  [start] is [jiffies]
    at the start of the loop, [timeout] is [msecs_to_jiffies(250)].  The
    result is [None] when the function is asleep with no more of the
    sleeps that the environment supplies. *)
Fixpoint reset_wait (sleeps : list sleep) (start timeout : Z) (io : @bus_io D)
  : @bus_io D * option Z :=
  let '(io1, ret, status) := sbefifo_inw bus io (Z.lor SBEFIFO_UP SBEFIFO_STS) in
  if negb (ret =? 0) then (io1, Some ret)
  else if Z.land status SBEFIFO_STS_RESET_REQ =? 0 then (io1, Some 0)
  else
    match sleeps with
    | [] => (io1, None)
    | sl :: rest =>
        if 0 <? sl_left sl then (io1, Some (- EINTR))
        else if time_after (size_t (start + timeout)) (sl_jiffies sl)
        then reset_wait rest start timeout io1
        else (io1, Some (- ETIME))
    end.

Definition sbefifo_request_reset (sleeps : list sleep) (start timeout : Z)
    (io : @bus_io D) : @bus_io D * option Z :=
  let '(io1, ret) := sbefifo_outw bus io (Z.lor SBEFIFO_UP SBEFIFO_REQ_RESET) 1 in
  if negb (ret =? 0) then (io1, Some ret)
  else reset_wait sleeps start timeout io1.

(** [sbefifo_probe] from its start to the point where it begins to set the
    device object up: the accesses it makes to the bus, and its return
    value if it returns there; [Some 0] stands for going on with the
    set-up.  [alloc_ok] is whether [kzalloc] succeeds. *)
Definition sbefifo_probe_fifos (alloc_ok : bool) (sleeps : list sleep)
    (start timeout : Z) (d : D) : @bus_io D * option Z :=
  if negb alloc_ok then ((d, []), Some (- ENOMEM))
  else
    let '(io1, ret, up) :=
      sbefifo_inw bus (d, []) (Z.lor SBEFIFO_UP SBEFIFO_STS) in
    if negb (ret =? 0) then (io1, Some ret)
    else
      let '(io2, ret, down) :=
        sbefifo_inw bus io1 (Z.lor SBEFIFO_DWN SBEFIFO_STS) in
      if negb (ret =? 0) then (io2, Some ret)
      else if (Z.land up SBEFIFO_EMPTY =? 0) || (Z.land down SBEFIFO_EMPTY =? 0)
      then sbefifo_request_reset sleeps start timeout io2
      else (io2, Some 0).

End Reset.

(** ** Ring-buffer states used below *)

(** The buffer was filled, two words were read and two were written. *)
Definition refilled_buf : sbefifo_buf :=
  buf_step (buf_step filled_buf (commit_read 8)) (commit_write 8).

(** ** What a ring buffer holds *)

(** The words between the read cursor and the write cursor, oldest first,
    whether or not they are contiguous in the storage. *)
Definition ring_count (b : sbefifo_buf) : Z :=
  if buf_full b then SBEFIFO_BUF_CNT
  else (wpos b - rpos b) mod SBEFIFO_BUF_CNT.

Definition ring_contents (b : sbefifo_buf) : list Z :=
  map (fun i => load_word b ((rpos b + Z.of_nat i) mod SBEFIFO_BUF_CNT))
    (seq 0 (Z.to_nat (ring_count b))).

(** The words that went out on the up FIFO: the data of the successful
    writes to [SBEFIFO_UP]. *)
Definition sent_word (a : bus_access) : option Z :=
  match a with
  | BusWrite reg w ret =>
      if (reg =? SBEFIFO_UP) && (ret =? 0) then Some w else None
  | BusRead _ _ _ => None
  end.

Definition sent_words (l : list bus_access) : list Z := omap sent_word l.

(** The words that came in from the down FIFO: the data of the successful
    reads of [SBEFIFO_DWN]. *)
Definition received_word (a : bus_access) : option Z :=
  match a with
  | BusRead reg ret raw =>
      if (reg =? SBEFIFO_DWN) && (ret =? 0) then Some raw else None
  | BusWrite _ _ _ => None
  end.

Definition received_words (l : list bus_access) : list Z := omap received_word l.

(** The clients of [s'] have the rings they have in [s]. *)
Definition same_bufs {D : Type} (s s' : sbefifo D) : Prop :=
  forall c, rbuf (get_client s' c) = rbuf (get_client s c) /\
            wbuf (get_client s' c) = wbuf (get_client s c).

(** ** More scenarios *)

(** A buffer that holds the three words 10, 20 and 30. *)
Definition three_words : sbefifo_buf :=
  (sbefifo_buf_wrotenb
     (store_words (sbefifo_buf_init zeroed_buf) 0 [10; 20; 30] 3) 12).2.

(** Client 0, on a non-blocking handle, has sent its request to a device
    that does not answer. *)
Definition request_sent : sbefifo unit :=
  after silent_bus hz100 [OpTick 64] own_transfer_pending.

(** Client 0 has written the first 32 words of a request of 40 and sleeps
    for room. *)
Definition write_in_progress : sbefifo unit :=
  after silent_bus hz100
    [OpOpen 0 true; OpWrite 0%nat false (replicate 40 7) 160 true;
     OpWriteLoop 0%nat false false]
    (sbefifo_probe tt 0).

(** Client 0 has entered a write of three words. *)
Definition write_entered : sbefifo unit :=
  after silent_bus hz100
    [OpOpen 0 true; OpWrite 0%nat false [10; 20; 30] 12 true]
    (sbefifo_probe tt 0).

(** Client 0 has sent two words to the echo device, and the worker has
    fetched the answer. *)
Definition answer_fetched : sbefifo echo :=
  after echo_bus hz100
    [OpOpen 0 true; OpWrite 0%nat false [10; 20] 8 true;
     OpWriteLoop 0%nat false false; OpTick 64]
    (sbefifo_probe (Echo [] [] false) 0).

(** * The GPIO FSI master (drivers/fsi/fsi-master-gpio.c)

    A shallow embedding of the bit-banged FSI master: how it builds its
    command messages, how it clocks them out on the data line and clocks
    responses in, and how it polls a slave for its response.

    Conventions of the embedding.
    - [uint8_t], [uint32_t] and [uint64_t] values are [Z], reduced modulo
      the width where the C expression can wrap.  A shift of a 64-bit value
      by 64 or more, which C leaves undefined, shifts every bit out.
    - The GPIO lines are outside the driver.  What the driver does to them
      is kept as a list of the calls it made, oldest first; what it reads
      from the data line is supplied by the environment, one level for each
      call of [gpiod_get_value].  The driver's trace points are kept in the
      same list.  Messages to the kernel log are left out.
    - [fsi_crc4] belongs to the FSI core, not to this file: it is a
      parameter of everything that uses it.
    - The command lock is held around every sequence modelled here, and
      the functions run one at a time. *)

Definition u8 (z : Z) : Z := z mod 2 ^ 8.
Definition u64 (z : Z) : Z := z mod 2 ^ 64.

Definition FSI_GPIO_STD_DLY : Z := 3.
Definition FSI_ECHO_DELAY_CLOCKS : Z := 16.
Definition FSI_PRE_BREAK_CLOCKS : Z := 50.
Definition FSI_BREAK_CLOCKS : Z := 256.
Definition FSI_POST_BREAK_CLOCKS : Z := 16000.
Definition FSI_INIT_CLOCKS : Z := 5000.
Definition FSI_GPIO_CMD_DPOLL : Z := 0x2.
Definition FSI_GPIO_CMD_TERM : Z := 0x3f.
Definition FSI_GPIO_CMD_ABS_AR : Z := 0x4.
Definition FSI_GPIO_DPOLL_CLOCKS : Z := 100.
Definition FSI_GPIO_RESP_BUSY : Z := 1.
Definition FSI_GPIO_RESP_ACK : Z := 0.
Definition FSI_GPIO_RESP_ERRA : Z := 2.
Definition FSI_GPIO_RESP_ERRC : Z := 3.
Definition FSI_GPIO_MAX_BUSY : nat := 100.
Definition FSI_GPIO_MTOE_COUNT : nat := 1000.
Definition FSI_GPIO_CRC_SIZE : Z := 4.
Definition FSI_GPIO_MSG_RESPID_SIZE : Z := 2.
Definition FSI_GPIO_PRIME_SLAVE_CLOCKS : Z := 100.
Definition EBUSY : Z := 16.

(** ** Messages *)

Record fsi_gpio_msg := GpioMsg {
  msg : Z;      (* uint64_t msg *)
  bits : Z      (* uint8_t bits *)
}.

Definition msg_push_bits (m : fsi_gpio_msg) (data : Z) (n : Z) : fsi_gpio_msg :=
  let v := u64 (Z.shiftl (msg m) n) in
  let v := Z.lor v (Z.land (u64 data) (u64 (u64 (Z.shiftl 1 n) - 1))) in
  GpioMsg v (u8 (bits m + n)).

Section Crc.
Variable fsi_crc4 : Z -> Z -> Z -> Z.   (* uint8_t fsi_crc4(c, x, bits) *)

Definition msg_push_crc (m : fsi_gpio_msg) : fsi_gpio_msg :=
  let top := Z.land (bits m) 0x3 in
  (* start bit, and any non-aligned top bits *)
  let crc :=
    u8 (fsi_crc4 0
          (Z.lor (Z.shiftl 1 top) (Z.shiftr (msg m) (bits m - top)))
          (top + 1)) in
  (* aligned bits *)
  let crc := u8 (fsi_crc4 crc (msg m) (bits m - top)) in
  msg_push_bits m crc 4.

(** [for (i = 0; write && i < size; i++)]; a data buffer shorter than
    [size] bytes is read as zero beyond its end. *)
Fixpoint push_data (n : nat) (data : list Z) (cmd : fsi_gpio_msg)
  : fsi_gpio_msg :=
  match n with
  | O => cmd
  | S n' =>
      push_data n' (tail data) (msg_push_bits cmd (u8 (default 0 (head data))) 8)
  end.

(** [data] is [None] for a NULL pointer. *)
Definition build_abs_ar_command (id addr size : Z) (data : option (list Z))
  : fsi_gpio_msg :=
  let write := bool_decide (data <> None) in
  let cmd := GpioMsg 0 0 in
  let cmd := msg_push_bits cmd id 2 in
  let cmd := msg_push_bits cmd FSI_GPIO_CMD_ABS_AR 3 in
  let cmd := msg_push_bits cmd (if write then 0 else 1) 1 in
  let ds := if 1 <? size then 1 else 0 in
  let addr := Z.land addr (Z.lnot (size - 1)) in
  let addr := if size =? 4 then Z.lor addr 1 else addr in
  let cmd := msg_push_bits cmd (Z.land addr (Z.shiftl 1 21 - 1)) 21 in
  let cmd := msg_push_bits cmd ds 1 in
  let cmd :=
    match data with
    | Some bytes => push_data (Z.to_nat size) bytes cmd
    | None => cmd
    end in
  msg_push_crc cmd.

Definition build_dpoll_command (slave_id : Z) : fsi_gpio_msg :=
  let cmd := GpioMsg 0 0 in
  let cmd := msg_push_bits cmd slave_id 2 in
  let cmd := msg_push_bits cmd FSI_GPIO_CMD_DPOLL 3 in
  msg_push_crc cmd.

Definition build_term_command (slave_id : Z) : fsi_gpio_msg :=
  let cmd := GpioMsg 0 0 in
  let cmd := msg_push_bits cmd slave_id 2 in
  let cmd := msg_push_bits cmd FSI_GPIO_CMD_TERM 6 in
  msg_push_crc cmd.

End Crc.

(** ** The lines *)

Inductive gpio_desc := gpio_clk | gpio_data | gpio_trans | gpio_enable | gpio_mux.

Inductive gpio_event :=
| gpiod_set_value (p : gpio_desc) (v : Z)
| gpiod_get_value (p : gpio_desc) (v : Z)       (* and what it returned *)
| gpiod_direction_input (p : gpio_desc)
| gpiod_direction_output (p : gpio_desc) (v : Z)
| udelay (usecs : Z)
| trace_fsi_master_gpio_in (n : Z) (m : Z)
| trace_fsi_master_gpio_out (n : Z) (m : Z)
| trace_fsi_master_gpio_break.

(** The optional lines are [NULL] when the device tree does not name
    them. *)
Record fsi_master_gpio := GpioMaster {
  has_trans : bool;        (* gpio_trans != NULL *)
  has_enable : bool;       (* gpio_enable != NULL *)
  has_mux : bool;          (* gpio_mux != NULL *)
  external_mode : bool
}.

Record gpio_lines := GpioLines {
  sda : nat -> Z;          (* what the n-th gpiod_get_value(gpio_data) returns *)
  sampled : nat;           (* how often the data line has been read *)
  pins : list gpio_event   (* what has been done to the lines *)
}.

(** A computation on the lines. *)
Definition gpio (A : Type) : Type := gpio_lines -> A * gpio_lines.

Definition gpio_ret {A : Type} (a : A) : gpio A := fun l => (a, l).

Definition gpio_bind {A B : Type} (m : gpio A) (k : A -> gpio B) : gpio B :=
  fun l => let '(a, l1) := m l in k a l1.

Notation "x <- m ;; k" := (gpio_bind m (fun x => k))
  (at level 20, m at level 99, k at level 200, only parsing).
Notation "m ;;; k" := (gpio_bind m (fun _ => k))
  (at level 100, k at level 200, only parsing, right associativity).

Definition gpio_do (e : gpio_event) : gpio unit :=
  fun l => (tt, GpioLines (sda l) (sampled l) (pins l ++ [e])).

Definition gpio_read_data : gpio Z :=
  fun l =>
    let v := sda l (sampled l) in
    (v, GpioLines (sda l) (S (sampled l))
          (pins l ++ [gpiod_get_value gpio_data v])).

Definition gpio_when (b : bool) (m : gpio unit) : gpio unit :=
  if b then m else gpio_ret tt.

Fixpoint clock_toggle_loop (n : nat) : gpio unit :=
  match n with
  | O => gpio_ret tt
  | S n' =>
      gpio_do (gpiod_set_value gpio_clk 0) ;;;
      gpio_do (udelay FSI_GPIO_STD_DLY) ;;;
      gpio_do (gpiod_set_value gpio_clk 1) ;;;
      gpio_do (udelay FSI_GPIO_STD_DLY) ;;;
      clock_toggle_loop n'
  end.

Definition clock_toggle (count : Z) : gpio unit :=
  clock_toggle_loop (Z.to_nat count).

Definition sda_in : gpio Z :=
  v <- gpio_read_data ;; gpio_ret (if v =? 0 then 0 else 1).

Definition sda_out (value : Z) : gpio unit :=
  gpio_do (gpiod_set_value gpio_data value).

Section Master.
Variable master : fsi_master_gpio.

Definition set_sda_input : gpio unit :=
  gpio_do (gpiod_direction_input gpio_data) ;;;
  gpio_when (has_trans master) (gpio_do (gpiod_set_value gpio_trans 0)).

Definition set_sda_output (value : Z) : gpio unit :=
  gpio_when (has_trans master) (gpio_do (gpiod_set_value gpio_trans 1)) ;;;
  gpio_do (gpiod_direction_output gpio_data value).

Definition clock_zeros (count : Z) : gpio unit :=
  set_sda_output 1 ;;; clock_toggle count.

(** [for (bit = 0; bit < num_bits; bit++)] of [serial_in]: the message
    word after each bit. *)
Fixpoint serial_in_loop (n : nat) (m : Z) : gpio Z :=
  match n with
  | O => gpio_ret m
  | S n' =>
      clock_toggle 1 ;;;
      in_bit <- sda_in ;;
      let m := u64 (Z.shiftl m 1) in
      let m := Z.lor m (Z.land (Z.lnot in_bit) 0x1) in  (* negative active *)
      serial_in_loop n' m
  end.

Definition serial_in (m : fsi_gpio_msg) (num_bits : Z) : gpio fsi_gpio_msg :=
  set_sda_input ;;;
  v <- serial_in_loop (Z.to_nat (u8 num_bits)) (msg m) ;;
  gpio_do (trace_fsi_master_gpio_in (u8 num_bits) v) ;;;
  gpio_ret (GpioMsg v (u8 (bits m + u8 num_bits))).

(** [for (bit = 0; bit < cmd->bits; bit++)] of [serial_out]. *)
Fixpoint serial_out_loop (n : nat) (width : Z) (sda_mask : Z) (m last_bit : Z)
  : gpio unit :=
  match n with
  | O => gpio_ret tt
  | S n' =>
      let next_bit := Z.shiftr (Z.land m sda_mask) (width - 1) in
      (if Z.lxor last_bit next_bit =? 0 then gpio_ret tt
       else sda_out next_bit) ;;;
      clock_toggle 1 ;;;
      serial_out_loop n' width sda_mask (u64 (Z.shiftl m 1))
        (if Z.lxor last_bit next_bit =? 0 then last_bit else next_bit)
  end.

Definition serial_out (cmd : fsi_gpio_msg) : gpio unit :=
  let m := u64 (Z.lnot (msg cmd)) in          (* negative active *)
  let sda_mask := u64 (Z.shiftl 1 (bits cmd - 1)) in
  let last_bit := u64 (Z.lnot 0) in
  gpio_do (trace_fsi_master_gpio_out (bits cmd) (msg cmd)) ;;;
  if bits cmd =? 0 then gpio_ret tt
  else
    set_sda_output 0 ;;;
    (* Send the start bit *)
    sda_out 0 ;;;
    clock_toggle 1 ;;;
    (* Send the message *)
    serial_out_loop (Z.to_nat (bits cmd)) (bits cmd) sda_mask m last_bit.

Definition echo_delay : gpio unit :=
  set_sda_output 1 ;;; clock_toggle FSI_ECHO_DELAY_CLOCKS.

Section Responses.
Variable fsi_crc4 : Z -> Z -> Z -> Z.

(** [for (i = 0; i < FSI_GPIO_MTOE_COUNT; i++)]: whether a start bit was
    seen. *)
Fixpoint wait_start_bit (n : nat) : gpio bool :=
  match n with
  | O => gpio_ret false
  | S n' =>
      m <- serial_in (GpioMsg 0 0) 1 ;;
      if negb (msg m =? 0) then gpio_ret true else wait_start_bit n'
  end.

(** The return value when it is not 0, or the message and its tag. *)
Definition read_one_response (data_size : Z)
  : gpio (Z + fsi_gpio_msg * Z) :=
  started <- wait_start_bit FSI_GPIO_MTOE_COUNT ;;
  if negb started then gpio_ret (inl (- EIO))
  else
    (* Read slave ID & response tag *)
    m <- serial_in (GpioMsg 0 0) 4 ;;
    let tag := Z.land (msg m) 0x3 in
    m <- (if (tag =? FSI_GPIO_RESP_ACK) && negb (u8 data_size =? 0)
          then serial_in m (u8 data_size * 8) else gpio_ret m) ;;
    (* read CRC *)
    m <- serial_in m FSI_GPIO_CRC_SIZE ;;
    (* we have a whole message now; check CRC *)
    let crc := u8 (fsi_crc4 0 1 1) in
    let crc := u8 (fsi_crc4 crc (msg m) (bits m)) in
    if negb (crc =? 0) then gpio_ret (inl (- EIO))
    else gpio_ret (inr (m, tag)).

Definition issue_term (slave : Z) : gpio Z :=
  serial_out (build_term_command fsi_crc4 slave) ;;;
  echo_delay ;;;
  r <- read_one_response 0 ;;
  match r with
  | inl _ => gpio_ret (- EIO)
  | inr (_, tag) =>
      if negb (tag =? FSI_GPIO_RESP_ACK) then gpio_ret (- EIO) else gpio_ret 0
  end.

(** [data[size-i-1] = val & 0xff; val >>= 8]: the bytes of the response,
    first byte first. *)
Fixpoint response_bytes (n : nat) (val : Z) (acc : list Z) : list Z :=
  match n with
  | O => acc
  | S n' => response_bytes n' (Z.shiftr val 8) (Z.land val 0xff :: acc)
  end.

Definition response_data (response : fsi_gpio_msg) (size : Z) : list Z :=
  let val := Z.shiftr (msg response) 4 in      (* clear crc & mask *)
  let val := Z.land val (u64 (u64 (Z.shiftl 1 (size * 8)) - 1)) in
  response_bytes (Z.to_nat size) val [].

(** [poll_for_response] from label retry, with [budget] D-POLLs left
    before it gives up; [has_data] is whether [data] is not NULL.  The
    result is the return value and what was stored through [data]. *)
Fixpoint poll_retry (budget : nat) (slave size : Z) (has_data : bool)
  : gpio (Z * list Z) :=
  r <- read_one_response size ;;
  match r with
  | inl rc => gpio_ret (rc, [])
  | inr (response, tag) =>
      if tag =? FSI_GPIO_RESP_ACK then
        (* Clock the slave enough to be ready for next operation *)
        clock_zeros FSI_GPIO_PRIME_SLAVE_CLOCKS ;;;
        gpio_ret (0, if negb (size =? 0) && has_data
                     then response_data response size else [])
      else if tag =? FSI_GPIO_RESP_BUSY then
        clock_zeros FSI_GPIO_DPOLL_CLOCKS ;;;
        match budget with
        | S budget' =>
            serial_out (build_dpoll_command fsi_crc4 slave) ;;;
            echo_delay ;;;
            poll_retry budget' slave size has_data
        | O =>
            issue_term slave ;;;
            clock_zeros FSI_GPIO_PRIME_SLAVE_CLOCKS ;;;
            gpio_ret (- EIO, [])
        end
      else
        clock_zeros FSI_GPIO_PRIME_SLAVE_CLOCKS ;;;
        gpio_ret (- EIO, [])
  end.

Definition poll_for_response (slave size : Z) (has_data : bool)
  : gpio (Z * list Z) :=
  poll_retry FSI_GPIO_MAX_BUSY slave (u8 size) has_data.

Definition fsi_master_gpio_xfer (slave : Z) (cmd : fsi_gpio_msg)
    (resp_len : Z) (has_resp : bool) : gpio (Z * list Z) :=
  if external_mode master then gpio_ret (- EBUSY, [])
  else
    serial_out cmd ;;;
    echo_delay ;;;
    poll_for_response (u8 slave) resp_len has_resp.

Definition fsi_master_gpio_read (link : Z) (id addr size : Z)
  : gpio (Z * list Z) :=
  if negb (link =? 0) then gpio_ret (- ENODEV, [])
  else
    fsi_master_gpio_xfer id
      (build_abs_ar_command fsi_crc4 (u8 id) addr size None) size true.

Definition fsi_master_gpio_write (link : Z) (id addr : Z) (val : list Z)
    (size : Z) : gpio (Z * list Z) :=
  if negb (link =? 0) then gpio_ret (- ENODEV, [])
  else
    fsi_master_gpio_xfer id
      (build_abs_ar_command fsi_crc4 (u8 id) addr size (Some val)) 0 false.

Definition fsi_master_gpio_term (link : Z) (id : Z) : gpio (Z * list Z) :=
  if negb (link =? 0) then gpio_ret (- ENODEV, [])
  else fsi_master_gpio_xfer id (build_term_command fsi_crc4 (u8 id)) 0 false.

End Responses.

(** Issue a break command on link *)
Definition fsi_master_gpio_break (link : Z) : gpio Z :=
  if negb (link =? 0) then gpio_ret (- ENODEV)
  else
    gpio_do trace_fsi_master_gpio_break ;;;
    if external_mode master then gpio_ret (- EBUSY)
    else
      set_sda_output 1 ;;;
      sda_out 1 ;;;
      clock_toggle FSI_PRE_BREAK_CLOCKS ;;;
      sda_out 0 ;;;
      clock_toggle FSI_BREAK_CLOCKS ;;;
      echo_delay ;;;
      sda_out 1 ;;;
      clock_toggle FSI_POST_BREAK_CLOCKS ;;;
      (* Wait for logic reset to take effect *)
      gpio_do (udelay 200) ;;;
      gpio_ret 0.

Definition fsi_master_gpio_init : gpio unit :=
  gpio_when (has_mux master) (gpio_do (gpiod_direction_output gpio_mux 1)) ;;;
  gpio_when (has_trans master) (gpio_do (gpiod_direction_output gpio_trans 1)) ;;;
  gpio_when (has_enable master) (gpio_do (gpiod_direction_output gpio_enable 1)) ;;;
  gpio_do (gpiod_direction_output gpio_clk 1) ;;;
  gpio_do (gpiod_direction_output gpio_data 1) ;;;
  clock_zeros FSI_INIT_CLOCKS.

(** The GPIO calls on a line that is not there return without effect. *)
Definition fsi_master_gpio_init_external : gpio unit :=
  gpio_when (has_mux master) (gpio_do (gpiod_direction_output gpio_mux 0)) ;;;
  gpio_when (has_trans master) (gpio_do (gpiod_direction_output gpio_trans 0)) ;;;
  gpio_when (has_enable master) (gpio_do (gpiod_direction_output gpio_enable 1)) ;;;
  gpio_do (gpiod_direction_input gpio_clk) ;;;
  gpio_do (gpiod_direction_input gpio_data).

Definition fsi_master_gpio_link_enable (link : Z) : gpio Z :=
  if negb (link =? 0) then gpio_ret (- ENODEV)
  else if negb (external_mode master) && has_enable master then
    gpio_do (gpiod_set_value gpio_enable 1) ;;; gpio_ret 0
  else gpio_ret (- EBUSY).

End Master.

Definition set_external_mode (e : bool) (master : fsi_master_gpio)
  : fsi_master_gpio :=
  GpioMaster (has_trans master) (has_enable master) (has_mux master) e.

(** [external_mode_store]: [err] and [val] are what [kstrtoul] makes of the
    text written to the attribute.  The result is the return value and
    whether the bus was rescanned, with the master as it is afterwards. *)
Definition external_mode_store (master : fsi_master_gpio) (err val count : Z)
  : gpio (Z * bool * fsi_master_gpio) :=
  if negb (err =? 0) then gpio_ret (err, false, master)
  else
    let external := negb (val =? 0) in
    if Bool.eqb external (external_mode master)
    then gpio_ret (count, false, master)
    else
      let master' := set_external_mode external master in
      (if external_mode master' then fsi_master_gpio_init_external master'
       else fsi_master_gpio_init master') ;;;
      gpio_ret (count, true, master').

(** ** Observations of the lines *)

(** The level the master drives on the data line each time it raises the
    clock; [None] while the data line is an input. *)
Fixpoint sda_at_clocks (cur : option Z) (l : list gpio_event)
  : list (option Z) :=
  match l with
  | [] => []
  | gpiod_direction_output gpio_data v :: l' => sda_at_clocks (Some v) l'
  | gpiod_set_value gpio_data v :: l' => sda_at_clocks (Some v) l'
  | gpiod_direction_input gpio_data :: l' => sda_at_clocks None l'
  | gpiod_set_value gpio_clk 1 :: l' => cur :: sda_at_clocks cur l'
  | _ :: l' => sda_at_clocks cur l'
  end.

(** How often the clock is raised. *)
Definition clock_pulses (l : list gpio_event) : nat :=
  length (List.filter
            (fun e => match e with
                      | gpiod_set_value gpio_clk 1 => true
                      | _ => false
                      end) l).

(** The commands sent, as the trace point of [serial_out] records them. *)
Definition commands_sent (l : list gpio_event) : list fsi_gpio_msg :=
  omap (fun e => match e with
                 | trace_fsi_master_gpio_out n m => Some (GpioMsg m n)
                 | _ => None
                 end) l.

(** The bits of a message of [n] bits, first bit first. *)
Definition msg_bits (m : Z) (n : nat) : list bool :=
  map (fun i => Z.testbit m (Z.of_nat (n - 1 - i))) (seq 0 n).

(** The first [n] bytes of a data buffer, as [push_data] reads it. *)
Fixpoint first_bytes (n : nat) (data : list Z) : list Z :=
  match n with
  | O => []
  | S n' => u8 (default 0 (head data)) :: first_bytes n' (tail data)
  end.

(** The number that a list of bytes spells, first byte most significant. *)
Definition be_value (l : list Z) : Z := fold_left (fun acc b => acc * 256 + b) l 0.

(** The head of an absolute-address command, before the address: slave id,
    command code, and the read/write bit. *)
Definition abs_ar_head (id : Z) (write : bool) : Z :=
  (id mod 4 * 8 + FSI_GPIO_CMD_ABS_AR) * 2 + (if write then 0 else 1).

(** The address as it is sent: 21 bits, adjusted to the size. *)
Definition abs_ar_addr (addr size : Z) : Z :=
  (if size =? 4 then Z.lor (Z.land addr (Z.lnot (size - 1))) 1
   else Z.land addr (Z.lnot (size - 1))) mod 2 ^ 21.

(** The level of the data line after a list of calls. *)
Fixpoint sda_after (cur : option Z) (l : list gpio_event) : option Z :=
  match l with
  | [] => cur
  | gpiod_direction_output gpio_data v :: l' => sda_after (Some v) l'
  | gpiod_set_value gpio_data v :: l' => sda_after (Some v) l'
  | gpiod_direction_input gpio_data :: l' => sda_after None l'
  | _ :: l' => sda_after cur l'
  end.

(** A computation that does not read the lines: it returns [a] and makes
    the calls [evs], whatever the lines are. *)
Definition emits {A : Type} (m : gpio A) (a : A) (evs : list gpio_event)
  : Prop :=
  forall l, m l = (a, GpioLines (sda l) (sampled l) (pins l ++ evs)).

(** The calls of [count] clock pulses. *)
Definition clock_events (n : nat) : list gpio_event :=
  concat (replicate n [gpiod_set_value gpio_clk 0; udelay FSI_GPIO_STD_DLY;
                       gpiod_set_value gpio_clk 1; udelay FSI_GPIO_STD_DLY]).

(** A CRC that is always 0, for the scenarios. *)
Definition crc_zero (c x n : Z) : Z := 0.

(** The number that a list of bits spells, first bit most significant. *)
Definition bits_value (l : list bool) : Z :=
  fold_left (fun acc (b : bool) => 2 * acc + (if b then 1 else 0)) l 0.

(** The next [n] levels that the master will find on the data line. *)
Definition samples (l : gpio_lines) (n : nat) : list Z :=
  map (fun i => sda l (sampled l + i)%nat) (seq 0 n).

(** The calls that a computation makes when it is started on [l]. *)
Definition calls {A : Type} (m : gpio A) (l : gpio_lines) : list gpio_event :=
  drop (length (pins l)) (pins (m l).2).

(** [m], started on [l], returns [a] after it has sampled the data line
    [k] times and made the calls [evs]. *)
Definition runs {A : Type} (m : gpio A) (l : gpio_lines) (a : A) (k : nat)
    (evs : list gpio_event) : Prop :=
  m l = (a, GpioLines (sda l) (sampled l + k) (pins l ++ evs)).

(** Lines on which the levels [vs] come first, and the level [rest] follows
    for ever. *)
Definition lines_of (vs : list Z) (rest : Z) : gpio_lines :=
  GpioLines (fun i => nth i vs rest) 0 [].

(** Whatever the levels on the data line are, [m] returns, and its result
    and calls satisfy [P]. *)
Definition always {A : Type} (m : gpio A)
    (P : A -> list gpio_event -> Prop) : Prop :=
  forall l, exists a k evs, runs m l a k evs /\ P a evs.

(** What [poll_for_response] may send with [budget] D-POLLs left: some
    D-POLLs and nothing else, or all of them and one TERM, and then the
    result is -EIO. *)
Definition dpolls_then_term (dpoll term : fsi_gpio_msg) (budget : nat)
    (r : Z * list Z) (sent : list fsi_gpio_msg) : Prop :=
  exists k, (k <= budget)%nat /\
    (sent = replicate k dpoll \/
     (k = budget /\ sent = replicate k dpoll ++ [term] /\ r = (- EIO, []))).

(** An ACK response as it is on the wire after the start bit: the slave
    id, the tag, the data bytes and the CRC. *)
Definition ack_response (sid : Z) (bytes : list Z) (crc : Z) : Z :=
  ((sid * 4 + FSI_GPIO_RESP_ACK) * 2 ^ (8 * Z.of_nat (length bytes))
   + be_value bytes) * 16 + crc.

(** * Properties *)

(** ** Ring buffer *)

Lemma size_t_small z : 0 <= z < 2 ^ 32 -> size_t z = z.
Proof. intros H. unfold size_t, BITS_PER_LONG. now apply Z.mod_small. Qed.

Lemma nb_words n :
  0 <= n <= 32 -> size_t (Z.shiftl (size_t n) 2) = 4 * n.
Proof.
  intros H. rewrite (size_t_small n) by lia.
  rewrite Z.shiftl_mul_pow2 by lia. change (2 ^ 2) with 4.
  rewrite size_t_small; lia.
Qed.

Lemma aligned_words a : word_aligned a -> a = 4 * Z.shiftr a 2.
Proof.
  unfold word_aligned. intros H. rewrite Z.shiftl_mul_pow2 in H by lia.
  change (2 ^ 2) with 4 in H. lia.
Qed.

Lemma shiftr_words k : Z.shiftr (4 * k) 2 = k.
Proof.
  rewrite Z.shiftr_div_pow2 by lia. change (2 ^ 2) with 4.
  rewrite Z.mul_comm. apply Z.div_mul. lia.
Qed.

Lemma test_set_bit nr w : 0 <= nr -> test_bit nr (set_bit nr w) = true.
Proof. intros H. unfold test_bit, set_bit. apply Z.setbit_eq. exact H. Qed.

Lemma test_clear_bit nr w : test_bit nr (clear_bit nr w) = false.
Proof. unfold test_bit, clear_bit. apply Z.clearbit_eq. Qed.

Lemma test_set_bit_ne nr nr' w :
  0 <= nr -> nr <> nr' -> test_bit nr' (set_bit nr w) = test_bit nr' w.
Proof. intros H0 H. unfold test_bit, set_bit. apply Z.setbit_neq; assumption. Qed.

Lemma test_clear_bit_ne nr nr' w :
  nr <> nr' -> test_bit nr' (clear_bit nr w) = test_bit nr' w.
Proof. intros H. unfold test_bit, clear_bit. apply Z.clearbit_neq. exact H. Qed.

(** What the two counters are on a well-formed buffer. *)
Lemma nbreadable_wf b :
  buf_wf b ->
  sbefifo_buf_nbreadable b =
    4 * (if buf_full b then 32
         else if rpos b <=? wpos b then wpos b - rpos b else 32 - rpos b).
Proof.
  intros (Hr & Hw & _). unfold sbefifo_buf_nbreadable, buf_full, SBEFIFO_BUF_CNT in *.
  apply nb_words.
  destruct (test_bit _ _); [lia|]. destruct (Z.leb_spec (rpos b) (wpos b)); lia.
Qed.

Lemma nbwriteable_wf b :
  buf_wf b ->
  sbefifo_buf_nbwriteable b =
    4 * (if buf_full b then 0
         else if wpos b <? rpos b then rpos b - wpos b else 32 - wpos b).
Proof.
  intros (Hr & Hw & _). unfold sbefifo_buf_nbwriteable, buf_full, SBEFIFO_BUF_CNT in *.
  apply nb_words.
  destruct (test_bit _ _); [lia|]. destruct (Z.ltb_spec (wpos b) (rpos b)); lia.
Qed.

Lemma buf_init_wf b : buf_wf (sbefifo_buf_init b).
Proof. unfold buf_wf, buf_full, SBEFIFO_BUF_CNT. simpl. repeat split; lia. Qed.

Lemma wrotenb_wf b a :
  buf_wf b -> word_aligned a -> 0 <= a <= sbefifo_buf_nbwriteable b ->
  buf_wf (sbefifo_buf_wrotenb b a).2.
Proof.
  intros Hwf Ha Hb. rewrite nbwriteable_wf in Hb by done.
  apply aligned_words in Ha. set (k := Z.shiftr a 2) in *.
  destruct Hwf as (Hr & Hw & Hf).
  unfold buf_wf, buf_full, sbefifo_buf_wrotenb, SBEFIFO_BUF_CNT in *.
  cbn [fst snd flags rpos wpos]. fold k.
  destruct (test_bit SBEFIFO_BUF_FULL (flags b)) eqn:Hfull.
  - assert (k = 0) as -> by lia. specialize (Hf eq_refl).
    rewrite Z.add_0_r.
    destruct (Z.eqb_spec (wpos b) 32); [exfalso; lia|].
    destruct (Z.eqb_spec (wpos b) (rpos b)); [|exfalso; lia].
    repeat split; try lia.
  - destruct (Z.ltb_spec (wpos b) (rpos b));
      destruct (Z.eqb_spec (wpos b + k) 32);
      repeat match goal with
             | |- context [Z.eqb ?x ?y] => destruct (Z.eqb_spec x y)
             end;
      repeat split; try lia; rewrite ?Hfull; try discriminate; intros; lia.
Qed.

Lemma readnb_wf b n :
  buf_wf b -> word_aligned n -> 0 <= n <= sbefifo_buf_nbreadable b ->
  rpos b + Z.shiftr n 2 <= SBEFIFO_BUF_CNT ->
  buf_wf (sbefifo_buf_readnb b n).2.
Proof.
  intros Hwf Ha Hb Hc. rewrite nbreadable_wf in Hb by done.
  apply aligned_words in Ha. set (k := Z.shiftr n 2) in *.
  destruct Hwf as (Hr & Hw & Hf).
  unfold buf_wf, buf_full, sbefifo_buf_readnb, SBEFIFO_BUF_CNT in *.
  cbn [fst snd flags rpos wpos]. fold k.
  destruct (Z.eqb_spec n 0) as [Hn|Hn].
  - assert (k = 0) as -> by lia. rewrite Z.add_0_r.
    destruct (Z.eqb_spec (rpos b) 32); [exfalso; lia|]. repeat split; try lia. done.
  - rewrite test_clear_bit.
    destruct (test_bit SBEFIFO_BUF_FULL (flags b)) eqn:Hfull.
    + destruct (Z.eqb_spec (rpos b + k) 32); repeat split; try lia; discriminate.
    + destruct (Z.leb_spec (rpos b) (wpos b));
        destruct (Z.eqb_spec (rpos b + k) 32); repeat split; try lia; discriminate.
Qed.

Lemma buf_reachable_in_wf b : buf_reachable_in b -> buf_wf b.
Proof.
  induction 1 as [b|b [a|n] Hb IH Hadm Hc].
  - apply buf_init_wf.
  - destruct Hadm. now apply wrotenb_wf.
  - destruct Hadm. now apply readnb_wf.
Qed.

Lemma full_iff_nothing_writeable b :
  buf_wf b -> (buf_full b = true <-> sbefifo_buf_nbwriteable b = 0).
Proof.
  intros Hwf. rewrite nbwriteable_wf by done. destruct Hwf as (Hr & Hw & _).
  unfold SBEFIFO_BUF_CNT in *.
  destruct (buf_full b); [split; [lia|done]|].
  destruct (Z.ltb_spec (wpos b) (rpos b)); split; (discriminate || lia).
Qed.

(** C2 (amended).  For every ring buffer reached from [sbefifo_buf_init] by
    commits that stay inside the storage (a write commit no larger than what
    [sbefifo_buf_nbwriteable] reports, a read commit no larger than what
    [sbefifo_buf_nbreadable] reports), the two counts add up to at most the
    capacity of 128 bytes, they add up to exactly the capacity if and only
    if the buffer is full or one of the two cursors is at the start of the
    storage, and the full flag is set if and only if nothing is writable. *)
Theorem C2_ring_accounting b :
  buf_reachable_in b ->
  sbefifo_buf_nbwriteable b + sbefifo_buf_nbreadable b <= 4 * SBEFIFO_BUF_CNT /\
  (sbefifo_buf_nbwriteable b + sbefifo_buf_nbreadable b = 4 * SBEFIFO_BUF_CNT <->
   buf_full b = true \/ rpos b = 0 \/ wpos b = 0) /\
  (buf_full b = true <-> sbefifo_buf_nbwriteable b = 0).
Proof.
  intros Hb. apply buf_reachable_in_wf in Hb.
  split; [|split; [|now apply full_iff_nothing_writeable]];
    rewrite nbwriteable_wf, nbreadable_wf by done;
    destruct Hb as (Hr & Hw & Hf); unfold SBEFIFO_BUF_CNT in *;
    destruct (buf_full b).
  - lia.
  - destruct (Z.ltb_spec (wpos b) (rpos b)), (Z.leb_spec (rpos b) (wpos b)); lia.
  - split; [now left | lia].
  - destruct (Z.ltb_spec (wpos b) (rpos b)), (Z.leb_spec (rpos b) (wpos b));
      (split; [intros ?; right; lia | intros [?|[?|?]]; [discriminate|lia..]]).
Qed.

Lemma two_read_of_four_in : buf_reachable_in two_read_of_four.
Proof.
  unfold two_read_of_four.
  apply reach_in_step; [apply reach_in_step; [apply reach_in_init|..]|..];
    vm_compute; intuition congruence.
Defined.

Lemma C2_ring_accounting_witness :
  buf_reachable_in two_read_of_four /\
  sbefifo_buf_nbwriteable two_read_of_four +
    sbefifo_buf_nbreadable two_read_of_four <= 4 * SBEFIFO_BUF_CNT.
Proof.
  split; [exact two_read_of_four_in|].
  exact (proj1 (C2_ring_accounting two_read_of_four two_read_of_four_in)).
Defined.

(** C2, as stated, fails *)
Lemma C2_counterexample :
  ~ (forall b, buf_reachable b ->
       sbefifo_buf_nbwriteable b + sbefifo_buf_nbreadable b
         = 4 * SBEFIFO_BUF_CNT /\
       (buf_full b = true <-> sbefifo_buf_nbwriteable b = 0)).
Proof.
  intros H. destruct (H two_read_of_four) as [Hsum _].
  - unfold two_read_of_four.
    apply reach_step; [apply reach_step; [apply reach_init|]|];
      vm_compute; intuition congruence.
  - vm_compute in Hsum. discriminate.
Qed.

(** C8 (divergence in the code).  The full ring buffer is reachable, a
    read commit of zero bytes is within what is readable, and
    [sbefifo_buf_readnb] answers [true] for it although the buffer is left
    full, with all 128 bytes readable: the function does not report
    whether the buffer is now empty, as its comment says it does. *)
Theorem C8_commit_read_of_nothing_on_full :
  buf_reachable filled_buf /\
  admissible filled_buf (commit_read 0) /\
  sbefifo_buf_readnb filled_buf 0 = (true, filled_buf) /\
  buf_full filled_buf = true /\
  sbefifo_buf_nbreadable filled_buf = 4 * SBEFIFO_BUF_CNT.
Proof.
  split; [|vm_compute; intuition congruence].
  apply reach_step; [apply reach_init|]. vm_compute; intuition congruence.
Qed.

Lemma readnb_clears_full b n :
  n <> 0 -> buf_full (sbefifo_buf_readnb b n).2 = false.
Proof.
  intros Hn. unfold sbefifo_buf_readnb, buf_full. cbn [snd flags].
  destruct (Z.eqb_spec n 0); [done|]. apply test_clear_bit.
Qed.

Lemma readnb_reports_empty b n :
  buf_wf b -> word_aligned n -> 0 < n <= sbefifo_buf_nbreadable b ->
  rpos b + Z.shiftr n 2 <= SBEFIFO_BUF_CNT ->
  (sbefifo_buf_readnb b n).1 = true <->
  sbefifo_buf_nbreadable (sbefifo_buf_readnb b n).2 = 0.
Proof.
  intros Hwf Ha Hn Hc.
  assert (Hwf' : buf_wf (sbefifo_buf_readnb b n).2) by (apply readnb_wf; [done..|lia|done]).
  rewrite (nbreadable_wf _ Hwf'). rewrite readnb_clears_full by lia.
  destruct Hwf' as (Hr & Hw & _). revert Hr Hw.
  unfold sbefifo_buf_readnb, SBEFIFO_BUF_CNT. cbn [fst snd flags rpos wpos].
  set (r := if _ =? 32 then _ else _). intros Hr Hw.
  destruct (Z.eqb_spec r (wpos b)), (Z.leb_spec r (wpos b)); split; try done; lia.
Qed.

Lemma wrotenb_reports_full b n :
  buf_wf b -> word_aligned n -> 0 <= n <= sbefifo_buf_nbwriteable b ->
  (sbefifo_buf_wrotenb b n).1 = buf_full (sbefifo_buf_wrotenb b n).2.
Proof.
  intros Hwf Ha Hn. rewrite nbwriteable_wf in Hn by done.
  destruct Hwf as (Hr & Hw & Hf).
  unfold sbefifo_buf_wrotenb, buf_full, SBEFIFO_BUF_CNT in *.
  cbn [fst snd flags rpos wpos].
  set (w := if _ =? 32 then _ else _).
  rewrite (Z.eqb_sym (rpos b) w).
  destruct (Z.eqb_spec w (rpos b)) as [Heq|Hne].
  - symmetry. now apply test_set_bit.
  - destruct (test_bit SBEFIFO_BUF_FULL (flags b)) eqn:Hfull; [|done].
    exfalso. apply Hne. subst w. specialize (Hf eq_refl).
    apply aligned_words in Ha.
    destruct (Z.eqb_spec (wpos b + Z.shiftr n 2) 32); lia.
Qed.

Lemma is_aligned_false len : len mod 4 <> 0 -> is_aligned len = false.
Proof.
  intros H. unfold is_aligned. apply Z.eqb_neq.
  rewrite Z.shiftl_mul_pow2, Z.shiftr_div_pow2 by lia. change (2 ^ 2) with 4.
  pose proof (Z.div_mod len 4). lia.
Qed.

Section Entry.
Context {D : Type} (bus : fsi_device D) (tm : timing).
Implicit Types s : sbefifo D.

(** C9.  A read and a write whose length in bytes is not a multiple of 4
    return -EINVAL at once and leave the whole device as it was: no client
    reference taken, nothing queued, no data moved, whatever the client and
    its blocking mode are. *)
Theorem C9_unaligned_length_rejected s c user src len alloc_ok sig fault :
  len mod 4 <> 0 ->
  sbefifo_read_common c user len sig fault s = (s, Returned (- EINVAL) []) /\
  sbefifo_write_enter c user src len alloc_ok s = (s, Returned (- EINVAL) []).
Proof.
  intros H. apply is_aligned_false in H.
  unfold sbefifo_read_common, sbefifo_write_enter. now rewrite H.
Qed.

Lemma next_xfr_fst s :
  (sbefifo_next_xfr s).1 =
    log (map EvDiscard (next_xfr_scan (xfr_mem s) (xfrs s)).1)
      (set_xfrs (next_xfr_scan (xfr_mem s) (xfrs s)).2
         (set_xfr_mem
            (foldr (fun x m => alter xfr_kfree x m) (xfr_mem s)
               (next_xfr_scan (xfr_mem s) (xfrs s)).1) s)).
Proof. unfold sbefifo_next_xfr. now destruct (next_xfr_scan _ _). Qed.


Lemma length_kfree_all (l : list nat) (m : list sbefifo_xfr) :
  length (foldr (fun x m => alter xfr_kfree x m) m l) = length m.
Proof. induction l as [|x l IH]; [done|]. simpl. now rewrite length_alter. Qed.



Lemma get_client_kref_up s c :
  get_client (sbefifo_get_client c s) c =
    match clients s !! c with
    | Some cl => client_set_kref (kref cl + 1) cl
    | None => zeroed_client
    end.
Proof.
  unfold get_client, sbefifo_get_client, upd_client. simpl.
  rewrite list_lookup_alter_eq. now destruct (clients s !! c).
Qed.




End Entry.

(** C9 at a length of 3 bytes, on a device just probed. *)
Lemma C9_unaligned_length_rejected_witness :
  3 mod 4 <> 0 /\
  sbefifo_read_common 0 false 3 false false (sbefifo_probe tt 0)
    = (sbefifo_probe tt 0, Returned (- EINVAL) []) /\
  sbefifo_write_enter 0 false [1] 3 true (sbefifo_probe tt 0)
    = (sbefifo_probe tt 0, Returned (- EINVAL) []).
Proof.
  assert (H : 3 mod 4 <> 0) by (vm_compute; congruence).
  split; [exact H|].
  exact (C9_unaligned_length_rejected (sbefifo_probe tt 0) 0%nat false [1] 3
           true false false H).
Defined.

Section Fatal.
Context {D : Type} (bus : fsi_device D) (tm : timing).
Implicit Types s : sbefifo D.

(** *** Calls on a device whose fatal code is set *)

Lemma write_enter_fatal s c user src len alloc_ok :
  rc s <> 0 -> xfrs s = [] -> is_aligned len = true -> len <> 0 ->
  (sbefifo_write_enter c user src len alloc_ok s).2 = Returned (rc s) [].
Proof.
  intros Hrc Hq Hal Hlen. unfold sbefifo_write_enter. rewrite Hal.
  destruct (Z.eqb_spec len 0); [done|]. cbn [negb].
  unfold sbefifo_next_xfr. cbn [xfr_mem xfrs sbefifo_get_client upd_client set_clients].
  rewrite Hq. cbn [next_xfr_scan head]. 
  rewrite bool_decide_eq_false_2 by (intros H; now apply H).
  rewrite andb_false_r. cbn [andb]. unfold sbefifo_enq_xfr.
  change (rc (log _ _)) with (rc s).
  destruct (Z.eqb_spec (rc s) 0); [done|]. reflexivity.
Qed.

Lemma write_loop_fatal s w sig fault :
  rc s <> 0 -> (sbefifo_write_loop w sig fault s).2 = Returned (rc s) [].
Proof.
  intros Hrc. unfold sbefifo_write_loop, sbefifo_write_ready.
  destruct (Z.eqb_spec (rc s) 0); [done|]. reflexivity.
Qed.

Lemma read_fatal s c user len sig fault :
  rc s <> 0 -> is_aligned len = true -> nonblocking (get_client s c) = false ->
  (sbefifo_read_common c user len sig fault s).2 = Returned (rc s) [].
Proof.
  intros Hrc Hal Hnb. unfold sbefifo_read_common, sbefifo_read_ready.
  rewrite Hal, Hnb. destruct (Z.eqb_spec (rc s) 0); [done|]. reflexivity.
Qed.

Lemma open_fatal s flags alloc_ok :
  rc s <> 0 -> sbefifo_open flags alloc_ok s = (s, Returned (rc s) []).
Proof.
  intros Hrc. unfold sbefifo_open. now destruct (Z.eqb_spec (rc s) 0).
Qed.


End Fatal.




(** On a client that has already made a round trip of one word, a second
    round trip of 32 words hands back the first 31 and the transfer is over:
    the word that shared the down FIFO with the marker was dropped in its
    place, and a further read sleeps. *)
Lemma echo_second_round_trip_short (ws : list Z) :
  length ws = 31%nat ->
  forall w : Z,
  drop 9 (run echo_bus hz100
            (round_trip_ops [1] ++
             [OpWrite 0%nat false (ws ++ [w]) 128 true;
              OpWriteLoop 1%nat false false; OpWriteLoop 1%nat false false;
              OpTick 64; OpRead 0%nat false 128 false false;
              OpRead 0%nat false 4 false false])
            (sbefifo_probe (Echo [] [] false) 0)).2
  = [Returned 124 ws; Pending].
Proof.
  intros H w.
  do 31 (destruct ws as [|? ws]; [discriminate H|]).
  destruct ws; [|discriminate H]. vm_compute. reflexivity.
Qed.





(** C7 (amended).  A client has written 8 words and the up FIFO reports 4
    free entries at every read of its status register.  Before the timer
    function runs, end of transfer has not been raised; ONE run of the
    timer function reads the status twice, writes the 8 words in two
    groups of 4, raises end of transfer and goes on to poll the down FIFO:
    the write side is drained within one run, not two. *)
Theorem C7_drained_in_one_tick (tm : timing) (w1 w2 w3 w4 w5 w6 w7 w8 : Z) :
  let s := eight_words_written half_full_bus tm tt [w1; w2; w3; w4; w5; w6; w7; w8] in
  let up_sts := BusRead (Z.lor SBEFIFO_UP SBEFIFO_STS) 0 0x00040000 in
  eot_raises 0 (trace s) = 0%nat /\
  timer_due s = true /\
  trace (step half_full_bus tm (OpTick 64) s).1 =
    trace s ++
    map (EvBus 0)
      [up_sts; BusWrite SBEFIFO_UP w1 0; BusWrite SBEFIFO_UP w2 0;
       BusWrite SBEFIFO_UP w3 0; BusWrite SBEFIFO_UP w4 0;
       up_sts; BusWrite SBEFIFO_UP w5 0; BusWrite SBEFIFO_UP w6 0;
       BusWrite SBEFIFO_UP w7 0; BusWrite SBEFIFO_UP w8 0;
       BusWrite (Z.lor SBEFIFO_UP SBEFIFO_EOT_RAISE) SBEFIFO_EOT_MAGIC 0;
       BusRead (Z.lor SBEFIFO_DWN SBEFIFO_STS) 0 0x00100000] /\
  ticks_until_eot half_full_bus tm 0 8 s = Some 1%nat.
Proof. vm_compute. repeat split; reflexivity. Qed.

Lemma C7_counterexample :
  ticks_until_eot half_full_bus hz100 0 8
    (eight_words_written half_full_bus hz100 tt [1; 2; 3; 4; 5; 6; 7; 8])
  <> Some 2%nat.
Proof. vm_compute. discriminate. Qed.

(** ** Order of service *)

Lemma terminal_app x t1 t2 : terminal x t1 -> terminal x (t1 ++ t2).
Proof. unfold terminal. rewrite !elem_of_app. tauto. Qed.

Lemma fifo_trace_snoc tr e :
  fifo_trace tr ->
  (forall y a, e = EvBus y a -> forall x, (x < y)%nat -> terminal x tr) ->
  fifo_trace (tr ++ [e]).
Proof.
  intros Htr He i y a Hi x Hx.
  destruct (decide (i < length tr)%nat) as [Hlt|Hge].
  - rewrite lookup_app_l in Hi by done.
    rewrite take_app_le by lia. eauto.
  - rewrite lookup_app_r in Hi by lia.
    destruct (i - length tr)%nat eqn:Hd; [|done]. simplify_eq/=.
    assert (i = length tr) as -> by lia.
    rewrite take_app_length. eauto.
Qed.

Lemma qinv_move v v' : qinv v -> move v v' -> qinv v'.
Proof.
  intros [Hf Hs Ha He Ht Hfifo Hh] Hm.
  destruct Hm; cbn [v_rc v_q v_len v_tr v_hung] in *.
  - (* discard *)
    split; cbn [v_rc v_q v_len v_tr v_hung].
    + intros Hr. specialize (Hf Hr). done.
    + intros i j a b Hij Hi Hj. apply (Hs (S i) (S j)); [lia|done..].
    + intros y Hy. apply Ha. now right.
    + rewrite omap_app. simpl. now rewrite app_nil_r.
    + intros y Hy. destruct (Ht y Hy) as [Hin|[Hin|Hin]]; [|right; left; now apply terminal_app|tauto].
      apply elem_of_cons in Hin as [->|Hin]; [|tauto].
      right; left. right. apply elem_of_app. right. now left.
    + apply fifo_trace_snoc; [done|]. intros; done.
    + done.
  - (* enq *)
    split; cbn [v_rc v_q v_len v_tr v_hung].
    + done.
    + intros i j a b Hij Hi Hj.
      apply lookup_app_Some in Hj as [Hj|[Hjl Hj]].
      * rewrite lookup_app_l in Hi by (apply lookup_lt_Some in Hj; lia). eauto.
      * destruct (j - length q)%nat eqn:Hd; [|done]. simplify_eq/=.
        rewrite lookup_app_l in Hi by lia.
        apply Ha. eapply list_elem_of_lookup_2. done.
    + intros y Hy. apply elem_of_app in Hy as [Hy|Hy].
      * specialize (Ha y Hy). lia.
      * apply list_elem_of_singleton in Hy. lia.
    + rewrite omap_app, seq_S, He. done.
    + intros y Hy. destruct (decide (y = n)) as [->|Hne].
      * left. apply elem_of_app. right. now left.
      * destruct (Ht y ltac:(lia)) as [Hin|[Hin|Hin]]; [left|right; left; now apply terminal_app|done].
        apply elem_of_app. now left.
    + apply fifo_trace_snoc; [done|]. intros; done.
    + done.
  - (* bus *)
    split; cbn [v_rc v_q v_len v_tr v_hung]; try done.
    + rewrite omap_app. simpl. now rewrite app_nil_r.
    + intros y Hy. destruct (Ht y Hy) as [Hin|[Hin|Hin]]; [tauto|right; left; now apply terminal_app|tauto].
    + apply fifo_trace_snoc; [done|]. intros y b [= <- <-] z Hz.
      destruct (Ht z) as [Hin|[Hin|Hin]].
      * specialize (Ha x ltac:(now left)). lia.
      * exfalso. apply list_elem_of_lookup in Hin as [k Hk].
        destruct k as [|k]; [simplify_eq/=; lia|].
        specialize (Hs 0%nat (S k) x z ltac:(lia) eq_refl Hk). lia.
      * done.
      * specialize (Hf Hin). done.
  - (* complete *)
    split; cbn [v_rc v_q v_len v_tr v_hung].
    + intros Hr. specialize (Hf Hr). done.
    + intros i j a b Hij Hi Hj. apply (Hs (S i) (S j)); [lia|done..].
    + intros y Hy. apply Ha. now right.
    + rewrite omap_app. simpl. now rewrite app_nil_r.
    + intros y Hy. destruct (Ht y Hy) as [Hin|[Hin|Hin]]; [|right; left; now apply terminal_app|tauto].
      apply elem_of_cons in Hin as [->|Hin]; [|tauto].
      right; left. left. apply elem_of_app. right. now left.
    + apply fifo_trace_snoc; [done|]. intros; done.
    + done.
  - (* fatal *)
    split; cbn [v_rc v_q v_len v_tr v_hung]; try done.
    + intros y Hy. apply elem_of_nil in Hy. done.
    + rewrite omap_app. simpl. now rewrite app_nil_r.
    + intros y Hy. tauto.
    + apply fifo_trace_snoc; [done|]. intros; done.
  - (* hang *)
    split; cbn [v_rc v_q v_len v_tr v_hung]; try done.
    intros _. destruct (decide (r = 0)) as [|Hr]; [done|]. specialize (Hf Hr). done.
Qed.

Lemma qinv_moves v v' : qinv v -> rtc move v v' -> qinv v'.
Proof. intros Hv Hm. induction Hm; eauto using qinv_move. Qed.

Lemma qinv_removed v : qinv v -> v_hung v = false -> qinv (removed v).
Proof.
  intros [Hf Hs Ha He Ht Hfifo Hh] Hnh. unfold removed.
  split; cbn [v_rc v_q v_len v_tr v_hung]; try done.
  - intros y Hy. apply elem_of_nil in Hy. done.
  - rewrite omap_app. simpl. now rewrite app_nil_r.
  - intros y Hy. right. right. unfold ENODEV. lia.
  - apply fifo_trace_snoc; [done|]. intros; done.
  - rewrite Hnh. done.
Qed.

(** Nothing moves once the fatal code is set and the queue is empty. *)
Lemma moves_latched v v' :
  rtc move v v' -> v_rc v <> 0 -> v_q v = [] -> v' = v.
Proof.
  intros Hm Hr Hq. destruct Hm as [|v v1 v2 Hm _]; [done|].
  destruct Hm; cbn [v_rc v_q] in *; done.
Qed.

Section Views.
Context {D : Type} (bus : fsi_device D) (tm : timing).
Implicit Types s : sbefifo D.

Lemma view_upd_client c f s : view (upd_client c f s) = view s.
Proof. reflexivity. Qed.

Lemma view_upd_xfr x f s : view (upd_xfr x f s) = view s.
Proof. unfold view. cbn. now rewrite length_alter. Qed.

Lemma view_mod_timer_now s : view (mod_timer_now s) = view s.
Proof. reflexivity. Qed.

Lemma view_cancel_xfr x s : view (cancel_xfr x s) = view s.
Proof. unfold cancel_xfr. now rewrite view_mod_timer_now, view_upd_xfr. Qed.

Lemma view_client_release_xfrs l s : view (client_release_xfrs l s).2 = view s.
Proof.
  revert s. induction l as [|x l IH]; intros s; [done|]. cbn [client_release_xfrs].
  destruct (xfr_test _ _ _).
  - now rewrite IH, view_upd_xfr.
  - specialize (IH (mod_timer_now
      (upd_xfr x (xfr_set_flags (set_bit SBEFIFO_XFR_CANCEL)) s))).
    destruct (client_release_xfrs l _) as [kept s2]. cbn [snd] in *.
    now rewrite IH, view_mod_timer_now, view_upd_xfr.
Qed.

Lemma view_client_release c s : view (sbefifo_client_release c s) = view s.
Proof.
  unfold sbefifo_client_release. rewrite view_upd_client.
  destruct (rc s =? 0); [|done].
  pose proof (view_client_release_xfrs (c_xfrs (get_client s c)) s) as H.
  destruct (client_release_xfrs _ _) as [kept s']. now rewrite view_upd_client.
Qed.

Lemma view_get_client c s : view (sbefifo_get_client c s) = view s.
Proof. reflexivity. Qed.

Lemma view_put_client c s : view (sbefifo_put_client c s) = view s.
Proof.
  unfold sbefifo_put_client. destruct (_ =? 0); [|done].
  now rewrite view_client_release.
Qed.

Lemma next_xfr_scan_app m q :
  q = (next_xfr_scan m q).1 ++ (next_xfr_scan m q).2.
Proof.
  induction q as [|x q IH]; [done|]. cbn [next_xfr_scan].
  destruct (test_bit _ _); [|done].
  destruct (next_xfr_scan m q) as [dropped rest]. cbn [fst snd] in *.
  now rewrite IH at 1.
Qed.

Lemma moves_discards r dropped rest n t :
  rtc move (QView r (dropped ++ rest) n t false)
    (QView r rest n (t ++ map EvDiscard dropped) false).
Proof.
  revert t. induction dropped as [|x dropped IH]; intros t.
  - cbn. rewrite app_nil_r. done.
  - eapply rtc_l; [apply mv_discard|].
    replace (t ++ map EvDiscard (x :: dropped))
      with ((t ++ [EvDiscard x]) ++ map EvDiscard dropped)
      by (now rewrite <- app_assoc).
    apply IH.
Qed.

Lemma moves_buses r x q n t l :
  rtc move (QView r (x :: q) n t false)
    (QView r (x :: q) n (t ++ map (EvBus x) l) false).
Proof.
  revert t. induction l as [|a l IH]; intros t.
  - cbn. rewrite app_nil_r. done.
  - eapply rtc_l; [apply (mv_bus _ _ _ _ _ a)|].
    replace (t ++ map (EvBus x) (a :: l))
      with ((t ++ [EvBus x a]) ++ map (EvBus x) l)
      by (now rewrite <- app_assoc).
    apply IH.
Qed.

Lemma moves_next_xfr s :
  hung s = false -> rtc move (view s) (view (sbefifo_next_xfr s).1).
Proof.
  intros Hh. rewrite next_xfr_fst. unfold view. cbn. rewrite length_kfree_all, Hh.
  rewrite (next_xfr_scan_app (xfr_mem s) (xfrs s)) at 1.
  apply moves_discards.
Qed.

Lemma moves_enq_xfr c alloc_ok s :
  hung s = false -> rtc move (view s) (view (sbefifo_enq_xfr c alloc_ok s).1).
Proof.
  intros Hh.
  unfold sbefifo_enq_xfr. destruct (Z.eqb_spec (rc s) 0) as [Hz|]; [|done].
  destruct alloc_ok; [|done]. cbn [negb fst]. unfold view. cbn.
  rewrite length_app, Hz, Hh. cbn. rewrite Nat.add_1_r.
  apply rtc_once. apply mv_enq.
Qed.

Lemma view_tick_commit x cancel (c : tick_ctx) s :
  view (tick_commit x cancel c s) =
    QView (rc s) (xfrs s) (length (xfr_mem s))
      (trace s ++ map (EvBus x) (t_io c).2) (hung s).
Proof.
  unfold tick_commit. destruct cancel; unfold view; cbn; now rewrite length_alter.
Qed.

Lemma moves_tick_finish x q cancel (c : tick_ctx) e s :
  xfrs s = x :: q -> hung s = false ->
  rtc move (view s) (view (tick_finish tm x cancel c e s)).
Proof.
  intros Hq Hh.
  assert (H1 : rtc move (view s) (view (tick_commit x cancel c s))).
  { rewrite view_tick_commit, Hq, Hh. unfold view. rewrite Hq, Hh.
    apply moves_buses. }
  pose proof (view_tick_commit x cancel c s) as Hv. rewrite Hq, Hh in Hv.
  unfold tick_finish. destruct e as [ret| | |].
  - destruct (Z.eqb_spec ret 0); [done|]. cbn [negb].
    etrans; [exact H1|]. rewrite Hv.
    set (s1 := tick_commit x cancel c s) in *.
    unfold fatal, view, drop_queue. cbn. rewrite length_kfree_all.
    injection Hv as _ _ -> -> ->.
    apply rtc_once. now apply mv_fatal.
  - etrans; [exact H1|]. rewrite Hv.
    set (s1 := tick_commit x cancel c s) in *.
    set (s2 := log _ _).
    assert (Hv2 : view s2 = QView (rc s) q (length (xfr_mem s))
                   ((trace s ++ map (EvBus x) (t_io c).2) ++ [EvComplete x])
                   false).
    { injection Hv as Hr Hx Hl Ht Hg. unfold s2, view. cbn.
      rewrite length_alter, Hr, Hx, Hl, Ht, Hg. done. }
    assert (Hh2 : hung s2 = false) by (now injection Hv2).
    pose proof (moves_next_xfr s2 Hh2) as Hn.
    destruct (sbefifo_next_xfr s2) as [s3 nxt]. cbn [fst] in Hn.
    assert (Hm : rtc move (view s1) (view s3)).
    { etrans; [|exact Hn]. rewrite Hv, Hv2. apply rtc_once, mv_complete. }
    rewrite <- Hv. destruct nxt; exact Hm.
  - exact H1.
  - etrans; [exact H1|]. rewrite Hv.
    set (s1 := tick_commit x cancel c s) in *.
    unfold view. cbn. injection Hv as -> -> -> -> _.
    apply rtc_once, mv_hang.
Qed.

Lemma moves_poll_timer fuel s :
  hung s = false ->
  rtc move (view s) (view (sbefifo_poll_timer bus tm fuel s)).
Proof.
  intros Hh. unfold sbefifo_poll_timer. destruct (xfrs s) as [|x q] eqn:Hq; [done|].
  cbn [head]. destruct (poll_write _ _ _ _) as [c1 [e|]].
  - now apply (moves_tick_finish x q).
  - destruct (poll_read _ _ _ _ _ _) as [c2 e]. now apply (moves_tick_finish x q).
Qed.

Lemma moves_write_enter c user src len alloc_ok s :
  hung s = false ->
  rtc move (view s) (view (sbefifo_write_enter c user src len alloc_ok s).1).
Proof.
  intros Hh.
  unfold sbefifo_write_enter. destruct (is_aligned len); [|done]. cbn [negb].
  destruct (len =? 0); [done|].
  pose proof (moves_next_xfr (sbefifo_get_client c s) Hh) as Hn.
  rewrite view_get_client in Hn.
  assert (Hh2 : hung (sbefifo_next_xfr (sbefifo_get_client c s)).1 = false).
  { rewrite next_xfr_fst. exact Hh. }
  destruct (sbefifo_next_xfr _) as [s2 xfr]. cbn [fst] in Hn, Hh2.
  destruct (_ && _ && _).
  - cbn [fst]. now rewrite view_put_client.
  - pose proof (moves_enq_xfr c alloc_ok s2 Hh2) as He.
    destruct (sbefifo_enq_xfr c alloc_ok s2) as [s3 [err|x]]; cbn [fst] in *.
    + rewrite view_put_client. etrans; done.
    + etrans; [exact Hn|]. exact He.
Qed.

Lemma view_write_leave w ret s : view (write_leave w ret s).1 = view s.
Proof. unfold write_leave. cbn [fst]. now rewrite view_put_client. Qed.

Lemma view_write_loop w sig fault s :
  view (sbefifo_write_loop w sig fault s).1 = view s.
Proof.
  unfold sbefifo_write_loop. destruct (sbefifo_write_ready _ _ _) as [ready n].
  destruct ready; cbn [negb].
  - destruct (rc s =? 0); cbn [negb];
      [|now rewrite view_write_leave, view_upd_client].
    destruct (w_user w && fault); [now rewrite view_write_leave, view_cancel_xfr|].
    destruct (size_t (w_len w - _) =? 0).
    + now rewrite view_write_leave, view_mod_timer_now, view_upd_xfr, view_upd_client.
    + cbn [fst]. done.
  - destruct sig; [|done]. now rewrite view_write_leave, view_cancel_xfr.
Qed.

Lemma view_read_common c user len sig fault s :
  view (sbefifo_read_common c user len sig fault s).1 = view s.
Proof.
  unfold sbefifo_read_common. destruct (is_aligned len); [|done]. cbn [negb].
  destruct (_ && _); [done|].
  destruct (sbefifo_read_ready s c) as [[ready n] ret].
  destruct ready; cbn [negb].
  - destruct (ret =? 0); cbn [negb];
      [|cbn [fst]; now rewrite view_put_client].
    destruct (user && fault); [cbn [fst]; now rewrite view_put_client|].
    destruct (sbefifo_buf_readnb _ _) as [empty rb1].
    destruct empty; [|cbn [fst]; now rewrite view_put_client].
    destruct (head _); cbn [fst]; rewrite view_put_client; [|done].
    destruct (xfr_test _ _ _); cbn [negb]; [now rewrite view_upd_xfr|done].
  - destruct sig; [|done]. cbn [fst]. now rewrite view_put_client.
Qed.

Lemma view_release c s : view (sbefifo_release c s).1 = view s.
Proof. unfold sbefifo_release. cbn [fst]. now rewrite view_put_client. Qed.

Lemma view_remove s : view (sbefifo_remove s) = removed (view s).
Proof.
  unfold sbefifo_remove, removed, view, drop_queue. cbn.
  now rewrite length_kfree_all.
Qed.

(** What a step does to the view. *)
Lemma step_view o s :
  rtc move (view s) (view (step bus tm o s).1) \/
  (o = OpRemove /\ hung s = false /\
   view (step bus tm o s).1 = removed (view s)).
Proof.
  unfold step. destruct (hung s) eqn:Hh; [now left|].
  destruct o as [fl a|fl a|c u src len a|x sig fault|c u len sig fault|c|fuel|dt|].
  - left. unfold sbefifo_open. destruct (negb _); [done|]. now destruct (negb _).
  - left. unfold sbefifo_drv_open. now destruct (negb _).
  - left. destruct (client_usable s c); [|done]. now apply moves_write_enter.
  - left. destruct (find_writer x _); [|done]. now rewrite view_write_loop.
  - left. destruct (client_usable s c); [|done]. now rewrite view_read_common.
  - left. destruct (client_usable s c); [|done]. now rewrite view_release.
  - left. destruct (timer_due s); [|done]. cbn [fst].
    now apply (moves_poll_timer fuel (set_poll_timer None s)).
  - now left.
  - right. split; [done|]. split; [done|]. cbn [fst]. apply view_remove.
Qed.

Lemma qinv_probe (d : D) now : qinv (view (sbefifo_probe d now)).
Proof.
  split; cbn.
  - done.
  - intros i j x y _ Hi. done.
  - intros x Hx. apply elem_of_nil in Hx. done.
  - done.
  - intros x Hx. lia.
  - intros i y a Hi. done.
  - done.
Qed.

Lemma qinv_step o s : qinv (view s) -> qinv (view (step bus tm o s).1).
Proof.
  intros Hv. destruct (step_view o s) as [Hm|(_ & Hh & Hr)].
  - eapply qinv_moves; done.
  - rewrite Hr. now apply qinv_removed.
Qed.

Lemma after_cons o ops s :
  after bus tm (o :: ops) s = after bus tm ops (step bus tm o s).1.
Proof.
  unfold after. cbn [run]. destruct (step bus tm o s) as [s1 r].
  cbn [fst]. destruct (run bus tm ops s1). reflexivity.
Qed.

Lemma after_app ops1 ops2 s :
  after bus tm (ops1 ++ ops2) s = after bus tm ops2 (after bus tm ops1 s).
Proof.
  revert s. induction ops1 as [|o ops1 IH]; intros s; [done|].
  cbn [app]. rewrite !after_cons. apply IH.
Qed.

Lemma qinv_after ops s : qinv (view s) -> qinv (view (after bus tm ops s)).
Proof.
  revert s. induction ops as [|o ops IH]; intros s Hs; [done|].
  rewrite after_cons. apply IH. now apply qinv_step.
Qed.

End Views.

Lemma enq_order (tr : list event) n i j x cx y cy :
  omap enq_id tr = seq 0 n ->
  tr !! i = Some (EvEnq x cx) -> tr !! j = Some (EvEnq y cy) -> (i < j)%nat ->
  (x < y)%nat.
Proof.
  intros Hseq Hi Hj Hij.
  rewrite <- (take_drop_middle tr i _ Hi) in Hseq.
  rewrite omap_app in Hseq. cbn in Hseq.
  assert (Hy : y ∈ omap enq_id (drop (S i) tr)).
  { apply list_elem_of_omap. exists (EvEnq y cy). split; [|done].
    apply list_elem_of_lookup. exists (j - S i)%nat. rewrite lookup_drop.
    now replace (S i + (j - S i))%nat with j by lia. }
  apply list_elem_of_lookup in Hy as [k Hk].
  set (l1 := omap enq_id (take i tr)) in *.
  assert (H1 : seq 0 n !! length l1 = Some x).
  { rewrite <- Hseq. rewrite lookup_app_r by lia. now rewrite Nat.sub_diag. }
  assert (H2 : seq 0 n !! (length l1 + S k)%nat = Some y).
  { rewrite <- Hseq. rewrite lookup_app_r by lia.
    now replace (length l1 + S k - length l1)%nat with (S k) by lia. }
  apply lookup_seq in H1 as [-> _]. apply lookup_seq in H2 as [-> _]. lia.
Qed.

Section Service.
Context {D : Type} (bus : fsi_device D) (tm : timing).
Implicit Types s : sbefifo D.

(** C5.  In every history of a device, if the transfer [x] was queued
    before the transfer [y], then every access to the bus made for [y]
    comes after [x] has reached its end, completed or discarded: transfers
    are serviced one at a time in the order in which they were queued. *)
Theorem C5_fifo_service ops (d : D) now i j k x cx y cy a :
  let tr := trace (after bus tm ops (sbefifo_probe d now)) in
  tr !! i = Some (EvEnq x cx) -> tr !! j = Some (EvEnq y cy) -> (i < j)%nat ->
  tr !! k = Some (EvBus y a) ->
  exists m, (m < k)%nat /\
    (tr !! m = Some (EvComplete x) \/ tr !! m = Some (EvDiscard x)).
Proof.
  intros tr Hi Hj Hij Hk.
  pose proof (qinv_after bus tm ops _ (qinv_probe d now)) as [_ _ _ He _ Hf _].
  cbn [view v_tr v_len] in He, Hf. fold tr in He, Hf.
  pose proof (enq_order tr _ i j x cx y cy He Hi Hj Hij) as Hxy.
  destruct (Hf k y a Hk x Hxy) as [Hin|Hin];
    apply list_elem_of_lookup in Hin as [m Hm];
    pose proof (lookup_lt_Some _ _ _ Hm) as Hlt; rewrite length_take in Hlt;
    rewrite lookup_take_lt in Hm by lia;
    exists m; (split; [lia|tauto]).
Qed.

Lemma latched_step o s :
  qinv (view s) -> rc s <> 0 ->
  let s' := (step bus tm o s).1 in
  qinv (view s') /\ rc s' <> 0 /\ xfrs s' = [] /\
  (o <> OpRemove -> rc s' = rc s) /\ (rc s' = rc s \/ rc s' = - ENODEV).
Proof.
  intros Hv Hr s'. split; [now apply qinv_step|].
  pose proof (qi_fatal _ Hv Hr) as Hq. cbn [view v_q] in Hq.
  destruct (step_view bus tm o s) as [Hm|(-> & _ & Hrem)]; fold s' in Hm || fold s' in Hrem.
  - apply moves_latched in Hm; [|done..].
    injection Hm as Hr' Hq' _ _ _. rewrite Hr', Hq'. tauto.
  - injection Hrem as Hr' Hq' _ _ _. rewrite Hr', Hq'. unfold ENODEV. 
    repeat split; try done; tauto.
Qed.

Lemma latched_after ops s :
  qinv (view s) -> rc s <> 0 ->
  let s' := after bus tm ops s in
  qinv (view s') /\ rc s' <> 0 /\ xfrs s' = [] /\
  (OpRemove ∉ ops -> rc s' = rc s) /\ (rc s' = rc s \/ rc s' = - ENODEV).
Proof.
  revert s. induction ops as [|o ops IH]; intros s Hv Hr; cbn zeta.
  - split; [done|]. split; [done|]. split; [exact (qi_fatal _ Hv Hr)|]. tauto.
  - rewrite after_cons.
    destruct (latched_step o s Hv Hr) as (Hv1 & Hr1 & Hq1 & Hsame & Hor).
    destruct (IH _ Hv1 Hr1) as (Hv2 & Hr2 & Hq2 & Hsame2 & Hor2).
    split; [done|]. split; [done|]. split; [done|]. split.
    + intros Hnot. rewrite Hsame2, Hsame; [done|..].
      * intros ->. apply Hnot. now left.
      * intros Hin. apply Hnot. now right.
    + destruct Hor2 as [->|]; [exact Hor|tauto].
Qed.

Lemma latched_calls_fail s : qinv (view s) -> rc s <> 0 -> calls_fail bus tm s.
Proof.
  intros Hv Hr.
  assert (Hh : hung s = false).
  { destruct (hung s) eqn:Hh; [|done]. now pose proof (qi_hung _ Hv Hh). }
  pose proof (qi_fatal _ Hv Hr) as Hq. cbn [view v_q] in Hq.
  unfold calls_fail, step. rewrite Hh. repeat split.
  - intros c user src len alloc_ok -> Hal Hlen. now apply write_enter_fatal.
  - intros x sig fault Hw. destruct (find_writer x (writers s)); [|done].
    now apply write_loop_fatal.
  - intros c user len sig fault -> Hnb Hal. now apply read_fatal.
  - intros flags alloc_ok. now apply open_fatal.
Qed.

(** C3 (amended).  When the fatal code of a device is set, its queue is
    empty, and after any further operations the code is still set, the
    queue still empty, and a write that gets as far as queueing, a pass of
    a write inside its loop, a read on a blocking handle and
    [sbefifo_open] all fail with the code the device then holds.  That
    code is the one that was latched as long as the device has not been
    removed; [sbefifo_remove] replaces it by -ENODEV. *)
Theorem C3_fatal_latch ops (d : D) now :
  let s := after bus tm ops (sbefifo_probe d now) in
  rc s <> 0 ->
  xfrs s = [] /\
  forall ops',
    let s' := after bus tm ops' s in
    rc s' <> 0 /\ xfrs s' = [] /\
    (OpRemove ∉ ops' -> rc s' = rc s) /\
    (rc s' = rc s \/ rc s' = - ENODEV) /\
    calls_fail bus tm s'.
Proof.
  intros s Hr.
  pose proof (qinv_after bus tm ops _ (qinv_probe d now)) as Hv. fold s in Hv.
  split; [exact (qi_fatal _ Hv Hr)|]. intros ops' s'.
  destruct (latched_after ops' s Hv Hr) as (Hv' & Hr' & Hq' & Hsame & Hor).
  fold s' in Hv', Hr', Hq', Hsame, Hor.
  repeat (split; [done|]). now apply latched_calls_fail.
Qed.

End Service.

Lemma C3_fatal_latch_witness :
  rc bus_failed <> 0 /\ xfrs bus_failed = [].
Proof.
  unfold bus_failed.
  set (ops := [OpOpen 0 true; OpWrite 0%nat false [1] 4 true;
               OpWriteLoop 0%nat false false; OpTick 64]).
  assert (H : rc (after broken_bus hz100 ops (sbefifo_probe tt 0)) <> 0)
    by (vm_compute; congruence).
  split; [exact H|].
  exact (proj1 (C3_fatal_latch broken_bus hz100 ops tt 0 H)).
Defined.

(** After the bus has failed with -EIO the device is removed: the next
    write fails with -ENODEV. *)
Lemma C3_counterexample :
  rc bus_failed = - EIO /\
  client_usable (after broken_bus hz100 [OpRemove] bus_failed) 0 = true /\
  (step broken_bus hz100 (OpWrite 0%nat false [1] 4 true)
     (after broken_bus hz100 [OpRemove] bus_failed)).2
    = Returned (- ENODEV) [] /\
  - ENODEV <> rc bus_failed.
Proof. vm_compute. repeat split; congruence. Qed.

Lemma C5_fifo_service_witness :
  let tr := trace two_clients_served in
  (tr !! 0%nat = Some (EvEnq 0 0) /\ tr !! 1%nat = Some (EvEnq 1 1) /\
   (0 < 1)%nat /\
   tr !! 10%nat
     = Some (EvBus 1 (BusRead (Z.lor SBEFIFO_UP SBEFIFO_STS) 0 0x00100000))) /\
  exists m, (m < 10)%nat /\
    (tr !! m = Some (EvComplete 0) \/ tr !! m = Some (EvDiscard 0)).
Proof.
  cbv zeta. unfold two_clients_served.
  set (ops := [OpOpen 0 true; OpOpen 0 true;
     OpWrite 0%nat false [1] 4 true; OpWriteLoop 0%nat false false;
     OpWrite 1%nat false [2] 4 true; OpWriteLoop 1%nat false false;
     OpTick 64; OpTick 64]).
  set (d := Echo [] [] false).
  assert (H1 : trace (after echo_bus hz100 ops (sbefifo_probe d 0)) !! 0%nat
               = Some (EvEnq 0 0)) by (vm_compute; reflexivity).
  assert (H2 : trace (after echo_bus hz100 ops (sbefifo_probe d 0)) !! 1%nat
               = Some (EvEnq 1 1)) by (vm_compute; reflexivity).
  assert (H3 : (0 < 1)%nat) by lia.
  assert (H4 : trace (after echo_bus hz100 ops (sbefifo_probe d 0)) !! 10%nat
               = Some (EvBus 1 (BusRead (Z.lor SBEFIFO_UP SBEFIFO_STS) 0 0x00100000)))
    by (vm_compute; reflexivity).
  split; [tauto|].
  exact (C5_fifo_service echo_bus hz100 ops d 0 0%nat 1%nat 10%nat 0%nat 0%nat
           1%nat 1%nat _ H1 H2 H3 H4).
Defined.

(** ** End of transfer is raised once *)

Lemma eot_raises_app x t1 t2 :
  eot_raises x (t1 ++ t2) = (eot_raises x t1 + eot_raises x t2)%nat.
Proof. unfold eot_raises. now rewrite List.filter_app, length_app. Qed.

Lemma flags_at_insert m x y c f :
  flags_at (<[x := (c, f)]> m) y =
    if decide (x = y /\ (x < length m)%nat) then f else flags_at m y.
Proof.
  unfold flags_at. destruct (decide (x = y /\ (x < length m)%nat)) as [[-> Hlt]|Hn].
  - now rewrite list_lookup_insert_eq.
  - destruct (decide (x = y)) as [->|Hne].
    + rewrite list_insert_ge by tauto || lia. done.
    + now rewrite list_lookup_insert_ne.
Qed.

Lemma flags_at_Some m x c f : m !! x = Some (c, f) -> flags_at m x = f.
Proof. unfold flags_at. now intros ->. Qed.

Lemma test_bit_0 nr : test_bit nr 0 = false.
Proof. unfold test_bit. apply Z.bits_0. Qed.

Lemma writers_of_app c w1 w2 :
  writers_of c (w1 ++ w2) = (writers_of c w1 + writers_of c w2)%nat.
Proof. unfold writers_of. now rewrite List.filter_app, length_app. Qed.

Lemma elem_of_filter_bool {A} (P : A -> bool) (l : list A) a :
  a ∈ List.filter P l <-> a ∈ l /\ P a = true.
Proof. rewrite !list_elem_of_In. apply List.filter_In. Qed.

(** Dropping the one writer of transfer [x] from the writers. *)
Lemma writers_of_remove c c0 x (wr : list (nat * nat)) :
  NoDup (map snd wr) -> (c0, x) ∈ wr ->
  Z.of_nat (writers_of c (List.filter (fun w => negb (Nat.eqb w.2 x)) wr)) =
    Z.of_nat (writers_of c wr) - (if decide (c = c0) then 1 else 0).
Proof.
  induction wr as [|[c1 x1] wr IH]; intros Hnd Hin.
  - apply elem_of_nil in Hin. done.
  - cbn [map snd] in Hnd. apply NoDup_cons in Hnd as [Hx1 Hnd].
    unfold writers_of in *. cbn [List.filter snd fst].
    destruct (Nat.eqb_spec x1 x) as [->|Hne]; cbn [negb].
    + assert (Hc : c1 = c0).
      { apply elem_of_cons in Hin as [[= -> ]|Hin]; [done|].
        exfalso. apply Hx1. apply list_elem_of_fmap. now exists (c0, x). }
      subst c1.
      assert (Hid : List.filter (fun w => negb (Nat.eqb w.2 x)) wr = wr).
      { apply List.forallb_filter_id. apply List.forallb_forall.
        intros [c2 x2] Hin2. cbn. destruct (Nat.eqb_spec x2 x) as [->|]; [|done].
        exfalso. apply Hx1. apply list_elem_of_fmap. exists (c2, x).
        split; [done|]. now apply list_elem_of_In. }
      rewrite Hid. destruct (Nat.eqb_spec c0 c) as [->|Hc].
      * rewrite decide_True by done. cbn [length]. lia.
      * rewrite decide_False by congruence. lia.
    + apply elem_of_cons in Hin as [[= _ ?]|Hin]; [congruence|].
      specialize (IH Hnd Hin). cbn [List.filter fst].
      destruct (Nat.eqb c1 c); cbn [length]; lia.
Qed.

Lemma NoDup_filter_snd (P : nat * nat -> bool) (wr : list (nat * nat)) :
  NoDup (map snd wr) -> NoDup (map snd (List.filter P wr)).
Proof.
  induction wr as [|w wr IH]; [done|]. cbn [map List.filter].
  intros [Hx Hnd]%NoDup_cons. destruct (P w); [|auto]. cbn [map].
  apply NoDup_cons. split; [|auto]. intros Hin. apply Hx.
  apply list_elem_of_fmap in Hin as [w' [-> Hin]].
  apply list_elem_of_fmap. exists w'. split; [done|].
  now apply elem_of_filter_bool in Hin as [Hin _].
Qed.

Lemma writers_of_pos c x (wr : list (nat * nat)) :
  (c, x) ∈ wr -> (0 < writers_of c wr)%nat.
Proof.
  intros Hin. unfold writers_of.
  assert (H : (c, x) ∈ List.filter (fun w => Nat.eqb w.1 c) wr).
  { apply elem_of_filter_bool. split; [done|]. cbn. apply Nat.eqb_refl. }
  destruct (List.filter _ wr); [now apply elem_of_nil in H|]. cbn. lia.
Qed.

Lemma overlay_of_pending f :
  test_bit SBEFIFO_XFR_RESP_PENDING f = true -> cancel_overlay f = f.
Proof. intros H. unfold cancel_overlay. rewrite H. now rewrite andb_false_r. Qed.

Lemma cinv_move v v' : cinv v -> cmove v v' -> cinv v'.
Proof.
  intros [Ha Ho Hf Hr Hp Hw Hn Hc Hk] Hm.
  destruct Hm; cbn [c_q c_mem c_cl c_wr c_tr] in *.
  - (* events *)
    split; cbn [c_q c_mem c_cl c_wr c_tr]; try done.
    + intros x. rewrite eot_raises_app, H. specialize (Ho x). lia.
    + intros x Hx. rewrite eot_raises_app, H, Hf by done. done.
    + intros x Hx. rewrite eot_raises_app, H, Nat.add_0_r. now apply Hr.
  - (* shrink *)
    split; cbn [c_q c_mem c_cl c_wr c_tr]; try done; eauto.
  - (* open *)
    split; cbn [c_q c_mem c_cl c_wr c_tr]; try done.
    + intros c x Hin. destruct (Hw c x Hin) as [H1 H2]. split; [done|].
      rewrite length_app. lia.
    + intros c xs k o x Hl Hx. apply lookup_app_Some in Hl as [Hl|[_ Hl]]; [eauto|].
      destruct (c - length cl)%nat; [|done]. simplify_eq/=.
      apply elem_of_nil in Hx. done.
    + intros c xs k o Hl. apply lookup_app_Some in Hl as [Hl|[Hge Hl]]; [eauto|].
      destruct (c - length cl)%nat eqn:Hd; [|done]. simplify_eq/=.
      assert (writers_of c wr = 0%nat) as ->; [|done].
      unfold writers_of. apply length_zero_iff_nil.
      destruct (List.filter _ wr) as [|[c1 x1] l] eqn:Hfl; [done|].
      assert (Hin : (c1, x1) ∈ List.filter (fun w => Nat.eqb w.1 c) wr)
        by (rewrite Hfl; now left).
      apply elem_of_filter_bool in Hin as [Hin Heq]. cbn in Heq.
      apply Nat.eqb_eq in Heq as ->. destruct (Hw _ _ Hin) as [_ Hlt]. lia.
  - (* enq *)
    pose proof (lookup_lt_Some _ _ _ H) as Hlt.
    split; cbn [c_q c_mem c_cl c_wr c_tr].
    + intros x Hx. rewrite length_app. cbn.
      apply elem_of_app in Hx as [Hx|Hx]; [specialize (Ha x Hx); lia|].
      apply list_elem_of_singleton in Hx. lia.
    + done.
    + intros x Hx. rewrite length_app in Hx. cbn in Hx. apply Hf. lia.
    + intros x Hx Hone. unfold flags_at.
      apply elem_of_app in Hx as [Hx|Hx].
      * rewrite lookup_app_l by now apply Ha. now apply Hr.
      * apply list_elem_of_singleton in Hx as ->. rewrite Hf in Hone by lia. done.
    + intros x. unfold flags_at. destruct (decide (x < length m)%nat).
      * rewrite lookup_app_l by done. apply Hp.
      * rewrite lookup_app_r by lia. destruct (x - length m)%nat; [|done].
        cbn. done.
    + intros c1 x Hin. rewrite length_insert.
      apply elem_of_app in Hin as [Hin|Hin].
      * destruct (Hw _ _ Hin) as [H1 H2]. split; [|done].
        now apply lookup_app_l_Some.
      * apply list_elem_of_singleton in Hin as [= -> ->]. split; [|done].
        now apply list_lookup_middle.
    + rewrite map_app. cbn. apply NoDup_app. split; [done|]. split.
      * intros x Hx Hx'. apply list_elem_of_singleton in Hx' as ->.
        apply list_elem_of_fmap in Hx as [[c1 x1] [Heq Hin]]. cbn in Heq.
        destruct (Hw _ _ Hin) as [H1 _]. apply lookup_lt_Some in H1. lia.
      * apply NoDup_singleton.
    + intros c1 xs1 k1 o1 x Hl Hx.
      assert (Hold : forall y f, m !! y = Some (c1, f) ->
                exists f', (m ++ [(c, 0)]) !! y = Some (c1, f')).
      { intros y f Hy. exists f. now apply lookup_app_l_Some. }
      destruct (decide (c = c1)) as [<-|Hne].
      * rewrite list_lookup_insert_eq in Hl by done. simplify_eq.
        apply elem_of_app in Hx as [Hx|Hx].
        -- destruct (Hc _ _ _ _ _ H Hx) as [f Hf']. eauto.
        -- apply list_elem_of_singleton in Hx as ->. exists 0.
           now apply list_lookup_middle.
      * rewrite list_lookup_insert_ne in Hl by done.
        destruct (Hc _ _ _ _ _ Hl Hx) as [f Hf']. eauto.
    + intros c1 xs1 k1 o1 Hl. rewrite writers_of_app.
      unfold writers_of at 2. cbn [List.filter fst].
      destruct (decide (c = c1)) as [<-|Hne].
      * rewrite list_lookup_insert_eq in Hl by done. simplify_eq.
        rewrite Nat.eqb_refl. cbn [length]. specialize (Hk _ _ _ _ H). lia.
      * rewrite list_lookup_insert_ne in Hl by done.
        destruct (Nat.eqb_spec c c1); [done|]. cbn [length].
        specialize (Hk _ _ _ _ Hl). lia.
  - (* client_xfrs *)
    pose proof (lookup_lt_Some _ _ _ H) as Hlt.
    split; cbn [c_q c_mem c_cl c_wr c_tr]; try done.
    + intros c1 x Hin. rewrite length_insert. eauto.
    + intros c1 xs1 k1 o1 x Hl Hx. destruct (decide (c = c1)) as [<-|Hne].
      * rewrite list_lookup_insert_eq in Hl by done. simplify_eq. eauto.
      * rewrite list_lookup_insert_ne in Hl by done. eauto.
    + intros c1 xs1 k1 o1 Hl. destruct (decide (c = c1)) as [<-|Hne].
      * rewrite list_lookup_insert_eq in Hl by done. simplify_eq. eauto.
      * rewrite list_lookup_insert_ne in Hl by done. eauto.
  - (* leave *)
    destruct (Hw _ _ H) as [Hx Hclt].
    pose proof (lookup_lt_Some _ _ _ Hx) as Hxlt.
    assert (Hrp : test_bit SBEFIFO_XFR_RESP_PENDING f' = false).
    { destruct H1 as [->|[->| ->]]; vm_compute; reflexivity. }
    split; cbn [c_q c_mem c_cl c_wr c_tr]; try done.
    + intros y Hy. rewrite length_insert. auto.
    + intros y Hy. rewrite length_insert in Hy. auto.
    + intros y Hy Hone. specialize (Hr y Hy Hone). rewrite flags_at_insert.
      case_decide as Hd; [|done]. destruct Hd as [<- _].
      rewrite (flags_at_Some _ _ _ _ Hx), test_bit_0 in Hr. done.
    + intros y. rewrite flags_at_insert. case_decide; [|apply Hp].
      rewrite Hrp. done.
    + intros c1 x1 Hin. apply elem_of_filter_bool in Hin as [Hin Hne].
      cbn in Hne. apply negb_true_iff, Nat.eqb_neq in Hne.
      destruct (Hw _ _ Hin) as [H2 H3]. rewrite length_insert.
      split; [|done]. now rewrite list_lookup_insert_ne.
    + now apply NoDup_filter_snd.
    + intros c1 xs1 k1 o1 y Hl Hy.
      assert (Hold : exists f, m !! y = Some (c1, f)).
      { destruct (decide (c = c1)) as [<-|Hne].
        - rewrite list_lookup_insert_eq in Hl by done. simplify_eq. eauto.
        - rewrite list_lookup_insert_ne in Hl by done. eauto. }
      destruct Hold as [f Hf']. destruct (decide (x = y)) as [<-|Hne].
      * rewrite list_lookup_insert_eq by done. simplify_eq. eauto.
      * rewrite list_lookup_insert_ne by done. eauto.
    + intros c1 xs1 k1 o1 Hl. rewrite (writers_of_remove c1 c x) by done.
      destruct (decide (c = c1)) as [<-|Hne].
      * rewrite list_lookup_insert_eq in Hl by done. simplify_eq.
        rewrite decide_True by done. specialize (Hk _ _ _ _ H0). lia.
      * rewrite list_lookup_insert_ne in Hl by done.
        rewrite decide_False by congruence. specialize (Hk _ _ _ _ Hl). lia.
  - (* close *)
    pose proof (lookup_lt_Some _ _ _ H) as Hlt.
    split; cbn [c_q c_mem c_cl c_wr c_tr]; try done.
    + intros c1 x Hin. rewrite length_insert. eauto.
    + intros c1 xs1 k1 o1 x Hl Hx. destruct (decide (c = c1)) as [<-|Hne].
      * rewrite list_lookup_insert_eq in Hl by done. simplify_eq. eauto.
      * rewrite list_lookup_insert_ne in Hl by done. eauto.
    + intros c1 xs1 k1 o1 Hl. destruct (decide (c = c1)) as [<-|Hne].
      * rewrite list_lookup_insert_eq in Hl by done. simplify_eq.
        specialize (Hk _ _ _ _ H). cbn in Hk. lia.
      * rewrite list_lookup_insert_ne in Hl by done. eauto.
  - (* free *)
    pose proof (lookup_lt_Some _ _ _ H) as Hlt.
    assert (Hfl : forall y nr, nr <> SBEFIFO_XFR_CANCEL ->
              test_bit nr (flags_at m' y) = test_bit nr (flags_at m y)).
    { intros y nr Hnr. unfold flags_at.
      destruct (H1 y) as [->|(_ & c' & f & -> & ->)]; [done|]. cbn.
      apply test_set_bit_ne; [done|congruence]. }
    split; cbn [c_q c_mem c_cl c_wr c_tr]; try done.
    + intros y Hy. rewrite H0. auto.
    + intros y Hy. rewrite H0 in Hy. auto.
    + intros y Hy Hone. rewrite Hfl by done. auto.
    + intros y. rewrite !Hfl by done. auto.
    + intros c1 x1 Hin. destruct (Hw _ _ Hin) as [H3 H4]. rewrite length_insert.
      split; [|done]. destruct (H1 x1) as [->|(Hx1 & c' & f & Hm1 & _)]; [done|].
      exfalso. destruct (Hc _ _ _ _ _ H Hx1) as [f0 Hf0].
      assert (c1 = c) as -> by congruence.
      pose proof (writers_of_pos _ _ _ Hin). specialize (Hk _ _ _ _ H).
      destruct o; lia.
    + intros c1 xs1 k1 o1 y Hl Hy.
      assert (Hold : exists f, m !! y = Some (c1, f)).
      { destruct (decide (c = c1)) as [<-|Hne].
        - rewrite list_lookup_insert_eq in Hl by done. simplify_eq. eauto.
        - rewrite list_lookup_insert_ne in Hl by done. eauto. }
      destruct Hold as [f Hf']. destruct (H1 y) as [->|(_ & c' & f0 & Hm1 & ->)]; [eauto|].
      assert (c' = c1) as -> by congruence. eauto.
    + intros c1 xs1 k1 o1 Hl. destruct (decide (c = c1)) as [<-|Hne].
      * rewrite list_lookup_insert_eq in Hl by done. simplify_eq. eauto.
      * rewrite list_lookup_insert_ne in Hl by done. eauto.
  - (* tick *)
    pose proof (lookup_lt_Some _ _ _ H) as Hlt.
    pose proof (flags_at_Some _ _ _ _ H) as Hfx.
    split; cbn [c_q c_mem c_cl c_wr c_tr]; try done.
    + intros y Hy. rewrite length_insert. auto.
    + intros y. rewrite eot_raises_app. destruct (decide (y = x)) as [->|Hne].
      * pose proof (Ho x). destruct (eot_raises x tr) as [|[|n]] eqn:Hcnt; [lia| |lia].
        specialize (Hr x ltac:(now left) Hcnt). rewrite Hfx in Hr.
        rewrite H3; [lia|]. rewrite overlay_of_pending by done.
        specialize (Hp x). rewrite Hfx in Hp. auto.
      * rewrite H1 by done. rewrite Nat.add_0_r. apply Ho.
    + intros y Hy. rewrite length_insert in Hy. rewrite eot_raises_app.
      rewrite Hf by done. rewrite H1 by lia. done.
    + intros y Hy. rewrite eot_raises_app, flags_at_insert. intros Hone.
      case_decide as Hd.
      * destruct Hd as [<- _]. pose proof (Ho x).
        destruct (eot_raises x tr) as [|[|n]] eqn:Hcnt; [| |lia].
        -- apply H4; [done|lia].
        -- apply H6. specialize (Hr x ltac:(now left) Hcnt). now rewrite Hfx in Hr.
      * assert (y <> x) by (intros ->; apply Hd; done).
        rewrite H1 in Hone by done. apply Hr; [auto|lia].
    + intros y. rewrite flags_at_insert. case_decide as Hd; [|apply Hp].
      apply H5. specialize (Hp x). now rewrite Hfx in Hp.
    + intros c1 x1 Hin. destruct (Hw _ _ Hin) as [H8 H9]. split; [|done].
      destruct (decide (x = x1)) as [<-|Hne].
      * rewrite list_lookup_insert_eq by done. simplify_eq. now rewrite H7.
      * now rewrite list_lookup_insert_ne.
    + intros c1 xs1 k1 o1 y Hl Hy. destruct (Hc _ _ _ _ _ Hl Hy) as [f0 Hf0].
      destruct (decide (x = y)) as [<-|Hne].
      * rewrite list_lookup_insert_eq by done. simplify_eq. eauto.
      * rewrite list_lookup_insert_ne by done. eauto.
Qed.

Lemma cinv_moves v v' : cinv v -> rtc cmove v v' -> cinv v'.
Proof. intros Hv Hm. induction Hm; eauto using cinv_move. Qed.

Lemma eots_snoc l a :
  eots (l ++ [a]) = (eots l + if is_eot_raise a then 1 else 0)%nat.
Proof.
  unfold eots. rewrite List.filter_app, length_app. cbn.
  now destruct (is_eot_raise a).
Qed.

Lemma eot_raises_bus x y l :
  eot_raises y (map (EvBus x) l) = if decide (y = x) then eots l else 0%nat.
Proof.
  unfold eot_raises, eots. induction l as [|a l IH]; cbn.
  - now case_decide.
  - destruct (Nat.eqb_spec y x) as [->|Hne]; cbn.
    + rewrite decide_True in * by done. destruct (is_eot_raise a); cbn; now rewrite IH.
    + rewrite decide_False in * by done. done.
Qed.

Section Poll.
Context {D : Type} (bus : fsi_device D) (tm : timing).

Lemma inw_eots io reg : eots (sbefifo_inw bus io reg).1.1.2 = eots io.2.
Proof.
  unfold sbefifo_inw. destruct (fsi_device_read _ _ _) as [[? ?] ?]. cbn [fst snd].
  rewrite eots_snoc. cbn [is_eot_raise]. lia.
Qed.

Lemma readw_eots io : eots (sbefifo_readw bus io).1.1.2 = eots io.2.
Proof.
  unfold sbefifo_readw. destruct (fsi_device_read _ _ _) as [[? ?] ?]. cbn [fst snd].
  rewrite eots_snoc. cbn [is_eot_raise]. lia.
Qed.

Lemma writew_eots io w : eots (sbefifo_writew bus io w).1.2 = eots io.2.
Proof.
  unfold sbefifo_writew. destruct (fsi_device_write _ _ _ _) as [? ?]. cbn [fst snd].
  rewrite eots_snoc. change (is_eot_raise _) with false. cbv iota. lia.
Qed.

Lemma outw_eots io reg w :
  eots (sbefifo_outw bus io reg w).1.2 =
    (eots io.2 + if (reg =? Z.lor SBEFIFO_UP SBEFIFO_EOT_RAISE)%Z then 1 else 0)%nat.
Proof.
  unfold sbefifo_outw. destruct (fsi_device_write _ _ _ _) as [? ?]. cbn [fst snd].
  now rewrite eots_snoc.
Qed.

Lemma ack_eot_eots io : eots (sbefifo_ack_eot bus io).1.2 = eots io.2.
Proof.
  unfold sbefifo_ack_eot. pose proof (readw_eots io) as H.
  destruct (sbefifo_readw bus io) as [[io1 ret] w]. cbn in H.
  destruct (negb _); [done|]. rewrite outw_eots. cbn [fst snd].
  change (_ =? _) with false. cbv iota. lia.
Qed.

Lemma write_words_eots k io wb :
  eots (write_words bus k io wb).1.1.2 = eots io.2.
Proof.
  revert io wb. induction k as [|k IH]; intros io wb; [done|]. cbn [write_words].
  pose proof (writew_eots io (load_word wb (rpos wb))) as H.
  destruct (sbefifo_writew _ _ _) as [io1 ret]. cbn in H.
  destruct (negb _); [done|]. now rewrite IH.
Qed.

Lemma read_words_eots k cancel io rb :
  eots (read_words bus k cancel io rb).1.1.2 = eots io.2.
Proof.
  revert io rb. induction k as [|k IH]; intros io rb; [done|]. cbn [read_words].
  pose proof (readw_eots io) as H.
  destruct (sbefifo_readw _ _) as [[io1 ret] w]. cbn in H.
  destruct (negb _); [done|]. now rewrite IH.
Qed.

(** The drain loop raises no end of transfer and never ends a transfer. *)
Lemma drain_eots fuel io wb :
  eots (drain_write_buffer bus fuel io wb).1.1.2 = eots io.2 /\
  (drain_write_buffer bus fuel io wb).2 <> LoopEot.
Proof.
  revert io wb. induction fuel as [|fuel IH]; intros io wb; [done|].
  cbn [drain_write_buffer]. destruct (_ =? 0); [done|].
  pose proof (inw_eots io (Z.lor SBEFIFO_UP SBEFIFO_STS)) as H.
  destruct (sbefifo_inw _ _ _) as [[io1 ret] sts]. cbn in H.
  destruct (negb _); [done|]. destruct (_ =? 0); [done|].
  pose proof (write_words_eots
    (Z.to_nat (min_t (sbefifo_dev_nwwriteable sts)
       (Z.shiftr (sbefifo_buf_nbreadable wb) 2))) io1 wb) as H2.
  destruct (write_words _ _ _ _) as [[io2 wb2] ret2]. cbn in H2.
  destruct (negb _); [cbn; split; [lia|done]|].
  destruct (IH io2 wb2) as [H3 H4]. split; [lia|done].
Qed.

Lemma fill_eots fuel cancel now io rb tmo :
  eots (fill_read_buffer bus tm fuel cancel now io rb tmo).1.1.1.2 = eots io.2.
Proof.
  revert io rb tmo. induction fuel as [|fuel IH]; intros io rb tmo; [done|].
  cbn [fill_read_buffer]. destruct (_ =? 0); [done|].
  pose proof (inw_eots io (Z.lor SBEFIFO_DWN SBEFIFO_STS)) as H.
  destruct (sbefifo_inw _ _ _) as [[io1 ret] sts]. cbn in H.
  destruct (negb _); [done|]. destruct (_ =? 0).
  { destruct (_ =? 0); [done|]. now destruct (time_after _ _). }
  set (k := Z.to_nat _).
  pose proof (read_words_eots k cancel io1 rb) as H2.
  destruct (read_words _ _ _ _ _) as [[io2 rb2] ret2]. cbn in H2.
  destruct (negb (ret2 =? 0)); [cbn; lia|].
  destruct (negb (Z.land sts 255 =? 0)).
  - pose proof (ack_eot_eots io2) as H3.
    destruct (sbefifo_ack_eot _ _) as [io3 ret3]. cbn in H3.
    destruct (negb _); cbn; lia.
  - rewrite IH. lia.
Qed.

Lemma poll_read_flags fuel cancel now (c : tick_ctx) :
  t_flags (poll_read bus tm fuel cancel now c).1 = t_flags c /\
  eots (t_io (poll_read bus tm fuel cancel now c).1).2 = eots (t_io c).2.
Proof.
  unfold poll_read.
  pose proof (fill_eots fuel cancel now (t_io c)
    (if cancel then t_drain c else t_rbuf c) (t_timeout c)) as H.
  destruct (fill_read_buffer _ _ _ _ _ _ _ _) as [[[io1 rb1] tmo] ex].
  cbn in H. destruct ex; cbn; done.
Qed.

Lemma poll_outcome_holds fuel cancel now d dr wb rb fl0 tmo :
  let c0 := TickCtx (d, []) dr wb rb fl0 tmo in
  match poll_write bus fuel cancel c0 with
  | (c1, Some e) => poll_outcome fl0 c1 e
  | (c1, None) =>
      poll_outcome fl0 (poll_read bus tm fuel cancel now c1).1
        (poll_read bus tm fuel cancel now c1).2
  end.
Proof.
  intros c0. unfold poll_write. cbn [t_io t_drain t_wbuf t_rbuf t_flags t_timeout c0].
  pose proof (drain_eots fuel (d, []) (if cancel then dr else wb)) as [H1 H2].
  destruct (drain_write_buffer _ _ _ _) as [[io1 wb1] ex]. cbn [fst snd] in H1, H2.
  change (eots []) with 0%nat in H1.
  destruct (test_bit SBEFIFO_XFR_WRITE_DONE fl0) eqn:Hwd.
  - (* the writer is finished *)
    assert (Hexit : forall e, e <> TickEot ->
      poll_outcome fl0
        (TickCtx io1 (if cancel then wb1 else dr) (if cancel then wb else wb1)
           rb fl0 tmo) e).
    { intros e He. right; left. cbn. done. }
    destruct ex; try (apply Hexit; done); try done.
    pose proof (outw_eots io1 (Z.lor SBEFIFO_UP SBEFIFO_EOT_RAISE)
                  SBEFIFO_EOT_MAGIC) as H3.
    destruct (sbefifo_outw _ _ _ _) as [io2 ret]. cbn [fst snd] in H3.
    rewrite Z.eqb_refl in H3.
    destruct (Z.eqb_spec ret 0) as [->|Hret]; cbn [negb].
    + destruct (poll_read_flags fuel cancel now
        (TickCtx io2 (if cancel then wb1 else dr) (if cancel then wb else wb1) rb
           (set_bit SBEFIFO_XFR_RESP_PENDING
              (clear_bit SBEFIFO_XFR_WRITE_DONE fl0)) tmo)) as [H4 H5].
      right; right; right. cbn in H4, H5. rewrite H4, H5. cbn. split; [done|].
      split; [lia|done].
    + right; right; left. cbn. split; [done|]. split; [lia|]. split; [done|].
      eauto.
  - (* the writer is not finished *)
    assert (Hexit : forall e, e <> TickEot ->
      poll_outcome fl0
        (TickCtx io1 (if cancel then wb1 else dr) (if cancel then wb else wb1)
           rb fl0 tmo) e).
    { intros e He. left. cbn. done. }
    destruct ex; try (apply Hexit; done); try done.
    destruct (test_bit SBEFIFO_XFR_RESP_PENDING fl0) eqn:Hrp; cbn [negb].
    + destruct (poll_read_flags fuel cancel now
        (TickCtx io1 (if cancel then wb1 else dr) (if cancel then wb else wb1) rb
           fl0 tmo)) as [H4 H5].
      left. cbn in H4, H5. rewrite H4, H5. done.
    + apply Hexit. done.
Qed.

End Poll.

Lemma map_alter_same {A B} (g : A -> B) (f : A -> A) i (l : list A) :
  (forall a, g (f a) = g a) -> map g (alter f i l) = map g l.
Proof.
  intros H. revert i. induction l as [|a l IH]; intros [|i]; cbn; [done..| |].
  - now rewrite H.
  - f_equal. apply IH.
Qed.

Lemma map_alter_insert {A B} (g : A -> B) (f : A -> A) i (l : list A) a :
  l !! i = Some a -> map g (alter f i l) = <[i := g (f a)]> (map g l).
Proof.
  revert i. induction l as [|b l IH]; intros [|i] Hi; cbn in *; try done.
  - now injection Hi as ->.
  - f_equal. now apply IH.
Qed.

Lemma set_bit_twice nr f : set_bit nr (set_bit nr f) = set_bit nr f.
Proof.
  unfold set_bit. rewrite !Z.setbit_spec'. now rewrite <- Z.lor_assoc, Z.lor_diag.
Qed.

Lemma eot_raises_quiet x evs :
  (forall e, e ∈ evs -> forall y a, e <> EvBus y a) -> eot_raises x evs = 0%nat.
Proof.
  intros H. unfold eot_raises. induction evs as [|e evs IH]; [done|]. cbn.
  assert (He : is_eot_raise_of x e = false).
  { destruct e; try done. exfalso. eapply (H (EvBus x0 a)); [now left|done]. }
  rewrite He. apply IH. intros e' He' y a. apply H. now right.
Qed.

Lemma eot_raises_discards x l : eot_raises x (map EvDiscard l) = 0%nat.
Proof.
  apply eot_raises_quiet. intros e He y a ->.
  apply list_elem_of_fmap in He as [? [? _]]. done.
Qed.

Section Concrete.
Context {D : Type} (bus : fsi_device D) (tm : timing).
Implicit Types s : sbefifo D.

Lemma cview_of_eq s :
  cview_of s = CView (xfrs s) (map mskel (xfr_mem s)) (map cskel (clients s))
                 (map wskel (writers s)) (trace s).
Proof. reflexivity. Qed.

Lemma mskel_kfree_all (l : list nat) (m : list sbefifo_xfr) :
  map mskel (foldr (fun x m => alter xfr_kfree x m) m l) = map mskel m.
Proof.
  induction l as [|x l IH]; [done|]. cbn [foldr].
  now rewrite map_alter_same.
Qed.

Lemma cmoves_next_xfr s :
  rtc cmove (cview_of s) (cview_of (sbefifo_next_xfr s).1).
Proof.
  rewrite next_xfr_fst, !cview_of_eq. cbn. rewrite mskel_kfree_all.
  pose proof (next_xfr_scan_app (xfr_mem s) (xfrs s)) as Hq.
  destruct (next_xfr_scan _ _) as [dropped rest]. cbn [fst snd] in *.
  eapply rtc_l; [apply (cm_shrink _ rest)|].
  { intros x Hx. rewrite Hq. apply elem_of_app. now right. }
  apply rtc_once. apply cm_events. intros x. apply eot_raises_discards.
Qed.

(** [sbefifo_client_release]'s walk over the transfers of a client. *)
Lemma client_release_xfrs_spec l s :
  let r := client_release_xfrs l s in
  xfrs r.2 = xfrs s /\ clients r.2 = clients s /\ writers r.2 = writers s /\
  trace r.2 = trace s /\
  length (xfr_mem r.2) = length (xfr_mem s) /\
  (forall x, x ∈ r.1 -> x ∈ l) /\
  forall y, map mskel (xfr_mem r.2) !! y = map mskel (xfr_mem s) !! y \/
    (y ∈ l /\ exists c' f, map mskel (xfr_mem s) !! y = Some (c', f) /\
       map mskel (xfr_mem r.2) !! y
         = Some (c', set_bit SBEFIFO_XFR_CANCEL f)).
Proof.
  revert s. induction l as [|x l IH]; intros s; cbn zeta.
  - cbn. repeat split; try done. intros y. now left.
  - cbn [client_release_xfrs]. destruct (xfr_test _ s x).
    + destruct (IH (upd_xfr x xfr_kfree s)) as (H1 & H2 & H3 & H4 & H5 & H6 & H7).
      repeat split; try done.
      * rewrite H5. cbn. apply length_alter.
      * intros y Hy. right. auto.
      * intros y. destruct (H7 y) as [Hy|(Hy & c' & f & Hm & Hm')].
        -- left. rewrite Hy. cbn. now rewrite map_alter_same.
        -- right. split; [now right|]. exists c', f. split; [|done].
           cbn in Hm. now rewrite map_alter_same in Hm.
    + set (s1 := mod_timer_now _).
      destruct (IH s1) as (H1 & H2 & H3 & H4 & H5 & H6 & H7).
      destruct (client_release_xfrs l s1) as [kept s2]. cbn [fst snd] in *.
      repeat split; try done.
      * rewrite H5. cbn. apply length_alter.
      * intros y Hy. apply elem_of_cons in Hy as [->|Hy]; [now left|right; auto].
      * intros y.
        assert (Hs1 : map mskel (xfr_mem s1) !! y = map mskel (xfr_mem s) !! y \/
                  (y = x /\ exists c' f, map mskel (xfr_mem s) !! y = Some (c', f) /\
                     map mskel (xfr_mem s1) !! y
                       = Some (c', set_bit SBEFIFO_XFR_CANCEL f))).
        { cbn. destruct (decide (x = y)) as [<-|Hne].
          - destruct (xfr_mem s !! x) as [xf|] eqn:Hx.
            + right. split; [done|]. exists (xfr_client xf), (xfr_flags xf).
              rewrite (map_alter_insert _ _ _ _ _ Hx).
              rewrite list_lookup_fmap, Hx. split; [done|].
              rewrite list_lookup_insert_eq; [done|].
              rewrite length_map. now apply lookup_lt_Some in Hx.
            + left. rewrite !list_lookup_fmap, list_lookup_alter_eq, Hx. done.
          - left. now rewrite !list_lookup_fmap, list_lookup_alter_ne. }
        destruct (H7 y) as [Hy|(Hy & c' & f & Hm & Hm')].
        -- rewrite Hy. destruct Hs1 as [Hs1|(-> & c' & f & Hm & Hm')]; [now left|].
           right. split; [now left|]. eauto.
        -- right. split; [now right|].
           destruct Hs1 as [Hs1|(-> & c'' & f' & Hm0 & Hm1)].
           ++ exists c', f. now rewrite <- Hs1.
           ++ exists c'', f'. split; [done|]. rewrite Hm'.
              rewrite Hm1 in Hm. injection Hm as <- <-. now rewrite set_bit_twice.
Qed.

Lemma cmove_client_release s c cl :
  clients s !! c = Some cl -> kref cl = 0 ->
  cmove (cview_of s) (cview_of (sbefifo_client_release c s)).
Proof.
  intros Hcl Hk. unfold sbefifo_client_release.
  assert (Hsk : map cskel (clients s) !! c = Some (c_xfrs cl, 0, c_open cl)).
  { rewrite list_lookup_fmap, Hcl. cbn. unfold cskel. now rewrite Hk. }
  destruct (rc s =? 0).
  - pose proof (client_release_xfrs_spec (c_xfrs (get_client s c)) s) as H.
    cbn zeta in H. destruct (client_release_xfrs _ s) as [kept s'].
    cbn [fst snd] in H. destruct H as (H1 & H2 & H3 & H4 & H5 & H6 & H7).
    assert (Hg : get_client s c = cl) by (unfold get_client; now rewrite Hcl).
    rewrite Hg in *.
    rewrite !cview_of_eq. cbn. rewrite H1, H2, H3, H4.
    rewrite list_alter_alter_eq.
    rewrite (map_alter_insert _ _ _ _ _ Hcl).
    set (sk := cskel _).
    assert (sk = (kept, 0, c_open cl)) as ->
      by (unfold sk, cskel; cbn; now rewrite Hk).
    eapply cm_free; [exact Hsk| |exact H7|exact H6].
    now rewrite !length_map.
  - rewrite !cview_of_eq. cbn. rewrite (map_alter_insert _ _ _ _ _ Hcl).
    set (sk := cskel _).
    assert (sk = (c_xfrs cl, 0, c_open cl)) as ->
      by (unfold sk, cskel; cbn; now rewrite Hk).
    eapply cm_free; [exact Hsk|done| |done]. intros y. now left.
Qed.

Lemma cmoves_put_client s c cl :
  clients s !! c = Some cl ->
  rtc cmove (cview_of (upd_client c dec_kref s)) (cview_of (sbefifo_put_client c s)).
Proof.
  intros Hcl. unfold sbefifo_put_client. fold dec_kref.
  destruct (Z.eqb_spec (kref (get_client (upd_client c dec_kref s) c)) 0) as [Hz|]; [|done].
  apply rtc_once.
  assert (Hcl' : clients (upd_client c dec_kref s) !! c = Some (dec_kref cl)).
  { cbn. now rewrite list_lookup_alter_eq, Hcl. }
  apply (cmove_client_release _ c _ Hcl').
  unfold get_client in Hz. now rewrite Hcl' in Hz.
Qed.

End Concrete.

Ltac bits :=
  repeat first
    [ rewrite test_set_bit by (vm_compute; discriminate)
    | rewrite test_clear_bit
    | rewrite test_set_bit_ne by (vm_compute; congruence)
    | rewrite test_clear_bit_ne by (vm_compute; congruence) ].

Section Tick.
Context {D : Type} (bus : fsi_device D) (tm : timing).
Implicit Types s : sbefifo D.

(** The conditions under which the view takes a run of the timer function. *)
Lemma tick_conditions (x : nat) (q' : list nat) f (c : @tick_ctx D) e f' evs quiet :
  poll_outcome (cancel_overlay f) c e ->
  evs = map (EvBus x) (t_io c).2 ++ quiet ->
  (forall y, eot_raises y quiet = 0%nat) ->
  (f' = t_flags c /\ e <> TickEot \/
   f' = set_bit SBEFIFO_XFR_COMPLETE (t_flags c) /\ e = TickEot) ->
  ((exists ret, ret <> 0 /\ e = TickOut ret) -> q' = []) ->
  (forall y, y <> x -> eot_raises y evs = 0%nat) /\
  (eot_raises x evs <= 1)%nat /\
  (test_bit SBEFIFO_XFR_WRITE_DONE (cancel_overlay f) = false ->
   eot_raises x evs = 0%nat) /\
  (x ∈ q' -> eot_raises x evs = 1%nat ->
   test_bit SBEFIFO_XFR_RESP_PENDING f' = true) /\
  ((test_bit SBEFIFO_XFR_RESP_PENDING f = true ->
    test_bit SBEFIFO_XFR_WRITE_DONE f = false) ->
   test_bit SBEFIFO_XFR_RESP_PENDING f' = true ->
   test_bit SBEFIFO_XFR_WRITE_DONE f' = false) /\
  (test_bit SBEFIFO_XFR_RESP_PENDING f = true ->
   test_bit SBEFIFO_XFR_RESP_PENDING f' = true) /\
  (f = 0 -> f' = 0).
Proof.
  intros Hout -> Hquiet Hf' Hfatal.
  assert (Hcnt : forall y, eot_raises y (map (EvBus x) (t_io c).2 ++ quiet)
                   = if decide (y = x) then eots (t_io c).2 else 0%nat).
  { intros y. rewrite eot_raises_app, eot_raises_bus, Hquiet. lia. }
  assert (Hrp' : test_bit SBEFIFO_XFR_RESP_PENDING f'
                 = test_bit SBEFIFO_XFR_RESP_PENDING (t_flags c)).
  { destruct Hf' as [[-> _]|[-> _]]; [done|]. now bits. }
  assert (Hwd' : test_bit SBEFIFO_XFR_WRITE_DONE f'
                 = test_bit SBEFIFO_XFR_WRITE_DONE (t_flags c)).
  { destruct Hf' as [[-> _]|[-> _]]; [done|]. now bits. }
  assert (Hov : test_bit SBEFIFO_XFR_RESP_PENDING (cancel_overlay f)
                = test_bit SBEFIFO_XFR_RESP_PENDING f).
  { unfold cancel_overlay. destruct (_ && _); [now bits|done]. }
  split; [intros y Hy; rewrite Hcnt; now rewrite decide_False|].
  rewrite !Hcnt, !decide_True by done. rewrite Hrp', Hwd'.
  destruct Hout as [(Hwd & Hn & Hfl & Heot)|[(Hwd & Hn & Hfl & Heot)|
                    [(Hwd & Hn & Hfl & ret & Hret & ->)|(Hwd & Hn & Hfl)]]];
    rewrite Hn, Hfl.
  - split; [lia|]. split; [done|]. split; [done|]. rewrite Hov.
    split; [intros _ _; exact Hwd|]. split; [done|].
    intros ->. destruct Hf' as [[-> _]|[_ ->]]; [now rewrite Hfl|].
    specialize (Heot eq_refl). rewrite Hov in Heot. now rewrite test_bit_0 in Heot.
  - split; [lia|]. split; [done|]. split; [done|]. rewrite Hov.
    split.
    { intros Himp Hrp. exfalso. unfold cancel_overlay in Hwd.
      destruct (test_bit SBEFIFO_XFR_CANCEL f && _) eqn:Hc.
      - apply andb_true_iff in Hc as [_ Hc]. rewrite Hrp in Hc. done.
      - rewrite Himp in Hwd; done. }
    split; [done|].
    intros ->. exfalso. revert Hwd. vm_compute. done.
  - split; [lia|]. split; [congruence|].
    split; [intros Hin; rewrite Hfatal in Hin by eauto; now apply elem_of_nil in Hin|].
    bits. rewrite Hov. split; [done|]. split; [done|].
    intros ->. exfalso. revert Hwd. vm_compute. done.
  - split; [lia|]. split; [congruence|]. bits.
    split; [done|]. split; [done|]. split; [done|].
    intros ->. exfalso. revert Hwd. vm_compute. done.
Qed.

Lemma cview_proj s v :
  cview_of s = v ->
  xfrs s = c_q v /\ map mskel (xfr_mem s) = c_mem v /\
  map cskel (clients s) = c_cl v /\ map wskel (writers s) = c_wr v /\
  trace s = c_tr v.
Proof. now intros <-. Qed.

Lemma cview_tick_commit x cancel (c : tick_ctx) s xf :
  xfr_mem s !! x = Some xf ->
  cview_of (tick_commit x cancel c s) =
    CView (xfrs s) (<[x := (xfr_client xf, t_flags c)]> (map mskel (xfr_mem s)))
      (map cskel (clients s)) (map wskel (writers s))
      (trace s ++ map (EvBus x) (t_io c).2).
Proof.
  intros Hx. unfold tick_commit. rewrite cview_of_eq.
  destruct cancel; cbn; rewrite (map_alter_insert _ _ _ _ _ Hx);
    rewrite ?map_alter_same by done; reflexivity.
Qed.

Lemma cmove_tick_finish x q0 cancel (c : tick_ctx) e s xf :
  xfrs s = x :: q0 -> xfr_mem s !! x = Some xf ->
  poll_outcome (cancel_overlay (xfr_flags xf)) c e ->
  cmove (cview_of s) (cview_of (tick_finish tm x cancel c e s)).
Proof.
  intros Hq Hx Hout.
  pose proof (cview_tick_commit x cancel c s xf Hx) as Hv.
  assert (Hsk : map mskel (xfr_mem s) !! x = Some (xfr_client xf, xfr_flags xf))
    by (now rewrite list_lookup_fmap, Hx).
  assert (Hlt : (x < length (map mskel (xfr_mem s)))%nat)
    by (now apply lookup_lt_Some in Hsk).
  rewrite (cview_of_eq s), Hq.
  assert (Hplain : e <> TickEot -> (forall ret, e = TickOut ret -> ret = 0) ->
    cmove (CView (x :: q0) (map mskel (xfr_mem s)) (map cskel (clients s))
             (map wskel (writers s)) (trace s))
          (cview_of (tick_commit x cancel c s))).
  { intros He Hnf. rewrite Hv, Hq.
    destruct (tick_conditions x (x :: q0) (xfr_flags xf) c e (t_flags c)
                (map (EvBus x) (t_io c).2) []) as (C1 & C2 & C3 & C4 & C5 & C6 & C7);
      [done|now rewrite app_nil_r|done|now left| |].
    { intros (ret & Hret & ->). now specialize (Hnf ret eq_refl). }
    eapply cm_tick;
      [exact Hsk|intros y Hy; exact Hy|exact C1|exact C2|exact C3|exact C4
      |exact C5|exact C6|exact C7]. }
  destruct (cview_proj _ _ Hv) as (H1 & H2 & H3 & H4 & H5).
  cbn [c_q c_mem c_cl c_wr c_tr] in H1, H2, H3, H4, H5.
  assert (Hx1 : xfr_mem (tick_commit x cancel c s) !! x = Some
    (xfr_set_timeout (t_timeout c) (xfr_set_flags (fun _ => t_flags c) xf))).
  { unfold tick_commit. destruct cancel; cbn;
      now rewrite list_lookup_alter_eq, Hx. }
  unfold tick_finish. remember (tick_commit x cancel c s) as s1 eqn:Hs1.
  destruct e as [ret| | |].
  - destruct (Z.eqb_spec ret 0) as [->|Hret]; cbn [negb].
    + apply Hplain; [done|]. now intros ? [= <-].
    + assert (Hv' : cview_of (fatal ret s1) =
        CView [] (<[x := (xfr_client xf, t_flags c)]> (map mskel (xfr_mem s)))
          (map cskel (clients s)) (map wskel (writers s))
          (trace s ++ (map (EvBus x) (t_io c).2 ++ [EvFatal ret]))).
      { rewrite cview_of_eq. unfold fatal, drop_queue.
        cbn [xfrs xfr_mem clients writers trace set_xfrs set_xfr_mem set_rc log
             set_trace].
        rewrite mskel_kfree_all, H2, H3, H4, H5. now rewrite <- app_assoc. }
      rewrite Hv'.
      destruct (tick_conditions x [] (xfr_flags xf) c (TickOut ret) (t_flags c)
                  (map (EvBus x) (t_io c).2 ++ [EvFatal ret]) [EvFatal ret])
        as (C1 & C2 & C3 & C4 & C5 & C6 & C7);
        [done|done|done|now left|done|].
      eapply cm_tick;
        [exact Hsk|intros y Hy; now apply elem_of_nil in Hy|exact C1|exact C2
        |exact C3|exact C4|exact C5|exact C6|exact C7].
  - set (done := fun xf : sbefifo_xfr => if cancel then _ else _).
    remember (log [EvComplete x] (set_xfrs (tail (xfrs s1)) (upd_xfr x done s1)))
      as s2 eqn:Hs2.
    set (f' := set_bit SBEFIFO_XFR_COMPLETE (t_flags c)).
    assert (Hv2 : cview_of s2 =
      CView q0 (<[x := (xfr_client xf, f')]> (map mskel (xfr_mem s)))
        (map cskel (clients s)) (map wskel (writers s))
        (trace s ++ (map (EvBus x) (t_io c).2 ++ [EvComplete x]))).
    { rewrite Hs2, cview_of_eq.
      cbn [xfrs xfr_mem clients writers trace set_xfrs set_xfr_mem log
           set_trace upd_xfr].
      rewrite (map_alter_insert _ _ _ _ _ Hx1), H1, H2, H3, H4, H5, Hq.
      rewrite list_insert_insert_eq, <- app_assoc. cbn [tail].
      f_equal. f_equal. unfold done, f'. now destruct cancel. }
    destruct (cview_proj _ _ Hv2) as (G1 & G2 & G3 & G4 & G5).
    cbn [c_q c_mem c_cl c_wr c_tr] in G1, G2, G3, G4, G5.
    pose proof (next_xfr_fst s2) as Hn1.
    pose proof (next_xfr_scan_app (xfr_mem s2) (xfrs s2)) as Happ.
    destruct (next_xfr_scan (xfr_mem s2) (xfrs s2)) as [dropped rest].
    cbn [fst snd] in Hn1, Happ.
    assert (Hv3 : cview_of (sbefifo_next_xfr s2).1 =
      CView rest (<[x := (xfr_client xf, f')]> (map mskel (xfr_mem s)))
        (map cskel (clients s)) (map wskel (writers s))
        (trace s ++ (map (EvBus x) (t_io c).2
                       ++ (EvComplete x :: map EvDiscard dropped)))).
    { rewrite Hn1, cview_of_eq.
      cbn [xfrs xfr_mem clients writers trace set_xfrs set_xfr_mem log
           set_trace].
      rewrite mskel_kfree_all, G2, G3, G4, G5. f_equal.
      rewrite <- !app_assoc. done. }
    assert (Hrest : forall y, y ∈ rest -> y ∈ x :: q0).
    { intros y Hy. right. rewrite <- G1, Happ. apply elem_of_app. now right. }
    destruct (tick_conditions x rest (xfr_flags xf) c TickEot f'
                (map (EvBus x) (t_io c).2 ++ (EvComplete x :: map EvDiscard dropped))
                (EvComplete x :: map EvDiscard dropped))
      as (C1 & C2 & C3 & C4 & C5 & C6 & C7); [done|done| |now right| |].
    { intros y. apply eot_raises_quiet. intros e0 He0 z a ->.
      apply elem_of_cons in He0 as [?|He0]; [done|].
      apply list_elem_of_fmap in He0 as [? [? _]]. done. }
    { intros (ret & _ & ?). done. }
    assert (Hfinal : cmove
      (CView (x :: q0) (map mskel (xfr_mem s)) (map cskel (clients s))
         (map wskel (writers s)) (trace s))
      (cview_of (sbefifo_next_xfr s2).1)).
    { rewrite Hv3.
      eapply cm_tick;
        [exact Hsk|exact Hrest|exact C1|exact C2|exact C3|exact C4
        |exact C5|exact C6|exact C7]. }
    destruct (sbefifo_next_xfr s2) as [s3 nxt]. cbn [fst] in Hfinal.
    now destruct nxt.
  - apply Hplain; [done|]. intros ? [=].
  - assert (Hc : cview_of (set_hung true s1) = cview_of s1) by reflexivity.
    rewrite Hc. apply Hplain; [done|]. intros ? [=].
Qed.

Lemma cmoves_poll_timer fuel s :
  cinv (cview_of s) ->
  rtc cmove (cview_of s) (cview_of (sbefifo_poll_timer bus tm fuel s)).
Proof.
  intros Hv. unfold sbefifo_poll_timer.
  destruct (xfrs s) as [|x q0] eqn:Hq; [done|]. cbn [head].
  assert (Hlt : (x < length (xfr_mem s))%nat).
  { pose proof (ci_alloc _ Hv x) as H. cbn in H. rewrite length_map, Hq in H.
    apply H. now left. }
  destruct (lookup_lt_is_Some_2 _ _ Hlt) as [xf Hx].
  assert (Hg : get_xfr s x = xf) by (unfold get_xfr; now rewrite Hx).
  rewrite Hg.
  pose proof (poll_outcome_holds bus tm fuel
    (test_bit SBEFIFO_XFR_CANCEL (xfr_flags xf)) (jiffies s) (fsi_dev s)
    (sbefifo_buf_init zeroed_buf) (wbuf (get_client s (xfr_client xf)))
    (rbuf (get_client s (xfr_client xf))) (cancel_overlay (xfr_flags xf))
    (wait_data_timeout xf)) as Hout.
  cbn zeta in Hout. unfold cancel_overlay in Hout at 1.
  destruct (poll_write _ _ _ _) as [c1 [e|]].
  - apply rtc_once. exact (cmove_tick_finish x q0 _ c1 e s xf Hq Hx Hout).
  - destruct (poll_read _ _ _ _ _ _) as [c2 e]. cbn [fst snd] in Hout.
    apply rtc_once. exact (cmove_tick_finish x q0 _ c2 e s xf Hq Hx Hout).
Qed.

End Tick.

Lemma wskel_remove_writer x (l : list writer) :
  map wskel (remove_writer x l) =
    List.filter (fun w => negb (Nat.eqb w.2 x)) (map wskel l).
Proof.
  unfold remove_writer. induction l as [|w l IH]; [done|]. cbn.
  destruct (Nat.eqb (w_xfr w) x); cbn; now rewrite IH.
Qed.

Lemma find_writer_Some x (l : list writer) w :
  find_writer x l = Some w -> w ∈ l /\ w_xfr w = x.
Proof.
  unfold find_writer. intros H. apply List.find_some in H as [H1 H2].
  split; [now apply list_elem_of_In|now apply Nat.eqb_eq].
Qed.

Section Ops.
Context {D : Type} (bus : fsi_device D) (tm : timing).
Implicit Types s : sbefifo D.

(** A call that took a reference on client [c], may have shortened the
    client's list, and drops the reference again. *)
Lemma cmoves_get_put s0 s1 c cl xs' :
  clients s0 !! c = Some cl ->
  (forall x, x ∈ xs' -> x ∈ c_xfrs cl) ->
  cview_of s1 =
    CView (xfrs s0) (map mskel (xfr_mem s0))
      (<[c := (xs', kref cl + 1, c_open cl)]> (map cskel (clients s0)))
      (map wskel (writers s0)) (trace s0) ->
  rtc cmove (cview_of s0) (cview_of (sbefifo_put_client c s1)).
Proof.
  intros Hcl Hsub Hv.
  destruct (cview_proj _ _ Hv) as (H1 & H2 & H3 & H4 & H5).
  cbn [c_q c_mem c_cl c_wr c_tr] in H1, H2, H3, H4, H5.
  assert (Hlt : (c < length (map cskel (clients s0)))%nat).
  { rewrite length_map. now apply lookup_lt_Some in Hcl. }
  assert (Hcl1 : exists cl1, clients s1 !! c = Some cl1 /\
            cskel cl1 = (xs', kref cl + 1, c_open cl)).
  { pose proof (f_equal (fun l => l !! c) H3) as Hl. cbn in Hl.
    rewrite list_lookup_insert_eq in Hl by done.
    rewrite list_lookup_fmap in Hl. destruct (clients s1 !! c) as [cl1|]; [|done].
    exists cl1. split; [done|]. cbn in Hl. congruence. }
  destruct Hcl1 as (cl1 & Hcl1 & Hsk).
  etrans; [|exact (cmoves_put_client s1 c cl1 Hcl1)].
  apply rtc_once.
  assert (Hv' : cview_of (upd_client c dec_kref s1) =
    CView (xfrs s0) (map mskel (xfr_mem s0))
      (<[c := (xs', kref cl, c_open cl)]> (map cskel (clients s0)))
      (map wskel (writers s0)) (trace s0)).
  { rewrite cview_of_eq. cbn [xfrs xfr_mem clients writers trace upd_client set_clients].
    rewrite H1, H2, H4, H5, (map_alter_insert _ _ _ _ _ Hcl1), H3.
    rewrite list_insert_insert_eq. f_equal. f_equal.
    injection Hsk as Ha Hb Hc. unfold cskel, dec_kref. cbn. rewrite Ha, Hb, Hc.
    f_equal. f_equal. lia. }
  rewrite Hv', (cview_of_eq s0).
  apply (cm_client_xfrs _ _ _ _ _ c (c_xfrs cl)); [|done].
  now rewrite list_lookup_fmap, Hcl.
Qed.

Lemma cmoves_open flags alloc_ok s :
  rtc cmove (cview_of s) (cview_of (sbefifo_open flags alloc_ok s).1).
Proof.
  unfold sbefifo_open. destruct (negb _); [done|]. destruct (negb _); [done|].
  cbn [fst]. rewrite !cview_of_eq. cbn. rewrite map_app. cbn.
  apply rtc_once, cm_open.
Qed.

Lemma cmoves_drv_open flags alloc_ok s :
  rtc cmove (cview_of s) (cview_of (sbefifo_drv_open flags alloc_ok s).1).
Proof.
  unfold sbefifo_drv_open. destruct (negb _); [done|].
  cbn [fst]. rewrite !cview_of_eq. cbn. rewrite map_app. cbn.
  apply rtc_once, cm_open.
Qed.

Lemma cmoves_remove s : rtc cmove (cview_of s) (cview_of (sbefifo_remove s)).
Proof.
  unfold sbefifo_remove, drop_queue. rewrite !cview_of_eq. cbn.
  rewrite mskel_kfree_all.
  eapply rtc_l; [apply (cm_shrink _ [])|].
  { intros x Hx. now apply elem_of_nil in Hx. }
  apply rtc_once, cm_events. intros x. apply eot_raises_quiet.
  intros e He y a ->. apply elem_of_cons in He as [?|He]; [done|].
  now apply elem_of_nil in He.
Qed.

Lemma cmoves_release c s cl :
  clients s !! c = Some cl -> c_open cl = true ->
  rtc cmove (cview_of s) (cview_of (sbefifo_release c s).1).
Proof.
  intros Hcl Ho. unfold sbefifo_release. cbn [fst].
  assert (Hcl1 : clients (upd_client c client_close s) !! c = Some (client_close cl)).
  { cbn. now rewrite list_lookup_alter_eq, Hcl. }
  etrans; [|exact (cmoves_put_client _ c _ Hcl1)].
  apply rtc_once. rewrite !cview_of_eq. cbn.
  rewrite list_alter_alter_eq, (map_alter_insert _ _ _ _ _ Hcl).
  apply cm_close. rewrite list_lookup_fmap, Hcl. cbn. unfold cskel. now rewrite Ho.
Qed.

Lemma cmoves_read_common c user len sig fault s cl :
  clients s !! c = Some cl ->
  rtc cmove (cview_of s)
    (cview_of (sbefifo_read_common c user len sig fault s).1).
Proof.
  intros Hcl. unfold sbefifo_read_common.
  assert (Hg : forall s', clients s' = clients s ->
            get_client (sbefifo_get_client c s') c
              = client_set_kref (kref cl + 1) cl).
  { intros s' Hs'. rewrite get_client_kref_up, Hs', Hcl. done. }
  assert (Hsame : forall s1 f,
    (forall a, cskel (f a) = cskel a) ->
    cview_of s1 = cview_of (upd_client c f (sbefifo_get_client c s)) ->
    rtc cmove (cview_of s) (cview_of (sbefifo_put_client c s1))).
  { intros s1 f Hf Hv. apply (cmoves_get_put s s1 c cl (c_xfrs cl) Hcl); [done|].
    rewrite Hv, cview_of_eq. cbn. rewrite list_alter_alter_eq.
    rewrite (map_alter_insert _ _ _ _ _ Hcl). cbn. rewrite Hf. done. }
  destruct (is_aligned len); [|done]. cbn [negb].
  destruct (_ && _); [done|].
  destruct (sbefifo_read_ready s c) as [[ready n] ret].
  destruct ready; cbn [negb].
  2:{ destruct sig; [|done]. cbn [fst].
      apply (Hsame _ id); [done|]. rewrite !cview_of_eq. cbn.
      rewrite (list_alter_id id) by done. reflexivity. }
  destruct (ret =? 0); cbn [negb fst].
  2:{ apply (cmoves_get_put s _ c cl [] Hcl).
      { intros x Hx. now apply elem_of_nil in Hx. }
      rewrite cview_of_eq. cbn. rewrite list_alter_alter_eq.
      now rewrite (map_alter_insert _ _ _ _ _ Hcl). }
  destruct (user && fault); cbn [fst].
  { apply (Hsame _ id); [done|]. rewrite !cview_of_eq. cbn.
    rewrite (list_alter_id id) by done. reflexivity. }
  rewrite (Hg s eq_refl). cbn [rbuf client_set_kref].
  destruct (sbefifo_buf_readnb _ _) as [empty rb1].
  set (s2 := upd_client c (client_set_rbuf rb1) (sbefifo_get_client c s)).
  assert (Hg2 : get_client s2 c = client_set_rbuf rb1 (client_set_kref (kref cl + 1) cl)).
  { unfold s2, get_client. cbn. now rewrite !list_lookup_alter_eq, Hcl. }
  destruct empty; cbn [fst]; [|now apply (Hsame _ (client_set_rbuf rb1))].
  rewrite Hg2. cbn [c_xfrs client_set_rbuf client_set_kref].
  destruct (head (c_xfrs cl)) as [x0|] eqn:Hh; cbn [fst];
    [|now apply (Hsame _ (client_set_rbuf rb1))].
  destruct (xfr_test _ _ _); cbn [negb];
    [|now apply (Hsame _ (client_set_rbuf rb1))].
  apply (cmoves_get_put s _ c cl (tail (c_xfrs cl)) Hcl).
  { intros x Hx. destruct (c_xfrs cl); [done|]. now right. }
  rewrite cview_of_eq. unfold s2. cbn. rewrite !list_alter_alter_eq.
  rewrite (map_alter_insert _ _ _ _ _ Hcl). rewrite map_alter_same by done.
  reflexivity.
Qed.

End Ops.

Lemma wskel_replace_writer w' (l : list writer) :
  (forall w, w ∈ l -> w_xfr w = w_xfr w' -> w_client w = w_client w') ->
  map wskel (replace_writer w' l) = map wskel l.
Proof.
  unfold replace_writer. induction l as [|w l IH]; intros H; [done|]. cbn.
  rewrite IH by (intros w0 Hw0; apply H; now right). f_equal.
  destruct (Nat.eqb_spec (w_xfr w) (w_xfr w')) as [He|]; [|done].
  unfold wskel. rewrite He. f_equal. symmetry. apply H; [now left|done].
Qed.

Section Writes.
Context {D : Type} (bus : fsi_device D) (tm : timing).
Implicit Types s : sbefifo D.

Lemma cmoves_write_enter c user src len alloc_ok s cl :
  clients s !! c = Some cl ->
  rtc cmove (cview_of s)
    (cview_of (sbefifo_write_enter c user src len alloc_ok s).1).
Proof.
  intros Hcl. unfold sbefifo_write_enter.
  destruct (is_aligned len); [|done]. cbn [negb]. destruct (len =? 0); [done|].
  pose proof (cmoves_next_xfr s) as HN.
  pose proof (next_xfr_fst s) as HsN.
  pose proof (next_xfr_fst (sbefifo_get_client c s)) as Hs2.
  cbn [xfr_mem xfrs sbefifo_get_client upd_client set_clients] in Hs2.
  destruct (sbefifo_next_xfr (sbefifo_get_client c s)) as [s2 xfr].
  remember (sbefifo_next_xfr s).1 as sN eqn:HeqN. clear HeqN.
  cbn [fst] in Hs2.
  destruct (next_xfr_scan (xfr_mem s) (xfrs s)) as [dropped rest] eqn:Hscan.
  cbn [fst snd] in HsN, Hs2.
  assert (HclN : clients sN !! c = Some cl) by (now rewrite HsN).
  assert (Hback : rtc cmove (cview_of s) (cview_of (sbefifo_put_client c s2))).
  { etrans; [exact HN|].
    apply (cmoves_get_put sN s2 c cl (c_xfrs cl) HclN); [done|].
    rewrite Hs2, HsN, !cview_of_eq. cbn.
    now rewrite (map_alter_insert _ _ _ _ _ Hcl). }
  destruct (_ && _ && _); [exact Hback|].
  unfold sbefifo_enq_xfr.
  destruct (negb (rc s2 =? 0)); [exact Hback|].
  destruct (negb alloc_ok); [exact Hback|]. cbn [fst].
  etrans; [exact HN|].
  set (n := length (xfr_mem s2)).
  assert (Hn : n = length (map mskel (xfr_mem sN))).
  { unfold n. rewrite Hs2, HsN. cbn. now rewrite length_map. }
  assert (Hmn : length (map mskel (xfr_mem sN)) = n).
  { now rewrite Hn. }
  set (fin := set_writers _ _).
  assert (Hfin : cview_of fin =
    CView (xfrs sN ++ [n]) (map mskel (xfr_mem sN) ++ [(c, 0)])
      (<[c := (c_xfrs cl ++ [n], kref cl + 1, c_open cl)]>
         (map cskel (clients sN)))
      (map wskel (writers sN) ++ [(c, n)]) (trace sN ++ [EvEnq n c])).
  { assert (E1 : xfrs s2 = xfrs sN) by now rewrite Hs2, HsN.
    assert (E2 : xfr_mem s2 = xfr_mem sN) by now rewrite Hs2, HsN.
    assert (E3 : clients s2 = clients (sbefifo_get_client c s)) by now rewrite Hs2.
    assert (E4 : writers s2 = writers sN) by now rewrite Hs2, HsN.
    assert (E5 : trace s2 = trace sN) by now rewrite Hs2, HsN.
    assert (E6 : clients sN = clients s) by now rewrite HsN.
    unfold fin. rewrite cview_of_eq.
    cbn [xfrs xfr_mem clients writers trace set_writers log set_trace
         upd_client set_clients set_xfrs set_xfr_mem].
    rewrite E1, E2, E3, E4, E5, E6. cbn [sbefifo_get_client upd_client clients
      set_clients].
    rewrite !map_app, list_alter_alter_eq, (map_alter_insert _ _ _ _ _ Hcl).
    done. }
  rewrite Hfin, (cview_of_eq sN), <- Hmn.
  eapply rtc_l.
  - apply (cm_enq _ _ _ _ _ c (c_xfrs cl) (kref cl) (c_open cl)).
    now rewrite list_lookup_fmap, HclN.
  - apply rtc_once, (cm_events _ _ _ _ _ [EvEnq _ c]).
    intros x. apply eot_raises_quiet. intros e He y a ->.
    apply elem_of_cons in He as [?|He]; [done|]. now apply elem_of_nil in He.
Qed.

(** Label out of [sbefifo_write_common], from inside the loop. *)
Lemma cmoves_write_leave w ret s0 s1 cl xf f' xs' :
  w ∈ writers s0 ->
  clients s0 !! w_client w = Some cl ->
  xfr_mem s0 !! w_xfr w = Some xf -> xfr_client xf = w_client w ->
  (forall x, x ∈ xs' -> x ∈ c_xfrs cl) ->
  (f' = 0 \/ f' = set_bit SBEFIFO_XFR_CANCEL 0 \/
   f' = set_bit SBEFIFO_XFR_WRITE_DONE 0) ->
  cview_of s1 =
    CView (xfrs s0) (<[w_xfr w := (w_client w, f')]> (map mskel (xfr_mem s0)))
      (<[w_client w := (xs', kref cl, c_open cl)]> (map cskel (clients s0)))
      (map wskel (writers s0)) (trace s0) ->
  rtc cmove (cview_of s0) (cview_of (write_leave w ret s1).1).
Proof.
  intros Hw Hcl Hx Hxc Hsub Hf' Hv.
  destruct (cview_proj _ _ Hv) as (H1 & H2 & H3 & H4 & H5).
  cbn [c_q c_mem c_cl c_wr c_tr] in H1, H2, H3, H4, H5.
  assert (Hlt : (w_client w < length (map cskel (clients s0)))%nat).
  { rewrite length_map. now apply lookup_lt_Some in Hcl. }
  assert (Hcl1 : exists cl1, clients s1 !! w_client w = Some cl1 /\
            cskel cl1 = (xs', kref cl, c_open cl)).
  { pose proof (f_equal (fun l => l !! w_client w) H3) as Hl. cbn in Hl.
    rewrite list_lookup_insert_eq in Hl by done.
    rewrite list_lookup_fmap in Hl.
    destruct (clients s1 !! w_client w) as [cl1|]; [|done].
    exists cl1. split; [done|]. cbn in Hl. congruence. }
  destruct Hcl1 as (cl1 & Hcl1 & Hsk).
  unfold write_leave. cbn [fst].
  set (s2 := set_writers _ s1).
  assert (Hcl2 : clients s2 !! w_client w = Some cl1) by exact Hcl1.
  etrans; [|exact (cmoves_put_client s2 _ cl1 Hcl2)].
  assert (Hv2 : cview_of (upd_client (w_client w) dec_kref s2) =
    CView (xfrs s0) (<[w_xfr w := (w_client w, f')]> (map mskel (xfr_mem s0)))
      (<[w_client w := (xs', kref cl - 1, c_open cl)]>
         (<[w_client w := (xs', kref cl, c_open cl)]> (map cskel (clients s0))))
      (List.filter (fun w0 => negb (Nat.eqb w0.2 (w_xfr w)))
         (map wskel (writers s0))) (trace s0)).
  { rewrite cview_of_eq. unfold s2.
    cbn [xfrs xfr_mem clients writers trace upd_client set_clients set_writers].
    rewrite H1, H2, H5, wskel_remove_writer, H4.
    rewrite (map_alter_insert _ _ _ _ _ Hcl1), H3. f_equal. f_equal.
    injection Hsk as Ha Hb Hc. unfold cskel, dec_kref. cbn.
    now rewrite Ha, Hb, Hc. }
  rewrite Hv2, (cview_of_eq s0).
  eapply rtc_l; [apply (cm_client_xfrs _ _ _ _ _ (w_client w) (c_xfrs cl) xs'
                          (kref cl) (c_open cl))|]; [|done|].
  { now rewrite list_lookup_fmap, Hcl. }
  apply rtc_once. apply cm_leave; [|now rewrite list_lookup_insert_eq|done].
  apply list_elem_of_fmap. now exists w.
Qed.

Lemma cmoves_write_loop w sig fault s :
  cinv (cview_of s) -> w ∈ writers s ->
  rtc cmove (cview_of s) (cview_of (sbefifo_write_loop w sig fault s).1).
Proof.
  intros Hv Hw.
  assert (Hwsk : (w_client w, w_xfr w) ∈ c_wr (cview_of s)).
  { cbn. apply list_elem_of_fmap. now exists w. }
  destruct (ci_writer _ Hv _ _ Hwsk) as [Hm Hclt]. cbn in Hm, Hclt.
  rewrite length_map in Hclt.
  destruct (lookup_lt_is_Some_2 _ _ Hclt) as [cl Hcl].
  rewrite list_lookup_fmap in Hm.
  destruct (xfr_mem s !! w_xfr w) as [xf|] eqn:Hx; [|done].
  injection Hm as Hxc Hxf.
  assert (Hsk : mskel xf = (w_client w, 0)) by (unfold mskel; congruence).
  assert (Hidm : <[w_xfr w := (w_client w, 0)]> (map mskel (xfr_mem s))
                 = map mskel (xfr_mem s)).
  { apply list_insert_id. rewrite list_lookup_fmap, Hx. cbn. now rewrite Hsk. }
  assert (Hidc : <[w_client w := (c_xfrs cl, kref cl, c_open cl)]>
                   (map cskel (clients s)) = map cskel (clients s)).
  { apply list_insert_id. now rewrite list_lookup_fmap, Hcl. }
  assert (Hcancel : forall ret,
    rtc cmove (cview_of s)
      (cview_of (write_leave w ret (cancel_xfr (w_xfr w) s)).1)).
  { intros ret.
    apply (cmoves_write_leave w ret s _ cl xf
             (set_bit SBEFIFO_XFR_CANCEL 0) (c_xfrs cl)); try done; [tauto|].
    rewrite cview_of_eq. cbn. rewrite (map_alter_insert _ _ _ _ _ Hx), Hidc.
    unfold mskel. cbn. now rewrite Hxc, Hxf. }
  unfold sbefifo_write_loop.
  destruct (sbefifo_write_ready s (w_xfr w) (w_client w)) as [ready n].
  destruct ready; cbn [negb]; [|destruct sig; [apply Hcancel|done]].
  destruct (rc s =? 0); cbn [negb].
  2:{ apply (cmoves_write_leave w _ s _ cl xf 0 []); try done; [|tauto|].
      - intros x Hx'. now apply elem_of_nil in Hx'.
      - rewrite cview_of_eq. cbn. rewrite (map_alter_insert _ _ _ _ _ Hcl), Hidm.
        done. }
  destruct (w_user w && fault); [apply Hcancel|].
  set (wb' := (sbefifo_buf_wrotenb _ _).2).
  destruct (size_t (w_len w - min_t n (w_len w)) =? 0).
  - apply (cmoves_write_leave w _ s _ cl xf
             (set_bit SBEFIFO_XFR_WRITE_DONE 0) (c_xfrs cl)); try done; [tauto|].
    rewrite cview_of_eq. cbn. rewrite (map_alter_insert _ _ _ _ _ Hx), Hidc.
    rewrite map_alter_same by done. unfold mskel. cbn. now rewrite Hxc, Hxf.
  - cbn [fst]. rewrite !cview_of_eq. cbn -[replace_writer].
    rewrite map_alter_same by done. rewrite wskel_replace_writer; [done|].
    cbn. intros w0 Hw0 Hx0.
    assert (Hw0sk : (w_client w0, w_xfr w0) ∈ c_wr (cview_of s)).
    { cbn. apply list_elem_of_fmap. now exists w0. }
    destruct (ci_writer _ Hv _ _ Hw0sk) as [Hm0 _]. cbn in Hm0.
    rewrite Hx0, list_lookup_fmap, Hx in Hm0. cbn in Hm0. congruence.
Qed.

Lemma client_usable_Some s c :
  client_usable s c = true ->
  exists cl, clients s !! c = Some cl /\ c_open cl = true.
Proof. unfold client_usable. destruct (clients s !! c); [eauto|done]. Qed.

Lemma step_cmoves o s :
  cinv (cview_of s) -> rtc cmove (cview_of s) (cview_of (step bus tm o s).1).
Proof.
  intros Hv. unfold step. destruct (hung s); [done|].
  destruct o as [fl a|fl a|c u src len a|x sig fault|c u len sig fault|c|fuel|dt|].
  - apply cmoves_open.
  - apply cmoves_drv_open.
  - destruct (client_usable s c) eqn:Hu; [|done].
    apply client_usable_Some in Hu as (cl & Hcl & _).
    now apply (cmoves_write_enter c u src _ a s cl).
  - destruct (find_writer x (writers s)) as [w|] eqn:Hf; [|done].
    apply find_writer_Some in Hf as [Hw _]. now apply cmoves_write_loop.
  - destruct (client_usable s c) eqn:Hu; [|done].
    apply client_usable_Some in Hu as (cl & Hcl & _).
    now apply (cmoves_read_common c u _ sig fault s cl).
  - destruct (client_usable s c) eqn:Hu; [|done].
    apply client_usable_Some in Hu as (cl & Hcl & Ho).
    now apply (cmoves_release c s cl).
  - destruct (timer_due s); [|done]. cbn [fst].
    apply (cmoves_poll_timer bus tm fuel (set_poll_timer None s)). exact Hv.
  - done.
  - apply cmoves_remove.
Qed.

Lemma cinv_probe (d : D) now : cinv (cview_of (sbefifo_probe d now)).
Proof.
  change (cview_of (sbefifo_probe d now)) with (CView [] [] [] [] []).
  split; cbn [c_q c_mem c_cl c_wr c_tr].
  - intros x Hx. now apply elem_of_nil in Hx.
  - intros x. unfold eot_raises. cbn. lia.
  - done.
  - intros x Hx. now apply elem_of_nil in Hx.
  - intros x. change (flags_at [] x) with 0. now rewrite test_bit_0.
  - intros c x Hx. now apply elem_of_nil in Hx.
  - apply NoDup_nil_2.
  - done.
  - done.
Qed.

Lemma cinv_after ops s :
  cinv (cview_of s) -> cinv (cview_of (after bus tm ops s)).
Proof.
  revert s. induction ops as [|o ops IH]; intros s Hs; [done|].
  rewrite after_cons. apply IH. eapply cinv_moves; [exact Hs|].
  now apply step_cmoves.
Qed.

Lemma flags_at_mskel s x :
  flags_at (map mskel (xfr_mem s)) x = xfr_flags (get_xfr s x).
Proof.
  unfold flags_at, get_xfr. rewrite list_lookup_fmap.
  now destruct (xfr_mem s !! x).
Qed.

(** C10.  In every state a device can reach, the history holds at most
    one write of the magic value to the end-of-transfer register of the up
    FIFO for any transfer, whatever was cancelled on the way; a transfer
    still queued for which it has been written is marked response-pending;
    and a response-pending transfer never has its write-done flag set, so
    neither the cancel path nor anything else arms a second raise. *)
Theorem C10_eot_raised_once ops (d : D) now x :
  let s := after bus tm ops (sbefifo_probe d now) in
  (eot_raises x (trace s) <= 1)%nat /\
  (x ∈ xfrs s -> eot_raises x (trace s) = 1%nat ->
   xfr_test SBEFIFO_XFR_RESP_PENDING s x = true) /\
  (xfr_test SBEFIFO_XFR_RESP_PENDING s x = true ->
   xfr_test SBEFIFO_XFR_WRITE_DONE s x = false).
Proof.
  intros s.
  pose proof (cinv_after ops _ (cinv_probe d now)) as Hv. fold s in Hv.
  pose proof (ci_once _ Hv x) as H1. pose proof (ci_raised _ Hv x) as H2.
  pose proof (ci_rp_wd _ Hv x) as H3.
  cbn [cview_of c_q c_mem c_tr] in H1, H2, H3.
  fold mskel in H2, H3. rewrite flags_at_mskel in H2, H3.
  repeat split; done.
Qed.

End Writes.

(** C10 on a device that never answers: after one run of the timer function
    the first transfer is still queued, end of transfer has been raised
    for it once, and it is response-pending with write-done clear. *)
Lemma C10_eot_raised_once_witness :
  let ops := [OpOpen 0 true; OpWrite 0%nat false [1] 4 true;
              OpWriteLoop 0%nat false false; OpTick 64] in
  let s := after silent_bus hz100 ops (sbefifo_probe tt 0) in
  xfrs s = [0%nat] /\ eot_raises 0 (trace s) = 1%nat /\
  xfr_test SBEFIFO_XFR_RESP_PENDING s 0 = true /\
  xfr_test SBEFIFO_XFR_WRITE_DONE s 0 = false.
Proof.
  intros ops s.
  destruct (C10_eot_raised_once silent_bus hz100 ops tt 0 0%nat)
    as (_ & H2 & H3).
  fold s in H2, H3.
  assert (Hq : xfrs s = [0%nat]) by (vm_compute; reflexivity).
  assert (He : eot_raises 0 (trace s) = 1%nat) by (vm_compute; reflexivity).
  assert (Hin : 0%nat ∈ xfrs s) by (rewrite Hq; apply list_elem_of_here).
  split; [exact Hq|]. split; [exact He|].
  split; [exact (H2 Hin He)|exact (H3 (H2 Hin He))].
Defined.

(** * More properties of the SBEFIFO driver *)

(** ** Ring buffer *)

(** X1.  As long as commits stay inside the storage, both cursors point into the
    storage, the full flag is only set on equal cursors, and each of the two
    counters is a whole number of words between 0 and the capacity. *)
Theorem ring_cursors_stay_in_storage b :
  buf_reachable_in b ->
  (0 <= rpos b < SBEFIFO_BUF_CNT /\ 0 <= wpos b < SBEFIFO_BUF_CNT /\
   (buf_full b = true -> rpos b = wpos b)) /\
  (0 <= sbefifo_buf_nbreadable b <= 4 * SBEFIFO_BUF_CNT /\
   word_aligned (sbefifo_buf_nbreadable b)) /\
  (0 <= sbefifo_buf_nbwriteable b <= 4 * SBEFIFO_BUF_CNT /\
   word_aligned (sbefifo_buf_nbwriteable b)).
Proof.
  intros Hb. apply buf_reachable_in_wf in Hb. split; [exact Hb|].
  rewrite nbreadable_wf, nbwriteable_wf by done.
  destruct Hb as (Hr & Hw & Hf). unfold SBEFIFO_BUF_CNT, word_aligned in *.
  rewrite !shiftr_words, !Z.shiftl_mul_pow2 by lia. change (2 ^ 2) with 4.
  destruct (buf_full b), (Z.leb_spec (rpos b) (wpos b)),
    (Z.ltb_spec (wpos b) (rpos b)); lia.
Qed.

Lemma ring_cursors_stay_in_storage_witness :
  buf_reachable_in two_read_of_four /\
  0 <= rpos two_read_of_four < SBEFIFO_BUF_CNT.
Proof.
  split; [exact two_read_of_four_in|].
  exact (proj1 (proj1 (ring_cursors_stay_in_storage two_read_of_four
                         two_read_of_four_in))).
Defined.

(** X2.  A read commit of more than nothing that stays inside the storage clears
    the full flag, and [sbefifo_buf_readnb] returns true exactly when
    nothing is left to read. *)
Theorem readnb_reports_empty_after_data b n :
  buf_reachable_in b -> word_aligned n ->
  0 < n <= sbefifo_buf_nbreadable b ->
  rpos b + Z.shiftr n 2 <= SBEFIFO_BUF_CNT ->
  buf_full (sbefifo_buf_readnb b n).2 = false /\
  ((sbefifo_buf_readnb b n).1 = true <->
   sbefifo_buf_nbreadable (sbefifo_buf_readnb b n).2 = 0).
Proof.
  intros Hb Ha Hn Hc. apply buf_reachable_in_wf in Hb.
  split; [apply readnb_clears_full; lia|now apply readnb_reports_empty].
Qed.

Lemma readnb_reports_empty_after_data_witness :
  (sbefifo_buf_readnb two_read_of_four 8).1 = true <->
  sbefifo_buf_nbreadable (sbefifo_buf_readnb two_read_of_four 8).2 = 0.
Proof.
  refine (proj2 (readnb_reports_empty_after_data two_read_of_four 8
                   two_read_of_four_in _ _ _));
    vm_compute; intuition congruence.
Defined.

(** X3.  A write commit within what is writable: [sbefifo_buf_wrotenb] returns
    true exactly when the buffer is full afterwards, and then nothing more
    is writable. *)
Theorem wrotenb_reports_full_after_data b n :
  buf_reachable_in b -> word_aligned n ->
  0 <= n <= sbefifo_buf_nbwriteable b ->
  (sbefifo_buf_wrotenb b n).1 = buf_full (sbefifo_buf_wrotenb b n).2 /\
  ((sbefifo_buf_wrotenb b n).1 = true <->
   sbefifo_buf_nbwriteable (sbefifo_buf_wrotenb b n).2 = 0).
Proof.
  intros Hb Ha Hn. apply buf_reachable_in_wf in Hb.
  pose proof (wrotenb_reports_full b n Hb Ha Hn) as H.
  split; [exact H|]. rewrite H.
  apply full_iff_nothing_writeable. now apply wrotenb_wf.
Qed.

Lemma wrotenb_reports_full_after_data_witness :
  (sbefifo_buf_wrotenb two_read_of_four 112).1
    = buf_full (sbefifo_buf_wrotenb two_read_of_four 112).2.
Proof.
  refine (proj1 (wrotenb_reports_full_after_data two_read_of_four 112
                   two_read_of_four_in _ _));
    vm_compute; intuition congruence.
Defined.

(** X4.  A full buffer reports the whole capacity as readable wherever its read
    cursor stands: when the cursor is not at the start of the storage, a
    read of what is reported runs past the end of the storage. *)
Theorem full_buffer_read_overruns b :
  buf_reachable_in b -> buf_full b = true -> 0 < rpos b ->
  sbefifo_buf_nbreadable b = 4 * SBEFIFO_BUF_CNT /\
  admissible b (commit_read (sbefifo_buf_nbreadable b)) /\
  ~ contiguous b (commit_read (sbefifo_buf_nbreadable b)).
Proof.
  intros Hb Hf Hr. apply buf_reachable_in_wf in Hb.
  rewrite nbreadable_wf by done. rewrite Hf.
  unfold admissible, contiguous, word_aligned, SBEFIFO_BUF_CNT.
  rewrite nbreadable_wf by done. rewrite Hf.
  change (Z.shiftr (4 * 32) 2) with 32. change (Z.shiftl 32 2) with (4 * 32).
  repeat split; lia.
Qed.

Lemma refilled_buf_in : buf_reachable_in refilled_buf.
Proof.
  unfold refilled_buf, filled_buf.
  repeat (apply reach_in_step; [|vm_compute; intuition congruence..]).
  apply reach_in_init.
Defined.

Lemma full_buffer_read_overruns_witness :
  buf_full refilled_buf = true /\ 0 < rpos refilled_buf /\
  ~ contiguous refilled_buf (commit_read (sbefifo_buf_nbreadable refilled_buf)).
Proof.
  assert (H1 : buf_full refilled_buf = true) by (vm_compute; reflexivity).
  assert (H2 : 0 < rpos refilled_buf) by (vm_compute; reflexivity).
  split; [exact H1|]. split; [exact H2|].
  exact (proj2 (proj2 (full_buffer_read_overruns refilled_buf refilled_buf_in
                         H1 H2))).
Defined.

(** ** Status words *)

Lemma nwreadable_mod sts : sbefifo_dev_nwreadable sts = Z.shiftr sts 16 mod 16.
Proof.
  unfold sbefifo_dev_nwreadable.
  change 0x000f0000 with (Z.shiftl (Z.ones 4) 16).
  rewrite Z.shiftr_land, Z.shiftr_shiftl_l by lia.
  change (Z.shiftl (Z.ones 4) (16 - 16)) with (Z.ones 4).
  rewrite Z.land_ones by lia. change (2 ^ 4) with 16.
  apply size_t_small. pose proof (Z.mod_pos_bound (Z.shiftr sts 16) 16). lia.
Qed.

(** The entry count of a FIFO status word is its bits 16 to 19, at most 15.
    The room left in the up FIFO is 8 less that count as long as the count
    is at most 8; for a larger count the subtraction wraps around. *)
Theorem status_entry_count sts :
  sbefifo_dev_nwreadable sts = Z.shiftr sts 16 mod 16 /\
  0 <= sbefifo_dev_nwreadable sts <= 15 /\
  (sbefifo_dev_nwreadable sts <= 8 ->
   sbefifo_dev_nwwriteable sts = 8 - sbefifo_dev_nwreadable sts) /\
  (8 < sbefifo_dev_nwreadable sts ->
   sbefifo_dev_nwwriteable sts = 2 ^ 32 + 8 - sbefifo_dev_nwreadable sts).
Proof.
  pose proof (nwreadable_mod sts) as H.
  pose proof (Z.mod_pos_bound (Z.shiftr sts 16) 16 ltac:(lia)) as Hb.
  unfold sbefifo_dev_nwwriteable. rewrite H.
  split; [done|]. split; [lia|]. split; intros Hc.
  - apply size_t_small. lia.
  - unfold size_t, BITS_PER_LONG.
    rewrite <- (Z.mod_add _ 1) by lia. rewrite Z.mod_small; lia.
Qed.

(** ** Readiness *)

(** X6.  [sbefifo_poll] reports an error exactly when the fatal code is set,
    input exactly when the client's read buffer reports something readable
    and output exactly when its write buffer reports room, and nothing
    else. *)
Theorem poll_mask {D : Type} (s : sbefifo D) (c : nat) :
  let mask := sbefifo_poll s c in
  (Z.land mask POLLERR <> 0 <-> rc s <> 0) /\
  (Z.land mask POLLIN <> 0 <->
   sbefifo_buf_nbreadable (rbuf (get_client s c)) <> 0) /\
  (Z.land mask POLLOUT <> 0 <->
   sbefifo_buf_nbwriteable (wbuf (get_client s c)) <> 0) /\
  Z.land mask (Z.lor POLLERR (Z.lor POLLIN POLLOUT)) = mask.
Proof.
  unfold sbefifo_poll.
  destruct (Z.eqb_spec (rc s) 0) as [Hr|Hr],
    (Z.eqb_spec (sbefifo_buf_nbreadable (rbuf (get_client s c))) 0) as [Hi|Hi],
    (Z.eqb_spec (sbefifo_buf_nbwriteable (wbuf (get_client s c))) 0) as [Ho|Ho];
    cbn [negb];
    repeat match goal with
           | |- context [Z.lor ?a ?b] =>
               let v := eval vm_compute in (Z.lor a b) in
               change (Z.lor a b) with v
           | |- context [Z.land ?a ?b] =>
               let v := eval vm_compute in (Z.land a b) in
               change (Z.land a b) with v
           end;
    (split; [|split; [|split; [|reflexivity]]]); split; intros H; congruence.
Qed.

(** X5.  A write commit of zero bytes on an empty buffer marks the buffer full:
    [sbefifo_buf_wrotenb] finds the cursors equal and sets the flag, after
    which the whole capacity is reported readable and nothing writable. *)
Theorem wrotenb_of_nothing_fills_empty b :
  buf_reachable_in b -> sbefifo_buf_nbreadable b = 0 ->
  admissible b (commit_write 0) /\
  (sbefifo_buf_wrotenb b 0).1 = true /\
  buf_full (sbefifo_buf_wrotenb b 0).2 = true /\
  sbefifo_buf_nbreadable (sbefifo_buf_wrotenb b 0).2 = 4 * SBEFIFO_BUF_CNT /\
  sbefifo_buf_nbwriteable (sbefifo_buf_wrotenb b 0).2 = 0.
Proof.
  intros Hb He. apply buf_reachable_in_wf in Hb.
  assert (Ha : admissible b (commit_write 0)).
  { split; [done|]. rewrite nbwriteable_wf by done.
    destruct Hb as (Hr & Hw & _). unfold SBEFIFO_BUF_CNT in *.
    destruct (buf_full b); [lia|].
    destruct (Z.ltb_spec (wpos b) (rpos b)); lia. }
  assert (Hwf' : buf_wf (sbefifo_buf_wrotenb b 0).2).
  { destruct Ha. now apply wrotenb_wf. }
  rewrite nbreadable_wf in He by done.
  assert (Heq : buf_full b = false /\ rpos b = wpos b).
  { destruct Hb as (Hr & Hw & _). unfold SBEFIFO_BUF_CNT in *.
    destruct (buf_full b); [lia|].
    destruct (Z.leb_spec (rpos b) (wpos b)); split; (done || lia). }
  destruct Heq as [Hnf Heq].
  assert (Hfull : buf_full (sbefifo_buf_wrotenb b 0).2 = true).
  { destruct Hb as (Hr & Hw & _).
    unfold sbefifo_buf_wrotenb, buf_full, SBEFIFO_BUF_CNT in *.
    cbn [snd flags]. change (Z.shiftr 0 2) with 0. rewrite Z.add_0_r.
    destruct (Z.eqb_spec (wpos b) 32); [lia|].
    destruct (Z.eqb_spec (wpos b) (rpos b)); [|lia].
    apply test_set_bit. done. }
  split; [exact Ha|]. split.
  { destruct Hb as (Hr & Hw & _).
    unfold sbefifo_buf_wrotenb, SBEFIFO_BUF_CNT in *. cbn [fst].
    change (Z.shiftr 0 2) with 0. rewrite Z.add_0_r.
    destruct (Z.eqb_spec (wpos b) 32); [lia|]. now apply Z.eqb_eq. }
  split; [exact Hfull|].
  rewrite nbreadable_wf, nbwriteable_wf, Hfull by done. done.
Qed.

Lemma wrotenb_of_nothing_fills_empty_witness :
  buf_reachable_in (sbefifo_buf_init zeroed_buf) /\
  buf_full (sbefifo_buf_wrotenb (sbefifo_buf_init zeroed_buf) 0).2 = true.
Proof.
  assert (H : sbefifo_buf_nbreadable (sbefifo_buf_init zeroed_buf) = 0)
    by (vm_compute; reflexivity).
  split; [apply reach_in_init|].
  exact (proj1 (proj2 (proj2 (wrotenb_of_nothing_fills_empty
                                (sbefifo_buf_init zeroed_buf)
                                (reach_in_init zeroed_buf) H)))).
Defined.

(** ** Calls on a device *)

Section Device.
Context {D : Type} (bus : fsi_device D) (tm : timing).
Implicit Types s : sbefifo D.

(** X7.  A read on a non-blocking handle fails with -EAGAIN exactly when the
    client's oldest transfer is not response-pending, and then nothing has
    changed.  When it is response-pending the handle's mode is not looked
    at again: with no data buffered, the transfer incomplete and no fatal
    code, the call sleeps like a blocking one. *)
Theorem nonblocking_read s c user len sig fault :
  is_aligned len = true -> nonblocking (get_client s c) = true ->
  rc s <> - EAGAIN ->
  let r := sbefifo_read_common c user len sig fault s in
  (r.2 = Returned (- EAGAIN) [] <-> sbefifo_xfr_rsp_pending s c = false) /\
  (sbefifo_xfr_rsp_pending s c = false -> r.1 = s) /\
  (sbefifo_xfr_rsp_pending s c = true -> rc s = 0 ->
   sbefifo_buf_nbreadable (rbuf (get_client s c)) = 0 ->
   (forall x, head (c_xfrs (get_client s c)) = Some x ->
              xfr_test SBEFIFO_XFR_COMPLETE s x = false) ->
   sig = false -> r = (s, Pending)).
Proof.
  intros Hal Hnb Hrc r. subst r. unfold sbefifo_read_common.
  rewrite Hal, Hnb. cbn [negb andb].
  destruct (sbefifo_xfr_rsp_pending s c) eqn:Hp; cbn [negb].
  2:{ cbn [fst snd]. repeat split; try done. }
  split; [|split; [done|]].
  - split; [|done]. intros H. exfalso. revert H.
    unfold sbefifo_read_ready.
    destruct (negb (rc s =? 0) || _ || _); cbn [negb].
    2:{ now destruct sig. }
    destruct (Z.eqb_spec (rc s) 0) as [Hz|Hz]; cbn [negb].
    2:{ cbn [snd]. intros [= H]; done. }
    assert (Hn : forall n data, 0 <= n -> Returned n data <> Returned (- EAGAIN) []).
    { intros n data Hn [= H _]. unfold EAGAIN in H. lia. }
    assert (Hm : 0 <= min_t (sbefifo_buf_nbreadable (rbuf (get_client s c))) len).
    { unfold min_t, size_t.
      pose proof (Z.mod_pos_bound (sbefifo_buf_nbreadable (rbuf (get_client s c)))
                    (2 ^ BITS_PER_LONG) ltac:(done)).
      pose proof (Z.mod_pos_bound len (2 ^ BITS_PER_LONG) ltac:(done)). lia. }
    destruct (user && fault); [cbn [snd]; intros [= H]; done|].
    destruct (sbefifo_buf_readnb _ _) as [empty rb1].
    destruct empty; [|cbn [snd]; now apply Hn].
    destruct (head _); cbn [snd]; [now apply Hn|].
    intros [= H]; done.
  - intros _ Hz Hn Hx ->. unfold sbefifo_read_ready.
    rewrite Hz, Hn. cbn [Z.eqb negb orb].
    destruct (head (c_xfrs (get_client s c))) as [x|]; [|done].
    now rewrite (Hx x eq_refl).
Qed.

(** X8.  [sbefifo_drv_open] does not look at the fatal code.  On a device whose
    fatal code is set, [sbefifo_open] fails with that code, while
    [sbefifo_drv_open] hands out a new client; every write of that client
    then fails with the code. *)
Theorem drv_open_ignores_fatal_code ops (d : D) now flags :
  let s := after bus tm ops (sbefifo_probe d now) in
  rc s <> 0 ->
  step bus tm (OpOpen flags true) s = (s, Returned (rc s) []) /\
  let r := step bus tm (OpDrvOpen flags true) s in
  let c := length (clients s) in
  r.2 = NewClient (Some c) /\ client_usable r.1 c = true /\
  forall user src len,
    is_aligned (size_t len) = true -> size_t len <> 0 ->
    (step bus tm (OpWrite c user src len true) r.1).2 = Returned (rc s) [].
Proof.
  intros s Hrc.
  pose proof (qinv_after bus tm ops _ (qinv_probe d now)) as Hv. fold s in Hv.
  pose proof (latched_calls_fail bus tm s Hv Hrc) as (_ & _ & _ & Hopen).
  split; [apply Hopen|]. intros r c.
  destruct (latched_step bus tm (OpDrvOpen flags true) s Hv Hrc)
    as (Hv' & Hrc' & _ & Hsame & _).
  fold r in Hv', Hrc', Hsame. rewrite <- (Hsame ltac:(done)).
  pose proof (latched_calls_fail bus tm r.1 Hv' Hrc') as (Hw & _).
  assert (Hh : hung s = false).
  { destruct (hung s) eqn:Hh; [|done]. now pose proof (qi_hung _ Hv Hh). }
  assert (Hr : r = (sbefifo_new_client flags s, NewClient (Some c))).
  { unfold r, step. rewrite Hh. reflexivity. }
  assert (Hu : client_usable r.1 c = true).
  { rewrite Hr. unfold client_usable, sbefifo_new_client. cbn.
    now rewrite list_lookup_middle. }
  split; [now rewrite Hr|]. split; [exact Hu|].
  intros user src len Hal Hlen. now apply Hw.
Qed.

(** X9.  In every state of a device the queue holds transfers that have been
    allocated, each at most once, in the order of their allocation. *)
Theorem queue_in_allocation_order ops (d : D) now :
  let s := after bus tm ops (sbefifo_probe d now) in
  (forall i j x y, (i < j)%nat ->
     xfrs s !! i = Some x -> xfrs s !! j = Some y -> (x < y)%nat) /\
  (forall x, x ∈ xfrs s -> (x < length (xfr_mem s))%nat) /\
  NoDup (xfrs s).
Proof.
  intros s.
  pose proof (qinv_after bus tm ops _ (qinv_probe d now)) as Hv. fold s in Hv.
  pose proof (qi_sorted _ Hv) as Hs. pose proof (qi_alloc _ Hv) as Ha.
  cbn [view v_q v_len] in Hs, Ha.
  split; [exact Hs|]. split; [exact Ha|].
  apply NoDup_alt. intros i j x Hi Hj.
  destruct (Nat.lt_total i j) as [Hlt|[Heq|Hlt]]; [|done|].
  - pose proof (Hs i j x x Hlt Hi Hj). lia.
  - pose proof (Hs j i x x Hlt Hj Hi). lia.
Qed.


(** X11.  End of transfer is not raised for a queued transfer while the write
    that feeds it is still inside its loop. *)
Theorem no_eot_while_writing ops (d : D) now w :
  let s := after bus tm ops (sbefifo_probe d now) in
  w ∈ writers s -> w_xfr w ∈ xfrs s ->
  eot_raises (w_xfr w) (trace s) = 0%nat /\
  xfr_flags (get_xfr s (w_xfr w)) = 0.
Proof.
  intros s Hw Hq.
  pose proof (cinv_after bus tm ops _ (cinv_probe d now)) as Hv. fold s in Hv.
  assert (Hwsk : (w_client w, w_xfr w) ∈ c_wr (cview_of s)).
  { cbn. apply list_elem_of_fmap. now exists w. }
  destruct (ci_writer _ Hv _ _ Hwsk) as [Hm _].
  pose proof (ci_once _ Hv (w_xfr w)) as H1.
  pose proof (ci_raised _ Hv (w_xfr w) Hq) as H2.
  assert (Hf : flags_at (c_mem (cview_of s)) (w_xfr w) = 0).
  { unfold flags_at. now rewrite Hm. }
  rewrite Hf, test_bit_0 in H2. cbn [cview_of c_tr] in H1, H2.
  split.
  - destruct (eot_raises (w_xfr w) (trace s)) as [|[|n]]; [done| |lia].
    now specialize (H2 eq_refl).
  - rewrite <- Hf. cbn [cview_of c_mem]. symmetry. apply (flags_at_mskel s).
Qed.

End Device.

(** ** Giving up a client *)

Section Release.
Context {D : Type}.
Implicit Types s : sbefifo D.

Lemma complete_upd_kfree s x y :
  xfr_test SBEFIFO_XFR_COMPLETE (upd_xfr x xfr_kfree s) y
    = xfr_test SBEFIFO_XFR_COMPLETE s y.
Proof.
  unfold xfr_test, get_xfr, upd_xfr. cbn -[test_bit].
  destruct (decide (x = y)) as [->|Hne].
  - rewrite list_lookup_alter_eq. now destruct (xfr_mem s !! y).
  - now rewrite list_lookup_alter_ne.
Qed.

Lemma complete_upd_cancel s x y :
  xfr_test SBEFIFO_XFR_COMPLETE
    (mod_timer_now (upd_xfr x (xfr_set_flags (set_bit SBEFIFO_XFR_CANCEL)) s)) y
    = xfr_test SBEFIFO_XFR_COMPLETE s y.
Proof.
  unfold xfr_test, get_xfr, upd_xfr, mod_timer_now. cbn -[test_bit].
  destruct (decide (x = y)) as [->|Hne].
  - rewrite list_lookup_alter_eq. destruct (xfr_mem s !! y); [|done].
    cbn -[test_bit set_bit]. apply test_set_bit_ne; done.
  - now rewrite list_lookup_alter_ne.
Qed.

Lemma release_keeps_complete l s y :
  xfr_test SBEFIFO_XFR_COMPLETE (client_release_xfrs l s).2 y
    = xfr_test SBEFIFO_XFR_COMPLETE s y.
Proof.
  revert s. induction l as [|x l IH]; intros s; [done|].
  cbn [client_release_xfrs]. destruct (xfr_test _ s x).
  - rewrite IH. apply complete_upd_kfree.
  - specialize (IH (mod_timer_now
        (upd_xfr x (xfr_set_flags (set_bit SBEFIFO_XFR_CANCEL)) s))).
    destruct (client_release_xfrs l _) as [kept s2]. cbn [snd] in *.
    rewrite IH. apply complete_upd_cancel.
Qed.

Lemma release_keeps_freed l s y :
  xfr_freed (get_xfr s y) = true ->
  xfr_freed (get_xfr (client_release_xfrs l s).2 y) = true.
Proof.
  revert s. induction l as [|x l IH]; intros s Hy; [done|].
  cbn [client_release_xfrs].
  assert (Hk : forall f, (forall xf, xfr_freed xf = true -> xfr_freed (f xf) = true) ->
             xfr_freed (get_xfr (upd_xfr x f s) y) = true).
  { intros f Hf. unfold get_xfr, upd_xfr in *. cbn.
    destruct (decide (x = y)) as [->|Hne].
    - rewrite list_lookup_alter_eq. destruct (xfr_mem s !! y); cbn in *; [auto|done].
    - now rewrite list_lookup_alter_ne. }
  destruct (xfr_test _ s x).
  - apply IH, Hk. done.
  - specialize (IH (mod_timer_now
        (upd_xfr x (xfr_set_flags (set_bit SBEFIFO_XFR_CANCEL)) s))).
    destruct (client_release_xfrs l _) as [kept s2]. cbn [snd] in *.
    apply IH. apply (Hk (xfr_set_flags (set_bit SBEFIFO_XFR_CANCEL))). done.
Qed.

Lemma release_keeps_cancel l s y :
  xfr_test SBEFIFO_XFR_CANCEL s y = true ->
  xfr_test SBEFIFO_XFR_CANCEL (client_release_xfrs l s).2 y = true.
Proof.
  revert s. induction l as [|x l IH]; intros s Hy; [done|].
  cbn [client_release_xfrs].
  assert (Hk : forall f, (forall xf, test_bit SBEFIFO_XFR_CANCEL (xfr_flags xf) = true ->
                            test_bit SBEFIFO_XFR_CANCEL (xfr_flags (f xf)) = true) ->
             xfr_test SBEFIFO_XFR_CANCEL (upd_xfr x f s) y = true).
  { intros f Hf. unfold xfr_test, get_xfr, upd_xfr in *. cbn -[test_bit].
    destruct (decide (x = y)) as [->|Hne].
    - rewrite list_lookup_alter_eq.
      destruct (xfr_mem s !! y); cbn -[test_bit] in *; [auto|done].
    - now rewrite list_lookup_alter_ne. }
  destruct (xfr_test SBEFIFO_XFR_COMPLETE s x).
  - apply IH, Hk. done.
  - specialize (IH (mod_timer_now
        (upd_xfr x (xfr_set_flags (set_bit SBEFIFO_XFR_CANCEL)) s))).
    destruct (client_release_xfrs l _) as [kept s2]. cbn [snd] in *.
    apply IH. apply (Hk (xfr_set_flags (set_bit SBEFIFO_XFR_CANCEL))).
    intros xf _. cbn -[test_bit set_bit]. apply test_set_bit. done.
Qed.

Lemma freed_upd_kfree s x :
  (x < length (xfr_mem s))%nat -> xfr_freed (get_xfr (upd_xfr x xfr_kfree s) x) = true.
Proof.
  intros Hx. unfold get_xfr, upd_xfr. cbn. rewrite list_lookup_alter_eq.
  destruct (lookup_lt_is_Some_2 _ _ Hx) as [xf ->]. done.
Qed.

Lemma cancel_upd_cancel s x :
  (x < length (xfr_mem s))%nat ->
  xfr_test SBEFIFO_XFR_CANCEL
    (mod_timer_now (upd_xfr x (xfr_set_flags (set_bit SBEFIFO_XFR_CANCEL)) s)) x
    = true.
Proof.
  intros Hx. unfold xfr_test, get_xfr, upd_xfr, mod_timer_now. cbn -[test_bit].
  rewrite list_lookup_alter_eq.
  destruct (lookup_lt_is_Some_2 _ _ Hx) as [xf ->]. cbn -[test_bit set_bit].
  apply test_set_bit. done.
Qed.

Lemma release_walk l s :
  let r := client_release_xfrs l s in
  (forall y, y ∈ r.1 <-> y ∈ l /\ xfr_test SBEFIFO_XFR_COMPLETE s y = false) /\
  (forall y, y ∈ l -> (y < length (xfr_mem s))%nat ->
     xfr_test SBEFIFO_XFR_COMPLETE s y = true ->
     xfr_freed (get_xfr r.2 y) = true) /\
  (forall y, y ∈ l -> (y < length (xfr_mem s))%nat ->
     xfr_test SBEFIFO_XFR_COMPLETE s y = false ->
     xfr_test SBEFIFO_XFR_CANCEL r.2 y = true) /\
  jiffies r.2 = jiffies s /\
  ((exists y, y ∈ l /\ xfr_test SBEFIFO_XFR_COMPLETE s y = false) ->
   poll_timer r.2 = Some (jiffies s)) /\
  (poll_timer s = Some (jiffies s) -> poll_timer r.2 = Some (jiffies s)).
Proof.
  revert s. induction l as [|x l IH]; intros s; cbn zeta.
  { cbn [client_release_xfrs fst snd].
    split; [|split; [|split; [|split; [done|split; [|done]]]]].
    - intros y. split; [intros Hy|intros [Hy _]]; now apply elem_of_nil in Hy.
    - intros y Hy. now apply elem_of_nil in Hy.
    - intros y Hy. now apply elem_of_nil in Hy.
    - intros (y & Hy & _). now apply elem_of_nil in Hy. }
  cbn [client_release_xfrs]. destruct (xfr_test _ s x) eqn:Hc.
  - destruct (IH (upd_xfr x xfr_kfree s)) as (I1 & I2 & I3 & I4 & I5 & I6).
    set (r := client_release_xfrs l _) in *.
    assert (Hlen : length (xfr_mem (upd_xfr x xfr_kfree s)) = length (xfr_mem s)).
    { cbn. apply length_alter. }
    rewrite Hlen in I2, I3.
    split; [|split; [|split; [|split; [done|split; [|done]]]]].
    + intros y. rewrite I1, complete_upd_kfree, elem_of_cons.
      split; [tauto|]. intros [[->|Hy] Hcy]; [congruence|tauto].
    + intros y Hy Hlt Hcy. apply elem_of_cons in Hy as [->|Hy].
      * apply release_keeps_freed. now apply freed_upd_kfree.
      * apply I2; [done..|]. now rewrite complete_upd_kfree.
    + intros y Hy Hlt Hcy. apply elem_of_cons in Hy as [->|Hy]; [congruence|].
      apply I3; [done..|]. now rewrite complete_upd_kfree.
    + intros (y & Hy & Hcy). apply elem_of_cons in Hy as [->|Hy]; [congruence|].
      apply I5. exists y. split; [done|]. now rewrite complete_upd_kfree.
  - set (s1 := mod_timer_now _).
    destruct (IH s1) as (I1 & I2 & I3 & I4 & I5 & I6).
    assert (Hlen : length (xfr_mem s1) = length (xfr_mem s)).
    { cbn. apply length_alter. }
    rewrite Hlen in I2, I3.
    pose proof (release_keeps_cancel l s1) as Hkc.
    destruct (client_release_xfrs l s1) as [kept s2]. cbn [fst snd] in *.
    assert (Hcs : forall y, xfr_test SBEFIFO_XFR_COMPLETE s1 y
                            = xfr_test SBEFIFO_XFR_COMPLETE s y).
    { intros y. apply complete_upd_cancel. }
    assert (Ht : poll_timer s2 = Some (jiffies s)) by (now apply I6).
    split; [|split; [|split; [|split; [done|split; [done|done]]]]].
    + intros y. rewrite !elem_of_cons, I1, Hcs.
      split; [intros [->|?]; tauto|tauto].
    + intros y Hy Hlt Hcy. apply elem_of_cons in Hy as [->|Hy]; [congruence|].
      apply I2; [done..|]. now rewrite Hcs.
    + intros y Hy Hlt Hcy. apply elem_of_cons in Hy as [->|Hy].
      * apply Hkc. now apply cancel_upd_cancel.
      * apply I3; [done..|]. now rewrite Hcs.
Qed.

(** X12.  The walk of [sbefifo_client_release] over the transfers of a client
    when no fatal code is set: a complete transfer is freed and taken off
    the client's list; an incomplete transfer is marked cancelled and stays
    on the list, for the worker to finish, and the timer is made to fire at
    once.  The queue of the device is not touched. *)
Theorem release_frees_or_cancels l s x :
  x ∈ l -> (x < length (xfr_mem s))%nat ->
  let r := client_release_xfrs l s in
  (xfr_test SBEFIFO_XFR_COMPLETE s x = true ->
   xfr_freed (get_xfr r.2 x) = true /\ x ∉ r.1) /\
  (xfr_test SBEFIFO_XFR_COMPLETE s x = false ->
   xfr_test SBEFIFO_XFR_CANCEL r.2 x = true /\ x ∈ r.1 /\
   poll_timer r.2 = Some (jiffies s)) /\
  xfrs r.2 = xfrs s.
Proof.
  intros Hx Hlen. cbn zeta.
  destruct (release_walk l s) as (I1 & I2 & I3 & _ & I5 & _).
  split; [|split].
  - intros Hc. split; [now apply I2|]. rewrite I1. intros [_ H]. congruence.
  - intros Hc. split; [now apply I3|]. split; [now apply I1|].
    apply I5. now exists x.
  - now destruct (client_release_xfrs_spec l s) as (H & _).
Qed.

End Release.

Lemma nonblocking_read_witness :
  sbefifo_xfr_rsp_pending request_sent 0 = true /\
  sbefifo_read_common 0 false 4 false false request_sent
    = (request_sent, Pending).
Proof.
  assert (H1 : is_aligned 4 = true) by (vm_compute; reflexivity).
  assert (H2 : nonblocking (get_client request_sent 0) = true)
    by (vm_compute; reflexivity).
  assert (H3 : rc request_sent <> - EAGAIN) by (vm_compute; congruence).
  assert (H4 : sbefifo_xfr_rsp_pending request_sent 0 = true)
    by (vm_compute; reflexivity).
  split; [exact H4|].
  refine (proj2 (proj2 (nonblocking_read request_sent 0%nat false 4 false false
                          H1 H2 H3)) H4 _ _ _ eq_refl).
  - vm_compute; reflexivity.
  - vm_compute; reflexivity.
  - intros x Hx. vm_compute in Hx. injection Hx as <-. vm_compute. reflexivity.
Defined.

Lemma drv_open_ignores_fatal_code_witness :
  rc bus_failed <> 0 /\
  step broken_bus hz100 (OpOpen 0 true) bus_failed
    = (bus_failed, Returned (rc bus_failed) []).
Proof.
  unfold bus_failed.
  set (ops := [OpOpen 0 true; OpWrite 0%nat false [1] 4 true;
               OpWriteLoop 0%nat false false; OpTick 64]).
  assert (H : rc (after broken_bus hz100 ops (sbefifo_probe tt 0)) <> 0)
    by (vm_compute; congruence).
  split; [exact H|].
  exact (proj1 (drv_open_ignores_fatal_code broken_bus hz100 ops tt 0 0 H)).
Defined.


Lemma no_eot_while_writing_witness :
  exists w, w ∈ writers write_in_progress /\
    w_xfr w ∈ xfrs write_in_progress /\
    eot_raises (w_xfr w) (trace write_in_progress) = 0%nat.
Proof.
  unfold write_in_progress.
  set (ops := [OpOpen 0 true; OpWrite 0%nat false (replicate 40 7) 160 true;
               OpWriteLoop 0%nat false false]).
  set (s := after silent_bus hz100 ops (sbefifo_probe tt 0)).
  set (w := Writer 0 0 false (replicate 8 7) 32 128).
  assert (Hw : w ∈ writers s).
  { replace (writers s) with [w] by (vm_compute; reflexivity).
    apply list_elem_of_here. }
  assert (Hq : w_xfr w ∈ xfrs s).
  { replace (xfrs s) with [0%nat] by (vm_compute; reflexivity).
    apply list_elem_of_here. }
  exists w. split; [exact Hw|]. split; [exact Hq|].
  exact (proj1 (no_eot_while_writing silent_bus hz100 ops tt 0 w Hw Hq)).
Defined.

Lemma release_frees_or_cancels_witness :
  xfr_test SBEFIFO_XFR_CANCEL
    (client_release_xfrs [0%nat] write_in_progress).2 0 = true.
Proof.
  assert (H1 : 0%nat ∈ [0%nat]) by apply list_elem_of_here.
  assert (H2 : (0 < length (xfr_mem write_in_progress))%nat)
    by (vm_compute; lia).
  assert (H3 : xfr_test SBEFIFO_XFR_COMPLETE write_in_progress 0 = false)
    by (vm_compute; reflexivity).
  exact (proj1 (proj1 (proj2 (release_frees_or_cancels [0%nat]
                                write_in_progress 0%nat H1 H2)) H3)).
Defined.

(** ** Probing *)

Lemma land_bit x n :
  0 <= n -> (Z.land x (Z.shiftl 1 n) =? 0) = negb (Z.testbit x n).
Proof.
  intros Hn. rewrite Z.shiftl_1_l.
  destruct (Z.testbit x n) eqn:Hb; cbn [negb].
  - apply Z.eqb_neq. intros H.
    apply (f_equal (fun z => Z.testbit z n)) in H.
    rewrite Z.land_spec, Hb, Z.pow2_bits_true, Z.bits_0 in H by done. done.
  - apply Z.eqb_eq. apply Z.bits_inj'. intros m Hm.
    rewrite Z.land_spec, Z.bits_0, Z.pow2_bits_eqb by done.
    destruct (Z.eqb_spec n m) as [->|]; [now rewrite Hb|apply andb_false_r].
Qed.

Section Probe.
Context {D : Type} (bus : fsi_device D).

Lemma reset_wait_reads sleeps start timeout (io : @bus_io D) :
  let r := reset_wait bus sleeps start timeout io in
  exists reads,
    r.1.2 = io.2 ++ reads /\
    Forall (fun a => exists ret raw,
              a = BusRead (Z.lor SBEFIFO_UP SBEFIFO_STS) ret raw) reads /\
    (length reads <= S (length sleeps))%nat /\
    (r.2 = Some 0 -> exists raw,
       last reads = Some (BusRead (Z.lor SBEFIFO_UP SBEFIFO_STS) 0 raw) /\
       Z.testbit raw 25 = false).
Proof.
  revert io. induction sleeps as [|sl sleeps IH]; intros io; cbn zeta;
    cbn [reset_wait]; unfold sbefifo_inw;
    destruct (fsi_device_read bus io.1 _) as [[ret raw] d1];
    cbn [fst snd];
    set (a := BusRead (Z.lor SBEFIFO_UP SBEFIFO_STS) ret raw).
  - exists [a]. split.
    { destruct (negb _); [done|]. now destruct (_ =? 0). }
    split; [apply Forall_singleton; now exists ret, raw|]. split; [cbn; lia|].
    destruct (Z.eqb_spec ret 0) as [->|]; cbn [negb]; [|cbn; congruence].
    unfold SBEFIFO_STS_RESET_REQ. rewrite land_bit by lia.
    destruct (Z.testbit raw 25) eqn:Hb; cbn [negb snd]; [done|].
    intros _. now exists raw.
  - destruct (Z.eqb_spec ret 0) as [->|]; cbn [negb].
    2:{ exists [a]. split; [done|].
        split; [apply Forall_singleton; now exists ret, raw|].
        split; [cbn; lia|]. cbn [snd]. intros [= Hz]; done. }
    unfold SBEFIFO_STS_RESET_REQ. rewrite land_bit by lia.
    destruct (Z.testbit raw 25) eqn:Hb; cbn [negb].
    2:{ exists [a]. split; [done|].
        split; [apply Forall_singleton; now exists 0, raw|].
        split; [cbn; lia|]. intros _. now exists raw. }
    destruct (0 <? sl_left sl).
    { exists [a]. split; [done|].
      split; [apply Forall_singleton; now exists 0, raw|].
      split; [cbn; lia|]. cbn [snd]. intros [= Hz]; done. }
    destruct (time_after _ _).
    2:{ exists [a]. split; [done|].
        split; [apply Forall_singleton; now exists 0, raw|].
        split; [cbn; lia|]. cbn [snd]. intros [= Hz]; done. }
    destruct (IH (d1, io.2 ++ [a])) as (reads & H1 & H2 & H3 & H4).
    exists (a :: reads). cbn [fst snd] in *.
    split; [rewrite H1, <- app_assoc; done|].
    split; [apply Forall_cons; split; [now exists 0, raw|done]|].
    split; [cbn; lia|].
    intros H0. destruct (H4 H0) as (raw' & Hl & Hb').
    exists raw'. split; [|done].
    destruct reads as [|a' reads]; [done|]. exact Hl.
Qed.

(** X13.  [sbefifo_request_reset] writes to the device once, the value 1 to the
    reset-request register of the up FIFO, and after that only reads the
    status of the up FIFO, once more often than it sleeps at most.  If the
    write fails it returns that error without reading; it returns 0 only
    after a status read that succeeded and showed the request bit clear. *)
Theorem request_reset_discipline sleeps start timeout (io : @bus_io D) :
  let r := sbefifo_request_reset bus sleeps start timeout io in
  exists ret reads,
    r.1.2 = io.2 ++
      BusWrite (Z.lor SBEFIFO_UP SBEFIFO_REQ_RESET) 1 ret :: reads /\
    Forall (fun a => exists ret raw,
              a = BusRead (Z.lor SBEFIFO_UP SBEFIFO_STS) ret raw) reads /\
    (length reads <= S (length sleeps))%nat /\
    (ret <> 0 -> reads = [] /\ r.2 = Some ret) /\
    (r.2 = Some 0 -> exists raw,
       last reads = Some (BusRead (Z.lor SBEFIFO_UP SBEFIFO_STS) 0 raw) /\
       Z.testbit raw 25 = false).
Proof.
  cbn zeta. unfold sbefifo_request_reset, sbefifo_outw.
  destruct (fsi_device_write bus io.1 _ 1) as [ret d1]. cbn [fst snd].
  exists ret. destruct (Z.eqb_spec ret 0) as [->|Hne]; cbn [negb].
  - destruct (reset_wait_reads sleeps start timeout
                (d1, io.2 ++ [BusWrite (Z.lor SBEFIFO_UP SBEFIFO_REQ_RESET) 1 0]))
      as (reads & H1 & H2 & H3 & H4).
    exists reads. cbn [fst snd] in *.
    split; [rewrite H1, <- app_assoc; done|].
    split; [exact H2|]. split; [exact H3|].
    split; [intros H; done|exact H4].
  - exists []. cbn [fst snd]. split; [done|]. split; [done|].
    split; [cbn; lia|]. split; [done|]. congruence.
Qed.

(** X14.  Up to the point where it sets the device object up, [sbefifo_probe]
    writes to the device only to request a reset, and only after it has
    read both status words and found a FIFO that is not empty; whatever it
    does on the bus after that write is to read the status of the up
    FIFO. *)
Theorem probe_writes_only_to_reset alloc_ok sleeps start timeout (d : D)
    reg w ret :
  let r := sbefifo_probe_fifos bus alloc_ok sleeps start timeout d in
  BusWrite reg w ret ∈ r.1.2 ->
  reg = Z.lor SBEFIFO_UP SBEFIFO_REQ_RESET /\ w = 1 /\
  exists up down rest,
    r.1.2 = BusRead (Z.lor SBEFIFO_UP SBEFIFO_STS) 0 up ::
            BusRead (Z.lor SBEFIFO_DWN SBEFIFO_STS) 0 down ::
            BusWrite reg w ret :: rest /\
    (Z.testbit up 20 = false \/ Z.testbit down 20 = false) /\
    Forall (fun a => exists ret raw,
              a = BusRead (Z.lor SBEFIFO_UP SBEFIFO_STS) ret raw) rest.
Proof.
  cbn zeta. unfold sbefifo_probe_fifos.
  destruct alloc_ok; cbn [negb]; [|intros H; now apply elem_of_nil in H].
  unfold sbefifo_inw. cbn [fst snd app].
  destruct (fsi_device_read bus d _) as [[ret1 up] d1].
  assert (Hno : forall (a : bus_access) l,
            (forall r0 w0 t0, a <> BusWrite r0 w0 t0) ->
            BusWrite reg w ret ∈ a :: l -> BusWrite reg w ret ∈ l).
  { intros a l Ha H. apply elem_of_cons in H as [H|H]; [|done].
    exfalso. now apply (Ha reg w ret). }
  destruct (Z.eqb_spec ret1 0) as [->|]; cbn [negb fst snd].
  2:{ intros H. apply Hno in H; [|done]. now apply elem_of_nil in H. }
  destruct (fsi_device_read bus d1 _) as [[ret2 down] d2].
  destruct (Z.eqb_spec ret2 0) as [->|]; cbn [negb fst snd].
  2:{ intros H. do 2 (apply Hno in H; [|done]). now apply elem_of_nil in H. }
  unfold SBEFIFO_EMPTY. rewrite !land_bit by lia.
  destruct (Z.testbit up 20) eqn:Hu, (Z.testbit down 20) eqn:Hd; cbn [negb orb].
  1:{ intros H. do 2 (apply Hno in H; [|done]). now apply elem_of_nil in H. }
  all: set (io := (d2, _));
    destruct (request_reset_discipline sleeps start timeout io)
      as (ret' & reads & H1 & H2 & _);
    cbn zeta in H1; rewrite H1; cbn [io snd app];
    intros H; do 2 (apply Hno in H; [|done]);
    apply elem_of_cons in H as [H|H];
    [injection H as -> -> ->; split; [done|]; split; [done|];
     exists up, down, reads; rewrite Hu, Hd; split; [done|]; split; [tauto|done]
    |exfalso; rewrite Forall_forall in H2;
     destruct (H2 _ H) as (? & ? & ?); done].
Qed.

End Probe.

Lemma probe_writes_only_to_reset_witness :
  let r := sbefifo_probe_fifos half_full_bus true [] 0 25 tt in
  r.2 = Some 0 /\
  exists up down rest,
    r.1.2 = BusRead (Z.lor SBEFIFO_UP SBEFIFO_STS) 0 up ::
            BusRead (Z.lor SBEFIFO_DWN SBEFIFO_STS) 0 down ::
            BusWrite (Z.lor SBEFIFO_UP SBEFIFO_REQ_RESET) 1 0 :: rest /\
    (Z.testbit up 20 = false \/ Z.testbit down 20 = false).
Proof.
  intros r. split; [vm_compute; reflexivity|].
  assert (H : BusWrite (Z.lor SBEFIFO_UP SBEFIFO_REQ_RESET) 1 0 ∈ r.1.2).
  { replace r.1.2 with
      [BusRead (Z.lor SBEFIFO_UP SBEFIFO_STS) 0 0x00040000;
       BusRead (Z.lor SBEFIFO_DWN SBEFIFO_STS) 0 0x00100000;
       BusWrite (Z.lor SBEFIFO_UP SBEFIFO_REQ_RESET) 1 0;
       BusRead (Z.lor SBEFIFO_UP SBEFIFO_STS) 0 0x00040000]
      by (vm_compute; reflexivity).
    do 2 apply list_elem_of_further. apply list_elem_of_here. }
  destruct (probe_writes_only_to_reset half_full_bus true [] 0 25 tt _ _ _ H)
    as (_ & _ & up & down & rest & H1 & H2 & _).
  exists up, down, rest. split; [exact H1|exact H2].
Defined.

(** ** The rings as queues of words *)

Lemma load_word_buf b b' p : buf b' = buf b -> load_word b' p = load_word b p.
Proof. intros H. unfold load_word. now rewrite H. Qed.

Lemma ring_count_wf b :
  buf_wf b ->
  ring_count b =
    if buf_full b then 32
    else if rpos b <=? wpos b then wpos b - rpos b else wpos b - rpos b + 32.
Proof.
  intros (Hr & Hw & _). unfold ring_count, SBEFIFO_BUF_CNT in *.
  destruct (buf_full b); [done|].
  destruct (Z.leb_spec (rpos b) (wpos b)); Z.div_mod_to_equations; lia.
Qed.

Lemma ring_count_bounds b : buf_wf b -> 0 <= ring_count b <= 32.
Proof.
  intros Hwf. rewrite ring_count_wf by done. destruct Hwf as (Hr & Hw & _).
  unfold SBEFIFO_BUF_CNT in *.
  destruct (buf_full b); [lia|]. destruct (Z.leb_spec (rpos b) (wpos b)); lia.
Qed.

(** What is reported readable or writable is part of what the ring holds,
    respectively of the room it has. *)
Lemma nbreadable_le_count b :
  buf_wf b -> sbefifo_buf_nbreadable b <= 4 * ring_count b /\
              (sbefifo_buf_nbreadable b = 0 <-> ring_count b = 0).
Proof.
  intros Hwf. rewrite nbreadable_wf, ring_count_wf by done.
  destruct Hwf as (Hr & Hw & _). unfold SBEFIFO_BUF_CNT in *.
  destruct (buf_full b); [lia|]. destruct (Z.leb_spec (rpos b) (wpos b)); lia.
Qed.

Lemma nbwriteable_le_room b :
  buf_wf b -> sbefifo_buf_nbwriteable b <= 4 * (32 - ring_count b) /\
              (sbefifo_buf_nbwriteable b <> 0 -> buf_full b = false).
Proof.
  intros Hwf. rewrite nbwriteable_wf, ring_count_wf by done.
  destruct Hwf as (Hr & Hw & _). unfold SBEFIFO_BUF_CNT in *.
  destruct (buf_full b); [lia|].
  destruct (Z.leb_spec (rpos b) (wpos b)), (Z.ltb_spec (wpos b) (rpos b)); lia.
Qed.

Lemma ring_contents_length b :
  length (ring_contents b) = Z.to_nat (ring_count b).
Proof. unfold ring_contents. now rewrite length_map, length_seq. Qed.

Lemma seq_add (a n : nat) : seq a n = map (Nat.add a) (seq 0 n).
Proof.
  change (map (Nat.add a) (seq 0 n)) with (Nat.add a <$> seq 0 n).
  rewrite fmap_add_seq. f_equal. lia.
Qed.

Lemma readnb_nothing b : rpos b <> 32 -> (sbefifo_buf_readnb b 0).2 = b.
Proof.
  intros H. unfold sbefifo_buf_readnb, SBEFIFO_BUF_CNT. cbn [snd Z.eqb].
  change (Z.shiftr 0 2) with 0. rewrite Z.add_0_r.
  destruct (Z.eqb_spec (rpos b) 32); [done|]. now destruct b.
Qed.

(** Taking [k] words off the front, where they are contiguous. *)
Lemma ring_pop b k :
  buf_wf b -> 0 <= k <= ring_count b -> rpos b + k <= 32 ->
  let b' := (sbefifo_buf_readnb b (4 * k)).2 in
  buf_wf b' /\ buf b' = buf b /\ ring_count b' = ring_count b - k /\
  ring_contents b = load_words b (rpos b) (4 * k) ++ ring_contents b'.
Proof.
  intros Hwf Hk Hc b'.
  destruct (decide (k = 0)) as [->|Hk0].
  { assert (b' = b) as ->.
    { unfold b'. apply readnb_nothing. destruct Hwf as (Hr & _).
      unfold SBEFIFO_BUF_CNT in Hr. lia. }
    repeat split; try apply Hwf; try lia. }
  assert (Hbuf : buf b' = buf b) by reflexivity.
  assert (Hnf : buf_full b' = false).
  { unfold b'. apply readnb_clears_full. lia. }
  assert (Hrp : rpos b' = (rpos b + k) mod 32).
  { destruct Hwf as (Hr & _). unfold b', sbefifo_buf_readnb, SBEFIFO_BUF_CNT in *.
    cbn [snd rpos]. rewrite shiftr_words.
    destruct (Z.eqb_spec (rpos b + k) 32); Z.div_mod_to_equations; lia. }
  assert (Hwp : wpos b' = wpos b) by reflexivity.
  assert (Hwf' : buf_wf b').
  { destruct Hwf as (Hr & Hw & Hf). unfold buf_wf. rewrite Hnf, Hrp, Hwp.
    unfold SBEFIFO_BUF_CNT in *.
    split; [Z.div_mod_to_equations; lia|]. split; [lia|done]. }
  assert (Hcnt : ring_count b' = ring_count b - k).
  { rewrite (ring_count_wf b'), (ring_count_wf b) by done.
    rewrite Hnf, Hrp, Hwp.
    rewrite (ring_count_wf b) in Hk by done.
    destruct Hwf as (Hr & Hw & Hf). unfold SBEFIFO_BUF_CNT in *.
    destruct (buf_full b).
    - rewrite <- (Hf eq_refl).
      destruct (Z.leb_spec ((rpos b + k) mod 32) (rpos b));
        Z.div_mod_to_equations; lia.
    - destruct (Z.leb_spec (rpos b) (wpos b)),
        (Z.leb_spec ((rpos b + k) mod 32) (wpos b));
        Z.div_mod_to_equations; lia. }
  split; [done|]. split; [done|]. split; [done|].
  unfold ring_contents, load_words. rewrite Hcnt, shiftr_words.
  replace (Z.to_nat (ring_count b))
    with (Z.to_nat k + Z.to_nat (ring_count b - k))%nat by lia.
  rewrite seq_app, map_app. f_equal.
  - apply map_ext_in. intros i Hi. apply in_seq in Hi. f_equal.
    destruct Hwf as (Hr & _). unfold SBEFIFO_BUF_CNT in *.
    rewrite Z.mod_small; lia.
  - cbn [Nat.add]. rewrite (seq_add (Z.to_nat k)), map_map.
    apply map_ext. intros i. rewrite (load_word_buf b b') by done. f_equal.
    rewrite Hrp. unfold SBEFIFO_BUF_CNT.
    rewrite Zplus_mod_idemp_l. f_equal. lia.
Qed.

Lemma store_word_fields b p w :
  flags (store_word b p w) = flags b /\ rpos (store_word b p w) = rpos b /\
  wpos (store_word b p w) = wpos b /\
  length (buf (store_word b p w)) = length (buf b).
Proof.
  unfold store_word. cbn. repeat split.
  destruct (p <? 0); [done|]. apply length_insert.
Qed.

Lemma store_words_fields b p src k :
  flags (store_words b p src k) = flags b /\
  rpos (store_words b p src k) = rpos b /\
  wpos (store_words b p src k) = wpos b /\
  length (buf (store_words b p src k)) = length (buf b).
Proof.
  revert b p src. induction k as [|k IH]; intros b p src; [done|].
  cbn [store_words].
  destruct (IH (store_word b p (default 0 (head src))) (p + 1) (tail src))
    as (H1 & H2 & H3 & H4).
  destruct (store_word_fields b p (default 0 (head src))) as (G1 & G2 & G3 & G4).
  rewrite H1, H2, H3, H4. done.
Qed.

Lemma load_store_word b p w q :
  0 <= p -> (Z.to_nat p < length (buf b))%nat -> 0 <= q ->
  load_word (store_word b p w) q = if q =? p then w else load_word b q.
Proof.
  intros Hp Hlen Hq. unfold load_word, store_word. cbn [buf].
  destruct (Z.ltb_spec q 0); [lia|]. destruct (Z.ltb_spec p 0); [lia|].
  destruct (Z.eqb_spec q p) as [->|Hne].
  - now rewrite list_lookup_insert_eq.
  - rewrite list_lookup_insert_ne by lia. done.
Qed.

Lemma load_store_words b p src k q :
  0 <= p -> (Z.to_nat p + k <= length (buf b))%nat -> 0 <= q ->
  load_word (store_words b p src k) q =
    if (p <=? q) && (q <? p + Z.of_nat k)
    then default 0 (src !! Z.to_nat (q - p)) else load_word b q.
Proof.
  revert b p src. induction k as [|k IH]; intros b p src Hp Hlen Hq.
  { cbn [store_words]. destruct (Z.leb_spec p q), (Z.ltb_spec q (p + Z.of_nat 0));
      cbn [andb]; (lia || done). }
  cbn [store_words].
  destruct (store_word_fields b p (default 0 (head src))) as (_ & _ & _ & Hl).
  rewrite IH by lia.
  rewrite load_store_word by lia.
  destruct (Z.leb_spec (p + 1) q), (Z.ltb_spec q (p + 1 + Z.of_nat k)),
    (Z.leb_spec p q), (Z.ltb_spec q (p + Z.of_nat (S k))), (Z.eqb_spec q p);
    cbn [andb]; try lia; try done.
  - replace (Z.to_nat (q - p)) with (S (Z.to_nat (q - (p + 1)))) by lia.
    now destruct src.
  - subst q. rewrite Z.sub_diag. now destruct src.
Qed.

(** Putting [k] words at the back, where the room for them is contiguous.
    A source shorter than [k] words is read as zero beyond its end. *)
Lemma ring_push b src k :
  buf_wf b -> length (buf b) = 32%nat ->
  1 <= k -> 4 * k <= sbefifo_buf_nbwriteable b ->
  let b' := (sbefifo_buf_wrotenb (store_words b (wpos b) src (Z.to_nat k))
               (4 * k)).2 in
  buf_wf b' /\ length (buf b') = 32%nat /\
  ring_count b' = ring_count b + k /\
  ring_contents b' =
    ring_contents b ++ map (fun i => default 0 (src !! i)) (seq 0 (Z.to_nat k)).
Proof.
  intros Hwf Hlen Hk1 Hk b'.
  set (b1 := store_words b (wpos b) src (Z.to_nat k)) in *.
  destruct (store_words_fields b (wpos b) src (Z.to_nat k))
    as (Hfl & Hrp & Hwp & Hl1). fold b1 in Hfl, Hrp, Hwp, Hl1.
  assert (Hwf1 : buf_wf b1).
  { unfold buf_wf, buf_full. now rewrite Hfl, Hrp, Hwp. }
  assert (Hnb1 : sbefifo_buf_nbwriteable b1 = sbefifo_buf_nbwriteable b).
  { unfold sbefifo_buf_nbwriteable. now rewrite Hfl, Hrp, Hwp. }
  assert (Hal : word_aligned (4 * k)).
  { unfold word_aligned. rewrite shiftr_words, Z.shiftl_mul_pow2 by lia.
    change (2 ^ 2) with 4. lia. }
  assert (Hwf' : buf_wf b').
  { unfold b'. apply wrotenb_wf; [done..|]. rewrite Hnb1. lia. }
  assert (Hbuf : buf b' = buf b1) by reflexivity.
  assert (Hnf : buf_full b = false).
  { apply (nbwriteable_le_room b Hwf). lia. }
  assert (Hrp' : rpos b' = rpos b) by (now rewrite <- Hrp).
  assert (Hwp' : wpos b' = (wpos b + k) mod 32).
  { rewrite nbwriteable_wf, Hnf in Hk by done. destruct Hwf as (Hr & Hw & _).
    unfold b', sbefifo_buf_wrotenb, SBEFIFO_BUF_CNT in *.
    cbn [snd wpos]. rewrite shiftr_words, Hwp.
    destruct (Z.ltb_spec (wpos b) (rpos b)),
      (Z.eqb_spec (wpos b + k) 32); Z.div_mod_to_equations; lia. }
  assert (Hfull' : buf_full b' = ((wpos b + k) mod 32 =? rpos b)).
  { unfold b', sbefifo_buf_wrotenb, buf_full, SBEFIFO_BUF_CNT.
    cbn [snd flags]. rewrite shiftr_words, Hwp, Hrp, Hfl.
    assert (Hw2 : (if wpos b + k =? 32 then 0 else wpos b + k)
                  = (wpos b + k) mod 32).
    { rewrite nbwriteable_wf, Hnf in Hk by done. destruct Hwf as (Hr & Hw & _).
      unfold SBEFIFO_BUF_CNT in *.
      destruct (Z.ltb_spec (wpos b) (rpos b)),
        (Z.eqb_spec (wpos b + k) 32); Z.div_mod_to_equations; lia. }
    rewrite Hw2. destruct (Z.eqb_spec ((wpos b + k) mod 32) (rpos b)).
    - apply test_set_bit. done.
    - exact Hnf. }
  assert (Hcnt : ring_count b' = ring_count b + k).
  { rewrite (ring_count_wf b'), (ring_count_wf b) by done.
    rewrite Hfull', Hnf, Hrp', Hwp'.
    rewrite nbwriteable_wf, Hnf in Hk by done. destruct Hwf as (Hr & Hw & _).
    unfold SBEFIFO_BUF_CNT in *.
    destruct (Z.eqb_spec ((wpos b + k) mod 32) (rpos b)),
      (Z.leb_spec (rpos b) (wpos b)), (Z.ltb_spec (wpos b) (rpos b)),
      (Z.leb_spec (rpos b) ((wpos b + k) mod 32));
      Z.div_mod_to_equations; lia. }
  split; [done|]. split; [now rewrite Hbuf, Hl1|]. split; [done|].
  pose proof (ring_count_bounds b Hwf) as Hcb.
  pose proof (ring_count_bounds b' Hwf') as Hcb'.
  unfold ring_contents. rewrite Hcnt, Hrp'.
  replace (Z.to_nat (ring_count b + k))
    with (Z.to_nat (ring_count b) + Z.to_nat k)%nat by lia.
  rewrite seq_app, map_app.
  assert (Hload : forall q, 0 <= q ->
            load_word b' q =
              if (wpos b <=? q) && (q <? wpos b + k)
              then default 0 (src !! Z.to_nat (q - wpos b)) else load_word b q).
  { intros q Hq. rewrite (load_word_buf b1 b') by done. unfold b1.
    assert (Hfit : (Z.to_nat (wpos b) + Z.to_nat k <= length (buf b))%nat).
    { pose proof Hk as Hk'. rewrite nbwriteable_wf, Hnf in Hk' by done.
      destruct Hwf as (Hr & Hw & _). unfold SBEFIFO_BUF_CNT in *.
      destruct (Z.ltb_spec (wpos b) (rpos b)); lia. }
    rewrite load_store_words; [|destruct Hwf as (_ & Hw & _); lia..].
    now rewrite Z2Nat.id by lia. }
  rewrite (ring_count_wf b) in * by done. rewrite Hnf in *.
  rewrite nbwriteable_wf, Hnf in Hk by done.
  destruct Hwf as (Hr & Hw & _). unfold SBEFIFO_BUF_CNT in *.
  f_equal.
  - apply map_ext_in. intros i Hi. apply in_seq in Hi.
    rewrite Hload by (Z.div_mod_to_equations; lia).
    destruct (Z.leb_spec (wpos b) ((rpos b + Z.of_nat i) mod 32)),
      (Z.ltb_spec ((rpos b + Z.of_nat i) mod 32) (wpos b + k));
      cbn [andb]; try done.
    exfalso.
    destruct (Z.leb_spec (rpos b) (wpos b)), (Z.ltb_spec (wpos b) (rpos b));
      Z.div_mod_to_equations; lia.
  - cbn [Nat.add]. rewrite (seq_add (Z.to_nat _)), map_map.
    apply map_ext_in. intros i Hi. apply in_seq in Hi.
    rewrite Hload by (Z.div_mod_to_equations; lia).
    assert (Hpos : (rpos b + Z.of_nat (Z.to_nat (if rpos b <=? wpos b
                       then wpos b - rpos b else wpos b - rpos b + 32) + i))
                   mod 32 = wpos b + Z.of_nat i).
    { destruct (Z.leb_spec (rpos b) (wpos b)), (Z.ltb_spec (wpos b) (rpos b));
        Z.div_mod_to_equations; lia. }
    rewrite Hpos.
    destruct (Z.leb_spec (wpos b) (wpos b + Z.of_nat i)),
      (Z.ltb_spec (wpos b + Z.of_nat i) (wpos b + k)); cbn [andb]; try lia.
    f_equal. f_equal. lia.
Qed.

(** ** The worker's two loops *)

Section Loops.
Context {D : Type} (bus : fsi_device D) (tm : timing).

Lemma sent_words_app l1 l2 : sent_words (l1 ++ l2) = sent_words l1 ++ sent_words l2.
Proof. apply omap_app. Qed.

Lemma received_words_app l1 l2 :
  received_words (l1 ++ l2) = received_words l1 ++ received_words l2.
Proof. apply omap_app. Qed.

Lemma write_words_ring k (io : @bus_io D) wb :
  buf_wf wb -> Z.of_nat k <= ring_count wb ->
  let r := write_words bus k io wb in
  buf_wf r.1.2 /\
  exists new, r.1.1.2 = io.2 ++ new /\
    sent_words new ++ ring_contents r.1.2 = ring_contents wb /\
    received_words new = [].
Proof.
  revert io wb. induction k as [|k IH]; intros io wb Hwf Hk; cbn zeta.
  { cbn. split; [done|]. exists []. now rewrite app_nil_r. }
  cbn [write_words]. unfold sbefifo_writew.
  destruct (fsi_device_write bus io.1 SBEFIFO_UP _) as [ret d1].
  set (w := load_word wb (rpos wb)).
  destruct (Z.eqb_spec ret 0) as [->|Hne]; cbn [negb].
  2:{ cbn [fst snd]. split; [done|]. exists [BusWrite SBEFIFO_UP w ret].
      split; [done|]. split; [|done]. cbn.
      destruct (Z.eqb_spec ret 0); [done|]. done. }
  destruct (ring_pop wb 1 Hwf) as (Hwf1 & Hbuf & Hcnt & Hcont); [lia|..].
  { destruct Hwf as (Hr & _). unfold SBEFIFO_BUF_CNT in Hr. lia. }
  change (4 * 1) with 4 in *.
  set (wb1 := (sbefifo_buf_readnb wb 4).2) in *.
  destruct (IH (d1, io.2 ++ [BusWrite SBEFIFO_UP w 0]) wb1 Hwf1 ltac:(lia))
    as (Hwf2 & new & Hio & Hsent & Hrecv).
  split; [done|]. exists (BusWrite SBEFIFO_UP w 0 :: new).
  cbn [fst snd] in Hio. split; [rewrite Hio, <- app_assoc; done|].
  split; [|exact Hrecv].
  rewrite Hcont. change (load_words wb (rpos wb) 4)
    with [load_word wb (rpos wb + Z.of_nat 0)].
  rewrite Z.add_0_r. fold w. cbn [app]. rewrite <- Hsent. done.
Qed.

(** X15.  The drain loop sends the words of the buffer in order: at every exit,
    the words that went out on the up FIFO followed by what the buffer
    still holds are what the buffer held at the start.  When the loop ends
    because nothing is readable, the buffer is empty. *)
Theorem drain_sends_buffered_words fuel (io : @bus_io D) wb :
  buf_wf wb ->
  let r := drain_write_buffer bus fuel io wb in
  buf_wf r.1.2 /\
  exists new, r.1.1.2 = io.2 ++ new /\
    sent_words new ++ ring_contents r.1.2 = ring_contents wb /\
    (r.2 = LoopDone -> ring_contents r.1.2 = []).
Proof.
  revert io wb. induction fuel as [|fuel IH]; intros io wb Hwf; cbn zeta.
  { cbn. split; [done|]. exists []. rewrite app_nil_r. done. }
  cbn [drain_write_buffer].
  destruct (Z.eqb_spec (sbefifo_buf_nbreadable wb) 0) as [Hz|Hnz].
  { cbn [fst snd]. split; [done|]. exists []. rewrite app_nil_r.
    split; [done|]. split; [done|]. intros _.
    apply (nbreadable_le_count wb Hwf) in Hz.
    apply length_zero_iff_nil. rewrite ring_contents_length, Hz. done. }
  unfold sbefifo_inw.
  destruct (fsi_device_read bus io.1 _) as [[ret sts] d1]. cbn [fst snd].
  set (a := BusRead (Z.lor SBEFIFO_UP SBEFIFO_STS) ret sts).
  destruct (negb (ret =? 0)).
  { cbn [fst snd]. split; [done|]. exists [a]. done. }
  destruct (sbefifo_dev_nwwriteable sts =? 0).
  { cbn [fst snd]. split; [done|]. exists [a]. done. }
  set (k := Z.to_nat _).
  assert (Hk : Z.of_nat k <= ring_count wb).
  { destruct (nbreadable_le_count wb Hwf) as [Hle _].
    pose proof (ring_count_bounds wb Hwf) as Hb.
    unfold k, min_t. rewrite nbreadable_wf in * by done.
    rewrite shiftr_words.
    set (c := if buf_full wb then 32 else _) in *.
    assert (Hc : 0 <= c <= 32).
    { destruct Hwf as (Hr & Hw & _). unfold c, SBEFIFO_BUF_CNT in *.
      destruct (buf_full wb); [lia|].
      destruct (Z.leb_spec (rpos wb) (wpos wb)); lia. }
    rewrite (size_t_small c) by lia.
    assert (0 <= size_t (sbefifo_dev_nwwriteable sts)).
    { unfold size_t. apply Z.mod_pos_bound. done. }
    lia. }
  destruct (write_words_ring k (d1, io.2 ++ [a]) wb Hwf Hk)
    as (Hwf2 & new & Hio & Hsent & _).
  destruct (write_words bus k (d1, io.2 ++ [a]) wb) as [[io2 wb2] ret2].
  cbn [fst snd] in *.
  destruct (negb (ret2 =? 0)).
  { cbn [fst snd]. split; [done|]. exists (a :: new).
    split; [rewrite Hio, <- app_assoc; done|]. split; [exact Hsent|done]. }
  destruct (IH io2 wb2 Hwf2) as (Hwf3 & new' & Hio' & Hsent' & Hdone).
  split; [done|]. exists (a :: new ++ new').
  split; [rewrite Hio', Hio, <- !app_assoc; done|]. split; [|done].
  change (a :: new ++ new') with ([a] ++ new ++ new').
  rewrite !sent_words_app. change (sent_words [a]) with (@nil Z).
  rewrite app_nil_l, <- app_assoc, Hsent', Hsent. done.
Qed.

Lemma room_for_a_word b :
  buf_wf b -> ring_count b < 32 -> 4 <= sbefifo_buf_nbwriteable b.
Proof.
  intros Hwf Hc. rewrite ring_count_wf in Hc by done.
  rewrite nbwriteable_wf by done. destruct Hwf as (Hr & Hw & _).
  unfold SBEFIFO_BUF_CNT in *. destruct (buf_full b); [lia|].
  destruct (Z.leb_spec (rpos b) (wpos b)), (Z.ltb_spec (wpos b) (rpos b)); lia.
Qed.

Lemma read_words_ring k (io : @bus_io D) rb :
  buf_wf rb -> length (buf rb) = 32%nat -> Z.of_nat k <= 32 - ring_count rb ->
  let r := read_words bus k false io rb in
  buf_wf r.1.2 /\ length (buf r.1.2) = 32%nat /\
  exists new, r.1.1.2 = io.2 ++ new /\
    ring_contents r.1.2 = ring_contents rb ++ received_words new /\
    sent_words new = [].
Proof.
  revert io rb. induction k as [|k IH]; intros io rb Hwf Hlen Hk; cbn zeta.
  { cbn. split; [done|]. split; [done|]. exists []. now rewrite !app_nil_r. }
  cbn [read_words]. unfold sbefifo_readw.
  destruct (fsi_device_read bus io.1 SBEFIFO_DWN) as [[ret w] d1].
  destruct (Z.eqb_spec ret 0) as [->|Hne]; cbn [negb].
  2:{ cbn [fst snd]. split; [done|]. split; [done|].
      exists [BusRead SBEFIFO_DWN ret w]. split; [done|]. split; [|done].
      cbn. destruct (Z.eqb_spec ret 0); [done|]. now rewrite app_nil_r. }
  destruct (ring_push rb [w] 1 Hwf Hlen ltac:(lia))
    as (Hwf1 & Hlen1 & Hcnt & Hcont).
  { apply room_for_a_word; [done|lia]. }
  change (4 * 1) with 4 in *.
  change (store_words rb (wpos rb) [w] (Z.to_nat 1))
    with (store_word rb (wpos rb) w) in *.
  set (rb1 := (sbefifo_buf_wrotenb (store_word rb (wpos rb) w) 4).2) in *.
  destruct (IH (d1, io.2 ++ [BusRead SBEFIFO_DWN 0 w]) rb1 Hwf1 Hlen1 ltac:(lia))
    as (Hwf2 & Hlen2 & new & Hio & Hrecv & Hsent).
  split; [done|]. split; [done|]. exists (BusRead SBEFIFO_DWN 0 w :: new).
  cbn [fst snd] in Hio. split; [rewrite Hio, <- app_assoc; done|].
  split; [|exact Hsent].
  rewrite Hrecv, Hcont, <- app_assoc. done.
Qed.

(** X16.  The fill loop of a transfer that is not cancelled stores the words it
    reads from the down FIFO in order at the back of the read buffer, none
    lost and none twice; the one word it may read and not store is the
    last, the end-of-transfer word that [sbefifo_ack_eot] discards. *)
Theorem fill_stores_received_words fuel now (io : @bus_io D) rb tmo :
  buf_wf rb -> length (buf rb) = 32%nat ->
  let r := fill_read_buffer bus tm fuel false now io rb tmo in
  buf_wf r.1.1.2 /\ length (buf r.1.1.2) = 32%nat /\
  exists new stored discard,
    r.1.1.1.2 = io.2 ++ new /\
    received_words new = stored ++ discard /\
    ring_contents r.1.1.2 = ring_contents rb ++ stored /\
    (length discard <= 1)%nat /\
    (r.2 = LoopEot -> length discard = 1%nat) /\
    sent_words new = [].
Proof.
  revert io rb tmo. induction fuel as [|fuel IH]; intros io rb tmo Hwf Hlen;
    cbn zeta.
  { cbn. split; [done|]. split; [done|]. exists [], [], [].
    rewrite !app_nil_r. repeat split; try done. cbn. lia. }
  cbn [fill_read_buffer].
  assert (Hnil : forall (l0 l : list bus_access) (e : loop_exit),
            l0 = io.2 ++ l ->
            e <> LoopEot -> received_words l = [] -> sent_words l = [] ->
            exists new stored discard,
              l0 = io.2 ++ new /\
              received_words new = stored ++ discard /\
              ring_contents rb = ring_contents rb ++ stored /\
              (length discard <= 1)%nat /\
              (e = LoopEot -> length discard = 1%nat) /\
              sent_words new = []).
  { intros l0 l e -> He Hl Hs. exists l, [], []. rewrite !app_nil_r.
    split; [done|]. split; [done|]. split; [done|].
    split; [cbn; lia|]. split; [intros Heq; destruct (He Heq)|done]. }
  destruct (Z.eqb_spec (sbefifo_buf_nbwriteable rb) 0) as [Hz|Hnz].
  { cbn [fst snd]. split; [done|]. split; [done|].
    apply (Hnil _ []); [now rewrite app_nil_r|done..]. }
  unfold sbefifo_inw.
  destruct (fsi_device_read bus io.1 _) as [[ret sts] d1]. cbn [fst snd].
  set (a := BusRead (Z.lor SBEFIFO_DWN SBEFIFO_STS) ret sts).
  destruct (negb (ret =? 0)).
  { cbn [fst snd]. split; [done|]. split; [done|]. now apply (Hnil _ [a]). }
  destruct (Z.eqb_spec (sbefifo_dev_nwreadable sts) 0) as [Hd|Hd].
  { destruct (tmo =? 0); [|destruct (time_after now tmo)]; cbn [fst snd];
      (split; [done|]); (split; [done|]); now apply (Hnil _ [a]). }
  set (eot := negb (Z.land sts 255 =? 0)).
  set (k := Z.to_nat _).
  assert (Hk : Z.of_nat k <= 32 - ring_count rb).
  { destruct (nbwriteable_le_room rb Hwf) as [Hle _].
    pose proof (ring_count_bounds rb Hwf) as Hb.
    assert (Hn : 1 <= sbefifo_dev_nwreadable sts <= 15).
    { rewrite nwreadable_mod in *.
      pose proof (Z.mod_pos_bound (Z.shiftr sts 16) 16 ltac:(lia)). lia. }
    unfold k, min_t. rewrite nbwriteable_wf in * by done.
    rewrite shiftr_words.
    set (c := if buf_full rb then 0 else _) in *.
    assert (Hc : 1 <= c <= 32).
    { destruct Hwf as (Hr & Hw & _). unfold c, SBEFIFO_BUF_CNT in *.
      destruct (buf_full rb); [lia|].
      destruct (Z.ltb_spec (wpos rb) (rpos rb)); lia. }
    rewrite (size_t_small c), (size_t_small (sbefifo_dev_nwreadable sts)) by lia.
    destruct eot; [rewrite size_t_small|]; lia. }
  destruct (read_words_ring k (d1, io.2 ++ [a]) rb Hwf Hlen Hk)
    as (Hwf2 & Hlen2 & new & Hio & Hrecv & Hsent).
  destruct (read_words bus k false (d1, io.2 ++ [a]) rb) as [[io2 rb2] ret2].
  cbn [fst snd] in *.
  destruct (negb (ret2 =? 0)).
  { cbn [fst snd]. split; [done|]. split; [done|].
    exists (a :: new), (received_words new), [].
    split; [rewrite Hio, <- app_assoc; done|].
    change (a :: new) with ([a] ++ new).
    rewrite received_words_app, sent_words_app, Hsent, app_nil_r.
    split; [done|]. split; [done|]. split; [cbn; lia|]. done. }
  destruct eot.
  - unfold sbefifo_ack_eot, sbefifo_readw, sbefifo_outw.
    destruct (fsi_device_read bus io2.1 SBEFIFO_DWN) as [[ret3 w3] d3].
    cbn [fst snd].
    destruct (Z.eqb_spec ret3 0) as [->|Hne3]; cbn [negb].
    + destruct (fsi_device_write bus d3 _ _) as [ret4 d4]. cbn [fst snd].
      set (l := [BusRead SBEFIFO_DWN 0 w3;
                 BusWrite (Z.lor SBEFIFO_DWN SBEFIFO_EOT_ACK) SBEFIFO_EOT_MAGIC ret4]).
      assert (Hex : exists new' stored discard,
                (io2.2 ++ [BusRead SBEFIFO_DWN 0 w3]) ++
                  [BusWrite (Z.lor SBEFIFO_DWN SBEFIFO_EOT_ACK) SBEFIFO_EOT_MAGIC ret4]
                  = io.2 ++ new' /\
                received_words new' = stored ++ discard /\
                ring_contents rb2 = ring_contents rb ++ stored /\
                length discard = 1%nat /\ sent_words new' = []).
      { exists (a :: new ++ l), (received_words new), [w3].
        split; [rewrite Hio, <- !app_assoc; done|].
        change (a :: new ++ l) with ([a] ++ new ++ l).
        rewrite !received_words_app, !sent_words_app, Hsent.
        change (received_words [a]) with (@nil Z).
        change (sent_words [a]) with (@nil Z).
        change (received_words l) with [w3].
        assert (sent_words l = []) as ->.
        { unfold l, sent_words. cbn [omap sent_word].
          change (Z.lor SBEFIFO_DWN SBEFIFO_EOT_ACK =? SBEFIFO_UP) with false.
          done. }
        split; [reflexivity|]. split; [exact Hrecv|].
        split; reflexivity. }
      destruct Hex as (new' & stored & discard & H1 & H2 & H3 & H4 & H5).
      destruct (negb (ret4 =? 0)); cbn [fst snd];
        (split; [done|]); (split; [done|]);
        exists new', stored, discard; repeat split; try done; lia.
    + pose proof (proj2 (Z.eqb_neq ret3 0) Hne3) as Hne3'.
      cbn [fst snd]. rewrite ?Hne3'. cbn [negb fst snd].
      split; [done|]. split; [done|].
      exists (a :: new ++ [BusRead SBEFIFO_DWN ret3 w3]), (received_words new), [].
      split; [rewrite Hio, <- !app_assoc; done|].
      change (a :: new ++ ?l) with ([a] ++ new ++ l).
      rewrite !received_words_app, !sent_words_app, Hsent.
      assert (received_words [BusRead SBEFIFO_DWN ret3 w3] = []) as ->.
      { cbn. now destruct (Z.eqb_spec ret3 0). }
      rewrite !app_nil_r.
      split; [done|]. split; [done|]. split; [cbn; lia|]. done.
  - destruct (IH io2 rb2 0 Hwf2 Hlen2)
      as (Hwf3 & Hlen3 & new' & stored & discard & H1 & H2 & H3 & H4 & H5 & H6).
    split; [done|]. split; [done|].
    exists (a :: new ++ new'), (received_words new ++ stored), discard.
    split; [rewrite H1, Hio, <- !app_assoc; done|].
    change (a :: new ++ new') with ([a] ++ new ++ new').
    rewrite !received_words_app, !sent_words_app, Hsent, H6, H2, H3, Hrecv.
    rewrite <- !app_assoc.
    split; [done|]. split; [done|]. split; [done|]. done.
Qed.

End Loops.

(** ** The two ends of the rings that face the callers *)

Section Callers.
Context {D : Type}.
Implicit Types s : sbefifo D.

Lemma same_bufs_trans s1 s2 s3 :
  same_bufs s1 s2 -> same_bufs s2 s3 -> same_bufs s1 s3.
Proof.
  intros H1 H2 c. destruct (H1 c) as [<- <-]. apply H2.
Qed.

Lemma same_bufs_clients s s' : clients s' = clients s -> same_bufs s s'.
Proof. intros H c. unfold get_client. now rewrite H. Qed.

Lemma get_client_upd s c c' f :
  get_client (upd_client c f s) c' =
    if decide (c = c')
    then match clients s !! c' with
         | Some cl => f cl
         | None => zeroed_client
         end
    else get_client s c'.
Proof.
  unfold get_client, upd_client. cbn [clients set_clients].
  case_decide as Hc.
  - subst c'. rewrite list_lookup_alter_eq. now destruct (clients s !! c).
  - now rewrite list_lookup_alter_ne.
Qed.

Lemma same_bufs_upd_client s c f :
  (forall cl, rbuf (f cl) = rbuf cl /\ wbuf (f cl) = wbuf cl) ->
  same_bufs s (upd_client c f s).
Proof.
  intros Hf c'. rewrite get_client_upd. case_decide; [|done].
  unfold get_client. destruct (clients s !! c'); [apply Hf|done].
Qed.

Lemma same_bufs_put_client s c : same_bufs s (sbefifo_put_client c s).
Proof.
  unfold sbefifo_put_client.
  set (s1 := upd_client c _ s).
  assert (H1 : same_bufs s s1) by (now apply same_bufs_upd_client).
  destruct (kref (get_client s1 c) =? 0); [|exact H1].
  eapply same_bufs_trans; [exact H1|].
  unfold sbefifo_client_release.
  eapply same_bufs_trans; [|now apply same_bufs_upd_client].
  destruct (rc s1 =? 0); [|done].
  destruct (client_release_xfrs_spec (c_xfrs (get_client s1 c)) s1)
    as (_ & Hcl & _).
  destruct (client_release_xfrs _ s1) as [kept s2]. cbn [snd] in Hcl.
  eapply same_bufs_trans; [apply same_bufs_clients, Hcl|].
  now apply same_bufs_upd_client.
Qed.

Lemma aligned_is_aligned len : word_aligned len <-> is_aligned len = true.
Proof. unfold word_aligned, is_aligned. symmetry. apply Z.eqb_eq. Qed.

(** X17.  One pass of the loop of [sbefifo_write_common] that finds room: the
    words taken from the caller are put at the back of the client's write
    buffer in order, as many as fit into the room reported or are left to
    write; the call returns when nothing is left and sleeps on otherwise. *)
Theorem write_pass_buffers_in_order (w : writer) sig fault s cl :
  clients s !! w_client w = Some cl ->
  buf_wf (wbuf cl) -> length (buf (wbuf cl)) = 32%nat ->
  rc s = 0 -> head (c_xfrs cl) = Some (w_xfr w) ->
  sbefifo_buf_nbwriteable (wbuf cl) <> 0 ->
  w_user w && fault = false ->
  word_aligned (w_len w) -> 0 < w_len w < 2 ^ 32 ->
  let n := Z.min (sbefifo_buf_nbwriteable (wbuf cl)) (w_len w) in
  let r := sbefifo_write_loop w sig fault s in
  ring_contents (wbuf (get_client r.1 (w_client w))) =
    ring_contents (wbuf cl) ++
    map (fun i => default 0 (w_src w !! i)) (seq 0 (Z.to_nat (Z.shiftr n 2))) /\
  (n = w_len w -> r.2 = Returned (w_ret w + n) []) /\
  (n < w_len w -> r.2 = Pending).
Proof.
  intros Hcl Hwf Hlen Hrc Hhead Hroom Hfault Hal Hl n r.
  assert (Hg : get_client s (w_client w) = cl).
  { unfold get_client. now rewrite Hcl. }
  pose proof (nbwriteable_wf _ Hwf) as Hnb.
  set (c := if buf_full (wbuf cl) then 0 else _) in Hnb.
  assert (Hc : 1 <= c <= 32).
  { rewrite Hnb in Hroom. destruct Hwf as (Hr & Hw & _).
    unfold c, SBEFIFO_BUF_CNT in *.
    destruct (buf_full (wbuf cl)); [lia|].
    destruct (Z.ltb_spec (wpos (wbuf cl)) (rpos (wbuf cl))); lia. }
  apply aligned_words in Hal. set (l := Z.shiftr (w_len w) 2) in *.
  assert (Hn : n = 4 * Z.min c l) by (unfold n; lia).
  assert (Hmin : min_t (sbefifo_buf_nbwriteable (wbuf cl)) (w_len w) = n).
  { unfold min_t. rewrite !size_t_small by lia. done. }
  assert (Hk : Z.shiftr n 2 = Z.min c l) by (rewrite Hn; apply shiftr_words).
  destruct (ring_push (wbuf cl) (w_src w) (Z.min c l) Hwf Hlen)
    as (_ & _ & _ & Hpush); [lia..|].
  rewrite <- Hn in Hpush. rewrite Hk.
  unfold r, sbefifo_write_loop, sbefifo_write_ready. rewrite Hg, Hrc, Hhead.
  rewrite bool_decide_eq_true_2 by done.
  destruct (Z.eqb_spec (sbefifo_buf_nbwriteable (wbuf cl)) 0); [done|].
  cbn [Z.eqb negb orb andb]. rewrite Hfault, Hmin, Hk.
  set (wb' := (sbefifo_buf_wrotenb _ n).2) in *.
  set (s1 := upd_client (w_client w) (client_set_wbuf wb') s).
  assert (H1 : wbuf (get_client s1 (w_client w)) = wb').
  { unfold s1. rewrite get_client_upd, decide_True by done. now rewrite Hcl. }
  assert (Hlen' : size_t (w_len w - n) = w_len w - n).
  { apply size_t_small. lia. }
  rewrite Hlen'.
  destruct (Z.eqb_spec (w_len w - n) 0) as [Hz|Hz].
  - split; [|split; [done|lia]].
    unfold write_leave. cbn [fst].
    destruct (same_bufs_put_client
      (set_writers (remove_writer (w_xfr w)
         (writers (mod_timer_now
            (upd_xfr (w_xfr w) (xfr_set_flags (set_bit SBEFIFO_XFR_WRITE_DONE)) s1))))
         (mod_timer_now
            (upd_xfr (w_xfr w) (xfr_set_flags (set_bit SBEFIFO_XFR_WRITE_DONE)) s1)))
      (w_client w) (w_client w)) as [_ ->].
    change (wbuf (get_client (set_writers _ (mod_timer_now (upd_xfr _ _ s1))) _))
      with (wbuf (get_client s1 (w_client w))).
    now rewrite H1.
  - split; [|split; [lia|done]]. cbn [fst].
    change (wbuf (get_client (set_writers _ (mod_timer_now s1)) _))
      with (wbuf (get_client s1 (w_client w))).
    now rewrite H1.
Qed.

(** X18.  A read that finds data and no fatal code, on a buffer that is not
    both full and read from the middle: the caller gets the oldest words of
    the client's read buffer, in order, as many as are reported readable
    or asked for, and they are gone from the buffer. *)
Theorem read_returns_oldest_words c user len sig fault s cl :
  clients s !! c = Some cl ->
  buf_wf (rbuf cl) -> (buf_full (rbuf cl) = true -> rpos (rbuf cl) = 0) ->
  nonblocking cl = false -> rc s = 0 ->
  sbefifo_buf_nbreadable (rbuf cl) <> 0 ->
  user && fault = false ->
  word_aligned len -> 0 <= len < 2 ^ 32 ->
  let n := Z.min (sbefifo_buf_nbreadable (rbuf cl)) len in
  let r := sbefifo_read_common c user len sig fault s in
  exists ret data,
    r.2 = Returned ret data /\ (ret = n \/ ret = - EPROTO) /\
    length data = Z.to_nat (Z.shiftr n 2) /\
    ring_contents (rbuf cl) = data ++ ring_contents (rbuf (get_client r.1 c)).
Proof.
  intros Hcl Hwf Hfull Hnb Hrc Hdata Hfault Hal Hl n r.
  assert (Hg : get_client s c = cl).
  { unfold get_client. now rewrite Hcl. }
  pose proof (nbreadable_wf _ Hwf) as Hnr.
  pose proof (ring_count_wf _ Hwf) as Hcnt.
  set (k := if buf_full (rbuf cl) then 32 else _) in Hnr.
  assert (Hk : 1 <= k <= ring_count (rbuf cl) /\ rpos (rbuf cl) + k <= 32 /\
               k <= 32).
  { rewrite Hnr in Hdata. rewrite Hcnt. destruct Hwf as (Hr & Hw & _).
    unfold k, SBEFIFO_BUF_CNT in *.
    destruct (buf_full (rbuf cl)); [specialize (Hfull eq_refl); lia|].
    destruct (Z.leb_spec (rpos (rbuf cl)) (wpos (rbuf cl))); lia. }
  pose proof (proj1 (aligned_is_aligned len) Hal) as Hal'.
  apply aligned_words in Hal. set (l := Z.shiftr len 2) in *.
  assert (Hn : n = 4 * Z.min k l) by (unfold n; lia).
  assert (Hmin : min_t (sbefifo_buf_nbreadable (rbuf cl)) len = n).
  { unfold min_t. rewrite !size_t_small by lia. done. }
  assert (Hsh : Z.shiftr n 2 = Z.min k l) by (rewrite Hn; apply shiftr_words).
  destruct (ring_pop (rbuf cl) (Z.min k l) Hwf) as (_ & _ & _ & Hpop); [lia..|].
  rewrite <- Hn in Hpop. cbn zeta in Hpop.
  unfold r, sbefifo_read_common, sbefifo_read_ready.
  rewrite Hal', Hg, Hnb, Hrc. cbn [negb andb Z.eqb orb].
  destruct (Z.eqb_spec (sbefifo_buf_nbreadable (rbuf cl)) 0); [done|].
  cbn [negb orb]. rewrite Hfault, Hmin.
  set (s1 := sbefifo_get_client c s).
  assert (Hg1 : rbuf (get_client s1 c) = rbuf cl).
  { unfold s1, sbefifo_get_client. rewrite get_client_upd, decide_True by done.
    now rewrite Hcl. }
  rewrite Hg1.
  set (data := load_words (rbuf cl) (rpos (rbuf cl)) n) in *.
  assert (Hld : length data = Z.to_nat (Z.shiftr n 2)).
  { unfold data, load_words. now rewrite length_map, length_seq. }
  destruct (sbefifo_buf_readnb (rbuf cl) n) as [empty rb1] eqn:Hrd.
  cbn [snd] in Hpop.
  set (s2 := upd_client c (client_set_rbuf rb1) s1).
  assert (H2 : rbuf (get_client s2 c) = rb1).
  { unfold s2. rewrite get_client_upd, decide_True by done.
    unfold s1, sbefifo_get_client. cbn [clients upd_client set_clients].
    now rewrite list_lookup_alter_eq, Hcl. }
  assert (Hfin : forall s3, same_bufs s2 s3 ->
            rbuf (get_client (sbefifo_put_client c s3) c) = rb1).
  { intros s3 H3. destruct (same_bufs_put_client s3 c c) as [-> _].
    destruct (H3 c) as [-> _]. exact H2. }
  assert (Hrefl : same_bufs s2 s2) by (now apply same_bufs_clients).
  destruct empty.
  2:{ exists n, data. cbn [fst snd]. rewrite Hfin by exact Hrefl. tauto. }
  destruct (head (c_xfrs (get_client s2 c))) as [x|].
  2:{ exists (- EPROTO), data. cbn [fst snd]. rewrite Hfin by exact Hrefl.
      tauto. }
  exists n, data. cbn [fst snd]. rewrite Hfin; [tauto|].
  destruct (negb _); [now apply same_bufs_clients|].
  eapply (same_bufs_trans _
    (upd_client c (fun cl0 => client_set_xfrs (tail (c_xfrs cl0)) cl0) s2));
    [now apply same_bufs_upd_client|].
  now apply same_bufs_clients.
Qed.

End Callers.

Lemma three_words_wf : buf_wf three_words.
Proof. vm_compute. intuition congruence. Defined.

Lemma drain_sends_buffered_words_witness :
  buf_wf three_words /\
  exists new,
    (drain_write_buffer half_full_bus 4 (tt, []) three_words).1.1.2 = new /\
    sent_words new ++
      ring_contents (drain_write_buffer half_full_bus 4 (tt, []) three_words).1.2
    = ring_contents three_words.
Proof.
  split; [exact three_words_wf|].
  destruct (drain_sends_buffered_words half_full_bus 4 (tt, []) three_words
              three_words_wf) as (_ & new & H1 & H2 & _).
  exists new. split; [exact H1|exact H2].
Defined.

Lemma fill_stores_received_words_witness :
  buf_wf three_words /\ length (buf three_words) = 32%nat /\
  length (buf (fill_read_buffer canned_bus hz100 4 false 0 (tt, [])
                 three_words 0).1.1.2) = 32%nat.
Proof.
  assert (H : length (buf three_words) = 32%nat) by (vm_compute; reflexivity).
  split; [exact three_words_wf|]. split; [exact H|].
  exact (proj1 (proj2 (fill_stores_received_words canned_bus hz100 4 0 (tt, [])
                         three_words 0 three_words_wf H))).
Defined.

Lemma write_pass_buffers_in_order_witness :
  ring_contents
    (wbuf (get_client
             (sbefifo_write_loop (Writer 0 0 false [10; 20; 30] 12 0)
                false false write_entered).1 0))
  = [10; 20; 30].
Proof.
  set (w := Writer 0 0 false [10; 20; 30] 12 0).
  set (cl := get_client write_entered 0).
  assert (H1 : clients write_entered !! w_client w = Some cl)
    by (vm_compute; reflexivity).
  assert (H2 : buf_wf (wbuf cl)) by (vm_compute; intuition congruence).
  assert (H3 : length (buf (wbuf cl)) = 32%nat) by (vm_compute; reflexivity).
  assert (H4 : rc write_entered = 0) by (vm_compute; reflexivity).
  assert (H5 : head (c_xfrs cl) = Some (w_xfr w)) by (vm_compute; reflexivity).
  assert (H6 : sbefifo_buf_nbwriteable (wbuf cl) <> 0)
    by (vm_compute; congruence).
  assert (H7 : w_user w && false = false) by reflexivity.
  assert (H8 : word_aligned (w_len w)) by (vm_compute; reflexivity).
  assert (H9 : 0 < w_len w < 2 ^ 32) by (vm_compute; intuition congruence).
  pose proof (proj1 (write_pass_buffers_in_order w false false write_entered cl
                       H1 H2 H3 H4 H5 H6 H7 H8 H9)) as H.
  etrans; [exact H|]. vm_compute. reflexivity.
Defined.

Lemma read_returns_oldest_words_witness :
  exists ret data,
    (sbefifo_read_common 0 false 8 false false answer_fetched).2
      = Returned ret data /\
    (ret = 8 \/ ret = - EPROTO) /\ length data = 2%nat.
Proof.
  set (cl := get_client answer_fetched 0).
  assert (H1 : clients answer_fetched !! 0%nat = Some cl)
    by (vm_compute; reflexivity).
  assert (H2 : buf_wf (rbuf cl)) by (vm_compute; intuition congruence).
  assert (H3 : buf_full (rbuf cl) = true -> rpos (rbuf cl) = 0)
    by (vm_compute; intuition congruence).
  assert (H4 : nonblocking cl = false) by (vm_compute; reflexivity).
  assert (H5 : rc answer_fetched = 0) by (vm_compute; reflexivity).
  assert (H6 : sbefifo_buf_nbreadable (rbuf cl) <> 0)
    by (vm_compute; congruence).
  assert (H7 : false && false = false) by reflexivity.
  assert (H8 : word_aligned 8) by (vm_compute; reflexivity).
  assert (H9 : 0 <= 8 < 2 ^ 32) by (vm_compute; intuition congruence).
  destruct (read_returns_oldest_words 0%nat false 8 false false answer_fetched
              cl H1 H2 H3 H4 H5 H6 H7 H8 H9)
    as (ret & data & G1 & G2 & G3 & _).
  exists ret, data. split; [exact G1|]. split; [exact G2|exact G3].
Defined.

(** * Properties of the GPIO FSI master *)

(** ** Messages *)

Lemma lor_shifted a b n :
  0 <= n -> 0 <= b < 2 ^ n -> Z.lor (a * 2 ^ n) b = a * 2 ^ n + b.
Proof.
  intros Hn Hb. rewrite <- Z.add_lor_land.
  assert (Z.land (a * 2 ^ n) b = 0) as ->; [|lia].
  apply Z.bits_inj'. intros i Hi. rewrite Z.land_spec, Z.bits_0.
  destruct (Z.lt_ge_cases i n).
  - now rewrite Z.mul_pow2_bits_low.
  - rewrite <- (Z.mod_small b (2 ^ n)) by lia.
    rewrite Z.mod_pow2_bits_high by lia. apply andb_false_r.
Qed.

Lemma push_mask n : 0 <= n <= 64 -> u64 (u64 (Z.shiftl 1 n) - 1) = Z.ones n.
Proof.
  intros Hn. unfold u64. rewrite Z.shiftl_1_l, Z.ones_equiv.
  destruct (Z.eq_dec n 64) as [->|].
  - now vm_compute.
  - assert (0 < 2 ^ n < 2 ^ 64).
    { split; [lia|]. apply Z.pow_lt_mono_r; lia. }
    rewrite (Z.mod_small (2 ^ n)) by lia. apply Z.mod_small. lia.
Qed.

(** What [msg_push_bits] makes of a message of [k] bits when the [n] new
    bits still fit into the 64-bit word. *)
Lemma push_value m data n k :
  0 <= n -> 0 <= k -> k + n <= 64 -> 0 <= msg m < 2 ^ k ->
  msg (msg_push_bits m data n) = msg m * 2 ^ n + data mod 2 ^ n /\
  0 <= msg (msg_push_bits m data n) < 2 ^ (k + n) /\
  bits (msg_push_bits m data n) = u8 (bits m + n).
Proof.
  intros Hn Hk Hkn Hm. unfold msg_push_bits. cbn [msg bits].
  rewrite push_mask by lia. rewrite Z.land_ones by lia.
  assert (Hd : u64 data mod 2 ^ n = data mod 2 ^ n).
  { unfold u64. apply Z.mod_mod_divide.
    exists (2 ^ (64 - n)). rewrite <- Z.pow_add_r by lia. f_equal. lia. }
  rewrite Hd. pose proof (Z.mod_pos_bound data (2 ^ n) ltac:(lia)) as Hb.
  assert (Hp : 2 ^ (k + n) = 2 ^ k * 2 ^ n) by (apply Z.pow_add_r; lia).
  assert (Hle : 2 ^ (k + n) <= 2 ^ 64) by (apply Z.pow_le_mono_r; lia).
  rewrite Z.shiftl_mul_pow2 by lia.
  assert (Hs : u64 (msg m * 2 ^ n) = msg m * 2 ^ n).
  { unfold u64. apply Z.mod_small. nia. }
  rewrite Hs, lor_shifted by lia. split; [done|]. split; [nia|done].
Qed.

(** X19.  [msg_push_bits] appends: the new low bits are the low bits of the data,
    what is above them is the old message, and the bit count grows by the
    number of bits pushed, modulo 256. *)
Theorem msg_push_bits_appends m data n :
  0 <= n < 64 -> 0 <= msg m < 2 ^ (64 - n) ->
  Z.land (msg (msg_push_bits m data n)) (Z.ones n) = data mod 2 ^ n /\
  Z.shiftr (msg (msg_push_bits m data n)) n = msg m /\
  bits (msg_push_bits m data n) = (bits m + n) mod 256.
Proof.
  intros Hn Hm.
  destruct (push_value m data n (64 - n)) as (Hv & _ & Hb); [lia..|].
  pose proof (Z.mod_pos_bound data (2 ^ n) ltac:(lia)).
  rewrite Hv, Z.land_ones, Z.shiftr_div_pow2 by lia.
  split; [|split; [|exact Hb]].
  - rewrite Z.add_comm, Z.mod_add by lia. apply Z.mod_small. lia.
  - rewrite Z.add_comm, Z.div_add by lia. rewrite Z.div_small by lia. lia.
Qed.

Lemma msg_push_bits_appends_witness :
  Z.shiftr (msg (msg_push_bits (GpioMsg 5 3) 0xff 4)) 4 = 5.
Proof.
  refine (proj1 (proj2 (msg_push_bits_appends (GpioMsg 5 3) 0xff 4 _ _)));
    vm_compute; intuition congruence.
Defined.

Section Commands.
Variable fsi_crc4 : Z -> Z -> Z -> Z.

Lemma push_crc_value m k :
  0 <= k -> k + 4 <= 64 -> 0 <= msg m < 2 ^ k ->
  Z.shiftr (msg (msg_push_crc fsi_crc4 m)) 4 = msg m /\
  0 <= msg (msg_push_crc fsi_crc4 m) < 2 ^ (k + 4) /\
  bits (msg_push_crc fsi_crc4 m) = u8 (bits m + 4).
Proof.
  intros Hk Hk4 Hm. unfold msg_push_crc.
  set (crc := u8 (fsi_crc4 _ _ _)).
  destruct (push_value m crc 4 k) as (Hv & Hr & Hb); [lia..|].
  split; [|done].
  pose proof (Z.mod_pos_bound crc (2 ^ 4) ltac:(lia)).
  rewrite Hv, Z.shiftr_div_pow2, Z.add_comm, Z.div_add, Z.div_small by lia.
  lia.
Qed.

(** X20.  A D-POLL command is 9 bits long and a TERM command 12: the two low
    bits of the slave id, the command code, and four bits of CRC. *)
Theorem short_command_layout slave_id :
  bits (build_dpoll_command fsi_crc4 slave_id) = 9 /\
  Z.shiftr (msg (build_dpoll_command fsi_crc4 slave_id)) 4
    = slave_id mod 4 * 8 + FSI_GPIO_CMD_DPOLL /\
  bits (build_term_command fsi_crc4 slave_id) = 12 /\
  Z.shiftr (msg (build_term_command fsi_crc4 slave_id)) 4
    = slave_id mod 4 * 64 + FSI_GPIO_CMD_TERM.
Proof.
  pose proof (Z.mod_pos_bound slave_id 4 ltac:(lia)) as Hid.
  unfold build_dpoll_command, build_term_command.
  destruct (push_value (GpioMsg 0 0) slave_id 2 0) as (V1 & R1 & B1);
    [cbn; lia..|].
  set (m1 := msg_push_bits (GpioMsg 0 0) slave_id 2) in *.
  change (2 ^ 2) with 4 in *. cbn [msg bits] in V1, B1.
  destruct (push_value m1 FSI_GPIO_CMD_DPOLL 3 2) as (V2 & R2 & B2); [lia..|].
  destruct (push_value m1 FSI_GPIO_CMD_TERM 6 2) as (V3 & R3 & B3); [lia..|].
  destruct (push_crc_value (msg_push_bits m1 FSI_GPIO_CMD_DPOLL 3) 5)
    as (C2 & _ & D2); [lia..|].
  destruct (push_crc_value (msg_push_bits m1 FSI_GPIO_CMD_TERM 6) 8)
    as (C3 & _ & D3); [lia..|].
  rewrite C2, C3, D2, D3, V2, V3, B2, B3, V1, B1.
  repeat split; vm_compute; try reflexivity; lia.
Qed.

End Commands.

Lemma be_value_snoc l b : be_value (l ++ [b]) = be_value l * 256 + b.
Proof. unfold be_value. now rewrite fold_left_app. Qed.

Lemma be_value_fold l acc :
  fold_left (fun acc b => acc * 256 + b) l acc
    = acc * 2 ^ (8 * Z.of_nat (length l)) + be_value l.
Proof.
  revert acc. induction l as [|b l IH] using rev_ind; intros acc.
  { cbn. lia. }
  rewrite fold_left_app, be_value_snoc, length_app. cbn [fold_left length].
  rewrite IH.
  replace (8 * Z.of_nat (length l + 1)) with (8 * Z.of_nat (length l) + 8) by lia.
  rewrite Z.pow_add_r by lia. change (2 ^ 8) with 256. lia.
Qed.

Lemma be_value_cons b l :
  be_value (b :: l) = b * 2 ^ (8 * Z.of_nat (length l)) + be_value l.
Proof.
  unfold be_value at 1. cbn [fold_left]. rewrite be_value_fold. lia.
Qed.

Lemma be_value_bounds l :
  Forall (fun b => 0 <= b < 256) l ->
  0 <= be_value l < 2 ^ (8 * Z.of_nat (length l)).
Proof.
  induction l as [|b l IH] using rev_ind; intros Hl; [cbn; lia|].
  apply Forall_app in Hl as [Hl Hb]. rewrite Forall_singleton in Hb.
  specialize (IH Hl). rewrite be_value_snoc, length_app. cbn [length].
  replace (8 * Z.of_nat (length l + 1)) with (8 * Z.of_nat (length l) + 8) by lia.
  rewrite Z.pow_add_r by lia. change (2 ^ 8) with 256.
  set (P := 2 ^ (8 * Z.of_nat (length l))) in *. lia.
Qed.

Lemma first_bytes_length n data : length (first_bytes n data) = n.
Proof. revert data. induction n; intros; cbn; [done|]. now rewrite IHn. Qed.

Lemma first_bytes_range n data :
  Forall (fun b => 0 <= b < 256) (first_bytes n data).
Proof.
  revert data. induction n as [|n IH]; intros data; cbn; [done|].
  apply Forall_cons. split; [|apply IH].
  unfold u8. change (2 ^ 8) with 256. apply Z.mod_pos_bound. lia.
Qed.

Lemma first_bytes_all (bytes : list Z) :
  Forall (fun b => 0 <= b < 256) bytes ->
  first_bytes (length bytes) bytes = bytes.
Proof.
  induction 1 as [|b l Hb Hl IH]; [done|]. cbn. rewrite IH. f_equal.
  unfold u8. change (2 ^ 8) with 256. apply Z.mod_small. lia.
Qed.

Lemma u8_range z : 0 <= u8 z < 256.
Proof. unfold u8. change (2 ^ 8) with 256. apply Z.mod_pos_bound. lia. Qed.

Lemma push_data_value n data cmd k :
  0 <= k -> k + 8 * Z.of_nat n <= 64 -> 0 <= msg cmd < 2 ^ k ->
  0 <= bits cmd < 256 ->
  msg (push_data n data cmd)
    = msg cmd * 2 ^ (8 * Z.of_nat n) + be_value (first_bytes n data) /\
  0 <= msg (push_data n data cmd) < 2 ^ (k + 8 * Z.of_nat n) /\
  bits (push_data n data cmd) = u8 (bits cmd + 8 * Z.of_nat n).
Proof.
  revert data cmd k. induction n as [|n IH]; intros data cmd k Hk Hkn Hm Hbits.
  { cbn [push_data first_bytes]. change (be_value []) with 0.
    change (Z.of_nat 0) with 0.
    rewrite !Z.mul_0_r, !Z.add_0_r, Z.pow_0_r, Z.mul_1_r.
    split; [done|]. split; [done|]. unfold u8. change (2 ^ 8) with 256.
    now rewrite Z.mod_small. }
  cbn [push_data first_bytes].
  set (b := u8 (default 0 (head data))).
  destruct (push_value cmd b 8 k) as (V & R & B); [lia..|].
  destruct (IH (tail data) (msg_push_bits cmd b 8) (k + 8)) as (V' & R' & B');
    [lia..|done|rewrite B; apply u8_range|].
  assert (Hb : 0 <= b < 256).
  { unfold b, u8. change (2 ^ 8) with 256. apply Z.mod_pos_bound. lia. }
  change (2 ^ 8) with 256 in V. rewrite (Z.mod_small b) in V by lia.
  replace (8 * Z.of_nat (S n)) with (8 + 8 * Z.of_nat n) by lia.
  split; [|split].
  - rewrite V', V, be_value_cons, first_bytes_length.
    rewrite (Z.pow_add_r 2 8) by lia. change (2 ^ 8) with 256. ring.
  - now rewrite Z.add_assoc.
  - rewrite B', B. unfold u8.
    rewrite Z.add_mod_idemp_l by done. f_equal. lia.
Qed.

Lemma response_bytes_snoc l b acc :
  Forall (fun b => 0 <= b < 256) l -> 0 <= b < 256 ->
  response_bytes (length (l ++ [b])) (be_value (l ++ [b])) acc
    = response_bytes (length l) (be_value l) (b :: acc).
Proof.
  intros Hl Hb. rewrite length_app, Nat.add_comm. cbn [length Nat.add response_bytes].
  rewrite be_value_snoc. f_equal.
  - rewrite Z.shiftr_div_pow2 by lia. change (2 ^ 8) with 256.
    rewrite Z.add_comm, Z.div_add by lia. rewrite Z.div_small by lia. lia.
  - f_equal. change 255 with (Z.ones 8). rewrite Z.land_ones by lia.
    change (2 ^ 8) with 256. rewrite Z.add_comm, Z.mod_add by lia.
    apply Z.mod_small. lia.
Qed.

Lemma response_bytes_be l acc :
  Forall (fun b => 0 <= b < 256) l ->
  response_bytes (length l) (be_value l) acc = l ++ acc.
Proof.
  revert acc. induction l as [|b l IH] using rev_ind; intros acc Hl; [done|].
  apply Forall_app in Hl as [Hl Hb]. rewrite Forall_singleton in Hb.
  rewrite response_bytes_snoc by done. rewrite IH by done.
  now rewrite <- app_assoc.
Qed.

Section Layout.
Variable fsi_crc4 : Z -> Z -> Z -> Z.

Lemma abs_ar_fields id addr size (write : bool) :
  let cmd := GpioMsg 0 0 in
  let cmd := msg_push_bits cmd id 2 in
  let cmd := msg_push_bits cmd FSI_GPIO_CMD_ABS_AR 3 in
  let cmd := msg_push_bits cmd (if write then 0 else 1) 1 in
  let ds := if 1 <? size then 1 else 0 in
  let a := Z.land addr (Z.lnot (size - 1)) in
  let a := if size =? 4 then Z.lor a 1 else a in
  let cmd := msg_push_bits cmd (Z.land a (Z.shiftl 1 21 - 1)) 21 in
  let cmd := msg_push_bits cmd ds 1 in
  msg cmd = (abs_ar_head id write * 2 ^ 21 + abs_ar_addr addr size) * 2 + ds /\
  0 <= msg cmd < 2 ^ 28 /\ bits cmd = 28.
Proof.
  cbn zeta.
  pose proof (Z.mod_pos_bound id 4 ltac:(lia)) as Hid.
  destruct (push_value (GpioMsg 0 0) id 2 0) as (V1 & R1 & B1); [cbn; lia..|].
  set (m1 := msg_push_bits (GpioMsg 0 0) id 2) in *.
  destruct (push_value m1 FSI_GPIO_CMD_ABS_AR 3 2) as (V2 & R2 & B2); [lia..|].
  set (m2 := msg_push_bits m1 FSI_GPIO_CMD_ABS_AR 3) in *.
  destruct (push_value m2 (if write then 0 else 1) 1 5) as (V3 & R3 & B3); [lia..|].
  set (m3 := msg_push_bits m2 (if write then 0 else 1) 1) in *.
  set (a := if size =? 4 then _ else _).
  destruct (push_value m3 (Z.land a (Z.shiftl 1 21 - 1)) 21 6) as (V4 & R4 & B4);
    [lia..|].
  set (m4 := msg_push_bits m3 _ 21) in *.
  set (ds := if 1 <? size then 1 else 0).
  destruct (push_value m4 ds 1 27) as (V5 & R5 & B5); [lia..|].
  split; [|split; [exact R5|]].
  - rewrite V5, V4, V3, V2, V1. cbn [msg].
    change (Z.shiftl 1 21 - 1) with (Z.ones 21).
    rewrite Z.land_ones, Z.mod_mod by lia.
    unfold abs_ar_head, abs_ar_addr. fold a.
    assert (Hw : (if write then 0 else 1) mod 2 ^ 1 = if write then 0 else 1)
      by (now destruct write).
    assert (Hds : ds mod 2 ^ 1 = ds) by (unfold ds; now destruct (1 <? size)).
    rewrite Hw, Hds. change (FSI_GPIO_CMD_ABS_AR mod 2 ^ 3) with FSI_GPIO_CMD_ABS_AR.
    change (2 ^ 2) with 4. change (2 ^ 3) with 8. change (2 ^ 1) with 2. lia.
  - rewrite B5, B4, B3, B2, B1. cbn [bits]. now vm_compute.
Qed.

(** X21.  A read command is 32 bits long: the head, the 21-bit address, the
    data-size bit and four bits of CRC.  The size of the access is encoded
    in the address and the data-size bit as the table in the source says:
    size 1 leaves the address alone and clears the bit; size 2 clears
    address bit 0 and sets the bit; size 4 clears address bit 1, sets
    address bit 0 and sets the bit. *)
Theorem read_command_layout id addr :
  (forall size,
     let cmd := build_abs_ar_command fsi_crc4 id addr size None in
     bits cmd = 32 /\
     Z.shiftr (msg cmd) 4
       = (abs_ar_head id false * 2 ^ 21 + abs_ar_addr addr size) * 2
         + (if 1 <? size then 1 else 0)) /\
  abs_ar_addr addr 1 = addr mod 2 ^ 21 /\
  abs_ar_addr addr 2 = 2 * (addr mod 2 ^ 21 / 2) /\
  abs_ar_addr addr 4 = 4 * (addr mod 2 ^ 21 / 4) + 1.
Proof.
  split; [|split; [|split]].
  - intros size. cbn zeta. unfold build_abs_ar_command.
    rewrite bool_decide_eq_false_2 by (intros H; now apply H).
    destruct (abs_ar_fields id addr size false) as (V & R & B). cbn zeta in V, R, B.
    set (c := msg_push_bits _ (if 1 <? size then 1 else 0) 1) in *.
    destruct (push_crc_value fsi_crc4 c 28) as (C & _ & D); [lia..|].
    rewrite C, D, B, V. split; [now vm_compute|done].
  - unfold abs_ar_addr. change (1 =? 4) with false. cbv iota.
    change (Z.lnot (1 - 1)) with (-1). now rewrite Z.land_m1_r.
  - unfold abs_ar_addr. change (2 =? 4) with false. cbv iota.
    change (2 - 1) with (Z.ones 1).
    rewrite <- Z.ldiff_land, Z.ldiff_ones_r by lia.
    rewrite Z.shiftl_mul_pow2, Z.shiftr_div_pow2 by lia.
    change (2 ^ 1) with 2. change (2 ^ 21) with 2097152.
    Z.div_mod_to_equations. lia.
  - unfold abs_ar_addr. change (4 =? 4) with true. cbv iota.
    change (4 - 1) with (Z.ones 2).
    rewrite <- Z.ldiff_land, Z.ldiff_ones_r by lia.
    rewrite Z.shiftl_mul_pow2, Z.shiftr_div_pow2 by lia.
    rewrite (lor_shifted _ 1 2) by lia.
    change (2 ^ 2) with 4. change (2 ^ 21) with 2097152.
    Z.div_mod_to_equations. lia.
Qed.

(** X22.  A write command of up to 4 bytes is 32 bits longer by 8 for every
    byte; the bytes follow the data-size bit, first byte first.  Read back
    with the decoding that [poll_for_response] applies to the data of a
    read response, they are the bytes that were written: command and
    response use the same byte order. *)
Theorem write_command_bytes id addr (bytes : list Z) :
  (length bytes <= 4)%nat -> Forall (fun b => 0 <= b < 256) bytes ->
  let size := Z.of_nat (length bytes) in
  let cmd := build_abs_ar_command fsi_crc4 id addr size (Some bytes) in
  bits cmd = 32 + 8 * size /\
  Z.shiftr (msg cmd) (4 + 8 * size)
    = (abs_ar_head id true * 2 ^ 21 + abs_ar_addr addr size) * 2
      + (if 1 <? size then 1 else 0) /\
  response_data cmd size = bytes.
Proof.
  intros Hlen Hb. cbn zeta. unfold build_abs_ar_command.
  rewrite bool_decide_eq_true_2 by done. rewrite !Nat2Z.id.
  set (size := Z.of_nat (length bytes)).
  destruct (abs_ar_fields id addr size true) as (V & R & B). cbn zeta in V, R, B.
  set (c := msg_push_bits _ (if 1 <? size then 1 else 0) 1) in *.
  destruct (push_data_value (length bytes) bytes c 28) as (V' & R' & B');
    [lia..|done|lia|].
  fold size in V', R', B'. rewrite first_bytes_all in V' by done.
  set (c' := push_data (length bytes) bytes c) in *.
  destruct (push_crc_value fsi_crc4 c' (28 + 8 * size)) as (C & _ & D);
    [lia..|done|].
  pose proof (be_value_bounds bytes Hb) as Hv. fold size in Hv.
  assert (Hs : 0 <= size <= 4) by (unfold size; lia).
  split; [|split].
  - rewrite D, B', B. unfold u8. change (2 ^ 8) with 256.
    rewrite (Z.mod_small (28 + 8 * size)) by lia.
    rewrite Z.mod_small by lia. lia.
  - rewrite <- Z.shiftr_shiftr, C, V' by lia.
    rewrite Z.shiftr_div_pow2, Z.add_comm, Z.div_add, Z.div_small by lia.
    now rewrite V.
  - unfold response_data. replace (size * 8) with (8 * size) by lia.
    rewrite C, V', push_mask by lia.
    rewrite Z.land_ones, Z.add_comm, Z.mod_add, Z.mod_small by lia.
    unfold size. rewrite Nat2Z.id. now rewrite response_bytes_be, app_nil_r.
Qed.

End Layout.

(** ** Clocking a command out *)

Lemma emits_ret {A : Type} (a : A) : emits (gpio_ret a) a [].
Proof. intros l. unfold gpio_ret. rewrite app_nil_r. now destruct l. Qed.

Lemma emits_do e : emits (gpio_do e) tt [e].
Proof. intros l. reflexivity. Qed.

Lemma emits_bind {A B : Type} (m : gpio A) (k : A -> gpio B) a e1 b e2 :
  emits m a e1 -> emits (k a) b e2 -> emits (gpio_bind m k) b (e1 ++ e2).
Proof.
  intros H1 H2 l. unfold gpio_bind. rewrite H1, H2. cbn. now rewrite app_assoc.
Qed.

Lemma emits_when (b : bool) m evs :
  emits m tt evs -> emits (gpio_when b m) tt (if b then evs else []).
Proof. intros H. destruct b; [exact H|apply emits_ret]. Qed.

Lemma emits_clock_toggle_loop n : emits (clock_toggle_loop n) tt (clock_events n).
Proof.
  induction n as [|n IH]; [apply emits_ret|].
  cbn [clock_toggle_loop]. unfold clock_events. cbn [replicate concat].
  change ([?a; ?b; ?c; ?d] ++ ?l) with ([a] ++ [b] ++ [c] ++ [d] ++ l).
  repeat (eapply emits_bind; [apply emits_do|]). exact IH.
Qed.

Lemma emits_clock_toggle count :
  emits (clock_toggle count) tt (clock_events (Z.to_nat count)).
Proof. apply emits_clock_toggle_loop. Qed.

Lemma emits_set_sda_output master v :
  emits (set_sda_output master v) tt
    ((if has_trans master then [gpiod_set_value gpio_trans 1] else []) ++
     [gpiod_direction_output gpio_data v]).
Proof.
  unfold set_sda_output. eapply emits_bind; [|apply emits_do].
  apply emits_when, emits_do.
Qed.

Lemma sda_at_clocks_app cur e1 e2 :
  sda_at_clocks cur (e1 ++ e2)
    = sda_at_clocks cur e1 ++ sda_at_clocks (sda_after cur e1) e2.
Proof.
  revert cur. induction e1 as [|e e1 IH]; intros cur; [done|].
  destruct e as [[] v|[] v|[]|[] v| | | |]; cbn [app sda_at_clocks sda_after];
    try apply IH.
  destruct v as [|[]|]; cbn [app]; try apply IH. now rewrite IH.
Qed.

Lemma sda_after_app cur e1 e2 :
  sda_after cur (e1 ++ e2) = sda_after (sda_after cur e1) e2.
Proof.
  revert cur. induction e1 as [|e e1 IH]; intros cur; [done|].
  destruct e as [[] v|[] v|[]|[] v| | | |]; cbn [app sda_after]; apply IH.
Qed.

Lemma clock_pulses_app e1 e2 :
  clock_pulses (e1 ++ e2) = (clock_pulses e1 + clock_pulses e2)%nat.
Proof. unfold clock_pulses. now rewrite List.filter_app, length_app. Qed.

Lemma commands_sent_app e1 e2 :
  commands_sent (e1 ++ e2) = commands_sent e1 ++ commands_sent e2.
Proof. apply omap_app. Qed.

Lemma clock_events_obs n :
  clock_pulses (clock_events n) = n /\ commands_sent (clock_events n) = [] /\
  forall cur, sda_at_clocks cur (clock_events n) = replicate n cur /\
              sda_after cur (clock_events n) = cur.
Proof.
  induction n as [|n (I1 & I2 & I3)]; [done|].
  unfold clock_events in *. cbn [replicate concat].
  split; [|split].
  - change (clock_pulses (?a ++ ?l)) with (S (clock_pulses l)). now rewrite I1.
  - exact I2.
  - intros cur. destruct (I3 cur) as [J1 J2]. cbn. now rewrite J1, J2.
Qed.

Lemma land_pow2 x n :
  0 <= n -> Z.land x (2 ^ n) = if Z.testbit x n then 2 ^ n else 0.
Proof.
  intros Hn. apply Z.bits_inj'. intros i Hi.
  rewrite Z.land_spec, Z.pow2_bits_eqb by done.
  destruct (Z.eqb_spec n i) as [->|Hne].
  - destruct (Z.testbit x i); [now rewrite Z.pow2_bits_true|now rewrite Z.bits_0].
  - rewrite andb_false_r. destruct (Z.testbit x n); [|now rewrite Z.bits_0].
    now rewrite Z.pow2_bits_false.
Qed.

Lemma next_bit_is x n :
  0 <= n -> Z.shiftr (Z.land x (2 ^ n)) n = Z.b2z (Z.testbit x n).
Proof.
  intros Hn. rewrite land_pow2 by done. destruct (Z.testbit x n); cbn [Z.b2z].
  - rewrite Z.shiftr_div_pow2 by done. apply Z.div_same. lia.
  - apply Z.shiftr_0_l.
Qed.

Lemma serial_out_loop_emits n width m last :
  (Z.of_nat n <= width) -> width <= 64 ->
  exists evs,
    emits (serial_out_loop n width (2 ^ (width - 1)) m last) tt evs /\
    clock_pulses evs = n /\ commands_sent evs = [] /\
    forall cur, (last = 0 \/ last = 1 -> cur = Some last) ->
      sda_at_clocks cur evs
        = map (fun i => Some (Z.b2z (Z.testbit m (width - 1 - Z.of_nat i))))
            (seq 0 n).
Proof.
  revert m last. induction n as [|n IH]; intros m last Hn Hw.
  { exists []. split; [apply emits_ret|]. done. }
  cbn [serial_out_loop]. rewrite next_bit_is by lia.
  set (b := Z.b2z (Z.testbit m (width - 1))).
  assert (Hb : b = 0 \/ b = 1) by (unfold b; destruct (Z.testbit _ _); auto).
  destruct (IH (u64 (Z.shiftl m 1))
              (if Z.lxor last b =? 0 then last else b) ltac:(lia) Hw)
    as (evs & He & Hp & Hc & Hl).
  destruct (clock_events_obs 1) as (P1 & C1 & L1).
  exists ((if Z.lxor last b =? 0 then [] else [gpiod_set_value gpio_data b]) ++
          clock_events (Z.to_nat 1) ++ evs).
  split; [|split; [|split]].
  - eapply emits_bind; [|eapply emits_bind; [apply emits_clock_toggle|exact He]].
    destruct (Z.lxor last b =? 0); [apply emits_ret|apply emits_do].
  - rewrite !clock_pulses_app, Hp. change (Z.to_nat 1) with 1%nat. rewrite P1.
    now destruct (Z.lxor last b =? 0).
  - rewrite !commands_sent_app, Hc. change (Z.to_nat 1) with 1%nat. rewrite C1.
    now destruct (Z.lxor last b =? 0).
  - intros cur Hcur. change (Z.to_nat 1) with 1%nat.
    assert (Hlast : (if Z.lxor last b =? 0 then last else b) = b).
    { destruct (Z.eqb_spec (Z.lxor last b) 0) as [Hx|]; [|done].
      now apply Z.lxor_eq in Hx. }
    rewrite Hlast in Hl.
    assert (Hcur' : sda_after cur
              (if Z.lxor last b =? 0 then [] else [gpiod_set_value gpio_data b])
              = Some b).
    { destruct (Z.eqb_spec (Z.lxor last b) 0) as [Hx|]; [|done].
      apply Z.lxor_eq in Hx. cbn [sda_after]. rewrite <- Hx. apply Hcur.
      now rewrite Hx. }
    rewrite !sda_at_clocks_app, ?sda_after_app.
    assert (sda_at_clocks cur
              (if Z.lxor last b =? 0 then [] else [gpiod_set_value gpio_data b])
            = []) as -> by (now destruct (Z.lxor last b =? 0)).
    rewrite Hcur'. destruct (L1 (Some b)) as [-> ->].
    rewrite Hl by done.
    cbn [app replicate seq map]. f_equal.
    + unfold b. do 3 f_equal. lia.
    + rewrite <- seq_shift, map_map. apply map_ext_in. intros i Hi.
      apply in_seq in Hi. do 2 f_equal.
      unfold u64. rewrite Z.mod_pow2_bits_low by lia.
      rewrite Z.shiftl_spec by lia. f_equal. lia.
Qed.

Lemma u64_lnot_bit x j :
  0 <= j < 64 -> Z.testbit (u64 (Z.lnot x)) j = negb (Z.testbit x j).
Proof.
  intros Hj. unfold u64. rewrite Z.mod_pow2_bits_low by lia.
  apply Z.lnot_spec. lia.
Qed.

(** X23.  [serial_out] of a command of 1 to 64 bits records the command at its
    trace point, then gives the clock one pulse for the start bit and one
    for each bit of the command.  At each clock the data line is driven: low
    for the start bit, then for each bit of the command, first bit first,
    low for a 1 and high for a 0.  It does not read the lines.  A command of
    no bits is recorded and nothing is done to the lines. *)
Theorem serial_out_levels master cmd :
  (1 <= bits cmd <= 64 ->
   exists evs,
     emits (serial_out master cmd) tt evs /\
     clock_pulses evs = S (Z.to_nat (bits cmd)) /\
     commands_sent evs = [cmd] /\
     forall cur,
       sda_at_clocks cur evs =
         Some 0 ::
         map (fun b : bool => Some (if b then 0 else 1))
           (msg_bits (msg cmd) (Z.to_nat (bits cmd)))) /\
  (bits cmd = 0 ->
   emits (serial_out master cmd) tt
     [trace_fsi_master_gpio_out (bits cmd) (msg cmd)]).
Proof.
  split.
  - intros Hb. unfold serial_out.
    destruct (Z.eqb_spec (bits cmd) 0); [lia|].
    assert (Hmask : u64 (Z.shiftl 1 (bits cmd - 1)) = 2 ^ (bits cmd - 1)).
    { unfold u64. rewrite Z.shiftl_1_l. apply Z.mod_small.
      split; [lia|]. apply Z.pow_lt_mono_r; lia. }
    rewrite Hmask.
    destruct (serial_out_loop_emits (Z.to_nat (bits cmd)) (bits cmd)
                (u64 (Z.lnot (msg cmd))) (u64 (Z.lnot 0)) ltac:(lia) ltac:(lia))
      as (evs & He & Hp & Hc & Hl).
    destruct (clock_events_obs 1) as (P1 & C1 & L1).
    set (out := (if has_trans master then [gpiod_set_value gpio_trans 1] else [])
                ++ [gpiod_direction_output gpio_data 0]).
    exists ([trace_fsi_master_gpio_out (bits cmd) (msg cmd)] ++ out ++
            [gpiod_set_value gpio_data 0] ++ clock_events (Z.to_nat 1) ++ evs).
    split; [|split; [|split]].
    + eapply emits_bind; [apply emits_do|].
      eapply emits_bind; [apply emits_set_sda_output|].
      eapply emits_bind; [apply emits_do|].
      eapply emits_bind; [apply emits_clock_toggle|exact He].
    + rewrite !clock_pulses_app, Hp. change (Z.to_nat 1) with 1%nat. rewrite P1.
      unfold out. now destruct (has_trans master).
    + rewrite !commands_sent_app, Hc. change (Z.to_nat 1) with 1%nat. rewrite C1.
      unfold out. destruct cmd. now destruct (has_trans master).
    + intros cur. change (Z.to_nat 1) with 1%nat.
      rewrite !sda_at_clocks_app, ?sda_after_app.
      assert (Ho : forall c, sda_at_clocks c out = [] /\ sda_after c out = Some 0).
      { intros c. unfold out. now destruct (has_trans master). }
      cbn [sda_at_clocks sda_after app].
      rewrite (proj1 (Ho cur)). cbn [sda_at_clocks sda_after app].
      destruct (L1 (Some 0)) as [-> ->]. cbn [replicate app]. f_equal.
      rewrite Hl by (intros [H|H]; vm_compute in H; discriminate).
      unfold msg_bits. rewrite map_map. apply map_ext_in. intros i Hi.
      apply in_seq in Hi. rewrite u64_lnot_bit by lia.
      replace (bits cmd - 1 - Z.of_nat i)
        with (Z.of_nat (Z.to_nat (bits cmd) - 1 - i)) by lia.
      now destruct (Z.testbit _ _).
  - intros Hb. unfold serial_out. rewrite Hb. cbn [Z.eqb].
    rewrite <- (app_nil_r [_]). eapply emits_bind; [apply emits_do|apply emits_ret].
Qed.

Lemma write_command_bytes_witness :
  response_data
    (build_abs_ar_command crc_zero 1 0x1000 4 (Some [0xde; 0xad; 0xbe; 0xef])) 4
  = [0xde; 0xad; 0xbe; 0xef].
Proof.
  assert (H1 : (length [0xde; 0xad; 0xbe; 0xef] <= 4)%nat) by (vm_compute; lia).
  assert (H2 : Forall (fun b => 0 <= b < 256) [0xde; 0xad; 0xbe; 0xef]).
  { repeat constructor; vm_compute; congruence. }
  exact (proj2 (proj2 (write_command_bytes crc_zero 1 0x1000
                         [0xde; 0xad; 0xbe; 0xef] H1 H2))).
Defined.

Lemma serial_out_levels_witness :
  exists evs,
    emits (serial_out (GpioMaster true true true false) (GpioMsg 5 3)) tt evs /\
    clock_pulses evs = 4%nat /\
    commands_sent evs = [GpioMsg 5 3] /\
    forall cur, sda_at_clocks cur evs = [Some 0; Some 0; Some 1; Some 0].
Proof.
  assert (H : 1 <= bits (GpioMsg 5 3) <= 64) by (vm_compute; intuition congruence).
  exact (proj1 (serial_out_levels (GpioMaster true true true false)
                  (GpioMsg 5 3)) H).
Defined.

(** ** Clocking a response in *)

Lemma runs_emits {A : Type} (m : gpio A) a evs l :
  emits m a evs -> runs m l a 0 evs.
Proof. intros H. unfold runs. now rewrite H, Nat.add_0_r. Qed.

Lemma runs_bind {A B : Type} (m : gpio A) (f : A -> gpio B) l a k e b k' e' :
  runs m l a k e ->
  runs (f a) (GpioLines (sda l) (sampled l + k) (pins l ++ e)) b k' e' ->
  runs (gpio_bind m f) l b (k + k') (e ++ e').
Proof.
  unfold runs, gpio_bind. intros -> ->. cbn.
  now rewrite Nat.add_assoc, app_assoc.
Qed.

Lemma runs_obs {A : Type} (m : gpio A) l a k evs :
  runs m l a k evs ->
  (m l).1 = a /\ calls m l = evs /\
  sampled (m l).2 = (sampled l + k)%nat /\ sda (m l).2 = sda l.
Proof. unfold runs, calls. intros ->. cbn. now rewrite drop_app_length. Qed.

Lemma calls_emits {A : Type} (m : gpio A) a evs l :
  emits m a evs -> calls m l = evs.
Proof. intros H. now apply (runs_obs m l a 0), runs_emits. Qed.

Lemma samples_S l n p :
  samples l (S n)
    = sda l (sampled l) :: samples (GpioLines (sda l) (S (sampled l)) p) n.
Proof.
  unfold samples. cbn [seq map sda sampled]. rewrite Nat.add_0_r. f_equal.
  rewrite <- seq_shift, map_map. apply map_ext. intros i. f_equal. lia.
Qed.

Lemma bits_value_acc l acc :
  fold_left (fun acc (b : bool) => 2 * acc + (if b then 1 else 0)) l acc
    = acc * 2 ^ Z.of_nat (length l) + bits_value l.
Proof.
  unfold bits_value. revert acc. induction l as [|b l IH]; intros acc.
  - cbn. lia.
  - cbn [fold_left length]. rewrite IH, (IH (2 * 0 + _)).
    rewrite Nat2Z.inj_succ, Z.pow_succ_r by lia. lia.
Qed.

Lemma bits_value_cons (b : bool) l :
  bits_value (b :: l)
    = (if b then 1 else 0) * 2 ^ Z.of_nat (length l) + bits_value l.
Proof.
  unfold bits_value at 1. cbn [fold_left]. rewrite bits_value_acc. lia.
Qed.

Lemma samples_length l n : length (samples l n) = n.
Proof. unfold samples. now rewrite length_map, length_seq. Qed.

(** One turn of the loop of [serial_in]: the complement of the level goes
    into the lowest bit. *)
Lemma shift_in m v :
  Z.lor (u64 (Z.shiftl m 1))
        (Z.land (Z.lnot (if v =? 0 then 0 else 1)) 0x1)
    = (2 * m) mod 2 ^ 64 + (if v =? 0 then 1 else 0).
Proof.
  unfold u64. rewrite Z.shiftl_mul_pow2 by lia.
  replace (m * 2 ^ 1) with (2 * m) by lia.
  assert (Hev : (2 * m) mod 2 ^ 64 = ((2 * m) mod 2 ^ 64 / 2) * 2 ^ 1).
  { change (2 ^ 64) with (2 * 2 ^ 63). rewrite Zmult_mod_distr_l.
    rewrite Z.mul_comm, Z.div_mul by lia. lia. }
  rewrite Hev at 1. rewrite lor_shifted by (destruct (v =? 0); vm_compute; intuition congruence).
  rewrite <- Hev. now destruct (v =? 0).
Qed.

Lemma serial_in_loop_runs n : forall m l,
  0 <= m < 2 ^ 64 ->
  exists evs,
    runs (serial_in_loop n m) l
      ((m * 2 ^ Z.of_nat n
        + bits_value (map (fun v => v =? 0) (samples l n))) mod 2 ^ 64)
      n evs /\
    clock_pulses evs = n /\ commands_sent evs = [] /\
    forall cur, sda_at_clocks cur evs = replicate n cur /\
                sda_after cur evs = cur.
Proof.
  induction n as [|n IH]; intros m l Hm.
  - exists []. split; [|done]. unfold runs. cbn [serial_in_loop gpio_ret].
    rewrite Nat.add_0_r, app_nil_r. cbn. rewrite Z.add_0_r, Z.mul_1_r.
    rewrite Z.mod_small by done. now destruct l.
  - destruct l as [sd k p]. set (l := GpioLines sd k p).
    set (v := sda l (sampled l)).
    set (m' := (2 * m) mod 2 ^ 64 + (if v =? 0 then 1 else 0)).
    set (l2 := GpioLines (sda l) (S (sampled l))
                 ((pins l ++ clock_events 1) ++ [gpiod_get_value gpio_data v])).
    assert (Hm' : 0 <= m' < 2 ^ 64).
    { unfold m'. change (2 ^ 64) with (2 * 2 ^ 63). rewrite Zmult_mod_distr_l.
      pose proof (Z.mod_pos_bound m (2 ^ 63) ltac:(lia)).
      destruct (v =? 0); lia. }
    destruct (IH m' l2 Hm') as (evs & Hr & Hp & Hc & Hs).
    exists (clock_events 1 ++ [gpiod_get_value gpio_data v] ++ evs).
    split; [|split; [|split]].
    + unfold runs. cbn [serial_in_loop]. unfold gpio_bind at 1.
      rewrite (emits_clock_toggle 1 l). change (Z.to_nat 1) with 1%nat.
      unfold l. cbv beta iota zeta delta [gpio_bind sda_in gpio_read_data gpio_ret
                                sda sampled pins].
      fold l. change (sd k) with v. change p with (pins l).
      change sd with (sda l). change k with (sampled l). rewrite shift_in. fold m'. fold l2. rewrite Hr.
      unfold l2. cbn [sda sampled pins]. f_equal; [|f_equal; [lia|]].
      * rewrite (samples_S l n
                   ((pins l ++ clock_events 1) ++ [gpiod_get_value gpio_data v])).
        fold v. cbn [map]. rewrite bits_value_cons, length_map, samples_length.
        unfold m'. rewrite Nat2Z.inj_succ, Z.pow_succ_r by lia.
        set (X := bits_value _). set (P := 2 ^ Z.of_nat n).
        set (b := if v =? 0 then 1 else 0).
        rewrite (Z.mod_eq (2 * m)) by lia. set (q := 2 * m / 2 ^ 64).
        replace ((2 * m - 2 ^ 64 * q + b) * P + X)
          with (m * (2 * P) + (b * P + X) + (- q * P) * 2 ^ 64) by lia.
        apply Z.mod_add. lia.
      * now rewrite <- !app_assoc.
    + rewrite !clock_pulses_app, Hp.
      now rewrite (proj1 (clock_events_obs 1)).
    + rewrite !commands_sent_app, Hc.
      now rewrite (proj1 (proj2 (clock_events_obs 1))).
    + intros cur. rewrite !sda_at_clocks_app, !sda_after_app.
      destruct (proj2 (proj2 (clock_events_obs 1)) cur) as [-> ->].
      cbn [sda_at_clocks sda_after]. destruct (Hs cur) as [-> ->]. done.
Qed.

Lemma emits_set_sda_input master :
  emits (set_sda_input master) tt
    ([gpiod_direction_input gpio_data] ++
     (if has_trans master then [gpiod_set_value gpio_trans 0] else [])).
Proof.
  unfold set_sda_input. eapply emits_bind; [apply emits_do|].
  apply emits_when, emits_do.
Qed.

Lemma samples_ext l l' n :
  sda l' = sda l -> sampled l' = sampled l -> samples l' n = samples l n.
Proof. unfold samples. now intros -> ->. Qed.

Lemma serial_in_runs master m num_bits l :
  0 <= msg m < 2 ^ 64 ->
  exists evs,
    runs (serial_in master m num_bits) l
      (GpioMsg
         ((msg m * 2 ^ u8 num_bits
           + bits_value (map (fun v => v =? 0)
                           (samples l (Z.to_nat (u8 num_bits))))) mod 2 ^ 64)
         (u8 (bits m + u8 num_bits)))
      (Z.to_nat (u8 num_bits)) evs /\
    clock_pulses evs = Z.to_nat (u8 num_bits) /\ commands_sent evs = [] /\
    forall cur, sda_at_clocks cur evs = replicate (Z.to_nat (u8 num_bits)) None /\
                sda_after cur evs = None.
Proof.
  intros Hm. pose proof (u8_range num_bits) as Hn.
  set (n := Z.to_nat (u8 num_bits)).
  set (e1 := [gpiod_direction_input gpio_data] ++
             (if has_trans master then [gpiod_set_value gpio_trans 0] else [])).
  set (l1 := GpioLines (sda l) (sampled l) (pins l ++ e1)).
  destruct (serial_in_loop_runs n (msg m) l1 Hm) as (evs & Hr & Hp & Hc & Hs).
  rewrite (samples_ext l l1) in Hr by done.
  replace (Z.of_nat n) with (u8 num_bits) in Hr by (unfold n; lia).
  set (val := (_ mod 2 ^ 64)) in *.
  exists (e1 ++ evs ++ [trace_fsi_master_gpio_in (u8 num_bits) val]).
  assert (He1 : forall cur, sda_at_clocks cur e1 = [] /\ sda_after cur e1 = None).
  { intros cur. unfold e1. now destruct (has_trans master). }
  split; [|split; [|split]].
  - unfold runs, serial_in. unfold gpio_bind at 1.
    rewrite (emits_set_sda_input master l). fold e1. fold l1.
    unfold gpio_bind at 1. fold n. rewrite Hr.
    unfold gpio_bind, gpio_do, gpio_ret. unfold l1. cbn [sda sampled pins].
    now rewrite <- !app_assoc.
  - rewrite !clock_pulses_app, Hp. unfold e1.
    destruct (has_trans master); cbn; lia.
  - rewrite !commands_sent_app, Hc. unfold e1. now destruct (has_trans master).
  - intros cur. rewrite !sda_at_clocks_app, !sda_after_app.
    destruct (He1 cur) as [-> ->]. destruct (Hs None) as [-> ->].
    cbn [sda_at_clocks sda_after app]. now rewrite app_nil_r.
Qed.

(** X24.  [serial_in] shifts the complement of each level it samples into the
    message, one sample for each clock pulse, and never drives the data
    line while it does so. *)
Theorem serial_in_decodes master m num_bits l :
  0 <= msg m < 2 ^ 64 ->
  let n := Z.to_nat (u8 num_bits) in
  let r := serial_in master m num_bits l in
  msg r.1
    = (msg m * 2 ^ u8 num_bits
       + bits_value (map (fun v => v =? 0) (samples l n))) mod 2 ^ 64 /\
  bits r.1 = (bits m + num_bits) mod 256 /\
  sampled r.2 = (sampled l + n)%nat /\
  sda r.2 = sda l /\
  clock_pulses (calls (serial_in master m num_bits) l) = n /\
  forall cur,
    sda_at_clocks cur (calls (serial_in master m num_bits) l)
      = replicate n None.
Proof.
  intros Hm n r.
  destruct (serial_in_runs master m num_bits l Hm) as (evs & Hr & Hp & _ & Hs).
  apply runs_obs in Hr. destruct Hr as (Ha & Hc & Hk & Hd).
  unfold r. rewrite Ha, Hc, Hk, Hd. cbn [msg bits].
  split; [done|]. split.
  { unfold u8. change (2 ^ 8) with 256. now rewrite Zplus_mod_idemp_r. }
  split; [done|]. split; [done|]. split; [exact Hp|].
  intros cur. apply Hs.
Qed.

Lemma msg_bits_S m n :
  msg_bits m (S n) = Z.testbit m (Z.of_nat n) :: msg_bits m n.
Proof.
  unfold msg_bits. cbn [seq map]. f_equal; [f_equal; lia|].
  rewrite <- seq_shift, map_map. apply map_ext. intros i. f_equal. lia.
Qed.

Lemma msg_bits_length m n : length (msg_bits m n) = n.
Proof. unfold msg_bits. now rewrite length_map, length_seq. Qed.

Lemma bits_value_msg_bits m n :
  bits_value (msg_bits m n) = m mod 2 ^ Z.of_nat n.
Proof.
  induction n as [|n IH].
  - cbn. now rewrite Z.mod_1_r.
  - rewrite msg_bits_S, bits_value_cons, msg_bits_length, IH.
    rewrite Nat2Z.inj_succ, Z.pow_succ_r by lia.
    rewrite (Z.mul_comm 2), Z.rem_mul_r by lia.
    assert (Hb : (m / 2 ^ Z.of_nat n) mod 2
                 = if Z.testbit m (Z.of_nat n) then 1 else 0).
    { rewrite <- Z.bit0_mod, Z.div_pow2_bits, Z.add_0_l by lia.
      now destruct (Z.testbit m (Z.of_nat n)). }
    rewrite Hb. lia.
Qed.

(** X25.  What [serial_out] drives is what [serial_in] reads: when the levels
    on the data line are those that sending a command of up to 63 bits
    puts there, clock pulse for clock pulse, reading one bit more than the
    command has gives the start bit and the command. *)
Theorem serial_in_reads_what_serial_out_drives master master' cmd l0 l cur :
  1 <= bits cmd <= 63 -> 0 <= msg cmd < 2 ^ bits cmd ->
  samples l (S (Z.to_nat (bits cmd)))
    = map (default 1) (sda_at_clocks cur (calls (serial_out master cmd) l0)) ->
  msg (serial_in master' (GpioMsg 0 0) (bits cmd + 1) l).1
    = 2 ^ bits cmd + msg cmd.
Proof.
  intros Hb Hm Hs.
  destruct (proj1 (serial_out_levels master cmd)) as (evs & He & _ & _ & Hl);
    [lia|].
  rewrite (calls_emits _ tt evs l0 He), Hl in Hs. cbn [map] in Hs.
  assert (Hu : u8 (bits cmd + 1) = bits cmd + 1).
  { unfold u8. apply Z.mod_small. lia. }
  destruct (serial_in_decodes master' (GpioMsg 0 0) (bits cmd + 1) l) as [-> _].
  { cbn. lia. }
  rewrite Hu. replace (Z.to_nat (bits cmd + 1)) with (S (Z.to_nat (bits cmd))) by lia.
  rewrite Hs. cbn [map msg]. rewrite !map_map.
  rewrite (map_ext _ (fun b : bool => b)) by (intros []; reflexivity).
  rewrite map_id. change (default 1 (Some 0) =? 0) with true.
  rewrite bits_value_cons, msg_bits_length, bits_value_msg_bits.
  rewrite Z2Nat.id by lia. rewrite (Z.mod_small (msg cmd)) by lia.
  assert (Hle : 2 ^ (bits cmd + 1) <= 2 ^ 64) by (apply Z.pow_le_mono_r; lia).
  assert (Hp : 2 ^ (bits cmd + 1) = 2 * 2 ^ bits cmd).
  { rewrite Z.pow_add_r by lia. lia. }
  rewrite Hp in *. rewrite Z.mod_small; lia.
Qed.

Lemma serial_in_decodes_witness :
  msg (serial_in (GpioMaster true true true false) (GpioMsg 1 1) 3
         (lines_of [0; 1; 0] 1)).1 = 13.
Proof.
  assert (H : 0 <= msg (GpioMsg 1 1) < 2 ^ 64) by (vm_compute; intuition congruence).
  exact (proj1 (serial_in_decodes (GpioMaster true true true false)
                  (GpioMsg 1 1) 3 (lines_of [0; 1; 0] 1) H)).
Defined.

Lemma serial_in_reads_what_serial_out_drives_witness :
  msg (serial_in (GpioMaster false true true false) (GpioMsg 0 0) (3 + 1)
         (lines_of [0; 0; 1; 0] 1)).1 = 2 ^ 3 + 5.
Proof.
  assert (H1 : 1 <= bits (GpioMsg 5 3) <= 63) by (vm_compute; intuition congruence).
  assert (H2 : 0 <= msg (GpioMsg 5 3) < 2 ^ bits (GpioMsg 5 3))
    by (vm_compute; intuition congruence).
  assert (H3 : samples (lines_of [0; 0; 1; 0] 1) (S (Z.to_nat (bits (GpioMsg 5 3))))
               = map (default 1)
                   (sda_at_clocks None
                      (calls (serial_out (GpioMaster true true true false)
                                (GpioMsg 5 3)) (lines_of [] 1))))
    by (vm_compute; reflexivity).
  exact (serial_in_reads_what_serial_out_drives
           (GpioMaster true true true false) (GpioMaster false true true false)
           (GpioMsg 5 3) (lines_of [] 1) (lines_of [0; 0; 1; 0] 1) None H1 H2 H3).
Defined.

(** ** Waiting for a response *)

Lemma always_bind {A B : Type} (m : gpio A) (f : A -> gpio B) P Q :
  always m P ->
  (forall a e1, P a e1 -> always (f a) (fun b e2 => Q b (e1 ++ e2))) ->
  always (gpio_bind m f) Q.
Proof.
  intros Hm Hf l. destruct (Hm l) as (a & k & e1 & Hr & HP).
  destruct (Hf a e1 HP (GpioLines (sda l) (sampled l + k) (pins l ++ e1)))
    as (b & k' & e2 & Hr' & HQ).
  exists b, (k + k')%nat, (e1 ++ e2). split; [|exact HQ].
  eapply runs_bind; eassumption.
Qed.

Lemma always_emits {A : Type} (m : gpio A) a evs (P : A -> _ -> Prop) :
  emits m a evs -> P a evs -> always m P.
Proof.
  intros He HP l. exists a, 0%nat, evs. split; [now apply runs_emits|exact HP].
Qed.

Lemma always_ret {A : Type} (a : A) (P : A -> _ -> Prop) :
  P a [] -> always (gpio_ret a) P.
Proof. apply always_emits, emits_ret. Qed.

Lemma emits_clock_zeros master count :
  emits (clock_zeros master count) tt
    (((if has_trans master then [gpiod_set_value gpio_trans 1] else []) ++
      [gpiod_direction_output gpio_data 1]) ++ clock_events (Z.to_nat count)).
Proof.
  unfold clock_zeros. eapply emits_bind;
    [apply emits_set_sda_output|apply emits_clock_toggle].
Qed.

Lemma clock_zeros_obs master count :
  let evs := ((if has_trans master then [gpiod_set_value gpio_trans 1] else []) ++
              [gpiod_direction_output gpio_data 1]) ++
             clock_events (Z.to_nat count) in
  clock_pulses evs = Z.to_nat count /\ commands_sent evs = [] /\
  forall cur, sda_at_clocks cur evs = replicate (Z.to_nat count) (Some 1) /\
              sda_after cur evs = Some 1.
Proof.
  intros evs. unfold evs.
  destruct (clock_events_obs (Z.to_nat count)) as (H1 & H2 & H3).
  split; [|split].
  - rewrite !clock_pulses_app, H1. now destruct (has_trans master).
  - rewrite !commands_sent_app, H2. now destruct (has_trans master).
  - intros cur. rewrite !sda_at_clocks_app, !sda_after_app.
    assert (Ho : forall c, sda_at_clocks c
                   (if has_trans master then [gpiod_set_value gpio_trans 1] else []) = []
                 /\ sda_after c
                   (if has_trans master then [gpiod_set_value gpio_trans 1] else []) = c).
    { intros c. now destruct (has_trans master). }
    destruct (Ho cur) as [-> ->]. cbn [sda_at_clocks sda_after app].
    now destruct (H3 (Some 1)) as [-> ->].
Qed.

Section Waiting.
Variable master : fsi_master_gpio.
Variable fsi_crc4 : Z -> Z -> Z -> Z.

Lemma always_serial_in m num_bits :
  0 <= msg m < 2 ^ 64 ->
  always (serial_in master m num_bits)
    (fun r e => commands_sent e = [] /\ 0 <= msg r < 2 ^ 64).
Proof.
  intros Hm l.
  destruct (serial_in_runs master m num_bits l Hm) as (evs & Hr & _ & Hc & _).
  eexists _, _, evs. split; [exact Hr|]. split; [exact Hc|]. cbn [msg].
  apply Z.mod_pos_bound. lia.
Qed.

Lemma always_wait_start_bit n :
  always (wait_start_bit master n) (fun _ e => commands_sent e = []).
Proof.
  induction n as [|n IH]; [now apply always_ret|].
  cbn [wait_start_bit]. eapply always_bind.
  { apply always_serial_in. cbn. lia. }
  intros m e1 [He1 _]. destruct (negb (msg m =? 0)).
  - apply always_ret. now rewrite app_nil_r.
  - intros l. destruct (IH l) as (a & k & e2 & Hr & He2).
    exists a, k, e2. split; [exact Hr|].
    now rewrite commands_sent_app, He1, He2.
Qed.

Lemma always_read_one_response data_size :
  always (read_one_response master fsi_crc4 data_size)
    (fun r e => commands_sent e = [] /\ forall rc, r = inl rc -> rc = - EIO).
Proof.
  unfold read_one_response. eapply always_bind; [apply always_wait_start_bit|].
  intros started e0 He0. cbv beta in He0. destruct (negb started).
  { apply always_ret. rewrite app_nil_r. split; [done|]. now intros rc [= <-]. }
  eapply always_bind. { apply always_serial_in. cbn. lia. }
  intros m1 e1 [He1 Hm1].
  eapply always_bind with
    (P := fun r e => commands_sent e = [] /\ 0 <= msg r < 2 ^ 64).
  { destruct (_ && _).
    - now apply always_serial_in.
    - now apply always_ret. }
  intros m2 e2 [He2 Hm2].
  eapply always_bind. { now apply always_serial_in. }
  intros m3 e3 [He3 _].
  assert (Hc : commands_sent (e0 ++ e1 ++ e2 ++ e3 ++ []) = []).
  { now rewrite !commands_sent_app, He0, He1, He2, He3. }
  destruct (negb (_ =? 0)); apply always_ret; (split; [exact Hc|]).
  - now intros rc [= <-].
  - intros rc [=].
Qed.

Lemma always_serial_out cmd :
  1 <= bits cmd <= 64 ->
  always (serial_out master cmd) (fun _ e => commands_sent e = [cmd]).
Proof.
  intros Hb. destruct (proj1 (serial_out_levels master cmd) Hb)
    as (evs & He & _ & Hc & _).
  now apply (always_emits _ tt evs).
Qed.

Lemma always_echo_delay :
  always (echo_delay master) (fun _ e => commands_sent e = []).
Proof.
  eapply always_emits; [apply (emits_clock_zeros master FSI_ECHO_DELAY_CLOCKS)|].
  apply clock_zeros_obs.
Qed.

Lemma always_clock_zeros count :
  always (clock_zeros master count) (fun _ e => commands_sent e = []).
Proof.
  eapply always_emits; [apply emits_clock_zeros|]. apply clock_zeros_obs.
Qed.

Lemma always_issue_term slave :
  always (issue_term master fsi_crc4 slave)
    (fun _ e => commands_sent e = [build_term_command fsi_crc4 slave]).
Proof.
  unfold issue_term. eapply always_bind.
  { apply always_serial_out.
    rewrite (proj1 (proj2 (proj2 (short_command_layout fsi_crc4 slave)))). lia. }
  intros ? e1 He1. cbv beta in He1. eapply always_bind; [apply always_echo_delay|].
  intros ? e2 He2. cbv beta in He2. eapply always_bind; [apply always_read_one_response|].
  intros r e3 [He3 _].
  assert (Hc : commands_sent (e1 ++ e2 ++ e3 ++ [])
               = [build_term_command fsi_crc4 slave]).
  { now rewrite !commands_sent_app, He1, He2, He3. }
  destruct r as [rc|[m tag]]; [now apply always_ret|].
  destruct (negb _); now apply always_ret.
Qed.

Lemma always_poll_retry budget slave size has_data :
  always (poll_retry master fsi_crc4 budget slave size has_data)
    (fun r e =>
       dpolls_then_term (build_dpoll_command fsi_crc4 slave)
         (build_term_command fsi_crc4 slave) budget r (commands_sent e)).
Proof.
  induction budget as [|budget IH].
  - cbn [poll_retry]. eapply always_bind; [apply always_read_one_response|].
    intros r e1 [He1 _].
    assert (Hnone : forall (a : Z * list Z) e2, commands_sent e2 = [] ->
              dpolls_then_term (build_dpoll_command fsi_crc4 slave)
                (build_term_command fsi_crc4 slave) 0 a
                (commands_sent (e1 ++ e2))).
    { intros a e2 He2. exists 0%nat. split; [lia|]. left.
      now rewrite commands_sent_app, He1, He2. }
    destruct r as [rc|[m tag]]; [now apply always_ret, Hnone|].
    destruct (tag =? FSI_GPIO_RESP_ACK).
    { eapply always_bind; [apply always_clock_zeros|].
      intros ? e2 He2. cbv beta in He2. apply always_ret. apply Hnone.
      now rewrite commands_sent_app, He2. }
    destruct (tag =? FSI_GPIO_RESP_BUSY).
    + eapply always_bind; [apply always_clock_zeros|].
      intros ? e2 He2. cbv beta in He2. eapply always_bind; [apply always_issue_term|].
      intros ? e3 He3. cbv beta in He3. eapply always_bind; [apply always_clock_zeros|].
      intros ? e4 He4. cbv beta in He4. apply always_ret. exists 0%nat. split; [lia|]. right.
      split; [done|]. split; [|done].
      now rewrite !commands_sent_app, He1, He2, He3, He4.
    + eapply always_bind; [apply always_clock_zeros|].
      intros ? e2 He2. cbv beta in He2. apply always_ret. apply Hnone.
      now rewrite commands_sent_app, He2.
  - cbn [poll_retry]. eapply always_bind; [apply always_read_one_response|].
    intros r e1 [He1 _].
    assert (Hnone : forall (a : Z * list Z) e2, commands_sent e2 = [] ->
              dpolls_then_term (build_dpoll_command fsi_crc4 slave)
                (build_term_command fsi_crc4 slave) (S budget) a
                (commands_sent (e1 ++ e2))).
    { intros a e2 He2. exists 0%nat. split; [lia|]. left.
      now rewrite commands_sent_app, He1, He2. }
    destruct r as [rc|[m tag]]; [now apply always_ret, Hnone|].
    destruct (tag =? FSI_GPIO_RESP_ACK).
    { eapply always_bind; [apply always_clock_zeros|].
      intros ? e2 He2. cbv beta in He2. apply always_ret. apply Hnone.
      now rewrite commands_sent_app, He2. }
    destruct (tag =? FSI_GPIO_RESP_BUSY).
    + eapply always_bind; [apply always_clock_zeros|].
      intros ? e2 He2. cbv beta in He2. eapply always_bind.
      { apply always_serial_out.
        rewrite (proj1 (short_command_layout fsi_crc4 slave)). lia. }
      intros ? e3 He3. cbv beta in He3. eapply always_bind; [apply always_echo_delay|].
      intros ? e4 He4 l. cbv beta in He4.
      destruct (IH l) as (r & k & e5 & Hr & n & Hn & Hs).
      exists r, k, e5. split; [exact Hr|]. exists (S n). split; [lia|].
      rewrite !commands_sent_app, He1, He2, He3, He4. cbn [app replicate].
      destruct Hs as [->|(-> & -> & ->)]; [now left|right]. done.
    + eapply always_bind; [apply always_clock_zeros|].
      intros ? e2 He2. cbv beta in He2. apply always_ret. apply Hnone.
      now rewrite commands_sent_app, He2.
Qed.

(** X26.  Whatever the slave answers, [poll_for_response] returns, and all it
    sends is at most [FSI_GPIO_MAX_BUSY] D-POLL commands, followed by one
    TERM command only when all of them were used up, in which case it
    returns -EIO. *)
Theorem dpoll_bound slave size has_data l :
  let r := poll_for_response master fsi_crc4 slave size has_data l in
  dpolls_then_term (build_dpoll_command fsi_crc4 slave)
    (build_term_command fsi_crc4 slave) FSI_GPIO_MAX_BUSY r.1
    (commands_sent
       (calls (poll_for_response master fsi_crc4 slave size has_data) l)).
Proof.
  intros r. unfold r, poll_for_response.
  destruct (always_poll_retry FSI_GPIO_MAX_BUSY slave (u8 size) has_data l)
    as (a & k & evs & Hr & Hd).
  apply runs_obs in Hr. destruct Hr as (-> & -> & _). exact Hd.
Qed.

End Waiting.

(** ** A slave that does not answer *)

Section Silence.
Variable master : fsi_master_gpio.
Variable fsi_crc4 : Z -> Z -> Z -> Z.

Lemma wait_start_bit_idle n : forall l,
  Forall (fun v => v <> 0) (samples l n) ->
  exists evs,
    runs (wait_start_bit master n) l false n evs /\
    clock_pulses evs = n /\ commands_sent evs = [].
Proof.
  induction n as [|n IH]; intros l Hidle.
  - exists []. split; [|done]. now apply runs_emits, emits_ret.
  - cbn [wait_start_bit].
    destruct (serial_in_runs master (GpioMsg 0 0) 1 l) as (e1 & Hr1 & Hp1 & Hc1 & _).
    { cbn. lia. }
    change (Z.to_nat (u8 1)) with 1%nat in *. change (u8 1) with 1 in Hr1.
    set (l1 := GpioLines (sda l) (sampled l + 1) (pins l ++ e1)).
    rewrite (samples_S l n (pins l1)) in Hidle.
    apply Forall_cons in Hidle as [Hv Hidle].
    replace (S (sampled l)) with (sampled l + 1)%nat in Hidle by lia.
    destruct (IH l1 Hidle) as (e2 & Hr2 & Hp2 & Hc2).
    exists (e1 ++ e2). split; [|split].
    + replace (S n) with (1 + n)%nat by lia.
      eapply runs_bind; [exact Hr1|]. cbn [msg].
      unfold samples. cbn [seq map]. rewrite Nat.add_0_r.
      apply Z.eqb_neq in Hv. rewrite Hv. exact Hr2.
    + rewrite clock_pulses_app, Hp1, Hp2. lia.
    + now rewrite commands_sent_app, Hc1, Hc2.
Qed.

Lemma read_one_response_idle data_size l :
  Forall (fun v => v <> 0) (samples l FSI_GPIO_MTOE_COUNT) ->
  exists evs,
    runs (read_one_response master fsi_crc4 data_size) l (inl (- EIO))
      FSI_GPIO_MTOE_COUNT evs /\
    clock_pulses evs = FSI_GPIO_MTOE_COUNT /\ commands_sent evs = [].
Proof.
  intros Hidle.
  destruct (wait_start_bit_idle FSI_GPIO_MTOE_COUNT l Hidle)
    as (evs & Hr & Hp & Hc).
  exists (evs ++ []). split; [|now rewrite app_nil_r].
  assert (Hrun : runs (read_one_response master fsi_crc4 data_size) l
                   (inl (- EIO)) (FSI_GPIO_MTOE_COUNT + 0) (evs ++ [])).
  { unfold read_one_response. eapply runs_bind; [exact Hr|].
    cbn [negb]. apply runs_emits, emits_ret. }
  now rewrite Nat.add_0_r in Hrun.
Qed.

(** X27.  The master time-out: when the data line shows no start bit for
    [FSI_GPIO_MTOE_COUNT] clock pulses after a command, the transfer ends
    with -EIO and no data.  The command was sent once; no D-POLL and no
    TERM follows it, and the slave is not clocked any further. *)
Theorem master_time_out slave cmd resp_len has_resp l :
  external_mode master = false -> 1 <= bits cmd <= 64 ->
  Forall (fun v => v <> 0) (samples l FSI_GPIO_MTOE_COUNT) ->
  let r := fsi_master_gpio_xfer master fsi_crc4 slave cmd resp_len has_resp l in
  let evs := calls (fsi_master_gpio_xfer master fsi_crc4 slave cmd resp_len
                      has_resp) l in
  r.1 = (- EIO, []) /\
  sampled r.2 = (sampled l + FSI_GPIO_MTOE_COUNT)%nat /\
  commands_sent evs = [cmd] /\
  clock_pulses evs
    = (S (Z.to_nat (bits cmd)) + Z.to_nat FSI_ECHO_DELAY_CLOCKS
       + FSI_GPIO_MTOE_COUNT)%nat.
Proof.
  intros Hext Hb Hidle r evs.
  destruct (proj1 (serial_out_levels master cmd) Hb)
    as (e1 & He1 & Hp1 & Hc1 & _).
  pose proof (emits_clock_zeros master FSI_ECHO_DELAY_CLOCKS) as He2.
  destruct (clock_zeros_obs master FSI_ECHO_DELAY_CLOCKS) as (Hp2 & Hc2 & _).
  set (e2 := _ ++ clock_events _) in *.
  set (l2 := GpioLines (sda l) (sampled l + 0 + 0) ((pins l ++ e1) ++ e2)).
  assert (Hidle2 : Forall (fun v => v <> 0) (samples l2 FSI_GPIO_MTOE_COUNT)).
  { rewrite (samples_ext l l2); [done|done|]. unfold l2. cbn. lia. }
  destruct (read_one_response_idle (u8 resp_len) l2 Hidle2)
    as (e3 & Hr3 & Hp3 & Hc3).
  assert (Hrun : runs (fsi_master_gpio_xfer master fsi_crc4 slave cmd resp_len
                         has_resp) l (- EIO, [])
                   (0 + (0 + (FSI_GPIO_MTOE_COUNT + 0))) (e1 ++ e2 ++ e3 ++ [])).
  { unfold fsi_master_gpio_xfer. rewrite Hext.
    eapply runs_bind; [apply runs_emits, He1|].
    eapply runs_bind; [apply runs_emits, He2|].
    unfold poll_for_response, FSI_GPIO_MAX_BUSY. cbn [poll_retry].
    eapply runs_bind; [exact Hr3|]. apply runs_emits, emits_ret. }
  apply runs_obs in Hrun. destruct Hrun as (Ha & Hcalls & Hk & _).
  unfold r, evs. rewrite Ha, Hcalls, Hk.
  split; [done|]. split; [lia|]. split.
  - now rewrite !commands_sent_app, Hc1, Hc2, Hc3.
  - rewrite !clock_pulses_app, Hp1, Hp2, Hp3.
    change (clock_pulses []) with 0%nat. lia.
Qed.

End Silence.

Lemma master_time_out_witness :
  (fsi_master_gpio_xfer (GpioMaster true true true false) crc_zero 0
     (GpioMsg 5 3) 4 true (lines_of [] 1)).1 = (- EIO, []).
Proof.
  assert (H1 : external_mode (GpioMaster true true true false) = false)
    by reflexivity.
  assert (H2 : 1 <= bits (GpioMsg 5 3) <= 64) by (vm_compute; intuition congruence).
  assert (H3 : Forall (fun v => v <> 0)
                 (samples (lines_of [] 1) FSI_GPIO_MTOE_COUNT)).
  { apply Forall_forall. intros v Hv. apply list_elem_of_In, in_map_iff in Hv as (i & <- & _).
    cbn. now destruct i. }
  exact (proj1 (master_time_out (GpioMaster true true true false) crc_zero 0
                  (GpioMsg 5 3) 4 true (lines_of [] 1) H1 H2 H3)).
Defined.

(** ** Break, and handing the bus over *)

Lemma replicate_add {A : Type} (n m : nat) (x : A) :
  replicate n x ++ replicate m x = replicate (n + m) x.
Proof. induction n as [|n IH]; [done|]. cbn. now rewrite IH. Qed.

(** X29.  A break is [FSI_BREAK_CLOCKS] clock pulses with the data line driven
    low, after [FSI_PRE_BREAK_CLOCKS] pulses with the line high, and
    followed by the pulses of the echo delay and [FSI_POST_BREAK_CLOCKS]
    more with the line high again; the data line is never released. *)
Theorem break_levels master :
  external_mode master = false ->
  exists evs,
    emits (fsi_master_gpio_break master 0) 0 evs /\
    commands_sent evs = [] /\
    forall cur,
      sda_at_clocks cur evs
        = replicate (Z.to_nat FSI_PRE_BREAK_CLOCKS) (Some 1) ++
          replicate (Z.to_nat FSI_BREAK_CLOCKS) (Some 0) ++
          replicate (Z.to_nat (FSI_ECHO_DELAY_CLOCKS + FSI_POST_BREAK_CLOCKS))
            (Some 1).
Proof.
  intros Hext.
  pose proof (emits_set_sda_output master 1) as Ho.
  pose proof (emits_clock_zeros master FSI_ECHO_DELAY_CLOCKS) as Hz.
  destruct (clock_zeros_obs master FSI_ECHO_DELAY_CLOCKS) as (_ & Hzc & Hzl).
  set (o := _ ++ [gpiod_direction_output gpio_data 1]) in *.
  set (z := o ++ clock_events _) in *.
  assert (Hoo : commands_sent o = [] /\
                forall c, sda_at_clocks c o = [] /\ sda_after c o = Some 1).
  { unfold o. now destruct (has_trans master). }
  destruct Hoo as [Hoc Hol].
  eexists. split; [|split].
  - unfold fsi_master_gpio_break. rewrite Hext. cbn [Z.eqb negb].
    eapply emits_bind; [apply emits_do|].
    eapply emits_bind; [exact Ho|].
    eapply emits_bind; [apply emits_do|].
    eapply emits_bind; [apply emits_clock_toggle|].
    eapply emits_bind; [apply emits_do|].
    eapply emits_bind; [apply emits_clock_toggle|].
    eapply emits_bind; [exact Hz|].
    eapply emits_bind; [apply emits_do|].
    eapply emits_bind; [apply emits_clock_toggle|].
    eapply emits_bind; [apply emits_do|]. apply emits_ret.
  - rewrite !commands_sent_app, Hoc, Hzc.
    rewrite !(proj1 (proj2 (clock_events_obs _))). done.
  - intros cur. rewrite !sda_at_clocks_app, ?sda_after_app.
    repeat first
      [ progress cbn [sda_at_clocks sda_after app]
      | match goal with
        | |- context [sda_at_clocks ?c (clock_events ?n)] =>
            rewrite (proj1 (proj2 (proj2 (clock_events_obs n)) c))
        | |- context [sda_after ?c (clock_events ?n)] =>
            rewrite (proj2 (proj2 (proj2 (clock_events_obs n)) c))
        | |- context [sda_at_clocks ?c z] => rewrite (proj1 (Hzl c))
        | |- context [sda_after ?c z] => rewrite (proj2 (Hzl c))
        | |- context [sda_at_clocks ?c o] => rewrite (proj1 (Hol c))
        | |- context [sda_after ?c o] => rewrite (proj2 (Hol c))
        end ].
    cbn [sda_at_clocks sda_after app]. rewrite ?app_nil_r.
    rewrite replicate_add. do 2 f_equal.
Qed.

Lemma break_levels_witness :
  exists evs,
    emits (fsi_master_gpio_break (GpioMaster true true true false) 0) 0 evs /\
    commands_sent evs = [] /\
    forall cur,
      sda_at_clocks cur evs
        = replicate (Z.to_nat FSI_PRE_BREAK_CLOCKS) (Some 1) ++
          replicate (Z.to_nat FSI_BREAK_CLOCKS) (Some 0) ++
          replicate (Z.to_nat (FSI_ECHO_DELAY_CLOCKS + FSI_POST_BREAK_CLOCKS))
            (Some 1).
Proof.
  exact (break_levels (GpioMaster true true true false) eq_refl).
Defined.

Lemma emits_init_external master :
  exists evs,
    emits (fsi_master_gpio_init_external master) tt evs /\
    clock_pulses evs = 0%nat /\ commands_sent evs = [] /\
    forall cur, sda_at_clocks cur evs = [] /\ sda_after cur evs = None.
Proof.
  eexists. split.
  - unfold fsi_master_gpio_init_external.
    eapply emits_bind; [apply emits_when, emits_do|].
    eapply emits_bind; [apply emits_when, emits_do|].
    eapply emits_bind; [apply emits_when, emits_do|].
    eapply emits_bind; apply emits_do.
  - now destruct (has_mux master), (has_trans master), (has_enable master).
Qed.

Lemma emits_init master :
  exists evs,
    emits (fsi_master_gpio_init master) tt evs /\
    clock_pulses evs = Z.to_nat FSI_INIT_CLOCKS /\ commands_sent evs = [] /\
    forall cur, sda_at_clocks cur evs
                = replicate (Z.to_nat FSI_INIT_CLOCKS) (Some 1).
Proof.
  pose proof (emits_clock_zeros master FSI_INIT_CLOCKS) as Hz.
  destruct (clock_zeros_obs master FSI_INIT_CLOCKS) as (Hzp & Hzc & Hzl).
  set (z := _ ++ clock_events _) in *.
  eexists. split.
  - unfold fsi_master_gpio_init.
    eapply emits_bind; [apply emits_when, emits_do|].
    eapply emits_bind; [apply emits_when, emits_do|].
    eapply emits_bind; [apply emits_when, emits_do|].
    eapply emits_bind; [apply emits_do|].
    eapply emits_bind; [apply emits_do|]. exact Hz.
  - split; [|split].
    + rewrite !clock_pulses_app, Hzp.
      now destruct (has_mux master), (has_trans master), (has_enable master).
    + rewrite !commands_sent_app, Hzc.
      now destruct (has_mux master), (has_trans master), (has_enable master).
    + intros cur. rewrite !sda_at_clocks_app, ?sda_after_app.
      rewrite (proj1 (Hzl _)).
      now destruct (has_mux master), (has_trans master), (has_enable master).
Qed.

(** X30.  Writing the external-mode attribute: text that does not parse, or
    that names the mode the master is in already, touches no line and
    rescans nothing.  Switching to external mode releases the data line
    without a clock pulse; switching back drives the data line high for
    [FSI_INIT_CLOCKS] clock pulses.  Both rescan the bus and return the
    count. *)
Theorem external_mode_switch master err val count :
  (err <> 0 ->
   emits (external_mode_store master err val count) (err, false, master) []) /\
  (err = 0 -> negb (val =? 0) = external_mode master ->
   emits (external_mode_store master err val count) (count, false, master) []) /\
  (err = 0 -> val <> 0 -> external_mode master = false ->
   exists evs,
     emits (external_mode_store master err val count)
       (count, true, set_external_mode true master) evs /\
     clock_pulses evs = 0%nat /\
     forall cur, sda_after cur evs = None) /\
  (err = 0 -> val = 0 -> external_mode master = true ->
   exists evs,
     emits (external_mode_store master err val count)
       (count, true, set_external_mode false master) evs /\
     clock_pulses evs = Z.to_nat FSI_INIT_CLOCKS /\
     forall cur, sda_at_clocks cur evs
                 = replicate (Z.to_nat FSI_INIT_CLOCKS) (Some 1)).
Proof.
  unfold external_mode_store. split; [|split; [|split]].
  - intros He. apply Z.eqb_neq in He. rewrite He. apply emits_ret.
  - intros -> <-. cbn [Z.eqb negb]. rewrite Bool.eqb_reflx. apply emits_ret.
  - intros -> Hv Hx. apply Z.eqb_neq in Hv. rewrite Hv, Hx. cbn.
    destruct (emits_init_external (set_external_mode true master))
      as (evs & He & Hp & _ & Hl).
    exists evs. split; [|split; [exact Hp|apply Hl]].
    rewrite <- (app_nil_r evs). eapply emits_bind; [exact He|apply emits_ret].
  - intros -> -> Hx. rewrite Hx. cbn.
    destruct (emits_init (set_external_mode false master))
      as (evs & He & Hp & _ & Hl).
    exists evs. split; [|split; [exact Hp|apply Hl]].
    rewrite <- (app_nil_r evs). eapply emits_bind; [exact He|apply emits_ret].
Qed.

Lemma external_mode_switch_witness :
  exists evs,
    emits (external_mode_store (GpioMaster true true true false) 0 1 2)
      (2, true, set_external_mode true (GpioMaster true true true false)) evs /\
    clock_pulses evs = 0%nat /\
    forall cur, sda_after cur evs = None.
Proof.
  assert (H1 : (0 : Z) = 0) by reflexivity.
  assert (H2 : (1 : Z) <> 0) by (vm_compute; congruence).
  exact (proj1 (proj2 (proj2 (external_mode_switch
                  (GpioMaster true true true false) 0 1 2))) H1 H2 eq_refl).
Defined.

(** ** A slave that answers *)

Lemma samples_app l a b p :
  samples l (a + b)
    = samples l a ++ samples (GpioLines (sda l) (sampled l + a) p) b.
Proof.
  unfold samples. rewrite seq_app, map_app. f_equal. cbn [sda sampled Nat.add].
  rewrite (seq_add a), map_map. apply map_ext. intros i. f_equal. lia.
Qed.

Lemma msg_bits_app W a b :
  msg_bits W (a + b) = msg_bits (Z.shiftr W (Z.of_nat b)) a ++ msg_bits W b.
Proof.
  induction a as [|a IH]; [done|].
  cbn [Nat.add]. rewrite !msg_bits_S, IH. cbn [app]. f_equal.
  rewrite Z.shiftr_spec by lia. f_equal. lia.
Qed.

Section Answer.
Variable master : fsi_master_gpio.
Variable fsi_crc4 : Z -> Z -> Z -> Z.

Lemma wait_start_bit_found n l :
  sda l (sampled l) = 0 ->
  exists evs,
    runs (wait_start_bit master (S n)) l true 1 evs /\
    clock_pulses evs = 1%nat /\ commands_sent evs = [].
Proof.
  intros Hv.
  destruct (serial_in_runs master (GpioMsg 0 0) 1 l) as (e1 & Hr1 & Hp1 & Hc1 & _).
  { cbn. lia. }
  change (Z.to_nat (u8 1)) with 1%nat in *. change (u8 1) with 1 in Hr1.
  assert (Hrun : runs (wait_start_bit master (S n)) l true (1 + 0) (e1 ++ [])).
  { cbn [wait_start_bit]. eapply runs_bind; [exact Hr1|]. cbn [msg].
    unfold samples. cbn [seq map]. rewrite Nat.add_0_r, Hv.
    apply runs_emits, emits_ret. }
  rewrite app_nil_r in Hrun. now exists e1.
Qed.

Lemma read_one_response_ack sid bytes crc l :
  (length bytes <= 4)%nat -> Forall (fun b => 0 <= b < 256) bytes ->
  0 <= sid < 4 -> 0 <= crc < 16 ->
  let size := Z.of_nat (length bytes) in
  let n := (8 + 8 * length bytes)%nat in
  map (fun v => v =? 0) (samples l (S n))
    = true :: msg_bits (ack_response sid bytes crc) n ->
  u8 (fsi_crc4 (u8 (fsi_crc4 0 1 1)) (ack_response sid bytes crc) (8 + 8 * size))
    = 0 ->
  exists evs,
    runs (read_one_response master fsi_crc4 size) l
      (inr (GpioMsg (ack_response sid bytes crc) (8 + 8 * size),
            FSI_GPIO_RESP_ACK)) (S n) evs /\
    clock_pulses evs = S n /\ commands_sent evs = [].
Proof.
  intros Hlen Hb Hsid Hcrc size n Hline Hck.
  pose proof (be_value_bounds bytes Hb) as Hbe. fold size in Hbe.
  set (nd := (8 * length bytes)%nat).
  set (W := ack_response sid bytes crc) in *.
  set (P := 2 ^ (8 * size)) in *.
  assert (HP : 1 <= P <= 2 ^ 32).
  { unfold P. split; [apply (Z.pow_le_mono_r 2 0); lia|].
    apply Z.pow_le_mono_r; lia. }
  assert (HW : W = ((sid * 4) * P + be_value bytes) * 16 + crc).
  { unfold W, ack_response, FSI_GPIO_RESP_ACK, P, size. f_equal. f_equal. f_equal. lia. }
  (* the four parts of what is on the line *)
  set (l1 := GpioLines (sda l) (sampled l + 1) []).
  set (l2 := GpioLines (sda l1) (sampled l1 + 4) []).
  set (l3 := GpioLines (sda l2) (sampled l2 + nd) []).
  replace (S n) with (1 + (4 + (nd + 4)))%nat in Hline by (unfold n, nd; lia).
  replace n with (4 + (nd + 4))%nat in Hline by (unfold n, nd; lia).
  rewrite (samples_app l 1 _ []) in Hline. fold l1 in Hline.
  rewrite (samples_app l1 4 _ []) in Hline. fold l2 in Hline.
  rewrite (samples_app l2 nd _ []) in Hline. fold l3 in Hline.
  rewrite !map_app in Hline.
  rewrite (msg_bits_app W 4), (msg_bits_app W nd) in Hline.
  change (true :: ?x) with ([true] ++ x) in Hline.
  apply app_inj_1 in Hline as [H1 Hline]; [|now rewrite length_map, samples_length].
  apply app_inj_1 in Hline as [H2 Hline];
    [|now rewrite length_map, samples_length, msg_bits_length].
  apply app_inj_1 in Hline as [H3 H4];
    [|now rewrite length_map, samples_length, msg_bits_length].
  (* the start bit *)
  assert (Hv : sda l (sampled l) = 0).
  { unfold samples in H1. cbn [seq map] in H1. rewrite Nat.add_0_r in H1.
    injection H1 as H1. now apply Z.eqb_eq. }
  destruct (wait_start_bit_found 999 l Hv) as (e0 & Hr0 & Hp0 & Hc0).
  set (k1 := GpioLines (sda l) (sampled l + 1) (pins l ++ e0)) in *.
  (* slave id and tag *)
  destruct (serial_in_runs master (GpioMsg 0 0) 4 k1) as (e1 & Hr1 & Hp1 & Hc1 & _).
  { cbn. lia. }
  change (Z.to_nat (u8 4)) with 4%nat in *. change (u8 4) with 4 in Hr1.
  rewrite (samples_ext l1 k1), H2, bits_value_msg_bits in Hr1 by done.
  cbn [msg bits] in Hr1. change (u8 (0 + 4)) with 4 in Hr1.
  assert (Hm1 : (0 * 2 ^ 4 + Z.shiftr W (Z.of_nat (nd + 4)) mod 2 ^ Z.of_nat 4)
                  mod 2 ^ 64 = sid * 4).
  { rewrite Z.shiftr_div_pow2 by lia.
    replace (Z.of_nat (nd + 4)) with (8 * size + 4) by (unfold nd, size; lia).
    rewrite Z.pow_add_r by lia. fold P. change (2 ^ 4) with 16.
    change (2 ^ Z.of_nat 4) with 16.
    assert (W / (P * 16) = sid * 4) as ->.
    { rewrite (Z.mul_comm P 16), <- Z.div_div by lia. rewrite HW.
      rewrite Z.add_comm, Z.div_add, (Z.div_small crc) by lia.
      rewrite Z.add_0_l, Z.add_comm, Z.div_add, Z.div_small by lia. lia. }
    rewrite (Z.mod_small (sid * 4) 16) by lia. rewrite Z.mod_small; lia. }
  rewrite Hm1 in Hr1.
  set (k2 := GpioLines (sda k1) (sampled k1 + 4) (pins k1 ++ e1)) in *.
  assert (Htag : Z.land (sid * 4) 3 = FSI_GPIO_RESP_ACK).
  { change 3 with (Z.ones 2). rewrite Z.land_ones by lia.
    change (2 ^ 2) with 4. now rewrite Z.mod_mul. }
  (* the data *)
  assert (Hdata : exists e2,
            runs (if (Z.land (sid * 4) 3 =? FSI_GPIO_RESP_ACK)
                     && negb (u8 size =? 0)
                  then serial_in master (GpioMsg (sid * 4) 4) (u8 size * 8)
                  else gpio_ret (GpioMsg (sid * 4) 4))
              k2 (GpioMsg (sid * 4 * P + be_value bytes) (4 + 8 * size)) nd e2 /\
            clock_pulses e2 = nd /\ commands_sent e2 = []).
  { rewrite Htag. cbn [Z.eqb andb].
    assert (Hu : u8 size = size).
    { unfold u8. apply Z.mod_small. unfold size. lia. }
    rewrite Hu. destruct (Z.eqb_spec size 0) as [H0|H0]; cbn [negb].
    - exists []. split; [|unfold nd; split; [|done]].
      + assert (length bytes = 0%nat) as Hl0 by (unfold size in H0; lia).
        unfold nd, P. rewrite H0, Hl0.
        destruct bytes; [|discriminate].
        change (be_value []) with 0. change (2 ^ (8 * 0)) with 1.
        replace (sid * 4 * 1 + 0) with (sid * 4) by lia.
        apply runs_emits, emits_ret.
      + assert (length bytes = 0%nat) as -> by (unfold size in H0; lia). done.
    - destruct (serial_in_runs master (GpioMsg (sid * 4) 4) (size * 8) k2)
        as (e2 & Hr2 & Hp2 & Hc2 & _).
      { cbn. lia. }
      assert (Hu8 : u8 (size * 8) = 8 * size).
      { unfold u8. rewrite Z.mod_small; unfold size; lia. }
      rewrite Hu8 in *.
      replace (Z.to_nat (8 * size)) with nd in * by (unfold nd, size; lia).
      rewrite (samples_ext l2 k2), H3, bits_value_msg_bits in Hr2
        by (done || (unfold k2, k1, l2, l1; cbn; lia)).
      cbn [msg bits] in Hr2. fold P in Hr2.
      replace (u8 (4 + 8 * size)) with (4 + 8 * size) in Hr2
        by (unfold u8; rewrite Z.mod_small; unfold size; lia).
      assert (Hm2 : (sid * 4 * P + Z.shiftr W (Z.of_nat 4) mod 2 ^ Z.of_nat nd)
                      mod 2 ^ 64 = sid * 4 * P + be_value bytes).
      { rewrite Z.shiftr_div_pow2 by lia. change (2 ^ Z.of_nat 4) with 16.
        replace (Z.of_nat nd) with (8 * size) by (unfold nd, size; lia). fold P.
        assert (W / 16 = sid * 4 * P + be_value bytes) as ->.
        { rewrite HW, Z.add_comm, Z.div_add, Z.div_small by lia. lia. }
        assert ((sid * 4 * P + be_value bytes) mod P = be_value bytes) as ->.
        { rewrite Z.add_comm, Z.mod_add by lia. apply Z.mod_small. lia. }
        rewrite Z.mod_small; [lia|].
        change (2 ^ 64) with (2 ^ 32 * 2 ^ 32). nia. }
      rewrite Hm2 in Hr2. exists e2. done. }
  destruct Hdata as (e2 & Hr2 & Hp2 & Hc2).
  set (k3 := GpioLines (sda k2) (sampled k2 + nd) (pins k2 ++ e2)) in *.
  (* the CRC *)
  destruct (serial_in_runs master
              (GpioMsg (sid * 4 * P + be_value bytes) (4 + 8 * size)) 4 k3)
    as (e3 & Hr3 & Hp3 & Hc3 & _).
  { cbn [msg]. change (2 ^ 64) with (2 ^ 32 * 2 ^ 32). nia. }
  change (Z.to_nat (u8 4)) with 4%nat in *. change (u8 4) with 4 in Hr3.
  rewrite (samples_ext l3 k3), H4, bits_value_msg_bits in Hr3
    by (done || (unfold k3, k2, k1, l3, l2, l1; cbn; lia)).
  cbn [msg bits] in Hr3.
  replace (u8 (4 + 8 * size + 4)) with (8 + 8 * size) in Hr3
    by (unfold u8; rewrite Z.mod_small; unfold size; lia).
  assert (Hm3 : ((sid * 4 * P + be_value bytes) * 2 ^ 4 + W mod 2 ^ Z.of_nat 4)
                  mod 2 ^ 64 = W).
  { change (2 ^ Z.of_nat 4) with 16. change (2 ^ 4) with 16.
    assert (W mod 16 = crc) as ->.
    { rewrite HW, Z.add_comm, Z.mod_add by lia. now apply Z.mod_small. }
    rewrite <- HW. apply Z.mod_small. rewrite HW.
    change (2 ^ 64) with (2 ^ 32 * 2 ^ 32). nia. }
  rewrite Hm3 in Hr3.
  exists (e0 ++ e1 ++ e2 ++ e3 ++ []). split; [|split].
  - replace (S n) with (1 + (4 + (nd + (4 + 0))))%nat by (unfold n, nd; lia).
    unfold read_one_response. change FSI_GPIO_MTOE_COUNT with (S 999).
    eapply runs_bind; [exact Hr0|]. cbn [negb].
    eapply runs_bind; [exact Hr1|]. cbn [msg].
    eapply runs_bind; [exact Hr2|].
    eapply runs_bind; [exact Hr3|]. cbn [msg bits].
    rewrite Hck. cbn [Z.eqb negb]. rewrite Htag.
    apply runs_emits, emits_ret.
  - rewrite !clock_pulses_app, Hp0, Hp1, Hp2, Hp3.
    change (clock_pulses []) with 0%nat. unfold n, nd. lia.
  - now rewrite !commands_sent_app, Hc0, Hc1, Hc2, Hc3.
Qed.

Lemma response_data_ack sid bytes crc b :
  (length bytes <= 4)%nat -> Forall (fun b => 0 <= b < 256) bytes ->
  0 <= sid < 4 -> 0 <= crc < 16 ->
  response_data (GpioMsg (ack_response sid bytes crc) b)
    (Z.of_nat (length bytes)) = bytes.
Proof.
  intros Hlen Hb Hsid Hcrc. pose proof (be_value_bounds bytes Hb) as Hbe.
  unfold response_data, ack_response, FSI_GPIO_RESP_ACK. cbn [msg].
  set (size := Z.of_nat (length bytes)) in *.
  replace (size * 8) with (8 * size) by lia.
  rewrite push_mask by (unfold size; lia).
  rewrite Z.shiftr_div_pow2 by lia. change (2 ^ 4) with 16.
  rewrite (Z.add_comm _ crc), Z.div_add, (Z.div_small crc) by lia.
  rewrite Z.add_0_l, Z.land_ones by lia.
  rewrite Z.add_comm, Z.mod_add by lia. rewrite Z.mod_small by lia.
  unfold size. rewrite Nat2Z.id. now rewrite response_bytes_be, app_nil_r.
Qed.

(** X28.  A transfer that the slave acknowledges: when the data line carries,
    from the next sample on, a start bit and an ACK response with a good
    CRC, the transfer returns 0 and hands out the data bytes of the
    response, first byte first, when a buffer for them was given.  The
    command is sent once and nothing else; every bit of the response takes
    one clock pulse, after the echo delay and before the pulses that prime
    the slave for the next operation.  A read is such a transfer. *)
Theorem transfer_returns_the_data slave cmd id addr sid bytes crc has_resp l :
  external_mode master = false -> 1 <= bits cmd <= 64 ->
  (length bytes <= 4)%nat -> Forall (fun b => 0 <= b < 256) bytes ->
  0 <= sid < 4 -> 0 <= crc < 16 ->
  let size := Z.of_nat (length bytes) in
  let n := (8 + 8 * length bytes)%nat in
  map (fun v => v =? 0) (samples l (S n))
    = true :: msg_bits (ack_response sid bytes crc) n ->
  u8 (fsi_crc4 (u8 (fsi_crc4 0 1 1)) (ack_response sid bytes crc) (8 + 8 * size))
    = 0 ->
  let xfer := fsi_master_gpio_xfer master fsi_crc4 slave cmd size has_resp in
  (xfer l).1 = (0, if has_resp then bytes else []) /\
  sampled (xfer l).2 = (sampled l + S n)%nat /\
  commands_sent (calls xfer l) = [cmd] /\
  clock_pulses (calls xfer l)
    = (S (Z.to_nat (bits cmd)) + Z.to_nat FSI_ECHO_DELAY_CLOCKS + S n
       + Z.to_nat FSI_GPIO_PRIME_SLAVE_CLOCKS)%nat /\
  (fsi_master_gpio_read master fsi_crc4 0 id addr size l).1 = (0, bytes).
Proof.
  intros Hext Hbits Hlen Hb Hsid Hcrc size n Hline Hck.
  assert (Hgen : forall slave cmd has_resp, 1 <= bits cmd <= 64 ->
    exists evs,
      runs (fsi_master_gpio_xfer master fsi_crc4 slave cmd size has_resp) l
        (0, if has_resp then bytes else []) (S n) evs /\
      commands_sent evs = [cmd] /\
      clock_pulses evs
        = (S (Z.to_nat (bits cmd)) + Z.to_nat FSI_ECHO_DELAY_CLOCKS + S n
           + Z.to_nat FSI_GPIO_PRIME_SLAVE_CLOCKS)%nat).
  { clear slave cmd has_resp Hbits. intros slave cmd has_resp Hbits.
    destruct (proj1 (serial_out_levels master cmd) Hbits)
      as (e1 & He1 & Hp1 & Hc1 & _).
    pose proof (emits_clock_zeros master FSI_ECHO_DELAY_CLOCKS) as He2.
    destruct (clock_zeros_obs master FSI_ECHO_DELAY_CLOCKS) as (Hp2 & Hc2 & _).
    set (e2 := _ ++ clock_events _) in *.
    pose proof (emits_clock_zeros master FSI_GPIO_PRIME_SLAVE_CLOCKS) as He4.
    destruct (clock_zeros_obs master FSI_GPIO_PRIME_SLAVE_CLOCKS)
      as (Hp4 & Hc4 & _).
    set (e4 := _ ++ clock_events (Z.to_nat FSI_GPIO_PRIME_SLAVE_CLOCKS)) in *.
    set (l2 := GpioLines (sda l) (sampled l + 0 + 0) ((pins l ++ e1) ++ e2)).
    assert (Hline2 : map (fun v => v =? 0) (samples l2 (S n))
                     = true :: msg_bits (ack_response sid bytes crc) n).
    { rewrite (samples_ext l l2); [done|done|]. unfold l2. cbn. lia. }
    destruct (read_one_response_ack sid bytes crc l2 Hlen Hb Hsid Hcrc Hline2 Hck)
      as (e3 & Hr3 & Hp3 & Hc3).
    assert (Hu : u8 size = size).
    { unfold u8. apply Z.mod_small. unfold size. lia. }
    assert (Hres : (if negb (size =? 0) && has_resp
                    then response_data
                           (GpioMsg (ack_response sid bytes crc) (8 + 8 * size))
                           size
                    else []) = if has_resp then bytes else []).
    { destruct (Z.eqb_spec size 0) as [H0|H0]; cbn [negb andb].
      - assert (bytes = []) as ->; [|now destruct has_resp].
        destruct bytes; [done|]. unfold size in H0. cbn in H0. lia.
      - destruct has_resp; [|done]. now apply response_data_ack. }
    exists (e1 ++ e2 ++ e3 ++ e4 ++ []). split; [|split].
    - replace (S n) with (0 + (0 + (S n + (0 + 0))))%nat by lia.
      unfold fsi_master_gpio_xfer. rewrite Hext.
      eapply runs_bind; [apply runs_emits, He1|].
      eapply runs_bind; [apply runs_emits, He2|].
      unfold poll_for_response, FSI_GPIO_MAX_BUSY. rewrite Hu. cbn [poll_retry].
      eapply runs_bind; [exact Hr3|]. cbn [Z.eqb]. rewrite <- Hres.
      eapply runs_bind; [apply runs_emits, He4|]. apply runs_emits, emits_ret.
    - now rewrite !commands_sent_app, Hc1, Hc2, Hc3, Hc4.
    - rewrite !clock_pulses_app, Hp1, Hp2, Hp3, Hp4.
      change (clock_pulses []) with 0%nat. lia. }
  cbn zeta.
  destruct (Hgen slave cmd has_resp Hbits) as (evs & Hr & Hc & Hp).
  apply runs_obs in Hr. destruct Hr as (Ha & Hcalls & Hk & _).
  rewrite Ha, Hcalls, Hk. do 4 (split; [done|]).
  unfold fsi_master_gpio_read. cbn [Z.eqb negb].
  set (rd := build_abs_ar_command fsi_crc4 (u8 id) addr size None).
  assert (Hrd : 1 <= bits rd <= 64).
  { unfold rd.
    rewrite (proj1 (proj1 (read_command_layout fsi_crc4 (u8 id) addr) size)). lia. }
  destruct (Hgen id rd true Hrd) as (evs' & Hr' & _).
  apply runs_obs in Hr'. now destruct Hr' as (Ha' & _).
Qed.

End Answer.

Lemma transfer_returns_the_data_witness :
  (fsi_master_gpio_read (GpioMaster true true true false) crc_zero 0 1 0x1000
     (Z.of_nat (length [0xca; 0xfe]))
     (lines_of [0; 1; 0; 1; 1;  0; 0; 1; 1; 0; 1; 0; 1;
                0; 0; 0; 0; 0; 0; 0; 1;  1; 1; 1; 1] 1)).1
  = (0, [0xca; 0xfe]).
Proof.
  assert (H1 : external_mode (GpioMaster true true true false) = false)
    by reflexivity.
  assert (H2 : 1 <= bits (GpioMsg 5 3) <= 64) by (vm_compute; intuition congruence).
  assert (H3 : (length [0xca; 0xfe] <= 4)%nat) by (vm_compute; lia).
  assert (H4 : Forall (fun b => 0 <= b < 256) [0xca; 0xfe]).
  { repeat constructor; vm_compute; congruence. }
  assert (H5 : 0 <= 1 < 4) by lia.
  assert (H6 : 0 <= 0 < 16) by lia.
  refine (proj2 (proj2 (proj2 (proj2
            (transfer_returns_the_data (GpioMaster true true true false)
               crc_zero 0 (GpioMsg 5 3) 1 0x1000 1 [0xca; 0xfe] 0 true
               (lines_of [0; 1; 0; 1; 1;  0; 0; 1; 1; 0; 1; 0; 1;
                          0; 0; 0; 0; 0; 0; 0; 1;  1; 1; 1; 1] 1)
               H1 H2 H3 H4 H5 H6 _ _))))); vm_compute; reflexivity.
Defined.
